(* ===== verification/_CoqProject ===== *)
-Q . S2P
Prelude.v
FixedPoint.v
Model.v
PriceLevel.v
SortedBook.v
FreeList.v
BlockDir.v
SortedBookSpec.v
SortedBookWalk.v
SortedBookThms.v
Enums.v
WireNames.v
Json.v
Errors.v
Snapshot.v
ArrayHolder.v
Orderbook.v
OrderbookSpec.v
RingBuffer.v
RingConc.v
Spinlock.v
AtomicFutex.v
Clock.v
ThreadPool.v
DepthDecoder.v
BookFeed.v
RequestParameter.v
Manager.v
Backoff.v
StreamHolder.v
WebsocketStream.v
StreamGroup.v
BookStream.v
FuturesRest.v
FuturesRestSpec.v
RestContract.v
BookEndToEnd.v
BookReaders.v
OrderRecords.v
OrderResponses.v
OrderResponseSpec.v
OrderTracker.v
TrackerConc.v
WebsocketApi.v
OrderStream.v
OrderStreamSpec.v
UserRecords.v
UserData.v
UserDataSpec.v
AccountEndToEnd.v
MarketStreams.v
RawWebsocket.v
