(* ===== verification/Prelude.v ===== *)
(** * AstraConnect: a verification development

    AstraConnect is a header-only C++ client for the Binance exchange: REST market data,
    streams, a locally maintained order book and order entry over a websocket API. This
    library translates the client's own logic into Rocq functions and step relations and
    proves what makes it correct. Paths below are relative to the repository's [src/] and
    [include/].

    ** The program and how its parts interact

    Prices and amounts are integers in units of 1e-8 ([utils/decimal/fixedPoint.hpp]),
    read from JSON strings. An [APIManager::Orderbook] owns a thread. It asks the REST
    client for the tick size and for a snapshot (through a [StreamHolder], one TLS
    connection with reconnects, and [OrderbookSnapshotIncoming], a buffer), and then
    applies the depth events which a websocket thread decodes ([DepthDecoder]) into
    slots ([OrderbookArrayHolder]) and passes through a ring buffer
    ([AtomicRingBuffer]). Each side of the book is a [SortedBook]: a window of blocks
    of 128 ticks, a sorted vector for the blocks outside the window, and pools with free
    lists. Orders go the other way: [OrderStream] fills [PlaceOrderParameters], signs
    the request object with HMAC-SHA256, exchanges it over [WebsocketAPIStreamHolder]
    and registers the parsed answer in the [OrderTracker]. Trades, mark prices and account
    events arrive over a [WebsocketStreamHolder] each: a thread that reads, parses and
    enqueues, and reconnects with back-off. [RawWebsocket] bypasses all that and hands
    every message to a callback.

    ** Files

    - Prelude: machine integers, exceptions ([result]), the state-and-error monad [SE],
      and the lemmas shared by all files.
    - FixedPoint: [fixedPoint.hpp]. Model: the structs of [model/].
    - PriceLevel, SortedBook: [struct PriceLevel] and [class SortedBook] of
      [api/orderbook/topBook.hpp] on their own storage. FreeList, BlockDir,
      SortedBookSpec, SortedBookWalk: the refinement in layers (index stacks; window and
      vector as one map of blocks; the book as a map from tick to entry; the walk in
      price order). SortedBookThms: the properties.
    - Enums, WireNames: [api/common/enums/]. Json: the interface to simdjson, and a
      document tree that implements it. Errors: [api/common/error/].
    - Snapshot, ArrayHolder, DepthDecoder: the three other files of [api/orderbook/] the
      book is built from. Orderbook, OrderbookSpec: [orderbook.hpp], the thread and its
      invariant. BookReaders: its writes one by one between readers in other threads.
      BookFeed: decoder and book thread on the memory of the slots they share.
      BookStream: the stream thread, the decoder and the book thread as one machine.
      BookEndToEnd: all of it with the REST client, from the wire to the reader.
    - RingBuffer, RingConc: [AstraLib/Buffers/atomicRingBuffer.hpp] and
      [AstraLib/Pools/threadSafeIndexPool.hpp], one thread at a time and interleaved.
    - RequestParameter: [core/protocol/requestParameter.hpp], [utils/crypto/].
      Backoff: [utils/net/exponentialBackOff.hpp], [core/types/status.hpp].
      StreamHolder, WebsocketApi: the connection holders of [core/streams/].
    - FuturesRest, FuturesRestSpec: the REST clients [api/futures/api.hpp] and
      [api/spot/api.hpp]. RestContract: that client implements the interface the book is
      verified against.
    - OrderRecords, OrderResponses, OrderResponseSpec: [orderResponseEvents.hpp] of
      [api/futures/order/]. OrderTracker: [orderClass.hpp], [orderSentEvents.hpp],
      [orderTracker.hpp]. OrderStream, OrderStreamSpec: [placeOrderParameters.hpp],
      [orderStream.hpp].
    - WebsocketStream: [core/streams/websocketStreamHolder.hpp], the thread that reads a
      stream, its reconnects, its consumer and its shutdown as interleaved steps.
      StreamGroup: the streams of one manager around the parser they share.
      MarketStreams: the streams a user opens over it, [api/futures/streams/],
      [api/user/streams/] and the parsers of [api/common/factory/].
    - UserRecords, UserData, UserDataSpec: the account events of [api/common/userData/],
      their parsers, the value that carries them through the ring and the copies out of it.
      AccountEndToEnd: these over the stream, from the socket to the consumer.
    - RawWebsocket: [api/raw/rawWebsocket.hpp], the callbacks of one I/O thread.
    - Spinlock: [AstraLib/Atomic/spinlock.hpp] and its users' critical sections,
      [core/parsing/threadSafeParser.hpp]. ThreadPool: [AstraLib/Threading/ThreadPool.hpp].
      AtomicFutex: [AstraLib/Atomic/atomicFutex.hpp]. Clock: [AstraLib/Time/].
      TrackerConc: the order tracker between threads, its lock, the orders' locks and the
      pool of indices. Manager: [manager/apiManager.hpp], credentials and hosts.

    ** How code becomes definitions

    An integer is a [Z]; where the source can leave its type, the wrap-around is written
    out ([wrapU], [wrapS]) or the overflow is undefined behaviour. Undefined behaviour,
    and a spin that nobody ends, is the [None] of the option monad: a theorem that an
    operation returns [Some] says that neither happens. A C++ exception is a value of
    [result]; a [try] block over an output object is a computation of [SE], which keeps
    what was written before the throw. A method that runs under a lock is one step,
    which Spinlock justifies.
    Code the program only calls is a parameter: simdjson is the class [Json] with its
    laws, Boost.Beast and OpenSSL the environments of StreamHolder, WebsocketApi and
    OrderStream, given by the outcome of each call, the clock and the random ids
    functions of how many calls came before. [double] is an abstract type. Where one
    component uses another through a contract, the contract is a class ([FuturesAPI])
    that the user is proved against and the implementation discharges.

    ** What the theorems show

    - Order book (OrderbookSpec, RestContract): under the documented contract of the
      exchange, whatever the network does and whenever shutdown comes, the thread ends
      without undefined behaviour, every view published while [synced] is the exchange's
      book at that update id, every event slot is handed back once, and a stop has a
      recorded reason. RestContract restates it with the REST client's code in place of
      the interface.
    - One side of the book (SortedBookThms): every run of operations refines a finite
      map; updates refuse exactly when the capacity is reached and then change nothing;
      the walks give the best levels in price order; prices round to the nearest tick.
    - Numbers (FixedPoint): the parser computes the independent reading [fixed_spec] of a
      decimal; printing is exact and reads back.
    - Buffers (RingBuffer, RingConc, ArrayHolder, Snapshot): FIFO refinement, and under
      every interleaving no ticket or slot is shared and each reader obtains what the
      writer of the same ticket put in.
    - Reading (DepthDecoder, FuturesRestSpec, Errors, OrderResponseSpec): what is stored
      on success, what every malformed or refused response leaves behind, round trips
      with the documents of the exchange.
    - Connections (Backoff, StreamHolder): the retry schedule, its termination and its
      interruption; how often a request is sent and what is reported.
    - Orders (OrderStreamSpec, OrderTracker, RequestParameter): the parameters read back
      to the order asked for, the signature covers exactly the parameters sent, and each
      outcome of an order call with what is tracked.
    - Streams (WebsocketStream, MarketStreams): under every interleaving the consumer gets
      what the parser made of the messages on the wire, in order; an ended thread has a
      reported reason; shutdown takes a bounded number of steps if the ring has room; what
      each constructor reports of its connection.
    - Account events (UserDataSpec): round trips with the messages of the exchange, and the
      kind of an event always names the class of its payload. End to end
      (AccountEndToEnd): the consumer gets what the exchange announced, in order, and an
      empty event for every failed read.
    - Raw websocket: writes go out in queue order one at a time, [onClose] comes at most
      once, [close] can always finish without the peer.
    - The order book end to end (BookFeed, BookStream, BookEndToEnd): what the book thread
      reads through an event's pointers is the event's message and does not change before
      the slot is released; the threads never wait for each other; and if the exchange's
      messages and responses describe one history of the book, a synced book shows it.
      BookReaders: and so do the answers of readers in other threads, between its writes.
    - Sharing the parser (StreamGroup): every stream still behaves as if alone, but one with
      a full ring stops all of them.
    - Threads (Spinlock, ThreadPool): a locked method acts as one step; every task of the
      pool runs at most once, none is lost and none is stuck; the order tracker is
      linearizable and every method of it returns, as long as nobody removes an order that
      another thread looks at, and until a look ends (TrackerConc); one waiter of a futex never
      sleeps through a wake, two can (AtomicFutex).

    ** Bounds and fuel

    [drain] empties a snapshot side with fuel 8193, one more than its capacity. [spin]
    and [main_loop] run on [S (budget o)]: each turn reads [running], and [budget] counts
    the reads left before shutdown; every finite execution has such a number.
    [applyFirstUpdate] and [follow] run on one more than the events left. The scans of a
    64-bit word have fuel 64 and clear a bit a turn; [whole_digits] has the 48 digits of
    the source's array, enough for 39. The back-off loop gets [maxTryCount]. Each of
    these is proved sufficient in the theorem that uses it. Ring tickets are unbounded,
    so the ring theorems speak of the first [2^63] operations.
    [thread_run] and [runs] take as many steps as their argument says; [stream_shutdown]
    states how many are enough. The steps of the interleaved models (RingConc, ArrayHolder,
    WebsocketStream, StreamGroup, BookFeed, BookStream, RawWebsocket, ThreadPool, Spinlock,
    TrackerConc, AtomicFutex) have no fuel: their theorems hold in every reachable state.

    ** Not modelled

    [getUserDataStreamData] cannot be instantiated. A thread that keeps an [OrderAccess]
    and calls the tracker meanwhile is only modelled as one that never lets go
    ([tracker_stall]). The read and the TLS shutdown
    at the end of [closeConnection] are left out: the flag is clear, so the read returns at
    once. Interleavings are sequentially consistent; weaker memory orders are not modelled.
    Debug printing, the umbrella headers and the Boost glue ([net/])
    have no logic the models depend on. simdjson is vendored and a parameter. *)

From Stdlib Require Export ZArith Lia Bool.
From Stdlib Require Export Ascii.
From stdpp Require Export base option list numbers gmap sets strings sorting.

#[global] Open Scope Z_scope.
#[global] Open Scope list_scope.

(** ** Machine integers

    A C++ integer is a [Z]; [wrapU w] is reduction to the unsigned type of [w] bits
    and [wrapS w] conversion to the signed one (two's complement). *)
Definition wrapU (w z : Z) : Z := z mod 2 ^ w.
Definition wrapS (w z : Z) : Z := (z + 2 ^ (w - 1)) mod 2 ^ w - 2 ^ (w - 1).

Definition int_range (w z : Z) : Prop := - 2 ^ (w - 1) <= z < 2 ^ (w - 1).
Definition in_int64 (z : Z) : bool := (- 2 ^ 63 <=? z) && (z <? 2 ^ 63).

#[global] Instance int_range_dec w z : Decision (int_range w z).
Proof. unfold int_range. apply _. Defined.

Lemma wrapU_small w z : 0 <= z < 2 ^ w -> wrapU w z = z.
Proof. intros H. unfold wrapU. by apply Z.mod_small. Qed.

Lemma wrapU_range w z : 0 <= w -> 0 <= wrapU w z < 2 ^ w.
Proof. intros H. unfold wrapU. apply Z.mod_pos_bound. lia. Qed.

Lemma pow2_split w : 0 < w -> 2 ^ w = 2 * 2 ^ (w - 1).
Proof. intros H. rewrite <- Z.pow_succ_r by lia. f_equal. lia. Qed.

Lemma wrapS_small w z : 0 < w -> int_range w z -> wrapS w z = z.
Proof.
  intros Hw [Hl Hh]. unfold wrapS. pose proof (pow2_split w Hw).
  rewrite Z.mod_small; lia.
Qed.

Lemma wrapS_range w z : 0 < w -> int_range w (wrapS w z).
Proof.
  intros Hw. unfold wrapS, int_range. pose proof (pow2_split w Hw).
  pose proof (Z.mod_pos_bound (z + 2 ^ (w - 1)) (2 ^ w)). lia.
Qed.

(** Negation through the unsigned type, the C++ idiom [Int(U(0) - value)]. *)
Lemma wrapS_neg w z : 0 < w -> 0 <= z <= 2 ^ (w - 1) -> wrapS w (wrapU w (0 - z)) = - z.
Proof.
  intros Hw Hz. unfold wrapS, wrapU. pose proof (pow2_split w Hw) as H2.
  assert (0 < 2 ^ (w - 1)) by (apply Z.pow_pos_nonneg; lia).
  rewrite Zplus_mod_idemp_l, Z.mod_small; lia.
Qed.

Lemma wrapU_neg w z : 0 < w -> - 2 ^ (w - 1) <= z < 0 -> wrapU w (0 - wrapU w z) = - z.
Proof.
  intros Hw Hz. unfold wrapU. pose proof (pow2_split w Hw) as H2.
  rewrite Zminus_mod_idemp_r. rewrite Z.mod_small; lia.
Qed.

(** ** Exceptions

    The C++ exceptions the sources throw or let pass, with their payload. *)
Inductive sj_error :=
  | NO_SUCH_FIELD
  | INCORRECT_TYPE
  | SJ_OTHER (code : Z).

#[global] Instance sj_error_eq_dec : EqDecision sj_error.
Proof. solve_decision. Defined.

Inductive exn :=
  | simdjson_error (ec : sj_error)
  | invalid_argument (what : string)
  | runtime_error (what : string).

#[global] Instance exn_eq_dec : EqDecision exn.
Proof. solve_decision. Defined.

(** [Ok a] is a normal return, [Throw x] an exception in flight. *)
Inductive result (A : Type) :=
  | Ok (a : A)
  | Throw (x : exn).
Arguments Ok {A} a.
Arguments Throw {A} x.

#[global] Instance result_ret : MRet result := fun A a => Ok a.
#[global] Instance result_bind : MBind result := fun A B f m =>
  match m with Ok a => f a | Throw x => Throw x end.
#[global] Instance result_fmap : FMap result := fun A B f m =>
  match m with Ok a => Ok (f a) | Throw x => Throw x end.

#[global] Instance result_eq_dec {A} `{EqDecision A} : EqDecision (result A).
Proof. solve_decision. Defined.

Lemma result_bind_ok {A B} (m : result A) (f : A -> result B) b :
  (m ≫= f) = Ok b -> exists a, m = Ok a /\ f a = Ok b.
Proof. destruct m; cbn; intros H; [eauto | discriminate]. Qed.

(** ** Stateful code that throws

    [SE S A]: code over the state [S] that returns an [A], throws, or (outer [None])
    reaches undefined behaviour or blocks for ever. The state survives an exception, as
    output parameters do. *)
Definition SE (S A : Type) : Type := S -> option (result A * S).

#[global] Instance SE_ret S : MRet (SE S) := fun A a s => Some (Ok a, s).
#[global] Instance SE_bind S : MBind (SE S) := fun A B f m s =>
  match m s with
  | Some (Ok a, s') => f a s'
  | Some (Throw x, s') => Some (Throw x, s')
  | None => None
  end.

Definition get_state {S} : SE S S := fun s => Some (Ok s, s).
Definition put_state {S} (s : S) : SE S unit := fun _ => Some (Ok tt, s).
Definition modify {S} (f : S -> S) : SE S unit := fun s => Some (Ok tt, f s).
Definition lift {S A} (r : result A) : SE S A := fun s => Some (r, s).
(** Code that returns, throws or gets stuck without touching the state. *)
Definition lift_opt {S A} (m : option (result A)) : SE S A := fun s => r ← m; Some (r, s).
(** [catch(std::exception& e)]: every exception the sources throw derives from it. *)
Definition try_catch {S A} (m : SE S A) (h : exn -> SE S A) : SE S A := fun s =>
  match m s with
  | Some (Throw x, s') => h x s'
  | r => r
  end.

Lemma SE_bind_ret_r {S A} (m : SE S A) s : m s = (m ≫= mret) s.
Proof. unfold mbind, SE_bind. by destruct (m s) as [[[a|x] s']|]. Qed.

Lemma SE_lift {S A B} (m : result A) (f : A -> SE S B) s : (lift m ≫= f) s =
  match m with Ok a => f a s | Throw x => Some (Throw x, s) end.
Proof. by destruct m. Qed.

Lemma SE_lift_opt {S A B} (m : option (result A)) (f : A -> SE S B) s : (lift_opt m ≫= f) s =
  match m with Some (Ok a) => f a s | Some (Throw x) => Some (Throw x, s) | None => None end.
Proof. by destruct m as [[]|]. Qed.

Lemma SE_bind_Some {S A B} (m : SE S A) (f : A -> SE S B) s a s' : m s = Some (Ok a, s') -> (m ≫= f) s = f a s'.
Proof. unfold mbind, SE_bind. by intros ->. Qed.

Lemma SE_bind_throw {S A B} (m : SE S A) (f : A -> SE S B) s x s' : m s = Some (Throw x, s') ->
  (m ≫= f) s = Some (Throw x, s').
Proof. unfold mbind, SE_bind. by intros ->. Qed.

Lemma SE_bind_ok {S A B} (m : SE S A) (f : A -> SE S B) s b s' : (m ≫= f) s = Some (Ok b, s') ->
  exists a s1, m s = Some (Ok a, s1) /\ f a s1 = Some (Ok b, s').
Proof.
  unfold mbind, SE_bind. destruct (m s) as [[[a|x] s1]|]; intros H; [by exists a, s1|discriminate|discriminate].
Qed.

(** ** Strings *)

Lemma string_app_cons c (s t : string) : (String c s +:+ t)%string = String c (s +:+ t)%string.
Proof. done. Qed.

Lemma string_app_nil_r (s : string) : (s +:+ "")%string = s.
Proof. induction s as [|c s IH]; [done|]. rewrite string_app_cons. by f_equal. Qed.

Lemma string_app_assoc (s t u : string) : ((s +:+ t) +:+ u)%string = (s +:+ (t +:+ u))%string.
Proof. induction s as [|c s IH]; [done|]. rewrite !string_app_cons. by f_equal. Qed.

(** ** Tactics *)

(** Case analysis on every [match] and [if] of the goal or of a hypothesis. *)
Ltac split_matches := repeat (case_match; simplify_eq/=; try done).
Ltac split_ifs := repeat (case_decide; simplify_eq/=; try done).

(** Case analysis on the computations a monadic expression binds, outermost first. *)
Ltac bind_cases :=
  cbn [mbind option_bind result_bind];
  repeat first
    [ reflexivity
    | match goal with |- context [@mbind _ _ _ _ _ ?x] => destruct x; cbn [mbind option_bind result_bind] end ].

(** Boolean comparisons on [Z] and [nat] turned into propositions, then [lia]. *)
Ltac zbool :=
  repeat match goal with
  | H : context [(?a =? ?b)%Z] |- _ => destruct (Z.eqb_spec a b)
  | H : context [(?a <=? ?b)%Z] |- _ => destruct (Z.leb_spec a b)
  | H : context [(?a <? ?b)%Z] |- _ => destruct (Z.ltb_spec a b)
  | |- context [(?a =? ?b)%Z] => destruct (Z.eqb_spec a b)
  | |- context [(?a <=? ?b)%Z] => destruct (Z.leb_spec a b)
  | |- context [(?a <? ?b)%Z] => destruct (Z.ltb_spec a b)
  | H : context [(?a =? ?b)%nat] |- _ => destruct (Nat.eqb_spec a b)
  | |- context [(?a =? ?b)%nat] => destruct (Nat.eqb_spec a b)
  | H : context [(?a <=? ?b)%nat] |- _ => destruct (Nat.leb_spec a b)
  | |- context [(?a <=? ?b)%nat] => destruct (Nat.leb_spec a b)
  | H : context [(?a <? ?b)%nat] |- _ => destruct (Nat.ltb_spec a b)
  | |- context [(?a <? ?b)%nat] => destruct (Nat.ltb_spec a b)
  end; cbn [andb orb negb] in *; try reflexivity; try congruence; try lia.

(** ** Lists *)

Lemma filter_ext_in {A} (P Q : A -> Prop) `{!forall x, Decision (P x)} `{!forall x, Decision (Q x)}
    (l : list A) : (forall x, x ∈ l -> P x <-> Q x) -> filter P l = filter Q l.
Proof.
  induction l as [|x l IH]; intros HPQ; [done|]. rewrite !filter_cons.
  rewrite IH by (intros y Hy; apply HPQ; by right).
  pose proof (HPQ x ltac:(left)). repeat case_decide; tauto.
Qed.

Lemma filter_fmap {A B} (f : A -> B) (P : B -> Prop) `{!forall x, Decision (P x)} (l : list A) :
  filter P (f <$> l) = f <$> filter (fun x => P (f x)) l.
Proof.
  induction l as [|x l IH]; [done|]. rewrite fmap_cons, !filter_cons, IH.
  by case_decide.
Qed.

(** ** Arrays

    A [std::array] or a C array is a list read and written at a [Z] index. An access
    out of bounds is undefined behaviour in C++; here it is [None], and the operations
    built on it live in the option monad, where [None] means undefined behaviour. A
    theorem that such an operation returns [Some] is a memory-safety theorem. *)
Definition aget {A} (l : list A) (i : Z) : option A :=
  if i <? 0 then None else l !! Z.to_nat i.

Definition aset {A} (l : list A) (i : Z) (x : A) : option (list A) :=
  if (0 <=? i) && (i <? Z.of_nat (length l)) then Some (<[Z.to_nat i := x]> l) else None.

Section Arrays.
Context {A : Type}.
Implicit Types l : list A.

Lemma aget_Some_range l i x : aget l i = Some x -> 0 <= i < Z.of_nat (length l).
Proof.
  unfold aget. zbool. intros Hl%lookup_lt_Some. lia.
Qed.

Lemma aget_in_range l i : 0 <= i < Z.of_nat (length l) -> exists x, aget l i = Some x.
Proof.
  intros Hi. unfold aget. replace (i <? 0) with false by zbool.
  apply lookup_lt_is_Some_2. lia.
Qed.

Lemma aget_nat l (k : nat) : aget l (Z.of_nat k) = l !! k.
Proof. unfold aget. replace (Z.of_nat k <? 0) with false by zbool. by rewrite Nat2Z.id. Qed.

Lemma aset_in_range l i x : 0 <= i < Z.of_nat (length l) ->
  aset l i x = Some (<[Z.to_nat i := x]> l).
Proof. intros Hi. unfold aset. zbool. Qed.

Lemma aset_Some l i x l' : aset l i x = Some l' ->
  0 <= i < Z.of_nat (length l) /\ l' = <[Z.to_nat i := x]> l.
Proof. unfold aset. zbool. intros [= <-]. split; [lia|done]. Qed.

Lemma aset_length l i x l' : aset l i x = Some l' -> length l' = length l.
Proof. intros [_ ->]%aset_Some. apply length_insert. Qed.

Lemma aget_aset_eq l i x l' : aset l i x = Some l' -> aget l' i = Some x.
Proof.
  intros [Hi ->]%aset_Some. unfold aget. replace (i <? 0) with false by zbool.
  apply list_lookup_insert_eq. lia.
Qed.

Lemma aget_aset_ne l i j x l' : aset l i x = Some l' -> i <> j -> aget l' j = aget l j.
Proof.
  intros [Hi ->]%aset_Some Hne. unfold aget. destruct (Z.ltb_spec j 0); [done|].
  apply list_lookup_insert_ne. lia.
Qed.

Lemma aget_replicate (n : nat) (x : A) i : 0 <= i < Z.of_nat n -> aget (replicate n x) i = Some x.
Proof.
  intros Hi. unfold aget. replace (i <? 0) with false by zbool.
  apply lookup_replicate_2. lia.
Qed.
End Arrays.

Create HintDb astra discriminated.
#[export] Hint Resolve wrapU_small wrapS_small : astra.
