(* ===== verification/FixedPoint.v ===== *)
(** * FixedPoint: decimal strings and 1e-8 fixed point integers

    Models [src/utils/decimal/fixedPoint.hpp]. [Fixed] is [int64_t] and [Fixed128]
    is [__int128]; both are a [Z] here and the operations take the width [w] in
    bits (64 or 128), the only thing the template parameter [Int] decides.

    - [parseFixed]/[formatFixed] are the two conversions, with the loops of the
      source as [Fixpoint]s and the unsigned arithmetic wrapped where it wraps there;
    - [fixed_spec] is the independent reading of a decimal literal that the parser
      is proved to compute (sign, integer part, fraction, exact rounding, range);
    - the round trip [parseFixed (formatFixed v) = Some v] follows from it. *)

From Stdlib Require Import SpecFloat.
From S2P Require Import Prelude.

Abbreviation Fixed := Z (only parsing).
Abbreviation Fixed128 := Z (only parsing).

Definition FIXED_DIGITS : Z := 8.
Definition FIXED_SCALE : Z := 100000000.

(** The code of a [char]; a [std::string_view] is a sequence of bytes. *)
Definition code (c : ascii) : Z := Z.of_nat (nat_of_ascii c).
Definition chr (z : Z) : ascii := ascii_of_nat (Z.to_nat z).

Section Width.
  Context (w : Z).

(** [detail::FixedLimits<Int>::negLimit], the magnitude of the most negative value. *)
Definition negLimit : Z := 2 ^ (w - 1).

(** The loop variables of [parseFixed]. [ps_decimals] is -1 before the point. *)
Record pstate := PState {
  ps_value : Z;
  ps_decimals : Z;
  ps_anyDigit : bool;
  ps_roundUp : bool;
}.

(** One turn of the character loop; [None] is [return false]. *)
Definition parse_step (st : pstate) (c : ascii) : option pstate :=
  if code c =? 46 then
    if 0 <=? ps_decimals st then None
    else Some (PState (ps_value st) 0 (ps_anyDigit st) (ps_roundUp st))
  else if (code c <? 48) || (57 <? code c) then None
  else if FIXED_DIGITS <=? ps_decimals st then
    Some (PState (ps_value st) (ps_decimals st + 1) true
            (if ps_decimals st =? FIXED_DIGITS then 53 <=? code c else ps_roundUp st))
  else
    let digit := code c - 48 in
    if (negLimit - digit) / 10 <? ps_value st then None
    else Some (PState (wrapU w (ps_value st * 10 + digit))
                 (if 0 <=? ps_decimals st then ps_decimals st + 1 else ps_decimals st)
                 true (ps_roundUp st)).

Fixpoint parse_loop (s : string) (st : pstate) : option pstate :=
  match s with
  | EmptyString => Some st
  | String c s' => st' ← parse_step st c; parse_loop s' st'
  end.

(** The loop that scales the value up to 8 decimals, [k] turns. *)
Fixpoint scale_loop (k : nat) (value : Z) : option Z :=
  match k with
  | O => Some value
  | S k' => if negLimit / 10 <? value then None else scale_loop k' (wrapU w (value * 10))
  end.

(** The sign: [if(s[i] == '-' || s[i] == '+') negative = s[i++] == '-']. *)
Definition parse_sign (s : string) : bool * string :=
  match s with
  | String c s' =>
      if code c =? 45 then (true, s')
      else if code c =? 43 then (false, s') else (false, s)
  | EmptyString => (false, s)
  end.

(** [Some v] is "return true with out = v", [None] is "return false", out untouched. *)
Definition parseFixed (s : string) : option Z :=
  let '(negative, body) := parse_sign s in
  st ← parse_loop body (PState 0 (-1) false false);
  if negb (ps_anyDigit st) then None else
  let decimals := if ps_decimals st <? 0 then 0 else ps_decimals st in
  value ← scale_loop (Z.to_nat (FIXED_DIGITS - decimals)) (ps_value st);
  value ← (if ps_roundUp st
           then if negLimit <=? value then None else Some (wrapU w (value + 1))
           else Some value);
  if (negLimit <? value) || (negb negative && (value =? negLimit)) then None
  else Some (if negative then wrapS w (wrapU w (0 - value)) else wrapS w value).

(** The [do ... while(whole)] loop: the digits of [whole], least significant first.
    [digits] has room for 48 of them, the fuel; a value of 128 bits has at most 39. *)
Fixpoint whole_digits (fuel : nat) (whole : Z) : list Z :=
  match fuel with
  | O => []
  | S f => whole mod 10 :: (if whole / 10 =? 0 then [] else whole_digits f (whole / 10))
  end.

(** The [decimals] array: the [k] low digits of [fraction], least significant first. *)
Fixpoint frac_digits (k : nat) (fraction : Z) : list Z :=
  match k with
  | O => []
  | S k' => fraction mod 10 :: frac_digits k' (fraction / 10)
  end.

(** [while(decimals[len - 1] == '0') len--] on the least significant digits first. *)
Fixpoint drop_zeros (ds : list Z) : list Z :=
  match ds with
  | d :: ds' => if d =? 0 then drop_zeros ds' else ds
  | [] => []
  end.

Definition digit_string (ds : list Z) : string :=
  fold_right (fun d s => String (chr (48 + d)) s) EmptyString ds.

Definition formatFixed (v : Z) : string :=
  let negative := v <? 0 in
  let magnitude := if negative then wrapU w (0 - wrapU w v) else wrapU w v in
  let whole := magnitude / FIXED_SCALE in
  let fraction := magnitude mod FIXED_SCALE in
  ((if negative then "-" else "")
   +:+ digit_string (rev (whole_digits 48 whole))
   +:+ (if (fraction =? 0)%Z then ""
        else "." +:+ digit_string (rev (drop_zeros (frac_digits 8 fraction)))))%string.

End Width.

(** ** [toDouble]

    [double(v)] rounds the integer to 53 bits, to nearest even, and the quotient is
    rounded again; the Standard Library's [SpecFloat] is IEEE 754 arithmetic on binary64. *)
Definition double_of (v : Z) : spec_float := binary_normalize 53 1024 v 0 false.
Definition toDouble (v : Z) : spec_float := SFdiv 53 1024 (double_of v) (double_of FIXED_SCALE).

(** The double nearest to [v * 1e-8]: one division of the exact integers. *)
Definition sf_of_Z (v : Z) : spec_float :=
  match v with Z0 => S754_zero false | Zpos p => S754_finite false p 0 | Zneg p => S754_finite true p 0 end.
Definition nearestDouble (v : Z) : spec_float := SFdiv 53 1024 (sf_of_Z v) (sf_of_Z FIXED_SCALE).

Example toDouble_price : toDouble 4318700000000 = nearestDouble 4318700000000 /\
  toDouble (-150000000) = S754_finite true 6755399441055744 (-52).
Proof. vm_compute. split; reflexivity. Qed.

(** Beyond 53 bits the two roundings differ: the result is not always the nearest double. *)
Example toDouble_not_nearest : toDouble 9007199254740993 <> nearestDouble 9007199254740993.
Proof. vm_compute. discriminate. Qed.

(** ** Reference reading of a decimal literal *)

Definition is_digit (c : ascii) : bool := (48 <=? code c) && (code c <=? 57).

(** The digits of a string made of digits only. *)
Fixpoint digits_of (s : string) : option (list Z) :=
  match s with
  | EmptyString => Some []
  | String c s' => if is_digit c then cons (code c - 48) <$> digits_of s' else None
  end.

(** The part before the first point and, if there is a point, the part after it. *)
Fixpoint split_point (s : string) : string * option string :=
  match s with
  | EmptyString => (EmptyString, None)
  | String c s' =>
      if code c =? 46 then (EmptyString, Some s')
      else let '(a, b) := split_point s' in (String c a, b)
  end.

Definition digits_value (v : Z) (ds : list Z) : Z := foldl (fun a d => a * 10 + d) v ds.

(** [a / b] rounded to the nearest integer, halves away from zero ([a >= 0 < b]). *)
Definition round_half_up (a b : Z) : Z := (2 * a + b) / (2 * b).

(** A literal denotes sign, digits and number of decimals: [± ds.fs]. *)
Definition literal (s : string) : option (bool * list Z * list Z) :=
  let '(negative, body) := parse_sign s in
  let '(ip, fp) := split_point body in
  ds ← digits_of ip;
  fs ← match fp with None => Some [] | Some f => digits_of f end;
  if decide (ds ++ fs = []) then None else Some (negative, ds, fs).

(** The exact value in 1e-8 units, rounded, if it is in the range of the type. *)
Definition fixed_spec (w : Z) (s : string) : option Z :=
  '(negative, ds, fs) ← literal s;
  let m := round_half_up (digits_value 0 (ds ++ fs) * FIXED_SCALE) (10 ^ Z.of_nat (length fs)) in
  let v := if (negative : bool) then - m else m in
  if decide (int_range w v) then Some v else None.

Example parse_1 : parseFixed 64 "84523.1" = Some 8452310000000. Proof. reflexivity. Qed.
Example parse_2 : parseFixed 64 "0.001" = Some 100000. Proof. reflexivity. Qed.
Example parse_3 : parseFixed 64 "-.000000005" = Some (-1). Proof. reflexivity. Qed.
Example parse_4 : fixed_spec 64 "-.000000005" = Some (-1). Proof. reflexivity. Qed.
Example parse_5 : parseFixed 64 "92233720368.54775808" = None. Proof. reflexivity. Qed.
Example parse_6 : parseFixed 64 "-92233720368.54775808" = Some (- 2 ^ 63). Proof. reflexivity. Qed.
Example parse_7 : parseFixed 64 "1.2.3" = None. Proof. reflexivity. Qed.
Example format_1 : formatFixed 64 8452310000000 = "84523.1". Proof. reflexivity. Qed.
Example format_2 : formatFixed 64 (- 2 ^ 63) = "-92233720368.54775808". Proof. reflexivity. Qed.
Example format_3 : formatFixed 128 (-50000000) = "-0.5". Proof. reflexivity. Qed.

(** ** Digits *)

Definition digit (d : Z) : Prop := 0 <= d <= 9.

Lemma digits_value_app v ds es :
  digits_value v (ds ++ es) = digits_value (digits_value v ds) es.
Proof. unfold digits_value. apply foldl_app. Qed.

Lemma digits_value_shift ds : forall v,
  digits_value v ds = v * 10 ^ Z.of_nat (length ds) + digits_value 0 ds.
Proof.
  induction ds as [|d ds IH]; intros v; cbn [digits_value foldl length]; [lia|].
  change (foldl _ ?v ds) with (digits_value v ds).
  rewrite (IH (v * 10 + d)), (IH (0 * 10 + d)), Nat2Z.inj_succ, Z.pow_succ_r by lia. lia.
Qed.

Lemma digits_value_bounds ds : Forall digit ds ->
  0 <= digits_value 0 ds < 10 ^ Z.of_nat (length ds).
Proof.
  induction ds as [|d ds IH]; intros Hf; [cbn; lia|]. inversion Hf as [|? ? Hd Hds]; subst.
  specialize (IH Hds). unfold digit in Hd.
  change (digits_value 0 (d :: ds)) with (digits_value d ds).
  rewrite digits_value_shift. cbn [length]. rewrite Nat2Z.inj_succ, Z.pow_succ_r by lia. nia.
Qed.

Lemma digits_value_ge v ds : 0 <= v -> Forall digit ds -> v <= digits_value v ds.
Proof.
  intros Hv Hf. rewrite digits_value_shift. pose proof (digits_value_bounds ds Hf).
  assert (0 < 10 ^ Z.of_nat (length ds)) by (apply Z.pow_pos_nonneg; lia). nia.
Qed.

Lemma is_digit_digit c : is_digit c = true -> digit (code c - 48).
Proof. unfold is_digit, digit. intros H. zbool. Qed.

Lemma digits_of_digits s : forall ds, digits_of s = Some ds -> Forall digit ds.
Proof.
  induction s as [|c s IH]; intros ds; cbn [digits_of]; [by intros [= <-]|].
  destruct (is_digit c) eqn:Hc; [|done]. destruct (digits_of s) as [es|]; [|done].
  intros [= <-]. constructor; eauto using is_digit_digit.
Qed.

Lemma is_digit_code c : is_digit c = (negb (code c <? 48) && negb (57 <? code c)).
Proof. unfold is_digit. zbool. Qed.

Section ParseSpec.
  Context (w : Z) (Hw : 8 <= w).
  #[local] Abbreviation L := (negLimit w).

Lemma negLimit_pos : 128 <= L.
Proof. unfold negLimit. apply (Z.pow_le_mono_r 2 7); lia. Qed.

Lemma wrapU_le_negLimit v : 0 <= v <= L -> wrapU w v = v.
Proof.
  intros H. apply wrapU_small. pose proof (pow2_split w). pose proof negLimit_pos.
  unfold negLimit in *. lia.
Qed.

(** The digit branch of [parse_step], its overflow guard read as a comparison. *)
Lemma guard_digit v d : ((L - d) / 10 <? v) = (L <? v * 10 + d).
Proof.
  pose proof (Z.div_mod (L - d) 10). pose proof (Z.mod_pos_bound (L - d) 10). zbool.
Qed.

Lemma guard_scale v : (L / 10 <? v) = (L <? v * 10).
Proof. pose proof (guard_digit v 0) as H. rewrite Z.sub_0_r, Z.add_0_r in H. exact H. Qed.

Definition rounds (n : Z) (fs : list Z) (r : bool) : bool :=
  if n <=? 8 then match fs !! Z.to_nat (8 - n) with Some d => 5 <=? d | None => r end else r.

Definition nonempty (ds : list Z) : bool := negb (bool_decide (ds = [])).

(** The state after the digits [ds], read at [n] decimals ([n < 0] before the point). *)
Definition after (v n : Z) (a r : bool) (ds : list Z) : option pstate :=
  let v' := digits_value v (if n <? 0 then ds else take (Z.to_nat (8 - n)) ds) in
  if v' <=? L then Some (PState v' (if n <? 0 then n else n + Z.of_nat (length ds))
                          (a || nonempty ds) (if n <? 0 then r else rounds n ds r))
  else None.

Lemma parse_step_nondigit st c :
  is_digit c = false -> (code c =? 46) && (ps_decimals st <? 0) = false -> parse_step w st c = None.
Proof.
  rewrite is_digit_code. intros Hd Hp. unfold parse_step. zbool.
Qed.

Lemma parse_step_digit v n a r c : is_digit c = true -> 0 <= v <= L ->
  parse_step w (PState v n a r) c = after v n a r [code c - 48].
Proof.
  intros Hc Hv. pose proof (is_digit_digit c Hc) as Hd. rewrite is_digit_code in Hc.
  unfold parse_step, after. cbn [ps_value ps_decimals ps_anyDigit ps_roundUp]. rewrite guard_digit.
  unfold FIXED_DIGITS, rounds, nonempty. destruct (code c =? 46) eqn:E46; [zbool|].
  destruct ((code c <? 48) || (57 <? code c)) eqn:E; [zbool|].
  unfold digit in Hd. rewrite orb_true_r. cbn [length].
  destruct (Z.ltb_spec n 0) as [Hn|Hn].
  - replace (8 <=? n) with false by zbool. replace (0 <=? n) with false by zbool.
    cbn [digits_value foldl]. zbool. by rewrite wrapU_le_negLimit by lia.
  - destruct (Z.leb_spec 8 n) as [Hn8|Hn8].
    + replace (Z.to_nat (8 - n)) with 0%nat by lia. cbn.
      replace (v <=? L) with true by zbool.
      do 2 f_equal. zbool.
    + replace (0 <=? n) with true by zbool. replace (n <=? 8) with true by zbool.
      destruct (Z.to_nat (8 - n)) as [|k] eqn:Hk; [lia|]. cbn. rewrite take_nil. cbn.
      zbool. by rewrite wrapU_le_negLimit by lia.
Qed.

Lemma after_one v n a r d : v <= L -> after v n a r [d] =
  if (n <? 8) && (L <? v * 10 + d) then None
  else Some (PState (if n <? 8 then v * 10 + d else v) (if n <? 0 then n else n + 1) true
               (if n =? 8 then 5 <=? d else r)).
Proof.
  intros Hv. unfold after, rounds, nonempty. rewrite orb_true_r.
  change (Z.of_nat (length [d])) with 1.
  destruct (Z.ltb_spec n 0) as [Hn|Hn]; [cbn [digits_value foldl length]; zbool|].
  destruct (Z.to_nat (8 - n)) as [|k] eqn:Hk.
  - cbn [take digits_value foldl length lookup list_lookup]. zbool.
  - cbn [take lookup list_lookup]. rewrite take_nil.
    cbn [digits_value foldl length]. zbool; by destruct k.
Qed.

Lemma rounds_cons n d ds r : 0 <= n ->
  rounds n (d :: ds) r = rounds (n + 1) ds (if n =? 8 then 5 <=? d else r).
Proof.
  intros Hn. unfold rounds. destruct (Z.eqb_spec n 8) as [->|Hne]; [done|].
  destruct (Z.leb_spec n 8); [|zbool].
  replace (Z.to_nat (8 - n)) with (S (Z.to_nat (8 - (n + 1)))) by lia. cbn. zbool.
Qed.

Lemma after_cons v n a r d ds : digit d -> Forall digit ds -> 0 <= v <= L -> -1 <= n ->
  after v n a r (d :: ds) =
  (st ← after v n a r [d];
   after (ps_value st) (ps_decimals st) (ps_anyDigit st) (ps_roundUp st) ds).
Proof.
  intros Hd Hds Hv Hn. unfold digit in Hd. rewrite after_one by lia.
  pose proof (fun l => digits_value_ge (v * 10 + d) l ltac:(lia)) as Hge.
  unfold after at 1. unfold nonempty at 1. cbn [bool_decide negb]. rewrite orb_true_r.
  destruct (Z.ltb_spec n 8) as [H8|H8].
  - assert (Hds' : Forall digit (if n <? 0 then ds else take (Z.to_nat (8 - (n + 1))) ds)).
    { case_match; [done | by apply Forall_take]. }
    specialize (Hge _ Hds').
    replace (digits_value v (if n <? 0 then d :: ds else take (Z.to_nat (8 - n)) (d :: ds)))
      with (digits_value (v * 10 + d) (if n <? 0 then ds else take (Z.to_nat (8 - (n + 1))) ds)).
    2:{ case_match; [done|]. by replace (Z.to_nat (8 - n)) with (S (Z.to_nat (8 - (n + 1)))) by lia. }
    replace (n =? 8) with false by zbool.
    destruct (Z.ltb_spec L (v * 10 + d)) as [Hgt|Hle]; cbn -[after digits_value].
    { replace (digits_value _ _ <=? L) with false by zbool. done. }
    unfold after. destruct (Z.ltb_spec n 0) as [Hneg|Hpos].
    + replace (n <? 0) with true by zbool. done.
    + replace (n + 1 <? 0) with false by zbool. rewrite rounds_cons by lia.
      replace (n =? 8) with false by zbool. rewrite Nat2Z.inj_succ.
      by replace (n + Z.succ (Z.of_nat (length ds))) with (n + 1 + Z.of_nat (length ds)) by lia.
  - replace (n <? 0) with false by zbool. cbn -[digits_value after rounds]. unfold after.
    replace (n + 1 <? 0) with false by zbool. rewrite rounds_cons by lia.
    replace (Z.to_nat (8 - n)) with 0%nat by lia.
    replace (Z.to_nat (8 - (n + 1))) with 0%nat by lia.
    cbn -[rounds]. change (digits_value v (take 0 ds)) with v.
    case_match; [|done]. f_equal. f_equal; lia.
Qed.

Fixpoint no_point (s : string) : Prop :=
  match s with EmptyString => True | String c s' => code c <> 46 /\ no_point s' end.

Lemma after_value v n a r ds st : 0 <= v -> -1 <= n -> Forall digit ds ->
  after v n a r ds = Some st ->
  0 <= ps_value st <= L /\ -1 <= ps_decimals st /\ (0 <= ps_decimals st <-> 0 <= n).
Proof.
  intros Hv Hn Hds. unfold after.
  pose proof (digits_value_ge v (if n <? 0 then ds else take (Z.to_nat (8 - n)) ds) Hv).
  destruct (_ <=? L) eqn:E; [|done]. intros [= <-]. cbn. apply Z.leb_le in E.
  assert (Forall digit (if n <? 0 then ds else take (Z.to_nat (8 - n)) ds)).
  { case_match; [done | by apply Forall_take]. }
  destruct (Z.ltb_spec n 0); split_and!; try lia; naive_solver lia.
Qed.

Lemma parse_loop_digits s : forall v n a r, 0 <= v <= L -> -1 <= n -> 0 <= n \/ no_point s ->
  parse_loop w s (PState v n a r) = (ds ← digits_of s; after v n a r ds).
Proof.
  induction s as [|c s IH]; intros v n a r Hv Hn Hp; cbn [parse_loop digits_of mbind option_bind].
  { unfold after. assert (rounds n [] r = r) as ->.
    { unfold rounds. rewrite lookup_nil. by destruct (n <=? 8). }
    rewrite take_nil. cbn. rewrite orb_false_r, Z.add_0_r. destruct (n <? 0); cbn; zbool. }
  destruct (is_digit c) eqn:Hc.
  - pose proof (is_digit_digit c Hc) as Hd. rewrite (parse_step_digit v n a r c Hc Hv).
    assert (Hp' : 0 <= n \/ no_point s) by (destruct Hp as [?|[_ ?]]; auto).
    assert (IH' : forall st, after v n a r [code c - 48] = Some st -> parse_loop w s st =
      (ds ← digits_of s; after (ps_value st) (ps_decimals st) (ps_anyDigit st) (ps_roundUp st) ds)).
    { intros [v' n' a' r'] Hst.
      apply after_value in Hst as (? & ? & ?); [|lia|lia|by apply Forall_singleton].
      apply IH; cbn in *; [lia|lia|tauto]. }
    destruct (digits_of s) as [ds|] eqn:Hs; cbn [fmap option_fmap option_map mbind option_bind] in *.
    + rewrite (after_cons v n a r _ ds) by eauto using digits_of_digits.
      destruct (after v n a r [code c - 48]) as [st|]; [|done]. cbn. by apply IH'.
    + destruct (after v n a r [code c - 48]) as [st|]; [|done]. cbn. by apply IH'.
  - rewrite parse_step_nondigit; [done|done|]. cbn. destruct Hp as [?|[Hp _]]; zbool.
Qed.

Lemma parse_loop_app a b : forall st,
  parse_loop w (a +:+ b) st = (st' ← parse_loop w a st; parse_loop w b st').
Proof.
  induction a as [|c a IH]; intros st; [done|].
  change (String c a +:+ b) with (String c (a +:+ b)). cbn [parse_loop].
  destruct (parse_step w st c); [apply IH | done].
Qed.

Lemma split_point_spec s a b : split_point s = (a, b) ->
  s = (a +:+ match b with None => "" | Some f => String "." f end)%string /\ no_point a.
Proof.
  revert a b. induction s as [|c s IH]; intros a b; cbn [split_point]; [by intros [= <- <-]|].
  destruct (Z.eqb_spec (code c) 46) as [Hc|Hc].
  - intros [= <- <-]. split; [|done]. cbn. f_equal.
    rewrite <- (ascii_nat_embedding c). unfold code in Hc. by replace (nat_of_ascii c) with 46%nat by lia.
  - destruct (split_point s) as [a' b']. intros [= <- <-].
    destruct (IH a' b' eq_refl) as [-> Hn]. done.
Qed.

Lemma scale_loop_spec k : forall v, 0 <= v <= L ->
  scale_loop w k v = if v * 10 ^ Z.of_nat k <=? L then Some (v * 10 ^ Z.of_nat k) else None.
Proof.
  induction k as [|k IH]; intros v Hv; cbn [scale_loop]; [zbool; f_equal; lia|].
  rewrite guard_scale, Nat2Z.inj_succ, Z.pow_succ_r by lia.
  assert (0 < 10 ^ Z.of_nat k) by (apply Z.pow_pos_nonneg; lia).
  destruct (Z.ltb_spec L (v * 10)) as [Hgt|Hle].
  - replace (_ <=? L) with false; [done|]. symmetry. apply Z.leb_gt. nia.
  - rewrite wrapU_le_negLimit, IH by lia. by rewrite Z.mul_assoc.
Qed.

(** The tail of [parseFixed], after the character loop. *)
Lemma finish_spec v k (ru negative : bool) : 0 <= v <= L ->
  (value ← scale_loop w k v;
   value ← (if ru then if L <=? value then None else Some (wrapU w (value + 1)) else Some value);
   if (L <? value) || (negb negative && (value =? L)) then None
   else Some (if negative then wrapS w (wrapU w (0 - value)) else wrapS w value)) =
  let m := v * 10 ^ Z.of_nat k + (if ru then 1 else 0) in
  let r := if negative then - m else m in
  if decide (int_range w r) then Some r else None.
Proof.
  intros Hv. rewrite scale_loop_spec by done. cbv zeta.
  assert (0 <= v * 10 ^ Z.of_nat k) by (apply Z.mul_nonneg_nonneg; [lia|apply Z.pow_nonneg; lia]).
  generalize dependent (v * 10 ^ Z.of_nat k). intros m Hm. unfold int_range.
  pose proof negLimit_pos as HL. unfold negLimit in *.
  destruct (Z.leb_spec m (2 ^ (w - 1))) as [Hle|Hgt]; cbn -[Z.pow].
  2:{ rewrite decide_False; [done|]. destruct ru, negative; lia. }
  destruct ru; cbn -[Z.pow].
  - destruct (Z.leb_spec (2 ^ (w - 1)) m) as [Hge|Hlt]; cbn -[Z.pow].
    { rewrite decide_False; [done|]. destruct negative; lia. }
    rewrite wrapU_le_negLimit by (unfold negLimit; lia).
    destruct negative; cbn -[Z.pow]; zbool; case_decide; try lia; try done; f_equal.
    + apply wrapS_neg; lia.
    + apply wrapS_small; unfold int_range; lia.
  - rewrite Z.add_0_r. destruct negative; cbn -[Z.pow]; zbool; case_decide; try lia; try done; f_equal.
    + apply wrapS_neg; lia.
    + apply wrapS_small; unfold int_range; lia.
Qed.

Lemma round_digits ds fs : Forall digit fs ->
  round_half_up (digits_value 0 (ds ++ fs) * FIXED_SCALE) (10 ^ Z.of_nat (length fs)) =
  digits_value 0 (ds ++ take 8 fs) * 10 ^ Z.of_nat (8 - length fs)
  + (if rounds 0 fs false then 1 else 0).
Proof.
  intros Hfs. unfold round_half_up, rounds, FIXED_SCALE. cbn [Z.leb Z.compare].
  change (Z.to_nat (8 - 0)) with 8%nat. destruct (le_gt_dec (length fs) 8) as [Hle|Hgt].
  - rewrite take_ge, lookup_ge_None_2 by lia.
    set (V := digits_value 0 (ds ++ fs)). set (k := Z.of_nat (length fs)).
    replace (Z.of_nat (8 - length fs)) with (8 - k) by lia.
    assert (Hp : 0 < 10 ^ k) by (apply Z.pow_pos_nonneg; lia).
    change 100000000 with (10 ^ 8). replace (10 ^ 8) with (10 ^ k * 10 ^ (8 - k)).
    2:{ rewrite <- Z.pow_add_r by lia. f_equal. lia. }
    replace (2 * (V * (10 ^ k * 10 ^ (8 - k))) + 10 ^ k)
      with (V * 10 ^ (8 - k) * (2 * 10 ^ k) + 10 ^ k) by lia.
    rewrite Z.div_add_l by lia. rewrite (Z.div_small (10 ^ k)) by lia. lia.
  - assert (exists d, fs !! 8%nat = Some d) as [d Hd] by (apply lookup_lt_is_Some_2; lia).
    rewrite Hd. replace (8 - length fs)%nat with 0%nat by lia. rewrite Z.mul_1_r.
    pose proof (take_drop_middle fs 8 d Hd) as Hsplit. rewrite <- Hsplit in Hfs at 1.
    apply Forall_app in Hfs as [_ Hfs]. inversion Hfs as [|? ? Hdd HR]; subst.
    apply digits_value_bounds in HR. set (R := drop 9 fs) in *. unfold digit in Hdd.
    replace (length fs) with (9 + length R)%nat by (subst R; rewrite length_drop; lia).
    rewrite <- Hsplit at 1. rewrite app_assoc, digits_value_app.
    set (A := digits_value 0 (ds ++ take 8 fs)).
    change (digits_value A (d :: R)) with (digits_value (A * 10 + d) R).
    rewrite digits_value_shift. rewrite Nat2Z.inj_add, Z.pow_add_r by lia.
    set (P := 10 ^ Z.of_nat (length R)) in *. change (10 ^ Z.of_nat 9) with (10 * 100000000).
    replace (_ / _) with ((2 * ((A * 10 + d) * P + digits_value 0 R) + 10 * P) / (20 * P)).
    2:{ rewrite <- (Z.div_mul_cancel_r _ _ 100000000) by lia. f_equal; lia. }
    symmetry. destruct (Z.leb_spec 5 d).
    + apply Z.div_unique_pos with (r := 2 * (d * P + digits_value 0 R) - 10 * P); nia.
    + apply Z.div_unique_pos with (r := 2 * (d * P + digits_value 0 R) + 10 * P); nia.
Qed.

Lemma out_of_range m (negative : bool) : L < m ->
  ~ int_range w (if negative then - m else m).
Proof. unfold int_range, negLimit. destruct negative; lia. Qed.

Lemma parse_step_point v a r : parse_step w (PState v (-1) a r) "." = Some (PState v 0 a r).
Proof. done. Qed.

(** The loop over a whole body [ip.fp], and the end of the function after it. *)
Lemma body_loop ip fp ds fs :
  digits_of ip = Some ds -> no_point ip ->
  match fp with None => fs = [] | Some f => digits_of f = Some fs end ->
  parse_loop w (ip +:+ match fp with None => "" | Some f => String "." f end)%string
    (PState 0 (-1) false false) =
  if digits_value 0 (ds ++ take 8 fs) <=? L
  then Some (PState (digits_value 0 (ds ++ take 8 fs))
               (match fp with Some _ => Z.of_nat (length fs) | None => -1 end)
               (nonempty (ds ++ fs)) (rounds 0 fs false))
  else None.
Proof.
  intros Hip Hnp Hfp. pose proof negLimit_pos. pose proof (digits_of_digits _ _ Hip) as Hds.
  rewrite parse_loop_app, (parse_loop_digits ip) by (auto; lia). rewrite Hip. cbn -[negLimit nonempty after].
  rewrite digits_value_app. unfold after at 1. cbn -[digits_value negLimit nonempty].
  destruct fp as [f|].
  - pose proof (digits_of_digits _ _ Hfp) as Hfs.
    pose proof (digits_value_bounds ds Hds). destruct (Z.leb_spec (digits_value 0 ds) L) as [Hle|Hgt].
    2:{ pose proof (digits_value_ge (digits_value 0 ds) (take 8 fs) ltac:(lia) (Forall_take _ _ _ Hfs)).
        by replace (digits_value _ (take 8 fs) <=? L) with false by zbool. }
    cbn -[digits_value negLimit nonempty parse_step rounds]. rewrite parse_step_point.
    cbn -[digits_value negLimit nonempty rounds]. rewrite (parse_loop_digits f) by (auto; lia).
    rewrite Hfp. cbn -[digits_value negLimit nonempty rounds]. unfold after. cbn -[digits_value negLimit nonempty rounds].
    destruct (_ <=? L); [|done]. do 2 f_equal. unfold nonempty.
    destruct ds, fs; done.
  - subst fs. cbn -[digits_value negLimit nonempty]. destruct (_ <=? L); [|done]. by rewrite app_nil_r.
Qed.

Lemma body_loop_malformed ip fp : no_point ip ->
  digits_of ip = None \/ (exists f, fp = Some f /\ digits_of f = None) ->
  parse_loop w (ip +:+ match fp with None => "" | Some f => String "." f end)%string
    (PState 0 (-1) false false) = None.
Proof.
  intros Hnp H. pose proof negLimit_pos.
  rewrite parse_loop_app, (parse_loop_digits ip) by (auto; lia).
  destruct (digits_of ip) as [ds|] eqn:Hip; [|done]. destruct H as [?|(f & -> & Hf)]; [done|].
  pose proof (digits_of_digits _ _ Hip) as Hds. pose proof (digits_value_bounds ds Hds).
  cbn -[negLimit nonempty after]. unfold after at 1. cbn -[digits_value negLimit nonempty].
  destruct (Z.leb_spec (digits_value 0 ds) L) as [Hle|Hgt]; [|done].
  cbn -[digits_value negLimit nonempty parse_step]. rewrite parse_step_point.
  cbn -[digits_value negLimit nonempty]. rewrite (parse_loop_digits f) by (auto; lia). by rewrite Hf.
Qed.

Lemma parseFixed_spec s : parseFixed w s = fixed_spec w s.
Proof.
  unfold parseFixed, fixed_spec, literal. destruct (parse_sign s) as [negative body].
  destruct (split_point body) as [ip fp] eqn:Hsp.
  apply split_point_spec in Hsp as [-> Hnp]. pose proof negLimit_pos.
  destruct (digits_of ip) as [ds|] eqn:Hip.
  2:{ rewrite body_loop_malformed by auto. done. }
  destruct (match fp with None => Some [] | Some f => digits_of f end) as [fs|] eqn:Hfp.
  2:{ rewrite body_loop_malformed; [|done|destruct fp; eauto; done].
      done. }
  rewrite (body_loop ip fp ds fs) by (try done; destruct fp; congruence).
  assert (Hfs : Forall digit fs).
  { destruct fp as [f|]; [by eapply digits_of_digits | injection Hfp as <-; constructor]. }
  pose proof (digits_of_digits _ _ Hip) as Hds. pose proof (round_digits ds fs Hfs) as Hrd.
  pose proof (digits_value_bounds (ds ++ take 8 fs)
    ltac:(apply Forall_app; auto using Forall_take)) as Hb.
  cbn -[digits_value negLimit nonempty round_half_up rounds Z.pow FIXED_SCALE].
  destruct (Z.leb_spec (digits_value 0 (ds ++ take 8 fs)) L) as [Hle|Hgt].
  - cbn -[digits_value negLimit nonempty round_half_up rounds Z.pow FIXED_SCALE].
    unfold nonempty. destruct (decide (ds ++ fs = [])) as [E|E].
    + rewrite E. done.
    + rewrite bool_decide_false by done. cbn -[digits_value negLimit round_half_up rounds Z.pow FIXED_SCALE].
      rewrite Hrd. rewrite finish_spec by lia.
      replace (Z.to_nat (FIXED_DIGITS - _)) with (8 - length fs)%nat; [done|].
      unfold FIXED_DIGITS. destruct fp; [zbool|]. injection Hfp as <-. done.
  - cbn -[digits_value negLimit nonempty round_half_up rounds Z.pow FIXED_SCALE].
    destruct (decide (ds ++ fs = [])); [done|].
    cbn -[digits_value negLimit nonempty round_half_up rounds Z.pow FIXED_SCALE].
    rewrite decide_False; [done|]. apply out_of_range. rewrite Hrd.
    assert (0 < 10 ^ Z.of_nat (8 - length fs)) by (apply Z.pow_pos_nonneg; lia).
    destruct (rounds 0 fs false); nia.
Qed.
End ParseSpec.

(** ** Formatting *)

Lemma code_chr_digit d : digit d -> code (chr (48 + d)) = 48 + d.
Proof.
  unfold digit, code, chr. intros Hd. rewrite nat_ascii_embedding by lia. lia.
Qed.

Lemma is_digit_chr d : digit d -> is_digit (chr (48 + d)) = true.
Proof. intros Hd. unfold is_digit. rewrite code_chr_digit by done. unfold digit in Hd. zbool. Qed.

Lemma digits_of_string ds : Forall digit ds -> digits_of (digit_string ds) = Some ds.
Proof.
  induction 1 as [|d ds Hd Hds IH]; [done|]. cbn [digit_string fold_right digits_of].
  rewrite is_digit_chr, code_chr_digit by done. fold (digit_string ds). rewrite IH. cbn.
  by replace (48 + d - 48) with d by lia.
Qed.

Lemma split_point_digits ds rest : Forall digit ds ->
  split_point (digit_string ds +:+ rest)%string =
  let '(a, b) := split_point rest in ((digit_string ds +:+ a)%string, b).
Proof.
  induction 1 as [|d ds Hd Hds IH]; [|].
  { change (digit_string [] +:+ rest)%string with rest. by destruct (split_point rest). }
  change (digit_string (d :: ds) +:+ rest)%string
    with (String (chr (48 + d)) (digit_string ds +:+ rest)%string).
  cbn [split_point]. rewrite code_chr_digit by done. unfold digit in Hd.
  replace (48 + d =? 46) with false by zbool. rewrite IH. by destruct (split_point rest).
Qed.

Lemma digits_value_snoc v ds d : digits_value v (ds ++ [d]) = digits_value v ds * 10 + d.
Proof. by rewrite digits_value_app. Qed.

Lemma whole_digits_spec fuel : forall n, (0 < fuel)%nat -> 0 <= n < 10 ^ Z.of_nat fuel ->
  digits_value 0 (rev (whole_digits fuel n)) = n /\ Forall digit (whole_digits fuel n) /\
  (exists d, last (whole_digits fuel n) = Some d /\ (d <> 0 \/ n = 0)) .
Proof.
  induction fuel as [|f IH]; intros n Hf Hn; [lia|]. cbn [whole_digits rev].
  pose proof (Z.div_mod n 10 ltac:(lia)) as Hdm. pose proof (Z.mod_pos_bound n 10 ltac:(lia)).
  rewrite Nat2Z.inj_succ, Z.pow_succ_r in Hn by lia.
  destruct (Z.eqb_spec (n / 10) 0) as [Hz|Hz].
  - split_and!; [cbn; lia | repeat constructor; lia |].
    exists (n mod 10). split; [done | lia].
  - destruct f as [|f]; [change (10 ^ Z.of_nat 0) with 1 in Hn; lia|].
    destruct (IH (n / 10) ltac:(lia)) as (Hv & Hd & d & Hl & Hd0).
    { split; [apply Z.div_pos; lia | apply Z.div_lt_upper_bound; lia]. }
    rewrite digits_value_snoc, Hv. split_and!; [lia | constructor; [unfold digit; lia|done] |].
    exists d. split; [|lia]. by rewrite last_cons, Hl.
Qed.

Lemma frac_digits_spec k : forall f, 0 <= f < 10 ^ Z.of_nat k ->
  digits_value 0 (rev (frac_digits k f)) = f /\ Forall digit (frac_digits k f) /\
  length (frac_digits k f) = k.
Proof.
  induction k as [|k IH]; intros f Hf; cbn [frac_digits rev].
  { change (10 ^ Z.of_nat 0) with 1 in Hf. split_and!; [cbn; lia|constructor|done]. }
  rewrite Nat2Z.inj_succ, Z.pow_succ_r in Hf by lia.
  pose proof (Z.div_mod f 10 ltac:(lia)). pose proof (Z.mod_pos_bound f 10 ltac:(lia)).
  destruct (IH (f / 10)) as (Hv & Hd & Hl).
  { split; [apply Z.div_pos; lia | apply Z.div_lt_upper_bound; lia]. }
  rewrite digits_value_snoc, Hv. split_and!; [lia| |cbn; lia].
  constructor; [unfold digit; lia | done].
Qed.

Lemma drop_zeros_spec ds :
  digits_value 0 (rev ds) =
    digits_value 0 (rev (drop_zeros ds)) * 10 ^ Z.of_nat (length ds - length (drop_zeros ds)) /\
  (length (drop_zeros ds) <= length ds)%nat /\ drop_zeros ds `suffix_of` ds /\
  (forall d, head (drop_zeros ds) = Some d -> d <> 0).
Proof.
  induction ds as [|d ds (IH & Hl & Hs & Hh)]; cbn [drop_zeros rev].
  { by split_and!; [cbn| |exists []|]. }
  destruct (Z.eqb_spec d 0) as [->|Hne].
  - rewrite digits_value_snoc, IH. cbn [length].
    replace (S (length ds) - length (drop_zeros ds))%nat
      with (S (length ds - length (drop_zeros ds))) by lia.
    rewrite Nat2Z.inj_succ, Z.pow_succ_r by lia. split_and!; [lia|lia| |done].
    by apply suffix_cons_r.
  - rewrite Nat.sub_diag. split_and!; [cbn [rev]; lia|lia|done|]. by intros ? [= <-].
Qed.

Section Format.
  Context (w : Z) (Hw : 8 <= w <= 128).

Definition magnitude (v : Z) : Z := if v <? 0 then wrapU w (0 - wrapU w v) else wrapU w v.
Definition format_whole (v : Z) : list Z := rev (whole_digits 48 (magnitude v / FIXED_SCALE)).
Definition format_frac (v : Z) : list Z :=
  if magnitude v mod FIXED_SCALE =? 0 then []
  else rev (drop_zeros (frac_digits 8 (magnitude v mod FIXED_SCALE))).

Lemma magnitude_abs v : int_range w v -> magnitude v = Z.abs v.
Proof.
  unfold int_range, magnitude. intros Hv. pose proof (pow2_split w ltac:(lia)).
  destruct (Z.ltb_spec v 0).
  - rewrite wrapU_neg by lia. lia.
  - rewrite wrapU_small by lia. lia.
Qed.

Lemma pow_bound : 2 ^ (w - 1) <= 10 ^ Z.of_nat 48.
Proof.
  transitivity (2 ^ 127); [apply Z.pow_le_mono_r; lia | by vm_compute].
Qed.

Lemma format_digits v : int_range w v ->
  Forall digit (format_whole v) /\ Forall digit (format_frac v) /\
  (length (format_frac v) <= 8)%nat /\ format_whole v <> [] /\
  digits_value 0 (format_whole v ++ format_frac v) * 10 ^ Z.of_nat (8 - length (format_frac v))
    = Z.abs v.
Proof.
  intros Hv. pose proof (magnitude_abs v Hv) as Hm. pose proof pow_bound as Hpb.
  unfold format_whole, format_frac. rewrite Hm. unfold int_range in Hv.
  pose proof (Z.div_mod (Z.abs v) FIXED_SCALE ltac:(done)) as Hdm.
  pose proof (Z.mod_pos_bound (Z.abs v) FIXED_SCALE ltac:(done)) as Hmod.
  set (whole := Z.abs v / FIXED_SCALE) in *. set (frac := Z.abs v mod FIXED_SCALE) in *.
  destruct (whole_digits_spec 48 whole ltac:(lia)) as (Hwv & Hwd & d & Hlast & _).
  { split; [apply Z.div_pos; [lia|done]|]. unfold FIXED_SCALE in *. lia. }
  assert (Hne : rev (whole_digits 48 whole) <> []).
  { intros He. apply (f_equal (@rev _)) in He. rewrite rev_involutive in He. by rewrite He in Hlast. }
  split_and!; [by apply Forall_rev| | |done|].
  1-3: destruct (Z.eqb_spec frac 0) as [Hf|Hf].
  - constructor.
  - apply Forall_rev. destruct (frac_digits_spec 8 frac) as (_ & Hd & _); [exact Hmod|].
    destruct (drop_zeros_spec (frac_digits 8 frac)) as (_ & _ & [l Hl] & _).
    rewrite Hl in Hd. by apply Forall_app in Hd as [_ ?].
  - cbn. lia.
  - rewrite length_rev. destruct (frac_digits_spec 8 frac) as (_ & _ & Hl); [exact Hmod|].
    destruct (drop_zeros_spec (frac_digits 8 frac)) as (_ & ? & _). lia.
  - rewrite app_nil_r, Hwv. change (10 ^ Z.of_nat (8 - length [])) with FIXED_SCALE. lia.
  - destruct (frac_digits_spec 8 frac) as (Hfv & _ & Hl); [exact Hmod|].
    destruct (drop_zeros_spec (frac_digits 8 frac)) as (Hdz & Hle & _).
    set (fs := drop_zeros _) in *. rewrite length_rev, digits_value_app, digits_value_shift, Hwv, length_rev.
    rewrite Hl, Hfv in *. rewrite Z.mul_add_distr_r, <- Hdz.
    rewrite <- Z.mul_assoc, <- Z.pow_add_r by lia.
    replace (Z.of_nat (length fs) + Z.of_nat (8 - length fs)) with 8 by lia.
    change (10 ^ 8) with FIXED_SCALE. lia.
Qed.

Lemma parse_sign_digits ds rest : Forall digit ds -> ds <> [] ->
  parse_sign (digit_string ds +:+ rest)%string = (false, (digit_string ds +:+ rest)%string).
Proof.
  intros Hd Hne. destruct Hd as [|d ds Hd Hds]; [done|].
  change (digit_string (d :: ds) +:+ rest)%string
    with (String (chr (48 + d)) (digit_string ds +:+ rest)%string).
  cbn [parse_sign]. rewrite code_chr_digit by done. unfold digit in Hd. zbool.
Qed.

Lemma literal_format v : int_range w v ->
  literal (formatFixed w v) = Some (v <? 0, format_whole v, format_frac v).
Proof.
  intros Hv. destruct (format_digits v Hv) as (Hwd & Hfd & _ & Hne & _).
  set (tail := if decide (format_frac v = []) then ""%string
               else ("." +:+ digit_string (format_frac v))%string).
  assert (Hfmt : formatFixed w v =
    ((if (v <? 0)%Z then "-" else "") +:+ digit_string (format_whole v) +:+ tail)%string).
  { unfold formatFixed, format_whole, tail, format_frac. cbv zeta. fold (magnitude v).
    pose proof (Z.mod_pos_bound (magnitude v) FIXED_SCALE ltac:(done)) as Hmod.
    set (frac := magnitude v mod FIXED_SCALE) in *.
    destruct (Z.eqb_spec frac 0) as [Hf|Hf]; [done|].
    rewrite decide_False; [done|]. intros He. apply (f_equal (@rev _)) in He.
    rewrite rev_involutive in He. cbn [rev] in He.
    destruct (frac_digits_spec 8 frac) as (Hfv & _ & _); [exact Hmod|].
    destruct (drop_zeros_spec (frac_digits 8 frac)) as (Hdz & _). rewrite He, Hfv in Hdz.
    change (digits_value 0 (rev [])) with 0 in Hdz. lia. }
  assert (Hs : parse_sign (formatFixed w v) =
    (v <? 0, (digit_string (format_whole v) +:+ tail)%string)).
  { rewrite Hfmt. destruct (v <? 0); [done|]. by apply parse_sign_digits. }
  unfold literal. rewrite Hs, split_point_digits by done. unfold tail.
  destruct (decide (format_frac v = [])) as [E|E]; cbn [split_point].
  - rewrite string_app_nil_r, digits_of_string by done. cbn.
    rewrite app_nil_r, decide_False by done. by rewrite E.
  - change (split_point ("." +:+ digit_string (format_frac v)))
      with (""%string, Some (digit_string (format_frac v))).
    cbn [mbind option_bind]. rewrite string_app_nil_r, !digits_of_string by done. cbn.
    rewrite decide_False; [done|]. intros [? _]%app_nil. done.
Qed.

Lemma parse_format v : int_range w v -> parseFixed w (formatFixed w v) = Some v.
Proof.
  intros Hv. rewrite parseFixed_spec by lia. unfold fixed_spec. rewrite literal_format by done.
  destruct (format_digits v Hv) as (_ & Hfd & Hl & _ & Hval). cbn [mbind option_bind].
  rewrite round_digits by done. rewrite take_ge by done. rewrite Hval.
  unfold rounds. cbn [Z.leb Z.compare]. change (Z.to_nat (8 - 0)) with 8%nat.
  rewrite lookup_ge_None_2 by done. rewrite Z.add_0_r.
  replace (if v <? 0 then - Z.abs v else Z.abs v) with v by zbool.
  by rewrite decide_True.
Qed.
End Format.

Lemma format_frac_last w v d : last (format_frac w v) = Some d -> d <> 0.
Proof.
  unfold format_frac. case_match; [done|]. intros Hl.
  destruct (drop_zeros_spec (frac_digits 8 (magnitude w v mod FIXED_SCALE))) as (_ & _ & _ & Hh).
  apply Hh. destruct (drop_zeros _) as [|x l]; [done|]. cbn [rev] in Hl.
  by rewrite last_snoc in Hl.
Qed.

Lemma format_whole_head w v : 8 <= w <= 128 -> int_range w v ->
  head (format_whole w v) = Some 0 -> format_whole w v = [0].
Proof.
  intros Hw Hv. unfold format_whole. rewrite magnitude_abs by done. unfold int_range in Hv.
  pose proof (pow_bound w Hw).
  destruct (whole_digits_spec 48 (Z.abs v / FIXED_SCALE) ltac:(lia)) as (_ & _ & d & Hlast & Hd).
  { split; [apply Z.div_pos; [lia|done] | apply Z.div_lt_upper_bound; unfold FIXED_SCALE; lia]. }
  destruct (whole_digits 48 _) as [|x l _] eqn:E using rev_ind; [done|].
  rewrite rev_app_distr. cbn. rewrite last_snoc in Hlast. injection Hlast as <-. intros [= ->].
  destruct Hd as [?|Hz]; [done|]. rewrite Hz in E. by destruct l as [|y [|? ?]].
Qed.

(** ** Properties *)

(** C18 C1. On every byte string, at both widths, [parseFixed] computes the decimal
    value the literal denotes: it accepts exactly [sign? digits (. digits)?] with at
    least one digit, scales the exact value to 1e-8 units, rounds half away from zero,
    and fails exactly when the literal is malformed or the result is out of range. *)
Theorem parseFixed_correct (s : string) :
  parseFixed 64 s = fixed_spec 64 s /\ parseFixed 128 s = fixed_spec 128 s.
Proof. split; apply parseFixed_spec; lia. Qed.

(** C19 C2. Parsing what [formatFixed] prints gives the value back, for every [Fixed] and
    [Fixed128], the most negative value included. *)
Theorem formatFixed_roundtrip (w v : Z) (Hw : w = 64 \/ w = 128) (Hv : int_range w v) :
  parseFixed w (formatFixed w v) = Some v.
Proof. apply parse_format; [lia | done]. Qed.

Lemma formatFixed_roundtrip_witness :
  int_range 64 (- 2 ^ 63) /\ parseFixed 64 (formatFixed 64 (- 2 ^ 63)) = Some (- 2 ^ 63).
Proof.
  assert (H : int_range 64 (- 2 ^ 63)) by (split; [reflexivity | done]).
  split; [exact H | apply (formatFixed_roundtrip 64); [by left | exact H]].
Defined.

(** What [formatFixed] prints is exact and canonical: the digits denote the value
    with no rounding, there are at most 8 decimals with no trailing zero, and no
    superfluous leading zero. *)
Theorem formatFixed_exact (w v : Z) (Hw : w = 64 \/ w = 128) (Hv : int_range w v) :
  exists ds fs, literal (formatFixed w v) = Some (v <? 0, ds, fs) /\
    digits_value 0 (ds ++ fs) * 10 ^ Z.of_nat (8 - length fs) = Z.abs v /\
    (length fs <= 8)%nat /\ last fs <> Some 0 /\ (head ds = Some 0 -> ds = [0]).
Proof.
  assert (8 <= w <= 128) by lia.
  destruct (format_digits w ltac:(done) v Hv) as (_ & _ & Hl & _ & Hval).
  exists (format_whole w v), (format_frac w v).
  split_and!; [by apply literal_format|done|done| |by apply format_whole_head].
  intros Hz. by apply format_frac_last in Hz.
Qed.

Lemma formatFixed_exact_witness : int_range 64 (-50000000) /\
  exists ds fs, literal (formatFixed 64 (-50000000)) = Some (true, ds, fs) /\
    digits_value 0 (ds ++ fs) * 10 ^ Z.of_nat (8 - length fs) = Z.abs (-50000000) /\
    (length fs <= 8)%nat /\ last fs <> Some 0 /\ (head ds = Some 0 -> ds = [0]).
Proof.
  assert (H : int_range 64 (-50000000)) by (split; [done | reflexivity]).
  split; [exact H | apply (formatFixed_exact 64 (-50000000)); [by left | exact H]].
Defined.
