(* ===== verification/Model.v ===== *)
(** * Model: the plain data structs

    Models [src/model/*.hpp]. Amounts are [Z] counts of 1e-8 units ([Fixed] or
    [Fixed128], see FixedPoint). A [double] is opaque: its type is a parameter. *)

From S2P Require Import Prelude FixedPoint.

(** [model/entry.hpp] *)
Record Entry := { price : Fixed; volume : Fixed }.

#[global] Instance Entry_eq_dec : EqDecision Entry.
Proof. solve_decision. Defined.

Definition Entry_default : Entry := {| price := 0; volume := 0 |}.

Definition assignValues (e : Entry) (price_ volume_ : Fixed) : Entry :=
  {| price := price_; volume := volume_ |}.

(** [operator+=]: signed additions, undefined on overflow. *)
Definition Entry_add (e add : Entry) : option Entry :=
  let p := price e + price add in
  let v := volume e + volume add in
  if in_int64 p && in_int64 v then Some {| price := p; volume := v |} else None.

(** [model/candle.hpp] *)
Record Candle := {
  timestampOpen : Z;
  open : Fixed;
  high : Fixed;
  close : Fixed;
  low : Fixed;
  candleVolume : Fixed128;
  timestampClose : Z;
  quoteVolume : Fixed128;
}.

(** [model/exchangeInfo.hpp] *)
Record PairInfo := {
  minNotional : Fixed;
  maxPrice : Fixed;
  minPrice : Fixed;
  pairTickSize : Fixed;
  maxQuantity : Fixed;
  minQuantity : Fixed;
  stepsize : Fixed;
}.

(** [PairInfo info{}]: value-initialised. *)
Definition PairInfo_zero : PairInfo :=
  {| minNotional := 0; maxPrice := 0; minPrice := 0; pairTickSize := 0;
     maxQuantity := 0; minQuantity := 0; stepsize := 0 |}.

(** [model/openInterest.hpp] *)
Record OpenInterest := {
  oiTimestamp : Z;
  totalInterest : Fixed128;
  totalInterestValue : Fixed128;
  circulation : Fixed128;
}.

Record CurrentOpenInterest := { coiTimestamp : Z; openInterest : Fixed128 }.

(** [model/markPrice.hpp] *)
Record MarkPrice (double : Type) := {
  mpTimestamp : Z;
  indexPrice : Fixed;
  markPrice : Fixed;
  fundingRate : double;
  fundingTime : Z;
}.
Arguments mpTimestamp {double} _.
Arguments indexPrice {double} _.
Arguments markPrice {double} _.
Arguments fundingRate {double} _.
Arguments fundingTime {double} _.

(** [model/tradeEvent.hpp] *)
Record TradeEvent := {
  teTimestamp : Z;
  tePrice : Fixed;
  teVolume : Fixed;
  teMaker : bool;
}.

(** [model/accountInfoLite.hpp] *)
Record AccountInfoLite := {
  aiAsset : string;
  aiBalance : Fixed;
  aiCrossWalletBalance : Fixed;
  aiAvailableBalance : Fixed;
  aiUpdateTime : Z;
}.

(** [model/error.hpp] *)
Record Error := { errorCode : Z; message : string }.
