(* ===== verification/PriceLevel.v ===== *)
(** * PriceLevel: 128 consecutive ticks as a bitmap

    Models [struct PriceLevel] of [src/api/orderbook/topBook.hpp]: two 64-bit words
    of presence bits, a table from offset to entry slot, and the block id. The slot
    table is uninitialised storage in C++, so a cell is [None] until it is written,
    and reading such a cell is undefined behaviour ([None] of the option monad).

    [forEach] is the source's scan with [clz]/[ctz] over the words; the theorems
    show that it visits exactly the set offsets, in price order. *)

From S2P Require Import Prelude.

Definition TICKS : Z := 128.

Record PriceLevel := {
  bits : list Z;
  slots : list (option Z);
  blockId : Z;
}.

(** A fresh level: [bits{}], [slots] indeterminate, [blockId = 0]. *)
Definition new_level : PriceLevel :=
  {| bits := [0; 0]; slots := replicate 128 None; blockId := 0 |}.

Definition set_bits (l : PriceLevel) bs := {| bits := bs; slots := slots l; blockId := blockId l |}.
Definition set_slots (l : PriceLevel) ss := {| bits := bits l; slots := ss; blockId := blockId l |}.
Definition set_blockId (l : PriceLevel) i := {| bits := bits l; slots := slots l; blockId := i |}.

Definition level_empty (l : PriceLevel) : option bool :=
  b0 ← aget (bits l) 0; b1 ← aget (bits l) 1; Some (Z.lor b0 b1 =? 0).

Definition level_test (l : PriceLevel) (offset : Z) : option bool :=
  word ← aget (bits l) (Z.shiftr offset 6);
  Some (negb (Z.land (Z.shiftr word (Z.land offset 63)) 1 =? 0)).

Definition level_set (l : PriceLevel) (offset : Z) : option PriceLevel :=
  word ← aget (bits l) (Z.shiftr offset 6);
  bs ← aset (bits l) (Z.shiftr offset 6)
         (Z.lor word (wrapU 64 (Z.shiftl 1 (Z.land offset 63))));
  Some (set_bits l bs).

Definition level_reset (l : PriceLevel) (offset : Z) : option PriceLevel :=
  word ← aget (bits l) (Z.shiftr offset 6);
  bs ← aset (bits l) (Z.shiftr offset 6)
         (Z.land word (wrapU 64 (Z.lnot (wrapU 64 (Z.shiftl 1 (Z.land offset 63))))));
  Some (set_bits l bs).

(** [slots[offset]], a read of an unwritten cell being undefined. *)
Definition slot_at (l : PriceLevel) (offset : Z) : option Z :=
  s ← aget (slots l) offset; s.

(** The compiler builtins on a non-zero 64-bit word. *)
Definition clzll (x : Z) : Z := 63 - Z.log2 x.

Fixpoint pos_ctz (p : positive) : Z :=
  match p with xO q => 1 + pos_ctz q | _ => 0 end.
Definition ctzll (x : Z) : Z := match x with Zpos p => pos_ctz p | _ => 0 end.

Section ForEach.
  Context {St : Type} (fn : Z -> St -> option (St * bool)).

(** [while(remaining)] of the descending scan of one word. The callback returns the
    new state and whether to go on; the result is the state and [true] when the walk
    was not stopped. Each turn clears a bit, so 64 turns of fuel are enough. *)
Fixpoint desc_word (fuel : nat) (l : PriceLevel) (word remaining : Z) (st : St)
    : option (St * bool) :=
  if remaining =? 0 then Some (st, true) else
  match fuel with
  | O => None
  | S fuel' =>
      let bit := 63 - clzll remaining in
      let remaining' := Z.land remaining (wrapU 64 (Z.lnot (wrapU 64 (Z.shiftl 1 bit)))) in
      slot ← slot_at l (word * 64 + bit);
      '(st', go) ← fn slot st;
      if (go : bool) then desc_word fuel' l word remaining' st' else Some (st', false)
  end.

Fixpoint asc_word (fuel : nat) (l : PriceLevel) (word remaining : Z) (st : St)
    : option (St * bool) :=
  if remaining =? 0 then Some (st, true) else
  match fuel with
  | O => None
  | S fuel' =>
      let bit := ctzll remaining in
      let remaining' := Z.land remaining (wrapU 64 (remaining - 1)) in
      slot ← slot_at l (word * 64 + bit);
      '(st', go) ← fn slot st;
      if (go : bool) then asc_word fuel' l word remaining' st' else Some (st', false)
  end.

(** [forEach<Descending>(fn)]: word 1 then word 0, or word 0 then word 1. *)
Definition level_forEach (Descending : bool) (l : PriceLevel) (st : St) : option (St * bool) :=
  b0 ← aget (bits l) 0; b1 ← aget (bits l) 1;
  if Descending then
    '(st1, go) ← desc_word 64 l 1 b1 st;
    if (go : bool) then desc_word 64 l 0 b0 st1 else Some (st1, false)
  else
    '(st1, go) ← asc_word 64 l 0 b0 st;
    if (go : bool) then asc_word 64 l 1 b1 st1 else Some (st1, false).

End ForEach.

(** Reference: run the callback over a list until it returns false. *)
Fixpoint visit {A St : Type} (fn : A -> St -> option (St * bool)) (ss : list A) (st : St)
    : option (St * bool) :=
  match ss with
  | [] => Some (st, true)
  | s :: ss' => '(st', go) ← fn s st; if (go : bool) then visit fn ss' st' else Some (st', false)
  end.

(** ** Bits of a word *)

(** The set bits of a word, ascending. *)
Definition word_bits (x : Z) : list Z := filter (fun i => Z.testbit x i = true) (seqZ 0 64).

Definition word (x : Z) : Prop := 0 <= x < 2 ^ 64.

Lemma testbit_high x i : word x -> 64 <= i -> Z.testbit x i = false.
Proof.
  intros [Hl Hh] Hi. rewrite <- (Z.mod_small x (2 ^ 64)) by lia. apply Z.mod_pow2_bits_high. lia.
Qed.

Lemma testbit_shiftl_1 k i : 0 <= k -> 0 <= i -> Z.testbit (Z.shiftl 1 k) i = (i =? k).
Proof.
  intros Hk Hi. rewrite Z.shiftl_1_l, Z.pow2_bits_eqb by lia. by rewrite Z.eqb_sym.
Qed.

Lemma wrapU_shiftl_1 k : 0 <= k < 64 -> wrapU 64 (Z.shiftl 1 k) = Z.shiftl 1 k.
Proof.
  intros Hk. apply wrapU_small. rewrite Z.shiftl_1_l.
  split; [apply Z.pow_nonneg; lia | apply Z.pow_lt_mono_r; lia].
Qed.

Lemma testbit_clear x k i : word x -> 0 <= k < 64 -> 0 <= i ->
  Z.testbit (Z.land x (wrapU 64 (Z.lnot (wrapU 64 (Z.shiftl 1 k))))) i
    = Z.testbit x i && negb (i =? k).
Proof.
  intros Hx Hk Hi. rewrite wrapU_shiftl_1, Z.land_spec by lia.
  destruct (Z.ltb_spec i 64) as [H|H].
  - unfold wrapU. rewrite Z.mod_pow2_bits_low, Z.lnot_spec, testbit_shiftl_1 by lia. done.
  - rewrite (testbit_high x) by (try done; lia). done.
Qed.

Lemma word_land x y : word x -> word (Z.land x y).
Proof.
  intros Hx. pose proof Hx as [H0 _]. split; [apply Z.land_nonneg; lia|].
  destruct (Z.eq_dec (Z.land x y) 0) as [->|Hne]; [lia|].
  assert (0 <= Z.land x y) by (apply Z.land_nonneg; lia).
  apply Z.log2_lt_pow2; [lia|].
  destruct (Z.lt_ge_cases (Z.log2 (Z.land x y)) 64) as [?|Hge]; [done|].
  pose proof (Z.bit_log2 (Z.land x y) ltac:(lia)) as Hb.
  rewrite Z.land_spec, testbit_high in Hb by (done || lia). done.
Qed.

Lemma word_lor_bit x k : word x -> 0 <= k < 64 -> word (Z.lor x (wrapU 64 (Z.shiftl 1 k))).
Proof.
  intros [H0 H1] Hk. rewrite wrapU_shiftl_1 by done. rewrite Z.shiftl_1_l.
  assert (0 < 2 ^ k) by (apply Z.pow_pos_nonneg; lia).
  split; [apply Z.lor_nonneg; lia|]. apply Z.log2_lt_cancel. change (Z.log2 (2 ^ 64)) with 64.
  rewrite Z.log2_lor by lia. rewrite Z.log2_pow2 by lia.
  apply Z.max_lub_lt; [|lia]. destruct (Z.eq_dec x 0) as [->|?]; [by cbn|].
  apply Z.log2_lt_pow2; lia.
Qed.

Lemma word_zero x : word x -> (forall i, 0 <= i < 64 -> Z.testbit x i = false) -> x = 0.
Proof.
  intros Hx Hb. apply Z.bits_inj_0. intros i.
  destruct (Z.lt_ge_cases i 0); [by apply Z.testbit_neg_r|].
  destruct (Z.lt_ge_cases i 64); [apply Hb; lia | by apply testbit_high].
Qed.

Lemma elem_of_word_bits x i : i ∈ word_bits x <-> 0 <= i < 64 /\ Z.testbit x i = true.
Proof. unfold word_bits. rewrite list_elem_of_filter, elem_of_seqZ. intuition lia. Qed.

Lemma word_bits_0 : word_bits 0 = [].
Proof. done. Qed.

(** [ctzll] isolates the lowest set bit. *)
Lemma pos_ctz_spec p : exists k, Zpos p = (2 * k + 1) * 2 ^ pos_ctz p /\ 0 <= k /\ 0 <= pos_ctz p.
Proof.
  induction p as [p _|p (k & IH & Hk & Hc)|]; cbn [pos_ctz].
  - exists (Zpos p). rewrite Z.pow_0_r. lia.
  - exists k. rewrite Z.pow_add_r by lia. split_and!; lia.
  - by exists 0.
Qed.

Lemma ctzll_spec x : 0 < x ->
  exists k, x = (2 * k + 1) * 2 ^ ctzll x /\ 0 <= k /\ 0 <= ctzll x.
Proof. destruct x; try lia. intros _. apply pos_ctz_spec. Qed.

Lemma testbit_below_ctz k c i : 0 <= i < c -> Z.testbit ((2 * k + 1) * 2 ^ c) i = false.
Proof. intros Hi. apply Z.mul_pow2_bits_low. lia. Qed.

Lemma testbit_land_pred x i : 0 < x -> 0 <= i ->
  Z.testbit (Z.land x (x - 1)) i = Z.testbit x i && negb (i =? ctzll x).
Proof.
  intros Hx Hi. destruct (ctzll_spec x Hx) as (k & Hk & Hk0 & Hc0).
  set (c := ctzll x) in *. rewrite Z.land_spec. assert (0 < 2 ^ c) by (apply Z.pow_pos_nonneg; lia).
  destruct (Z.lt_trichotomy i c) as [Hlt|[->|Hgt]].
  - rewrite Hk, testbit_below_ctz by lia. done.
  - replace (c =? c) with true by zbool. rewrite andb_false_r.
    assert (Z.testbit (x - 1) c = false) as ->; [|by rewrite andb_false_r].
    replace c with (0 + c) at 1 by lia. rewrite <- Z.div_pow2_bits by lia.
    replace ((x - 1) / 2 ^ c) with (2 * k); [by rewrite Z.testbit_even_0|].
    apply Z.div_unique_pos with (r := 2 ^ c - 1); lia.
  - replace (i =? c) with false by zbool. rewrite andb_true_r.
    assert (Z.testbit (x - 1) i = Z.testbit x i) as ->; [|apply andb_diag].
    replace i with ((i - (c + 1)) + (c + 1)) by lia. rewrite <- !Z.div_pow2_bits by lia. f_equal.
    rewrite Z.pow_add_r, Z.pow_1_r by lia.
    transitivity k; [symmetry|].
    + apply Z.div_unique_pos with (r := 2 ^ c - 1); lia.
    + apply Z.div_unique_pos with (r := 2 ^ c); lia.
Qed.

(** ** Scans

    One step of either scan splits the list of set bits at its end. *)
Lemma word_bits_split x i : word x -> 0 <= i < 64 ->
  word_bits x = filter (fun j => Z.testbit x j = true) (seqZ 0 i)
    ++ (if Z.testbit x i then [i] else [])
    ++ filter (fun j => Z.testbit x j = true) (seqZ (i + 1) (63 - i)).
Proof.
  intros Hx Hi. unfold word_bits. replace 64 with (i + (1 + (63 - i))) by lia.
  rewrite !seqZ_app, !filter_app by lia. replace (0 + i) with i by lia. f_equal. f_equal.
  rewrite seqZ_cons by lia. rewrite seqZ_nil by lia.
  destruct (Z.testbit x i) eqn:E; [by rewrite filter_cons_True|].
  by rewrite filter_cons_False by congruence.
Qed.

Lemma filter_testbit_ext x y (l : list Z) : (forall i, i ∈ l -> Z.testbit x i = Z.testbit y i) ->
  filter (fun j => Z.testbit x j = true) l = filter (fun j => Z.testbit y j = true) l.
Proof.
  induction l as [|i l IH]; intros H; [done|]. rewrite !filter_cons, (H i) by left.
  rewrite IH; [done|]. intros j Hj. apply H. by right.
Qed.

Lemma filter_testbit_none x (l : list Z) : (forall i, i ∈ l -> Z.testbit x i = false) ->
  filter (fun j => Z.testbit x j = true) l = [].
Proof.
  induction l as [|i l IH]; intros H; [done|]. rewrite filter_cons_False by (rewrite H by left; done).
  apply IH. intros j Hj. apply H. by right.
Qed.

Lemma ctzll_lt x : word x -> x <> 0 -> 0 <= ctzll x < 64 /\ Z.testbit x (ctzll x) = true /\
  forall i, 0 <= i < ctzll x -> Z.testbit x i = false.
Proof.
  intros Hx Hne. pose proof Hx as [H0 H1]. destruct (ctzll_spec x ltac:(lia)) as (k & Hk & Hk0 & Hc0).
  set (c := ctzll x) in *.
  assert (Hb : Z.testbit x c = true).
  { assert (0 < 2 ^ c) by (apply Z.pow_pos_nonneg; lia).
    replace c with (0 + c) at 1 by lia. rewrite <- Z.div_pow2_bits by lia.
    replace (x / 2 ^ c) with (2 * k + 1); [by rewrite Z.testbit_odd_0|].
    apply Z.div_unique_pos with (r := 0); lia. }
  split_and!; [done| |done|].
  - destruct (Z.lt_ge_cases c 64); [done|]. by rewrite testbit_high in Hb.
  - intros i Hi. rewrite Hk. by apply testbit_below_ctz.
Qed.

Lemma word_bits_asc x : word x -> x <> 0 ->
  word_bits x = ctzll x :: word_bits (Z.land x (wrapU 64 (x - 1))).
Proof.
  intros Hx Hne. pose proof Hx as [H0 H1]. rewrite wrapU_small by lia.
  destruct (ctzll_lt x Hx Hne) as (Hc & Hb & Hlow). set (c := ctzll x) in *.
  assert (Hw' : word (Z.land x (x - 1))) by by apply word_land.
  rewrite (word_bits_split x c), (word_bits_split (Z.land x (x - 1)) c) by done.
  rewrite Hb, testbit_land_pred, Z.eqb_refl, andb_false_r by lia. fold c.
  rewrite !(filter_testbit_none _ (seqZ 0 c)).
  - cbn [app]. f_equal. apply filter_testbit_ext. intros i Hi%elem_of_seqZ.
    rewrite testbit_land_pred by lia. fold c. replace (i =? c) with false by zbool. by rewrite andb_true_r.
  - intros i Hi%elem_of_seqZ. rewrite testbit_land_pred by lia. rewrite Hlow by lia. done.
  - intros i Hi%elem_of_seqZ. apply Hlow. lia.
Qed.

Definition clear_bit (x k : Z) : Z :=
  Z.land x (wrapU 64 (Z.lnot (wrapU 64 (Z.shiftl 1 k)))).

Lemma top_bit x : word x -> x <> 0 -> 63 - clzll x = Z.log2 x /\ 0 <= Z.log2 x < 64.
Proof.
  intros [H0 H1] Hne. unfold clzll. split; [lia|]. split; [apply Z.log2_nonneg|].
  apply Z.log2_lt_pow2; lia.
Qed.

Lemma word_bits_desc x : word x -> x <> 0 ->
  word_bits x = word_bits (clear_bit x (63 - clzll x)) ++ [63 - clzll x].
Proof.
  intros Hx Hne. destruct (top_bit x Hx Hne) as [-> Ht]. pose proof Hx as [H0 H1].
  set (t := Z.log2 x) in *. assert (Hw' : word (clear_bit x t)) by by apply word_land.
  rewrite (word_bits_split x t), (word_bits_split (clear_bit x t) t) by done.
  rewrite Z.bit_log2 by lia. unfold clear_bit. rewrite testbit_clear, Z.eqb_refl, andb_false_r by (done || lia).
  rewrite !(filter_testbit_none _ (seqZ (t + 1) _)).
  - rewrite app_nil_r. cbn [app]. rewrite app_nil_r. f_equal.
    apply filter_testbit_ext. intros i Hi%elem_of_seqZ.
    rewrite testbit_clear by (done || lia). replace (i =? t) with false by zbool. by rewrite andb_true_r.
  - intros i Hi%elem_of_seqZ. rewrite testbit_clear by (done || lia).
    by rewrite Z.bits_above_log2 by lia.
  - intros i Hi%elem_of_seqZ. by rewrite Z.bits_above_log2 by lia.
Qed.

Lemma length_word_bits x : (length (word_bits x) <= 64)%nat.
Proof. unfold word_bits. etransitivity; [apply length_filter|]. by rewrite length_seqZ. Qed.

(** ** Levels *)

(** The C++ representation: two 64-bit words, a table of 128 cells. *)
Definition level_wf (l : PriceLevel) : Prop :=
  length (bits l) = 2%nat /\ Forall word (bits l) /\ length (slots l) = 128%nat.

(** The set of occupied offsets the bitmap stands for. *)
Definition level_has (l : PriceLevel) (o : Z) : bool :=
  match aget (bits l) (o / 64) with Some w => Z.testbit w (o mod 64) | None => false end.

Definition offset_ok (o : Z) : Prop := 0 <= o < 128.

Lemma shiftr_6 o : Z.shiftr o 6 = o / 64.
Proof. by rewrite Z.shiftr_div_pow2. Qed.

Lemma land_63 o : Z.land o 63 = o mod 64.
Proof. change 63 with (Z.ones 6). by rewrite Z.land_ones. Qed.

Lemma offset_word o : offset_ok o -> 0 <= o / 64 < 2 /\ 0 <= o mod 64 < 64 /\ o = 64 * (o / 64) + o mod 64.
Proof.
  intros [Hl Hh]. pose proof (Z.div_mod o 64 ltac:(lia)). pose proof (Z.mod_pos_bound o 64 ltac:(lia)).
  split_and!; [apply Z.div_pos; lia | apply Z.div_lt_upper_bound; lia | lia | lia | done].
Qed.

Lemma level_word l o : level_wf l -> offset_ok o -> exists x, aget (bits l) (o / 64) = Some x /\ word x.
Proof.
  intros (Hl & Hf & _) Ho. destruct (offset_word o Ho) as (Hd & _ & _).
  destruct (aget_in_range (bits l) (o / 64)) as [x Hx]; [lia|]. exists x. split; [done|].
  rewrite Forall_lookup in Hf. unfold aget in Hx. case_match; [done|]. eauto.
Qed.

Lemma land_1_testbit x k : 0 <= k -> negb (Z.land (Z.shiftr x k) 1 =? 0) = Z.testbit x k.
Proof.
  intros Hk. change 1 with (Z.ones 1). rewrite Z.land_ones by lia. change (2 ^ 1) with 2.
  rewrite <- Z.bit0_mod, Z.shiftr_spec by lia. rewrite Z.add_0_l. by destruct (Z.testbit x k).
Qed.

Lemma level_test_spec l o : level_wf l -> offset_ok o -> level_test l o = Some (level_has l o).
Proof.
  intros Hwf Ho. destruct (level_word l o Hwf Ho) as (x & Hx & _).
  destruct (offset_word o Ho) as (_ & Hm & _). unfold level_test, level_has.
  rewrite shiftr_6, land_63, Hx. cbn. by rewrite land_1_testbit by lia.
Qed.

(** Both updates write one word; what they do to the bits of that word gives the rest. *)
Lemma level_write l o x y (P : bool -> bool) : level_wf l -> offset_ok o ->
  aget (bits l) (o / 64) = Some x -> word y ->
  (forall i, 0 <= i < 64 -> Z.testbit y i = if i =? o mod 64 then P (Z.testbit x i) else Z.testbit x i) ->
  exists bs, aset (bits l) (o / 64) y = Some bs /\ level_wf (set_bits l bs) /\
    forall o', offset_ok o' ->
      level_has (set_bits l bs) o' = if o' =? o then P (level_has l o) else level_has l o'.
Proof.
  intros (Hl & Hf & Hs) Ho Hx Hy Hbits. destruct (offset_word o Ho) as (Hd & Hm & Heq).
  exists (<[Z.to_nat (o / 64) := y]> (bits l)). pose proof (aset_in_range (bits l) (o / 64) y ltac:(lia)) as Has.
  split_and!; [done| |].
  - split_and!; cbn; [by rewrite length_insert | by apply Forall_insert | done].
  - intros o' Ho'. destruct (offset_word o' Ho') as (Hd' & Hm' & Heq'). unfold level_has. cbn [bits set_bits].
    destruct (Z.eq_dec (o' / 64) (o / 64)) as [E|E].
    + rewrite E, (aget_aset_eq _ _ _ _ Has), Hx, Hbits by done.
      destruct (Z.eqb_spec (o' mod 64) (o mod 64)) as [E'|E'].
      * replace (o' =? o) with true by zbool. by rewrite E'.
      * replace (o' =? o) with false by zbool. done.
    + rewrite (aget_aset_ne _ _ _ _ _ Has) by done. replace (o' =? o) with false by zbool. done.
Qed.

Lemma level_set_spec l o : level_wf l -> offset_ok o -> exists l', level_set l o = Some l' /\
  level_wf l' /\ slots l' = slots l /\ blockId l' = blockId l /\
  forall o', offset_ok o' -> level_has l' o' = (o' =? o) || level_has l o'.
Proof.
  intros Hwf Ho. destruct (level_word l o Hwf Ho) as (x & Hx & Hw).
  destruct (offset_word o Ho) as (_ & Hm & _).
  destruct (level_write l o x (Z.lor x (wrapU 64 (Z.shiftl 1 (o mod 64)))) (fun _ => true) Hwf Ho Hx)
    as (bs & Hbs & Hwf' & Hhas); [by apply word_lor_bit| |].
  { intros i Hi. rewrite wrapU_shiftl_1, Z.lor_spec, testbit_shiftl_1 by lia.
    destruct (i =? o mod 64); [apply orb_true_r | apply orb_false_r]. }
  exists (set_bits l bs). unfold level_set. rewrite shiftr_6, land_63, Hx. cbn [mbind option_bind].
  rewrite Hbs. cbn. by split_and!.
Qed.

Lemma level_reset_spec l o : level_wf l -> offset_ok o -> exists l', level_reset l o = Some l' /\
  level_wf l' /\ slots l' = slots l /\ blockId l' = blockId l /\
  forall o', offset_ok o' -> level_has l' o' = negb (o' =? o) && level_has l o'.
Proof.
  intros Hwf Ho. destruct (level_word l o Hwf Ho) as (x & Hx & Hw).
  destruct (offset_word o Ho) as (_ & Hm & _).
  destruct (level_write l o x (clear_bit x (o mod 64)) (fun _ => false) Hwf Ho Hx)
    as (bs & Hbs & Hwf' & Hhas); [by apply word_land| |].
  { intros i Hi. unfold clear_bit. rewrite testbit_clear by (done || lia).
    destruct (i =? o mod 64); [apply andb_false_r | apply andb_true_r]. }
  exists (set_bits l bs). unfold level_reset. rewrite shiftr_6, land_63, Hx. cbn [mbind option_bind].
  fold (clear_bit x (o mod 64)). rewrite Hbs. cbn. split_and!; try done.
  intros o' Ho'. rewrite Hhas by done. by destruct (o' =? o).
Qed.

(** The occupied offsets, ascending. *)
Definition offsets (l : PriceLevel) : list Z := filter (fun o => level_has l o = true) (seqZ 0 128).

Lemma elem_of_offsets l o : o ∈ offsets l <-> offset_ok o /\ level_has l o = true.
Proof. unfold offsets, offset_ok. rewrite list_elem_of_filter, elem_of_seqZ. intuition lia. Qed.

Lemma level_words l : level_wf l -> exists b0 b1, bits l = [b0; b1] /\ word b0 /\ word b1.
Proof.
  intros (Hl & Hf & _). destruct (bits l) as [|b0 [|b1 [|? ?]]]; try done.
  inversion Hf as [|? ? H0 Hf']; subst. inversion Hf'; subst. eauto.
Qed.

Lemma offsets_words l b0 b1 : bits l = [b0; b1] ->
  offsets l = word_bits b0 ++ (Z.add 64 <$> word_bits b1).
Proof.
  intros Hb. unfold offsets, word_bits. change 128 with (64 + 64). rewrite seqZ_app, filter_app by lia. f_equal.
  - apply filter_ext_in. intros o Ho%elem_of_seqZ. unfold level_has. rewrite Hb.
    rewrite Z.div_small, Z.mod_small by lia. done.
  - change (0 + 64) with (64 + 0). rewrite <- fmap_add_seqZ, filter_fmap. f_equal. apply filter_ext_in.
    intros o Ho%elem_of_seqZ. unfold level_has. cbn. rewrite Hb.
    replace ((64 + o) / 64) with 1 by (apply Z.div_unique_pos with (r := o); lia).
    replace ((64 + o) mod 64) with o by (apply Z.mod_unique_pos with (q := 1); lia). done.
Qed.

Lemma visit_app {A St} (fn : A -> St -> option (St * bool)) ss1 ss2 st :
  visit fn (ss1 ++ ss2) st =
  ('(st', go) ← visit fn ss1 st; if (go : bool) then visit fn ss2 st' else Some (st', false)).
Proof.
  revert st. induction ss1 as [|s ss IH]; intros st; [done|]. cbn.
  destruct (fn s st) as [[st' []]|]; [apply IH|done|done].
Qed.

(** [offsets_slots l os ss]: the cells at the offsets [os] are written and hold [ss]. *)
Definition cells (l : PriceLevel) (os ss : list Z) : Prop :=
  Forall2 (fun o s => slot_at l o = Some s) os ss.

Section ForEachSpec.
  Context {St : Type} (fn : Z -> St -> option (St * bool)) (l : PriceLevel).

Lemma asc_word_spec wd fuel : forall x ss st, word x -> (length (word_bits x) <= fuel)%nat ->
  cells l (Z.add (wd * 64) <$> word_bits x) ss ->
  asc_word fn fuel l wd x st = visit fn ss st.
Proof.
  induction fuel as [|fuel IH]; intros x ss st Hx Hlen Hss; cbn [asc_word].
  all: destruct (Z.eqb_spec x 0) as [->|Hne]; [by inversion Hss|].
  all: rewrite word_bits_asc in Hlen, Hss by done; cbn in Hlen.
  { lia. }
  inversion Hss as [|? s ? ss' Hs Hss' E1 E2]; subst. rewrite Hs. cbn [mbind option_bind visit].
  destruct (fn s st) as [[st' []]|]; [|done|done]. cbn [mbind option_bind].
  apply IH; [by apply word_land|lia|done].
Qed.

Lemma desc_word_spec wd fuel : forall x ss st, word x -> (length (word_bits x) <= fuel)%nat ->
  cells l (Z.add (wd * 64) <$> word_bits x) ss ->
  desc_word fn fuel l wd x st = visit fn (reverse ss) st.
Proof.
  induction fuel as [|fuel IH]; intros x ss st Hx Hlen Hss; cbn [desc_word].
  all: destruct (Z.eqb_spec x 0) as [->|Hne]; [by inversion Hss|].
  all: rewrite word_bits_desc in Hlen, Hss by done; rewrite length_app in Hlen; cbn in Hlen.
  { lia. }
  rewrite fmap_app in Hss. apply Forall2_app_inv_l in Hss as (ss' & ss1 & Hss' & Hs & ->).
  inversion Hs as [|? s ? ? Hs' Hnil E1 E2]; subst. inversion Hnil; subst.
  rewrite Hs'. rewrite reverse_app. cbn [mbind option_bind]. rewrite visit_app. cbn [visit reverse rev_append mbind option_bind].
  destruct (fn s st) as [[st' []]|]; [|done|done]. cbn [mbind option_bind].
  fold (clear_bit x (63 - clzll x)). apply IH; [by apply word_land|lia|done].
Qed.

(** The scan visits the occupied offsets in price order, and neither runs out of fuel
    nor reads a cell that was not written. *)
Lemma level_forEach_spec (Descending : bool) ss st : level_wf l -> cells l (offsets l) ss ->
  level_forEach fn Descending l st = visit fn (if Descending then reverse ss else ss) st.
Proof.
  intros Hwf Hss. destruct (level_words l Hwf) as (b0 & b1 & Hb & H0 & H1).
  rewrite (offsets_words l b0 b1 Hb) in Hss.
  apply Forall2_app_inv_l in Hss as (s0 & s1 & Hs0 & Hs1 & ->).
  unfold level_forEach. rewrite Hb.
  change (aget [b0; b1] 0) with (Some b0). change (aget [b0; b1] 1) with (Some b1). cbn [mbind option_bind].
  assert (Hs0' : cells l (Z.add (0 * 64) <$> word_bits b0) s0).
  { rewrite (list_fmap_ext _ id), list_fmap_id; [done|]. intros ? z _. by destruct z. }
  pose proof (length_word_bits b0). pose proof (length_word_bits b1).
  destruct Descending; cbn [mbind option_bind].
  - rewrite (desc_word_spec 1 64 b1 s1), reverse_app, visit_app by done.
    destruct (visit fn (reverse s1) st) as [[st1 []]|]; [|done|done]. cbn [mbind option_bind].
    by apply desc_word_spec.
  - rewrite (asc_word_spec 0 64 b0 s0), visit_app by done.
    destruct (visit fn s0 st) as [[st1 []]|]; [|done|done]. cbn [mbind option_bind].
    by apply asc_word_spec.
Qed.
End ForEachSpec.

Lemma level_empty_spec l : level_wf l -> exists b, level_empty l = Some b /\ (b = true <-> offsets l = []).
Proof.
  intros Hwf. destruct (level_words l Hwf) as (b0 & b1 & Hb & H0 & H1).
  exists (Z.lor b0 b1 =? 0). unfold level_empty. rewrite Hb. split; [done|].
  rewrite (offsets_words l b0 b1 Hb), Z.eqb_eq, Z.lor_eq_0_iff. split.
  - intros [-> ->]. done.
  - intros [E0 E1%fmap_nil_inv]%app_nil. split; apply word_zero; try done; intros i Hi.
    + destruct (Z.testbit b0 i) eqn:E; [|done]. assert (i ∈ word_bits b0) as Hin by by apply elem_of_word_bits.
      rewrite E0 in Hin. by apply not_elem_of_nil in Hin.
    + destruct (Z.testbit b1 i) eqn:E; [|done]. assert (i ∈ word_bits b1) as Hin by by apply elem_of_word_bits.
      rewrite E1 in Hin. by apply not_elem_of_nil in Hin.
Qed.
