(* ===== verification/SortedBook.v ===== *)
(** * SortedBook: one side of the order book

    Models [class SortedBook<IsBid>] of [src/api/orderbook/topBook.hpp], operation by
    operation, on the class's own storage: a window of 128 block pointers, the sorted
    [fallback] vector, the block pool and its free list, the entry array and its free
    list. A [PriceLevel*] is the block's index in [blocks].

    Every operation is in the option monad: [None] is undefined behaviour (an array
    access out of bounds, a read of an unwritten slot cell, a division by zero or a
    signed overflow in [toTick]). [SortedBookSpec] proves that it never happens on a
    reachable book and that the operations implement a finite map. *)

From S2P Require Import Prelude FixedPoint Model PriceLevel.

Definition WINDOW : Z := 128.
Definition MAX_LEVELS : Z := 8192.
Definition MAX_BLOCKS : Z := 1024.

Record SortedBook := {
  tickSize : Z;
  windowBase : Z;
  centred : bool;
  windowBlocks : Z;
  window : list (option Z);
  fallback : list Z;
  blocks : list PriceLevel;
  freeBlocks : list Z;
  freeBlockCount : Z;
  entries : list Entry;
  freeSlots : list Z;
  freeSlotCount : Z;
}.

Section Setters.
  Context (b : SortedBook).

Definition set_tickSize t := {| tickSize := t; windowBase := windowBase b; centred := centred b;
  windowBlocks := windowBlocks b; window := window b; fallback := fallback b; blocks := blocks b;
  freeBlocks := freeBlocks b; freeBlockCount := freeBlockCount b; entries := entries b;
  freeSlots := freeSlots b; freeSlotCount := freeSlotCount b |}.

(** The five members that place blocks. *)
Definition set_place base c n w f := {| tickSize := tickSize b; windowBase := base; centred := c;
  windowBlocks := n; window := w; fallback := f; blocks := blocks b;
  freeBlocks := freeBlocks b; freeBlockCount := freeBlockCount b; entries := entries b;
  freeSlots := freeSlots b; freeSlotCount := freeSlotCount b |}.

Definition set_blocks bl := {| tickSize := tickSize b; windowBase := windowBase b; centred := centred b;
  windowBlocks := windowBlocks b; window := window b; fallback := fallback b; blocks := bl;
  freeBlocks := freeBlocks b; freeBlockCount := freeBlockCount b; entries := entries b;
  freeSlots := freeSlots b; freeSlotCount := freeSlotCount b |}.

Definition set_freeBlocks fb n := {| tickSize := tickSize b; windowBase := windowBase b; centred := centred b;
  windowBlocks := windowBlocks b; window := window b; fallback := fallback b; blocks := blocks b;
  freeBlocks := fb; freeBlockCount := n; entries := entries b;
  freeSlots := freeSlots b; freeSlotCount := freeSlotCount b |}.

Definition set_entries es := {| tickSize := tickSize b; windowBase := windowBase b; centred := centred b;
  windowBlocks := windowBlocks b; window := window b; fallback := fallback b; blocks := blocks b;
  freeBlocks := freeBlocks b; freeBlockCount := freeBlockCount b; entries := es;
  freeSlots := freeSlots b; freeSlotCount := freeSlotCount b |}.

Definition set_freeSlots fs n := {| tickSize := tickSize b; windowBase := windowBase b; centred := centred b;
  windowBlocks := windowBlocks b; window := window b; fallback := fallback b; blocks := blocks b;
  freeBlocks := freeBlocks b; freeBlockCount := freeBlockCount b; entries := entries b;
  freeSlots := fs; freeSlotCount := n |}.
End Setters.

(** ** Reading the structure *)

(** [(price + tickSize / 2) / tickSize], truncated division. *)
Definition toTick (b : SortedBook) (price : Z) : option Z :=
  if tickSize b =? 0 then None else
  let s := price + Z.quot (tickSize b) 2 in
  let q := Z.quot s (tickSize b) in
  if in_int64 s && in_int64 q then Some q else None.

(** [std::lower_bound] by block id: the first position whose block is not below [id]. *)
Fixpoint lower_bound (bl : list PriceLevel) (ps : list Z) (id : Z) : option nat :=
  match ps with
  | [] => Some O
  | p :: ps' =>
      lv ← aget bl p;
      if blockId lv <? id then k ← lower_bound bl ps' id; Some (S k) else Some O
  end.

Definition fallbackFind (b : SortedBook) (id : Z) : option nat :=
  lower_bound (blocks b) (fallback b) id.

(** The inner option is the returned pointer, null being [None]. *)
Definition findBlock (b : SortedBook) (id : Z) : option (option Z) :=
  let offset := id - windowBase b in
  if (0 <=? offset) && (offset <? WINDOW) then aget (window b) offset
  else
    k ← fallbackFind b id;
    match fallback b !! k with
    | None => Some None
    | Some p => lv ← aget (blocks b) p; Some (if blockId lv =? id then Some p else None)
    end.

(** ** Moving blocks *)

Definition place (b : SortedBook) (p : Z) : option SortedBook :=
  lv ← aget (blocks b) p;
  let offset := blockId lv - windowBase b in
  if (0 <=? offset) && (offset <? WINDOW) then
    w ← aset (window b) offset (Some p);
    Some (set_place b (windowBase b) (centred b) (windowBlocks b + 1) w (fallback b))
  else
    k ← fallbackFind b (blockId lv);
    Some (set_place b (windowBase b) (centred b) (windowBlocks b) (window b)
            (take k (fallback b) ++ p :: drop k (fallback b))).

Fixpoint place_all (b : SortedBook) (ps : list Z) : option SortedBook :=
  match ps with
  | [] => Some b
  | p :: ps' => b' ← place b p; place_all b' ps'
  end.

(** The order [std::sort] uses; every pointer of [scratch] is valid, so the default
    is never reached. *)
Definition block_key (bl : list PriceLevel) (p : Z) : Z :=
  match aget bl p with Some lv => blockId lv | None => 0 end.

Definition block_le (bl : list PriceLevel) (p q : Z) : Prop := block_key bl p <= block_key bl q.
#[global] Instance block_le_dec bl : RelDecision (block_le bl).
Proof. intros p q. unfold block_le. apply _. Defined.

Definition recentre (b : SortedBook) (centreBlock : Z) : option SortedBook :=
  let scratch := omap id (window b) ++ fallback b in
  let b' := set_place b (centreBlock - WINDOW / 2) true 0 (replicate 128 None) [] in
  place_all b' (merge_sort (block_le (blocks b)) scratch).

Section Side.
  Context (IsBid : bool).

Definition beyondBestEdge (blockId base : Z) : bool :=
  if IsBid then base + WINDOW <=? blockId else blockId <? base.

(** The returned pointer is [None] when the pool is empty. *)
Definition acquireBlock (b : SortedBook) (id : Z) : option (SortedBook * option Z) :=
  if freeBlockCount b =? 0 then Some (b, None) else
  let n := freeBlockCount b - 1 in
  p ← aget (freeBlocks b) n;
  lv ← aget (blocks b) p;
  bl ← aset (blocks b) p (set_blockId lv id);
  let b1 := set_blocks (set_freeBlocks b (freeBlocks b) n) bl in
  b2 ← place b1 p;
  b3 ← (if negb (centred b1) || beyondBestEdge id (windowBase b1)
        then recentre b2 id else Some b2);
  Some (b3, Some p).

Definition releaseBlock (b : SortedBook) (p : Z) : option SortedBook :=
  lv ← aget (blocks b) p;
  let offset := blockId lv - windowBase b in
  b1 ← (if (0 <=? offset) && (offset <? WINDOW) then
          w ← aset (window b) offset None;
          Some (set_place b (windowBase b) (centred b) (windowBlocks b - 1) w (fallback b))
        else
          k ← fallbackFind b (blockId lv);
          if decide (k < length (fallback b))%nat
          then Some (set_place b (windowBase b) (centred b) (windowBlocks b) (window b)
                       (take k (fallback b) ++ drop (S k) (fallback b)))
          else None);
  fb ← aset (freeBlocks b1) (freeBlockCount b1) p;
  let b2 := set_freeBlocks b1 fb (freeBlockCount b1 + 1) in
  if (windowBlocks b2 =? 0) && negb (bool_decide (fallback b2 = [])) then
    best ← (if IsBid then last (fallback b2) else head (fallback b2));
    blv ← aget (blocks b2) best;
    recentre b2 (blockId blv)
  else Some b2.

(** ** Public interface *)

Definition clear (b : SortedBook) : SortedBook :=
  {| tickSize := tickSize b;
     windowBase := windowBase b;
     centred := false;
     windowBlocks := 0;
     window := replicate 128 None;
     fallback := [];
     blocks := (fun l => set_bits l [0; 0]) <$> blocks b;
     freeBlocks := (fun i => MAX_BLOCKS - 1 - i) <$> seqZ 0 MAX_BLOCKS;
     freeBlockCount := MAX_BLOCKS;
     entries := entries b;
     freeSlots := (fun i => MAX_LEVELS - 1 - i) <$> seqZ 0 MAX_LEVELS;
     freeSlotCount := MAX_LEVELS |}.

(** The constructor: the member initialisers, then [clear()]. The free lists are
    filled by [clear], their initial contents do not matter. *)
Definition new_book : SortedBook :=
  clear {| tickSize := 0; windowBase := 0; centred := false; windowBlocks := 0;
           window := replicate 128 None; fallback := [];
           blocks := replicate (Z.to_nat MAX_BLOCKS) new_level;
           freeBlocks := []; freeBlockCount := 0;
           entries := replicate (Z.to_nat MAX_LEVELS) Entry_default;
           freeSlots := []; freeSlotCount := 0 |}.

Definition setTickSize (b : SortedBook) (t : Z) : SortedBook := set_tickSize b t.

(** [update(price, volume)]: the new book and the returned flag. *)
Definition update (b : SortedBook) (price volume : Z) : option (SortedBook * bool) :=
  tick ← toTick b price;
  let id := Z.shiftr tick 7 in
  let offset := Z.land tick 127 in
  level ← findBlock b id;
  exists_ ← (match level with
             | None => Some false
             | Some p => lv ← aget (blocks b) p; level_test lv offset
             end);
  if volume =? 0 then
    match level, exists_ with
    | Some p, true =>
        lv ← aget (blocks b) p;
        lv' ← level_reset lv offset;
        bl ← aset (blocks b) p lv';
        s ← slot_at lv' offset;
        fs ← aset (freeSlots b) (freeSlotCount b) s;
        let b1 := set_freeSlots (set_blocks b bl) fs (freeSlotCount b + 1) in
        e ← level_empty lv';
        if (e : bool) then b2 ← releaseBlock b1 p; Some (b2, true) else Some (b1, true)
    | _, _ => Some (b, true)
    end
  else
  match level, exists_ with
  | Some p, true =>
      lv ← aget (blocks b) p;
      s ← slot_at lv offset;
      e ← aget (entries b) s;
      es ← aset (entries b) s (assignValues e price volume);
      Some (set_entries b es, true)
  | _, _ =>
      if freeSlotCount b =? 0 then Some (b, false) else
      '(b1, level1) ← (match level with
                       | Some p => Some (b, Some p)
                       | None => acquireBlock b id
                       end);
      match level1 with
      | None => Some (b1, false)
      | Some p =>
          let n := freeSlotCount b1 - 1 in
          s ← aget (freeSlots b1) n;
          lv ← aget (blocks b1) p;
          ss ← aset (slots lv) offset (Some s);
          lv' ← level_set (set_slots lv ss) offset;
          bl ← aset (blocks b1) p lv';
          e ← aget (entries b1) s;
          es ← aset (entries b1) s (assignValues e price volume);
          Some (set_entries (set_blocks (set_freeSlots b1 (freeSlots b1) n) bl) es, true)
      end
  end.

(** [find(price, out)]: [Some (Some e)] when it returns true with [out = e]. *)
Definition find (b : SortedBook) (price : Z) : option (option Entry) :=
  tick ← toTick b price;
  level ← findBlock b (Z.shiftr tick 7);
  let offset := Z.land tick 127 in
  match level with
  | None => Some None
  | Some p =>
      lv ← aget (blocks b) p;
      t ← level_test lv offset;
      if (t : bool) then s ← slot_at lv offset; e ← aget (entries b) s; Some (Some e)
      else Some None
  end.

Section ForEachBest.
  Context {St : Type} (fn : Entry -> St -> option (St * bool)).

Definition visit_slot (b : SortedBook) (slot : Z) (st : St) : option (St * bool) :=
  e ← aget (entries b) slot; fn e st.

(** One of the three loops: visit blocks in the order given until one stops. *)
Fixpoint forEach_blocks (b : SortedBook) (ps : list Z) (st : St) : option (St * bool) :=
  match ps with
  | [] => Some (st, true)
  | p :: ps' =>
      lv ← aget (blocks b) p;
      '(st', go) ← level_forEach (visit_slot b) IsBid lv st;
      if (go : bool) then forEach_blocks b ps' st' else Some (st', false)
  end.

(** The three ranges, in the order of the [if constexpr]: the part of [fallback] above
    (below) the window, the window, the rest of [fallback]; backwards for bids. *)
Definition best_order (b : SortedBook) (low high : nat) : list (list Z) :=
  if IsBid
  then [reverse (drop high (fallback b)); reverse (omap id (window b)); reverse (take low (fallback b))]
  else [take low (fallback b); omap id (window b); drop high (fallback b)].

Fixpoint forEach_ranges (b : SortedBook) (rs : list (list Z)) (st : St) : option St :=
  match rs with
  | [] => Some st
  | r :: rs' =>
      '(st', go) ← forEach_blocks b r st;
      if (go : bool) then forEach_ranges b rs' st' else Some st'
  end.

Definition forEachBest (b : SortedBook) (st : St) : option St :=
  low ← fallbackFind b (windowBase b);
  high ← fallbackFind b (windowBase b + WINDOW);
  forEach_ranges b (best_order b low high) st.
End ForEachBest.

(** [top(out, count)]: the entries written to [out], in order. *)
Definition top (b : SortedBook) (count : nat) : option (list Entry) :=
  if (count =? 0)%nat then Some [] else
  forEachBest (fun e written => Some (written ++ [e], (length (written ++ [e]) <? count)%nat)) b [].

Definition levelCount (b : SortedBook) : Z := MAX_LEVELS - freeSlotCount b.

End Side.

Example book_demo :
  (let b := setTickSize new_book 1000000 in
   '(b, r1) ← update true b 10000000000 5;
   '(b, r2) ← update true b 10001000000 7;
   '(b, r3) ← update true b 90001000000 9;
   '(b, r4) ← update true b 10000000000 0;
   t ← top true b 10;
   Some (t, levelCount b, (r1, r2, r3, r4)))
  = Some ([{| price := 90001000000; volume := 9 |}; {| price := 10001000000; volume := 7 |}], 2,
          (true, true, true, true)).
Proof. vm_compute. reflexivity. Qed.
