(* ===== verification/FreeList.v ===== *)
(** * FreeList: the index stacks of [SortedBook]

    [freeBlocks]/[freeBlockCount] and [freeSlots]/[freeSlotCount] are both arrays of
    [cap] indices used as a stack: the first [n] cells are the free indices. This file
    states what such a stack means, relative to the set of indices in use, and proves
    it for the two moves the code makes ([x = a[--n]] and [a[n++] = x]). *)

From S2P Require Import Prelude.

(** The first [n] cells are exactly the indices below [cap] not in use, once each. *)
Definition free_list (cap : Z) (fl : list Z) (n : Z) (used : Z -> Prop) : Prop :=
  Z.of_nat (length fl) = cap /\ 0 <= n <= cap /\ NoDup (take (Z.to_nat n) fl) /\
  forall x, x ∈ take (Z.to_nat n) fl <-> 0 <= x < cap /\ ~ used x.

Section FreeList.
  Context (cap : Z).
  Implicit Types (fl : list Z) (used : Z -> Prop).

Lemma free_list_ext fl n used used' : (forall x, 0 <= x < cap -> used x <-> used' x) ->
  free_list cap fl n used -> free_list cap fl n used'.
Proof.
  intros Hu (Hl & Hn & Hnd & Hx). split_and!; try done; try lia.
  intros x. rewrite Hx. split; intros [Hr Hnu]; (split; [done|]); intros Hux; apply Hnu; by apply Hu.
Qed.

Lemma free_list_init fl : fl ≡ₚ seqZ 0 cap -> 0 <= cap -> free_list cap fl cap (fun _ => False).
Proof.
  intros Hp Hc. assert (Hl : length fl = Z.to_nat cap) by (by rewrite Hp, length_seqZ).
  split_and!; try lia; rewrite take_ge by lia.
  - rewrite Hp. apply NoDup_seqZ.
  - intros x. rewrite Hp, elem_of_seqZ. intuition lia.
Qed.

Lemma free_list_pop fl n used : free_list cap fl n used -> n <> 0 ->
  exists x, aget fl (n - 1) = Some x /\ 0 <= x < cap /\ ~ used x /\
    free_list cap fl (n - 1) (fun y => used y \/ y = x).
Proof.
  intros (Hl & Hn & Hnd & Hx) Hne.
  destruct (aget_in_range fl (n - 1)) as [x Hg]; [lia|]. exists x.
  assert (Ht : take (Z.to_nat n) fl = take (Z.to_nat (n - 1)) fl ++ [x]).
  { replace (Z.to_nat n) with (S (Z.to_nat (n - 1))) by lia. apply take_S_r.
    unfold aget in Hg. by replace (n - 1 <? 0) with false in Hg by zbool. }
  rewrite Ht in Hnd, Hx. apply NoDup_app in Hnd as (Hnd & Hdis & _).
  destruct (proj1 (Hx x)) as [Hr Hu]; [set_solver|].
  unfold free_list. split_and!; try done; try lia.
  intros y. specialize (Hx y). rewrite elem_of_app, list_elem_of_singleton in Hx. split.
  - intros Hy. destruct (proj1 Hx (or_introl Hy)) as [? Hy']. split; [done|].
    intros [?| ->]; [done|]. apply (Hdis x Hy). set_solver.
  - intros [Hy Hny]. destruct (proj2 Hx) as [?|?]; [|done|]; tauto.
Qed.

Lemma free_list_push fl n used x : free_list cap fl n used -> used x -> 0 <= x < cap ->
  exists fl', aset fl n x = Some fl' /\ free_list cap fl' (n + 1) (fun y => used y /\ y <> x).
Proof.
  intros (Hl & Hn & Hnd & Hx) Hu Hr.
  assert (Hlt : n < cap).
  { destruct (Z.lt_ge_cases n cap); [done|]. assert (n = cap) as -> by lia. exfalso.
    assert (length (x :: take (Z.to_nat cap) fl) <= length (seqZ 0 cap))%nat as Hle.
    { apply submseteq_length, NoDup_submseteq.
      - constructor; [|done]. intros Hin%Hx. tauto.
      - intros y [->|Hy]%elem_of_cons; [by apply elem_of_seqZ; lia|].
        apply Hx in Hy. apply elem_of_seqZ. lia. }
    rewrite take_ge in Hle by lia. cbn in Hle. rewrite length_seqZ in Hle. lia. }
  exists (<[Z.to_nat n := x]> fl). split; [by apply aset_in_range; lia|].
  assert (Ht : take (Z.to_nat (n + 1)) (<[Z.to_nat n := x]> fl) = take (Z.to_nat n) fl ++ [x]).
  { replace (Z.to_nat (n + 1)) with (S (Z.to_nat n)) by lia.
    rewrite (take_S_r _ _ x) by (apply list_lookup_insert_eq; lia). by rewrite take_insert_ge by lia. }
  split_and!; rewrite ?length_insert; try lia; rewrite Ht.
  - apply NoDup_app. split_and!; [done| |apply NoDup_singleton].
    intros y Hy ->%list_elem_of_singleton. apply Hx in Hy. tauto.
  - intros y. rewrite elem_of_app, list_elem_of_singleton, Hx. split.
    + intros [[? ?]| ->]; [tauto|]. split; [done|]. tauto.
    + intros [? Hn']. destruct (Z.eq_dec y x); [by right|]. left. tauto.
Qed.

(** With the indices in use listed once each, the counts add up to the capacity. *)
Lemma free_list_count fl n used l : free_list cap fl n used -> NoDup l ->
  (forall x, x ∈ l <-> 0 <= x < cap /\ used x) -> (forall x, Decision (used x)) ->
  n + Z.of_nat (length l) = cap.
Proof.
  intros (Hl & Hn & Hnd & Hx) Hndl Hlu Hdec.
  assert (take (Z.to_nat n) fl ++ l ≡ₚ seqZ 0 cap) as Hp.
  { apply NoDup_Permutation; [|apply NoDup_seqZ|].
    - apply NoDup_app. split_and!; try done. intros x Hx1 Hx2. apply Hx in Hx1. apply Hlu in Hx2. tauto.
    - intros x. rewrite elem_of_app, elem_of_seqZ, Hx, Hlu. destruct (Hdec x); intuition lia. }
  apply Permutation_length in Hp. rewrite length_app, length_take, length_seqZ in Hp. lia.
Qed.

End FreeList.
