(* ===== verification/BlockDir.v ===== *)
(** * BlockDir: the window and the fallback as one directory of blocks

    First refinement layer of [SortedBook]. [dir_ok b B] says that the window and the
    sorted [fallback] vector of [b] together represent the finite map [B] from block id
    to block pointer. [findBlock] is lookup in [B], [place] is insertion, the removal of
    [releaseBlock] is deletion, and [recentre] changes the representation only. *)

From S2P Require Import Prelude Model PriceLevel SortedBook FreeList.

Definition in_window (b : SortedBook) (id : Z) : Prop :=
  windowBase b <= id < windowBase b + WINDOW.

#[global] Instance in_window_dec b id : Decision (in_window b id).
Proof. unfold in_window. apply _. Defined.

Notation key b := (block_key (blocks b)).

Record dir_ok (b : SortedBook) (B : gmap Z Z) : Prop := {
  dir_window_length : length (window b) = 128%nat;
  dir_window : forall i p, 0 <= i < WINDOW ->
    aget (window b) i = Some (Some p) <-> B !! (windowBase b + i) = Some p;
  dir_fallback : forall p, p ∈ fallback b <-> exists id, B !! id = Some p /\ ~ in_window b id;
  dir_sorted : StronglySorted (fun p q => key b p < key b q) (fallback b);
  dir_count : windowBlocks b = Z.of_nat (length (omap id (window b)));
  dir_blocks : forall id p, B !! id = Some p -> exists lv, aget (blocks b) p = Some lv /\ blockId lv = id;
}.

Lemma window_test b id :
  (0 <=? id - windowBase b) && (id - windowBase b <? WINDOW) = bool_decide (in_window b id).
Proof. unfold in_window, WINDOW. case_bool_decide; zbool. Qed.

Lemma dir_key b B id p : dir_ok b B -> B !! id = Some p -> key b p = id.
Proof. intros Hd Hp. destruct (dir_blocks _ _ Hd _ _ Hp) as (lv & Hlv & <-). unfold block_key. by rewrite Hlv. Qed.

Lemma dir_inj b B id1 id2 p : dir_ok b B -> B !! id1 = Some p -> B !! id2 = Some p -> id1 = id2.
Proof. intros Hd H1 H2. rewrite <- (dir_key _ _ _ _ Hd H1). by apply (dir_key _ _ _ _ Hd). Qed.

Lemma dir_fallback_key b B p : dir_ok b B -> p ∈ fallback b -> B !! key b p = Some p /\ ~ in_window b (key b p).
Proof.
  intros Hd (id & Hid & Hw)%(dir_fallback _ _ Hd). by rewrite (dir_key _ _ _ _ Hd Hid).
Qed.

(** [dir_ok] depends on the placement members and on the ids of the placed blocks. *)
Lemma dir_ok_frame b b' B : dir_ok b B -> windowBase b' = windowBase b -> windowBlocks b' = windowBlocks b ->
  window b' = window b -> fallback b' = fallback b ->
  (forall id p, B !! id = Some p -> blockId <$> aget (blocks b') p = blockId <$> aget (blocks b) p) ->
  dir_ok b' B.
Proof.
  intros Hd Ebase Ecount Ewin Efb Hkeys.
  assert (Hkey : forall p, p ∈ fallback b -> key b' p = key b p).
  { intros p (id & Hid & _)%(dir_fallback _ _ Hd). specialize (Hkeys _ _ Hid).
    destruct (dir_blocks _ _ Hd _ _ Hid) as (lv & Hlv & _). rewrite Hlv in Hkeys.
    unfold block_key. rewrite Hlv. destruct (aget (blocks b') p); [|done]. by injection Hkeys. }
  destruct Hd as [Hl Hw Hf Hs Hc Hb]. split; unfold in_window in *; rewrite ?Ebase, ?Ecount, ?Ewin, ?Efb; try done.
  - clear - Hs Hkey. induction Hs as [|p ps Hs IH Hp]; [constructor|]. constructor.
    + apply IH. intros q Hq. apply Hkey. by right.
    + rewrite Forall_forall in Hp |- *. intros q Hq. rewrite !Hkey by set_solver. by apply Hp.
  - intros id p Hp. specialize (Hkeys _ _ Hp). destruct (Hb _ _ Hp) as (lv & Hlv & <-). rewrite Hlv in Hkeys.
    destruct (aget (blocks b') p) as [lv'|]; [|done]. exists lv'. split; [done|]. by injection Hkeys.
Qed.

(** ** [lower_bound] *)

Lemma lower_bound_spec bl ps id : (forall p, p ∈ ps -> is_Some (aget bl p)) ->
  exists k, lower_bound bl ps id = Some k /\ (k <= length ps)%nat /\
    (forall p, p ∈ take k ps -> block_key bl p < id) /\
    (forall p ps', drop k ps = p :: ps' -> id <= block_key bl p).
Proof.
  induction ps as [|p ps IH]; intros Hv; cbn [lower_bound].
  - exists O. split_and!; [done|cbn; lia|set_solver|done].
  - destruct (Hv p ltac:(left)) as [lv Hlv]. rewrite Hlv. cbn [mbind option_bind].
    assert (Hkey : block_key bl p = blockId lv) by (unfold block_key; by rewrite Hlv).
    destruct (Z.ltb_spec (blockId lv) id) as [Hlt|Hge].
    + destruct IH as (k & Hk & Hle & Hlo & Hhi); [intros q Hq; apply Hv; by right|].
      rewrite Hk. cbn. exists (S k). split_and!; [done|lia| |done].
      intros q [->|Hq]%elem_of_cons; [lia|by apply Hlo].
    + exists O. split_and!; [done|lia|set_solver|]. intros q ps' [= -> _]. lia.
Qed.

Lemma fallbackFind_spec b B id : dir_ok b B ->
  exists k, fallbackFind b id = Some k /\ (k <= length (fallback b))%nat /\
    (forall p, p ∈ take k (fallback b) -> key b p < id) /\
    (forall p, p ∈ drop k (fallback b) -> id <= key b p).
Proof.
  intros Hd. destruct (lower_bound_spec (blocks b) (fallback b) id) as (k & Hk & Hle & Hlo & Hhi).
  { intros p (i & Hi & _)%(dir_fallback _ _ Hd). destruct (dir_blocks _ _ Hd _ _ Hi) as (lv & -> & _). eauto. }
  exists k. split_and!; try done. intros p Hp.
  pose proof (dir_sorted _ _ Hd) as Hs. rewrite <- (take_drop k (fallback b)) in Hs.
  apply StronglySorted_app_1_r in Hs. destruct (drop k (fallback b)) as [|q ps] eqn:E; [set_solver|].
  specialize (Hhi q ps eq_refl). apply StronglySorted_cons in Hs as [Hq _]. rewrite Forall_forall in Hq.
  apply elem_of_cons in Hp as [->|Hp]; [done|]. specialize (Hq _ Hp). cbn in Hq. lia.
Qed.

(** ** [findBlock] is lookup *)

Lemma findBlock_spec b B id : dir_ok b B -> findBlock b id = Some (B !! id).
Proof.
  intros Hd. unfold findBlock. rewrite window_test. case_bool_decide as Hw.
  - pose proof (dir_window_length _ _ Hd). unfold in_window, WINDOW in Hw.
    destruct (aget_in_range (window b) (id - windowBase b)) as [o Ho]; [lia|]. rewrite Ho. f_equal.
    assert (Hwin : forall p, o = Some p <-> B !! id = Some p).
    { intros p. replace id with (windowBase b + (id - windowBase b)) by lia.
      rewrite <- (dir_window _ _ Hd) by (unfold WINDOW; lia). rewrite Ho. naive_solver. }
    apply option_eq. exact Hwin.
  - destruct (fallbackFind_spec b B id Hd) as (k & Hk & Hle & Hlo & Hhi). rewrite Hk. cbn [mbind option_bind].
    assert (Hin : forall q, B !! id = Some q -> q ∈ drop k (fallback b)).
    { intros q Hq. assert (q ∈ fallback b) as Hqf by (apply (dir_fallback _ _ Hd); eauto).
      rewrite <- (take_drop k (fallback b)), elem_of_app in Hqf. destruct Hqf as [Hq'|]; [|done].
      specialize (Hlo _ Hq'). rewrite (dir_key _ _ _ _ Hd Hq) in Hlo. lia. }
    replace (fallback b !! k) with (drop k (fallback b) !! O) by (rewrite lookup_drop; f_equal; lia).
    pose proof (dir_sorted _ _ Hd) as Hs. rewrite <- (take_drop k (fallback b)) in Hs.
    apply StronglySorted_app_1_r in Hs.
    destruct (drop k (fallback b)) as [|p ps] eqn:E; cbn.
    + destruct (B !! id) as [q|]; [|done]. specialize (Hin q eq_refl). set_solver.
    + destruct (dir_fallback_key b B p Hd) as [Hp _].
      { rewrite <- (take_drop k (fallback b)), E. set_solver. }
      destruct (dir_blocks _ _ Hd _ _ Hp) as (lv & -> & Hid). cbn. f_equal.
      destruct (Z.eqb_spec (blockId lv) id) as [He|Hne]; [by rewrite <- Hp, <- Hid, He|].
      destruct (B !! id) as [q|] eqn:Hq; [|done]. exfalso. specialize (Hin q eq_refl).
      apply elem_of_cons in Hin as [->|Hin]; [by rewrite (dir_key _ _ _ _ Hd Hq) in Hid|].
      apply StronglySorted_cons in Hs as [Hs _]. rewrite Forall_forall in Hs. specialize (Hs _ Hin). cbn in Hs.
      rewrite (dir_key _ _ _ _ Hd Hq) in Hs. specialize (Hhi p ltac:(by left)). lia.
Qed.

(** ** [place] is insertion *)

Lemma omap_id_window (w : list (option Z)) i o o' : aget w i = Some o ->
  exists n, length (omap id w) = (n + length (option_list o))%nat /\
    length (omap id (<[Z.to_nat i := o']> w)) = (n + length (option_list o'))%nat.
Proof.
  intros Ho. pose proof (aget_Some_range _ _ _ Ho). unfold aget in Ho.
  replace (i <? 0) with false in Ho by zbool.
  exists (length (omap id (take (Z.to_nat i) w)) + length (omap id (drop (S (Z.to_nat i)) w)))%nat.
  rewrite insert_take_drop by lia. rewrite <- (take_drop_middle _ _ _ Ho) at 1.
  rewrite !omap_app, !length_app. destruct o, o'; cbn; lia.
Qed.

Lemma window_slot b B id : dir_ok b B -> in_window b id -> aget (window b) (id - windowBase b) = Some (B !! id).
Proof.
  intros Hd Hw. pose proof (findBlock_spec b B id Hd) as Hf. unfold findBlock in Hf.
  by rewrite window_test, bool_decide_true in Hf.
Qed.

(** Writing one window cell, and writing the fallback. *)
Lemma dir_window_write b B id o w : dir_ok b B -> in_window b id ->
  (forall p, o = Some p -> exists lv, aget (blocks b) p = Some lv /\ blockId lv = id) ->
  aset (window b) (id - windowBase b) o = Some w ->
  dir_ok (set_place b (windowBase b) (centred b)
            (windowBlocks b - Z.of_nat (length (option_list (B !! id))) + Z.of_nat (length (option_list o)))
            w (fallback b))
    (partial_alter (fun _ => o) id B).
Proof.
  intros Hd Hw Ho Hset. pose proof (window_slot b B id Hd Hw) as Hslot.
  destruct (omap_id_window _ _ _ o Hslot) as (n & Hn1 & Hn2).
  destruct (aset_Some _ _ _ _ Hset) as [Hr Hweq].
  split; cbn [set_place windowBase window fallback blocks windowBlocks].
  - rewrite (aset_length _ _ _ _ Hset). by apply dir_window_length with (B := B).
  - intros i p Hi. destruct (Z.eq_dec (windowBase b + i) id) as [<-|Hne].
    + rewrite lookup_partial_alter_eq. replace i with (windowBase b + i - windowBase b) at 1 by lia.
      rewrite (aget_aset_eq _ _ _ _ Hset). naive_solver.
    + rewrite lookup_partial_alter_ne by done. rewrite (aget_aset_ne _ _ _ _ _ Hset) by lia.
      by apply dir_window.
  - intros p. rewrite (dir_fallback _ _ Hd). unfold in_window in *. cbn. split; intros (i & Hi & Hni); exists i.
    + by rewrite lookup_partial_alter_ne by (intros ->; tauto).
    + by rewrite lookup_partial_alter_ne in Hi by (intros ->; tauto).
  - apply (dir_sorted _ _ Hd).
  - rewrite (dir_count _ _ Hd), Hweq. lia.
  - intros i p. destruct (Z.eq_dec i id) as [->|Hne].
    + rewrite lookup_partial_alter_eq. apply Ho.
    + rewrite lookup_partial_alter_ne by done. apply (dir_blocks _ _ Hd).
Qed.

Lemma dir_fallback_write b B id o f : dir_ok b B -> ~ in_window b id ->
  (forall p, o = Some p -> exists lv, aget (blocks b) p = Some lv /\ blockId lv = id) ->
  (forall p, p ∈ f <-> o = Some p \/ p ∈ fallback b /\ key b p <> id) ->
  StronglySorted (fun p q => key b p < key b q) f ->
  dir_ok (set_place b (windowBase b) (centred b) (windowBlocks b) (window b) f)
    (partial_alter (fun _ => o) id B).
Proof.
  intros Hd Hw Ho Hin Hs.
  split; cbn [set_place windowBase window fallback blocks windowBlocks].
  - apply (dir_window_length _ _ Hd).
  - intros i p Hi. rewrite lookup_partial_alter_ne by (unfold in_window in Hw; lia). by apply dir_window.
  - intros p. rewrite Hin. split.
    + intros [->|[Hp Hk]].
      * exists id. by rewrite lookup_partial_alter_eq.
      * destruct (dir_fallback_key _ _ _ Hd Hp) as [? ?]. exists (key b p).
        by rewrite lookup_partial_alter_ne by congruence.
    + intros (i & Hi & Hni). destruct (Z.eq_dec i id) as [->|Hne].
      * left. by rewrite lookup_partial_alter_eq in Hi.
      * right. rewrite lookup_partial_alter_ne in Hi by done. split.
        -- apply (dir_fallback _ _ Hd). eauto.
        -- by rewrite (dir_key _ _ _ _ Hd Hi).
  - done.
  - apply (dir_count _ _ Hd).
  - intros i p. destruct (Z.eq_dec i id) as [->|Hne].
    + rewrite lookup_partial_alter_eq. apply Ho.
    + rewrite lookup_partial_alter_ne by done. apply (dir_blocks _ _ Hd).
Qed.

Lemma place_spec b B p lv : dir_ok b B -> aget (blocks b) p = Some lv -> B !! blockId lv = None ->
  exists n w f, place b p = Some (set_place b (windowBase b) (centred b) n w f) /\
    dir_ok (set_place b (windowBase b) (centred b) n w f) (<[blockId lv := p]> B).
Proof.
  intros Hd Hlv Hnone. unfold place. rewrite Hlv. cbn [mbind option_bind]. rewrite window_test.
  assert (Ho : forall q, Some p = Some q -> exists lv', aget (blocks b) q = Some lv' /\ blockId lv' = blockId lv)
    by (intros q [= <-]; eauto).
  case_bool_decide as Hw.
  - pose proof (dir_window_length _ _ Hd). pose proof Hw as Hw'. unfold in_window, WINDOW in Hw'.
    pose proof (aset_in_range (window b) (blockId lv - windowBase b) (Some p) ltac:(lia)) as Hset.
    rewrite Hset. eexists _, _, _. split; [done|].
    pose proof (dir_window_write b B _ (Some p) _ Hd Hw Ho Hset) as Hres.
    rewrite Hnone in Hres.
    assert (windowBlocks b - Z.of_nat (length (option_list (@None Z)))
      + Z.of_nat (length (option_list (Some p))) = windowBlocks b + 1) as E by (cbn; lia).
    by rewrite E in Hres.
  - destruct (fallbackFind_spec b B (blockId lv) Hd) as (k & Hk & Hle & Hlo & Hhi). rewrite Hk.
    eexists _, _, _. split; [done|]. apply dir_fallback_write; try done.
    + intros q. rewrite elem_of_app, elem_of_cons.
      assert (q ∈ fallback b <-> q ∈ take k (fallback b) \/ q ∈ drop k (fallback b)) as Hq
        by (rewrite <- (take_drop k (fallback b)) at 1; apply elem_of_app).
      assert (q ∈ fallback b -> key b q <> blockId lv).
      { intros [Hq' _]%(dir_fallback_key _ _ _ Hd) E. congruence. }
      rewrite Hq in *. naive_solver.
    + assert (Hkp : key b p = blockId lv) by (unfold block_key; by rewrite Hlv).
      pose proof (dir_sorted _ _ Hd) as Hs. rewrite <- (take_drop k (fallback b)) in Hs.
      apply StronglySorted_app in Hs as (Hs1 & Hs2 & Hs3). apply StronglySorted_app_2.
      * intros q1 q2 Hq1 [->|Hq2]%elem_of_cons; [rewrite Hkp; by apply Hlo|by apply Hs1].
      * done.
      * apply StronglySorted_cons. split; [|done]. rewrite Forall_forall. intros q Hq. rewrite Hkp.
        specialize (Hhi _ Hq). assert (key b q <> blockId lv); [|lia]. intros E.
        destruct (dir_fallback_key b B q Hd) as [Hq' _]; [|congruence].
        rewrite <- (take_drop k (fallback b)). set_solver.
Qed.

(** ** [recentre] changes the representation only *)

Lemma place_all_spec ps : forall b B, dir_ok b B ->
  (forall p, p ∈ ps -> is_Some (aget (blocks b) p) /\ B !! key b p = None) -> NoDup (key b <$> ps) ->
  exists n w f B', place_all b ps = Some (set_place b (windowBase b) (centred b) n w f) /\
    dir_ok (set_place b (windowBase b) (centred b) n w f) B' /\
    forall id p, B' !! id = Some p <-> B !! id = Some p \/ p ∈ ps /\ key b p = id.
Proof.
  induction ps as [|p ps IH]; intros b B Hd Hps Hnd; cbn [place_all].
  - exists (windowBlocks b), (window b), (fallback b), B. split_and!; [by destruct b|by destruct b|set_solver].
  - destruct (Hps p ltac:(by left)) as [[lv Hlv] HpB].
    assert (Hkp : key b p = blockId lv) by (unfold block_key; by rewrite Hlv).
    rewrite Hkp in HpB. destruct (place_spec b B p lv Hd Hlv HpB) as (n1 & w1 & f1 & -> & Hd1).
    rewrite fmap_cons, NoDup_cons in Hnd. destruct Hnd as [Hnp Hnd].
    destruct (IH _ _ Hd1) as (n & w & f & B' & Hpl & Hd' & HB'); cbn [set_place blocks] in *.
    + intros q Hq. destruct (Hps q ltac:(by right)) as [Hv Hnone]. split; [done|].
      rewrite lookup_insert_ne; [done|]. rewrite <- Hkp. intros E. apply Hnp. rewrite E. by apply list_elem_of_fmap_2.
    + done.
    + cbn [mbind option_bind]. rewrite Hpl. exists n, w, f, B'. split_and!; [done|done|].
      intros id q. rewrite HB'. destruct (Z.eq_dec id (blockId lv)) as [->|Hne].
      * rewrite lookup_insert_eq, HpB. set_solver.
      * rewrite lookup_insert_ne by done. rewrite elem_of_cons. naive_solver.
Qed.

Lemma elem_of_omap_id (w : list (option Z)) p : p ∈ omap id w <-> exists k, w !! k = Some (Some p).
Proof.
  rewrite list_elem_of_omap. setoid_rewrite list_elem_of_lookup. naive_solver.
Qed.

Lemma NoDup_omap_id (w : list (option Z)) :
  (forall i j p, w !! i = Some (Some p) -> w !! j = Some (Some p) -> i = j) -> NoDup (omap id w).
Proof.
  induction w as [|o w IH]; intros Hw; [constructor|].
  assert (NoDup (omap id w)) as Hnd by (apply IH; intros i j p Hi Hj; by injection (Hw (S i) (S j) p Hi Hj)).
  destruct o as [p|]; [|done]. change (NoDup (p :: omap id w)). constructor; [|done].
  rewrite elem_of_omap_id. intros [k Hk]. by discriminate (Hw O (S k) p eq_refl Hk).
Qed.

Lemma elem_of_window b B p : dir_ok b B ->
  p ∈ omap id (window b) <-> exists id, B !! id = Some p /\ in_window b id.
Proof.
  intros Hd. rewrite elem_of_omap_id. pose proof (dir_window_length _ _ Hd). split.
  - intros [k Hk]. pose proof (lookup_lt_Some _ _ _ Hk). exists (windowBase b + Z.of_nat k). split.
    + apply (dir_window _ _ Hd); [unfold WINDOW; lia|]. by rewrite aget_nat.
    + unfold in_window, WINDOW. lia.
  - intros (id & Hid & Hw). exists (Z.to_nat (id - windowBase b)). pose proof (window_slot b B id Hd Hw) as Hs.
    unfold in_window in Hw. rewrite Hid in Hs. unfold aget in Hs.
    by replace (id - windowBase b <? 0) with false in Hs by zbool.
Qed.

Lemma window_key b B k p : dir_ok b B -> window b !! k = Some (Some p) ->
  key b p = windowBase b + Z.of_nat k /\ B !! (windowBase b + Z.of_nat k) = Some p.
Proof.
  intros Hd Hk. pose proof (dir_window_length _ _ Hd). pose proof (lookup_lt_Some _ _ _ Hk).
  assert (B !! (windowBase b + Z.of_nat k) = Some p) as HB.
  { apply (dir_window _ _ Hd); [unfold WINDOW; lia|]. by rewrite aget_nat. }
  split; [|done]. by apply (dir_key _ _ _ _ Hd).
Qed.

(** [scratch] holds every placed block once. *)
Lemma scratch_spec b B : dir_ok b B ->
  (forall p, p ∈ omap id (window b) ++ fallback b <-> exists id, B !! id = Some p) /\
  NoDup (key b <$> (omap id (window b) ++ fallback b)).
Proof.
  intros Hd.
  assert (Hin : forall p, p ∈ omap id (window b) ++ fallback b <-> exists id, B !! id = Some p).
  { intros p. rewrite elem_of_app, (elem_of_window b B p Hd), (dir_fallback _ _ Hd). split.
    - naive_solver.
    - intros [id Hid]. destruct (decide (in_window b id)); naive_solver. }
  split; [done|]. apply NoDup_fmap_2_strong.
  - intros p q [i Hi]%Hin [j Hj]%Hin. rewrite (dir_key _ _ _ _ Hd Hi), (dir_key _ _ _ _ Hd Hj). congruence.
  - apply NoDup_app. split_and!.
    + apply NoDup_omap_id. intros i j p Hi Hj. destruct (window_key b B i p Hd Hi), (window_key b B j p Hd Hj). lia.
    + intros p (i & Hi & Hw)%(elem_of_window _ _ _ Hd) (j & Hj & Hn)%(dir_fallback _ _ Hd).
      by rewrite (dir_inj _ _ _ _ _ Hd Hi Hj) in Hw.
    + pose proof (dir_sorted _ _ Hd) as Hs. clear - Hs. induction Hs as [|p ps Hs IH Hp]; constructor; [|done].
      rewrite Forall_forall in Hp. intros Hin. specialize (Hp _ Hin). cbn in Hp. lia.
Qed.

Lemma dir_ok_empty b base c : dir_ok (set_place b base c 0 (replicate 128 None) []) ∅.
Proof.
  split; cbn [set_place window windowBase fallback windowBlocks blocks]; try done.
  - intros i p Hi. rewrite aget_replicate by (unfold WINDOW in Hi; lia). done.
  - intros p. split; [set_solver|]. by intros (? & ? & _).
  - constructor.
Qed.

Lemma recentre_spec b B c : dir_ok b B ->
  exists n w f, recentre b c = Some (set_place b (c - WINDOW / 2) true n w f) /\
    dir_ok (set_place b (c - WINDOW / 2) true n w f) B.
Proof.
  intros Hd. destruct (scratch_spec b B Hd) as [Hin Hnd]. unfold recentre.
  pose proof (merge_sort_Permutation (block_le (blocks b)) (omap id (window b) ++ fallback b)) as Hp.
  destruct (place_all_spec (merge_sort (block_le (blocks b)) (omap id (window b) ++ fallback b))
    _ _ (dir_ok_empty b (c - WINDOW / 2) true)) as (n & w & f & B' & Hpl & Hd' & HB').
  - intros p. rewrite Hp, Hin. intros [id Hid]. split; [|done]. cbn.
    destruct (dir_blocks _ _ Hd _ _ Hid) as (lv & -> & _). eauto.
  - cbn [set_place blocks]. by rewrite Hp.
  - cbn [set_place windowBase centred] in Hpl, Hd'. exists n, w, f. split; [exact Hpl|].
    enough (B' = B) as -> by done. apply map_eq. intros id. apply option_eq. intros p.
    rewrite HB', lookup_empty, Hp, Hin. cbn. split.
    + intros [?|[[i Hi] <-]]; [done|]. by rewrite (dir_key _ _ _ _ Hd Hi).
    + intros Hid. right. split; [eauto|]. by apply (dir_key _ _ _ _ Hd).
Qed.

(** ** The block pool: [acquireBlock] and [releaseBlock] *)

Definition placed (B : gmap Z Z) (p : Z) : Prop := exists id, B !! id = Some p.

Definition block_pool (b : SortedBook) (B : gmap Z Z) : Prop :=
  free_list MAX_BLOCKS (freeBlocks b) (freeBlockCount b) (placed B).

(** The members neither function touches. *)
Definition same_levels (b b' : SortedBook) : Prop :=
  tickSize b' = tickSize b /\ entries b' = entries b /\ freeSlots b' = freeSlots b /\
  freeSlotCount b' = freeSlotCount b.

Lemma placed_insert B id p q : B !! id = None -> placed (<[id := p]> B) q <-> placed B q \/ q = p.
Proof.
  intros Hnone. unfold placed. split.
  - intros [i Hi]. destruct (Z.eq_dec i id) as [->|Hne].
    + rewrite lookup_insert_eq in Hi. by simplify_eq; right.
    + rewrite lookup_insert_ne in Hi by done. left. eauto.
  - intros [[i Hi]| ->].
    + exists i. by rewrite lookup_insert_ne by congruence.
    + exists id. by rewrite lookup_insert_eq.
Qed.

Lemma placed_delete b B id p q : dir_ok b B -> B !! id = Some p -> placed (delete id B) q <-> placed B q /\ q <> p.
Proof.
  intros Hd Hp. unfold placed. split.
  - intros [i [Hne Hi]%lookup_delete_Some]. split; [eauto|]. intros ->. by apply Hne, (dir_inj b B _ _ p).
  - intros [[i Hi] Hne]. exists i. apply lookup_delete_Some. split; [congruence|done].
Qed.

Lemma acquireBlock_spec IsBid b B id : dir_ok b B -> block_pool b B -> length (blocks b) = Z.to_nat MAX_BLOCKS ->
  B !! id = None -> freeBlockCount b <> 0 ->
  exists b' p lv, acquireBlock IsBid b id = Some (b', Some p) /\
    aget (blocks b) p = Some lv /\ ~ placed B p /\ aset (blocks b) p (set_blockId lv id) = Some (blocks b') /\
    dir_ok b' (<[id := p]> B) /\ block_pool b' (<[id := p]> B) /\ same_levels b b'.
Proof.
  intros Hd Hpool Hlen Hnone Hcount. unfold acquireBlock. rewrite (proj2 (Z.eqb_neq _ _) Hcount).
  destruct (free_list_pop _ _ _ _ Hpool Hcount) as (p & Hp & Hr & Hnp & Hpool'). rewrite Hp. cbn [mbind option_bind].
  destruct (aget_in_range (blocks b) p) as [lv Hlv]; [lia|].
  rewrite Hlv. cbn [mbind option_bind].
  assert (exists bl, aset (blocks b) p (set_blockId lv id) = Some bl) as [bl Hbl]
    by (eexists; apply aset_in_range; lia).
  rewrite Hbl. cbn [mbind option_bind].
  set (b1 := set_blocks (set_freeBlocks b (freeBlocks b) (freeBlockCount b - 1)) bl).
  assert (Hd1 : dir_ok b1 B).
  { apply (dir_ok_frame b); try done. intros i q Hq. cbn.
    by rewrite (aget_aset_ne _ _ _ _ _ Hbl) by (intros ->; apply Hnp; by exists i). }
  destruct (place_spec b1 B p (set_blockId lv id) Hd1 (aget_aset_eq _ _ _ _ Hbl) Hnone)
    as (n & w & f & Hplace & Hd2). rewrite Hplace. cbn [mbind option_bind].
  assert (Hpool2 : free_list MAX_BLOCKS (freeBlocks b) (freeBlockCount b - 1) (placed (<[id := p]> B))).
  { eapply free_list_ext; [|exact Hpool']. intros q _. by rewrite placed_insert. }
  destruct (negb (centred b1) || beyondBestEdge IsBid id (windowBase b1)).
  - destruct (recentre_spec _ _ id Hd2) as (n' & w' & f' & -> & Hd3). cbn [mbind option_bind].
    eexists _, p, lv. split_and!; [done|done|done|done|exact Hd3|exact Hpool2|done..].
  - eexists _, p, lv. split_and!; [done|done|done|done|exact Hd2|exact Hpool2|done..].
Qed.

Lemma fallback_erase b B id p k : dir_ok b B -> B !! id = Some p -> ~ in_window b id ->
  fallbackFind b id = Some k -> (k < length (fallback b))%nat /\
  dir_ok (set_place b (windowBase b) (centred b) (windowBlocks b) (window b)
            (take k (fallback b) ++ drop (S k) (fallback b))) (delete id B).
Proof.
  intros Hd Hp Hw Hk. destruct (fallbackFind_spec b B id Hd) as (k' & Hk' & Hle & Hlo & Hhi).
  assert (k' = k) as -> by congruence.
  pose proof (findBlock_spec b B id Hd) as Hf. unfold findBlock in Hf.
  rewrite window_test, bool_decide_false, Hk' in Hf by done. cbn [mbind option_bind] in Hf.
  destruct (fallback b !! k) as [q|] eqn:Eq; [|congruence].
  assert (q = p) as ->.
  { destruct (aget (blocks b) q) as [lv|]; cbn in Hf; [|done]. destruct (blockId lv =? id); congruence. }
  split; [by apply lookup_lt_Some in Eq|].
  pose proof (dir_sorted _ _ Hd) as Hs. rewrite <- (take_drop_middle _ _ _ Eq) in Hs.
  apply StronglySorted_app in Hs as (Hs1 & Hs2 & Hs3). apply StronglySorted_cons in Hs3 as [Hs3 Hs4].
  rewrite Forall_forall in Hs3. apply (dir_fallback_write b B id None); [done|done|done| |].
  - intros q. rewrite <- (take_drop_middle _ _ _ Eq) at 3. rewrite !elem_of_app, elem_of_cons.
    assert (Hkp : key b p = id) by by apply (dir_key _ _ _ _ Hd).
    split.
    + intros [Hq|Hq]; right; (split; [tauto|]).
      * specialize (Hlo _ Hq). lia.
      * specialize (Hs3 _ Hq). cbn in Hs3. lia.
    + intros [?|[[?|[->|?]] ?]]; naive_solver.
  - apply StronglySorted_app_2; [|done|done]. intros q1 q2 Hq1 Hq2. apply Hs1; [done|by right].
Qed.

Lemma releaseBlock_spec IsBid b B id p : dir_ok b B -> block_pool b B -> 0 <= p < MAX_BLOCKS ->
  B !! id = Some p ->
  exists b', releaseBlock IsBid b p = Some b' /\ blocks b' = blocks b /\
    dir_ok b' (delete id B) /\ block_pool b' (delete id B) /\ same_levels b b'.
Proof.
  intros Hd Hpool Hr Hp. destruct (dir_blocks _ _ Hd _ _ Hp) as (lv & Hlv & Hid).
  unfold releaseBlock. rewrite Hlv. cbn [mbind option_bind]. rewrite Hid, window_test.
  assert (exists n w f, (if bool_decide (in_window b id)
      then w ← aset (window b) (id - windowBase b) None;
           Some (set_place b (windowBase b) (centred b) (windowBlocks b - 1) w (fallback b))
      else k ← fallbackFind b id;
           if decide (k < length (fallback b))%nat
           then Some (set_place b (windowBase b) (centred b) (windowBlocks b) (window b)
                        (take k (fallback b) ++ drop (S k) (fallback b)))
           else None)
      = Some (set_place b (windowBase b) (centred b) n w f) /\
      dir_ok (set_place b (windowBase b) (centred b) n w f) (delete id B)) as (n & w & f & -> & Hd1).
  { case_bool_decide as Hw.
    - pose proof (dir_window_length _ _ Hd). pose proof Hw as Hw'. unfold in_window, WINDOW in Hw'.
      pose proof (aset_in_range (window b) (id - windowBase b) None ltac:(lia)) as Hset.
      pose proof (dir_window_write b B id None _ Hd Hw ltac:(done) Hset) as Hres. rewrite Hset.
      eexists _, _, _. split; [done|]. rewrite Hp in Hres.
      assert (windowBlocks b - Z.of_nat (length (option_list (Some p)))
        + Z.of_nat (length (option_list (@None Z))) = windowBlocks b - 1) as E by (cbn; lia).
      by rewrite E in Hres.
    - destruct (fallbackFind_spec b B id Hd) as (k & Hk & _). rewrite Hk. cbn [mbind option_bind].
      destruct (fallback_erase b B id p k Hd Hp Hw Hk) as [Hlt Hd']. rewrite decide_True by done.
      by eexists _, _, _. }
  cbn [mbind option_bind].
  destruct (free_list_push _ _ _ _ p Hpool) as (fb & Hfb & Hpool1); [by exists id|done|].
  change (freeBlocks (set_place b (windowBase b) (centred b) n w f)) with (freeBlocks b).
  change (freeBlockCount (set_place b (windowBase b) (centred b) n w f)) with (freeBlockCount b).
  rewrite Hfb. cbn [mbind option_bind]. set (b2 := set_freeBlocks _ _ _).
  assert (Hd2 : dir_ok b2 (delete id B)) by (by apply (dir_ok_frame _ b2 _ Hd1)).
  assert (Hpool2 : free_list MAX_BLOCKS fb (freeBlockCount b + 1) (placed (delete id B))).
  { eapply free_list_ext; [|exact Hpool1]. intros q _. by rewrite (placed_delete b). }
  destruct ((windowBlocks b2 =? 0) && negb (bool_decide (fallback b2 = []))) eqn:Eif.
  - apply andb_prop in Eif as [_ Hne%negb_true_iff%bool_decide_eq_false].
    assert (exists best, (if IsBid then last (fallback b2) else head (fallback b2)) = Some best /\
      best ∈ fallback b2) as (best & -> & Hbest).
    { destruct IsBid.
      - destruct (last (fallback b2)) as [q|] eqn:E; [|by apply last_None in E].
        exists q. split; [done|]. by apply last_Some_elem_of.
      - destruct (fallback b2) as [|q ?]; [done|]. exists q. split; [done|by left]. }
    apply (dir_fallback _ _ Hd2) in Hbest as (i & Hi & _). destruct (dir_blocks _ _ Hd2 _ _ Hi) as (blv & Hblv & _).
    cbn [mbind option_bind]. rewrite Hblv. cbn [mbind option_bind].
    destruct (recentre_spec _ _ (blockId blv) Hd2) as (n' & w' & f' & -> & Hd3).
    eexists. split_and!; [done|done|exact Hd3|exact Hpool2|done..].
  - exists b2. split_and!; [done|done|exact Hd2|exact Hpool2|done..].
Qed.
