(* ===== verification/SortedBookSpec.v ===== *)
(** * SortedBookSpec: the book is a finite map from tick to entry

    Second refinement layer of [SortedBook]: [repr b m] says that the storage of [b]
    represents the map [m] from tick to [Entry]. The theorems at the end state that the
    public operations never reach undefined behaviour on such a book and implement the
    map operations: [update] inserts, overwrites, deletes or refuses, [find] is lookup,
    [forEachBest] and [top] walk the levels in price order, [levelCount] is the size. *)

From S2P Require Import Prelude Model PriceLevel SortedBook FreeList BlockDir.

(** Every occupied cell of a level has been written. *)
Definition cell_ok (lv : PriceLevel) : Prop :=
  level_wf lv /\ forall o, offset_ok o -> level_has lv o = true -> is_Some (slot_at lv o).

(** The slot a level holds at an offset, and a book at a tick. *)
Definition level_slot (lv : PriceLevel) (o : Z) : option Z :=
  if level_has lv o then slot_at lv o else None.

Definition tick_slot (b : SortedBook) (B : gmap Z Z) (t : Z) : option Z :=
  p ← B !! (t / 128); lv ← aget (blocks b) p; level_slot lv (t mod 128).

(** [B] maps block ids to blocks, [S] ticks to slots, [m] ticks to entries. *)
Record book_ok (b : SortedBook) (B S : gmap Z Z) (m : gmap Z Entry) : Prop := {
  ok_dir : dir_ok b B;
  ok_pool : block_pool b B;
  ok_blocks : length (blocks b) = Z.to_nat MAX_BLOCKS;
  ok_cells : forall p lv, aget (blocks b) p = Some lv -> cell_ok lv;
  ok_free : forall p lv, aget (blocks b) p = Some lv -> ~ placed B p -> offsets lv = [];
  ok_slots : forall t, S !! t = tick_slot b B t;
  ok_slot_inj : forall t1 t2 s, S !! t1 = Some s -> S !! t2 = Some s -> t1 = t2;
  ok_slot_range : forall t s, S !! t = Some s -> 0 <= s < MAX_LEVELS;
  ok_slot_pool : free_list MAX_LEVELS (freeSlots b) (freeSlotCount b) (placed S);
  ok_entries : length (entries b) = Z.to_nat MAX_LEVELS;
  ok_map : forall t, m !! t = S !! t ≫= aget (entries b);
}.

(** Every placed block but those of [P] holds a level. *)
Definition live (b : SortedBook) (B : gmap Z Z) (P : Z -> Prop) : Prop :=
  forall p lv, placed B p -> ~ P p -> aget (blocks b) p = Some lv -> offsets lv <> [].

Definition repr (b : SortedBook) (m : gmap Z Entry) : Prop :=
  exists B S, book_ok b B S m /\ live b B (fun _ => False).

(** ** Ticks *)

Lemma tick_parts t : Z.shiftr t 7 = t / 128 /\ Z.land t 127 = t mod 128.
Proof.
  split; [by rewrite Z.shiftr_div_pow2|]. change 127 with (Z.ones 7). by rewrite Z.land_ones.
Qed.

Lemma tick_offset t : offset_ok (t mod 128).
Proof. unfold offset_ok. pose proof (Z.mod_pos_bound t 128). lia. Qed.

Lemma tick_eq t t' : t / 128 = t' / 128 -> t mod 128 = t' mod 128 -> t = t'.
Proof. intros H1 H2. rewrite (Z.div_mod t 128), (Z.div_mod t' 128) by lia. congruence. Qed.

#[export] Hint Resolve tick_offset : astra.

Lemma tick_of id o : offset_ok o -> (128 * id + o) / 128 = id /\ (128 * id + o) mod 128 = o.
Proof.
  intros Ho. unfold offset_ok in Ho.
  split; [symmetry; apply Z.div_unique_pos with (r := o); lia | symmetry; apply Z.mod_unique_pos with (q := id); lia].
Qed.

(** ** Consequences of the invariant *)

Lemma offsets_nil lv o : offsets lv = [] -> offset_ok o -> level_has lv o = false.
Proof.
  intros He Ho. destruct (level_has lv o) eqn:E; [|done].
  assert (o ∈ offsets lv) as Hin by by apply elem_of_offsets. rewrite He in Hin. set_solver.
Qed.

Lemma pool_count cap fl n (M : gmap Z Z) : free_list cap fl n (placed M) ->
  (forall k1 k2 x, M !! k1 = Some x -> M !! k2 = Some x -> k1 = k2) ->
  (forall k x, M !! k = Some x -> 0 <= x < cap) -> n + Z.of_nat (size M) = cap.
Proof.
  intros Hfl Hinj Hr.
  assert (Hin : forall x, x ∈ (map_to_list M).*2 <-> placed M x).
  { intros x. rewrite list_elem_of_fmap. split.
    - intros ([k y] & -> & Hk%elem_of_map_to_list). by exists k.
    - intros [k Hk]. exists (k, x). split; [done|]. by apply elem_of_map_to_list. }
  rewrite <- length_map_to_list, <- (length_fmap snd (map_to_list M)).
  eapply free_list_count; [done| | |].
  - apply NoDup_fmap_2_strong; [|apply NoDup_map_to_list].
    intros [k1 x1] [k2 x2] H1%elem_of_map_to_list H2%elem_of_map_to_list E. cbn in E. subst x2.
    f_equal. by apply (Hinj _ _ x1).
  - intros x. rewrite Hin. split; [|tauto]. intros [k Hk]. split; [eauto|by exists k].
  - intros x. destruct (decide (x ∈ (map_to_list M).*2)) as [H|H]; [left|right]; by rewrite <- Hin.
Qed.

Section Ok.
  Context (b : SortedBook) (B S : gmap Z Z) (m : gmap Z Entry) (Hok : book_ok b B S m).

Lemma ok_block id p : B !! id = Some p ->
  exists lv, aget (blocks b) p = Some lv /\ blockId lv = id /\ cell_ok lv /\ 0 <= p < MAX_BLOCKS.
Proof.
  intros Hp. destruct (dir_blocks _ _ (ok_dir _ _ _ _ Hok) _ _ Hp) as (lv & Hlv & Hid).
  exists lv. split_and!; [done|done|by eapply ok_cells|..]; apply aget_Some_range in Hlv;
    rewrite (ok_blocks _ _ _ _ Hok) in Hlv; lia.
Qed.

Lemma ok_entry t s : S !! t = Some s -> exists e, aget (entries b) s = Some e /\ m !! t = Some e.
Proof.
  intros Hs. pose proof (ok_slot_range _ _ _ _ Hok _ _ Hs) as Hr.
  destruct (aget_in_range (entries b) s) as [e He]; [rewrite (ok_entries _ _ _ _ Hok); lia|].
  exists e. split; [done|]. rewrite (ok_map _ _ _ _ Hok), Hs. done.
Qed.

Lemma ok_some t : is_Some (m !! t) <-> is_Some (S !! t).
Proof.
  split.
  - rewrite (ok_map _ _ _ _ Hok). destruct (S !! t); [eauto|by intros []].
  - intros [s Hs]. destruct (ok_entry t s Hs) as (e & _ & ->). eauto.
Qed.

Lemma ok_tick t p lv : B !! (t / 128) = Some p -> aget (blocks b) p = Some lv ->
  S !! t = level_slot lv (t mod 128).
Proof. intros Hp Hlv. rewrite (ok_slots _ _ _ _ Hok). unfold tick_slot. rewrite Hp. cbn. by rewrite Hlv. Qed.

Lemma ok_has t p lv : B !! (t / 128) = Some p -> aget (blocks b) p = Some lv ->
  level_has lv (t mod 128) = bool_decide (is_Some (m !! t)).
Proof.
  intros Hp Hlv. pose proof (ok_tick t p lv Hp Hlv) as Ht. apply eq_bool_prop_intro.
  rewrite bool_decide_spec, ok_some, Ht. unfold level_slot.
  destruct (level_has lv (t mod 128)) eqn:E; cbn; [|split; [done|by intros []]].
  split; [intros _|done]. destruct (ok_cells _ _ _ _ Hok _ _ Hlv) as [_ Hc]. apply Hc; auto with astra.
Qed.

Lemma ok_absent t : B !! (t / 128) = None -> m !! t = None.
Proof. intros Hp. rewrite (ok_map _ _ _ _ Hok), (ok_slots _ _ _ _ Hok). unfold tick_slot. by rewrite Hp. Qed.

Lemma ok_size_slots : size S = size m.
Proof.
  rewrite <- !size_dom. f_equal. apply set_eq. intros t. rewrite !elem_of_dom. by rewrite ok_some.
Qed.

Lemma ok_level_count : freeSlotCount b + Z.of_nat (size m) = MAX_LEVELS.
Proof.
  rewrite <- ok_size_slots. eapply pool_count; [apply Hok|apply Hok|apply Hok].
Qed.

Lemma ok_block_count : freeBlockCount b + Z.of_nat (size B) = MAX_BLOCKS.
Proof.
  eapply pool_count; [apply (ok_pool _ _ _ _ Hok)| |].
  - intros k1 k2 x H1 H2. by apply (dir_inj b B _ _ x (ok_dir _ _ _ _ Hok)).
  - intros k x Hk. by destruct (ok_block _ _ Hk) as (? & _ & _ & _ & ?).
Qed.

(** The ids of the blocks the levels of the book lie in. *)
Definition block_ids (M : gmap Z Entry) : gset Z := set_map (fun t => t / 128) (dom M).

Lemma ok_block_ids : live b B (fun _ => False) -> block_ids m = dom B.
Proof.
  intros Hlive. apply set_eq. intros id. unfold block_ids. rewrite elem_of_map, elem_of_dom. split.
  - intros (t & -> & Ht%elem_of_dom). destruct (B !! (t / 128)) eqn:E; [eauto|].
    rewrite (ok_absent t E) in Ht. by destruct Ht.
  - intros [p Hp]. destruct (ok_block id p Hp) as (lv & Hlv & _ & _).
    destruct (offsets lv) as [|o os] eqn:Eo; [by apply (Hlive p lv) in Eo; [|exists id|tauto|]|].
    assert (o ∈ offsets lv) as [Ho Hh]%elem_of_offsets by (rewrite Eo; by left).
    destruct (tick_of id o Ho) as [E1 E2]. exists (128 * id + o). split; [done|].
    rewrite elem_of_dom, ok_some, (ok_tick _ p lv), E2 by by rewrite ?E1.
    unfold level_slot. rewrite Hh. destruct (ok_cells _ _ _ _ Hok _ _ Hlv) as [_ Hc]. by apply Hc.
Qed.
End Ok.

(** ** Writing one placed block *)

Lemma block_write b B S m id p lv lv' bl : book_ok b B S m -> B !! id = Some p ->
  aget (blocks b) p = Some lv -> aset (blocks b) p lv' = Some bl -> blockId lv' = blockId lv -> cell_ok lv' ->
  dir_ok (set_blocks b bl) B /\ length bl = Z.to_nat MAX_BLOCKS /\
  (forall q lvq, aget bl q = Some lvq -> cell_ok lvq) /\
  (forall q lvq, aget bl q = Some lvq -> ~ placed B q -> offsets lvq = []) /\
  (forall t, tick_slot (set_blocks b bl) B t =
     if t / 128 =? id then level_slot lv' (t mod 128) else tick_slot b B t).
Proof.
  intros Hok Hp Hlv Hset Hid Hcell.
  assert (Hget : forall q, aget bl q = if q =? p then Some lv' else aget (blocks b) q).
  { intros q. destruct (Z.eqb_spec q p) as [->|Hne]; [by eapply aget_aset_eq | by eapply aget_aset_ne]. }
  split_and!.
  - apply (dir_ok_frame b); try done; [apply Hok|]. intros i q _. cbn. rewrite Hget.
    destruct (Z.eqb_spec q p) as [->|]; [|done]. by rewrite Hlv; cbn; rewrite Hid.
  - rewrite (aset_length _ _ _ _ Hset). apply Hok.
  - intros q lvq. rewrite Hget. destruct (q =? p); [by intros [= <-]|]. eapply ok_cells, Hok.
  - intros q lvq. rewrite Hget. destruct (Z.eqb_spec q p) as [->|]; [|eapply ok_free, Hok].
    intros _ Hn. exfalso. apply Hn. by exists id.
  - intros t. unfold tick_slot. destruct (Z.eqb_spec (t / 128) id) as [->|Hne].
    + rewrite Hp. cbn. rewrite Hget, Z.eqb_refl. done.
    + destruct (B !! (t / 128)) as [q|] eqn:Hq; [|done]. cbn. rewrite Hget.
      destruct (Z.eqb_spec q p) as [->|]; [|done]. by destruct Hne, (dir_inj b B _ _ p (ok_dir _ _ _ _ Hok) Hq Hp).
Qed.

(** Writing one entry; the slot map says whose entry it is. *)
Lemma entry_write b B S m t s e es : book_ok b B S m -> S !! t = Some s ->
  aset (entries b) s e = Some es -> book_ok (set_entries b es) B S (<[t := e]> m).
Proof.
  intros Hok Hs Hset. split; try apply Hok.
  - apply (dir_ok_frame b); try done. apply Hok.
  - cbn. rewrite (aset_length _ _ _ _ Hset). apply Hok.
  - intros t'. cbn. destruct (Z.eq_dec t' t) as [->|Hne].
    + rewrite lookup_insert_eq, Hs. cbn. by rewrite (aget_aset_eq _ _ _ _ Hset).
    + rewrite lookup_insert_ne by done. rewrite (ok_map _ _ _ _ Hok).
      destruct (S !! t') as [s'|] eqn:Es'; [|done]. cbn. rewrite (aget_aset_ne _ _ _ _ _ Hset); [done|].
      intros ->. apply Hne. by apply (ok_slot_inj _ _ _ _ Hok _ _ s').
Qed.

(** ** Adding a level to a placed block *)

(** The last lines of [update]. *)
Definition insert_level (b1 : SortedBook) (p offset price volume : Z) : option SortedBook :=
  let n := freeSlotCount b1 - 1 in
  s ← aget (freeSlots b1) n;
  lv ← aget (blocks b1) p;
  ss ← aset (slots lv) offset (Some s);
  lv' ← level_set (set_slots lv ss) offset;
  bl ← aset (blocks b1) p lv';
  e ← aget (entries b1) s;
  es ← aset (entries b1) s (assignValues e price volume);
  Some (set_entries (set_blocks (set_freeSlots b1 (freeSlots b1) n) bl) es).

Lemma level_insert lv o s : cell_ok lv -> offset_ok o ->
  exists ss lv', aset (slots lv) o (Some s) = Some ss /\ level_set (set_slots lv ss) o = Some lv' /\
    cell_ok lv' /\ blockId lv' = blockId lv /\ offsets lv' <> [] /\
    forall o', offset_ok o' -> level_slot lv' o' = if o' =? o then Some s else level_slot lv o'.
Proof.
  intros [Hwf Hc] Ho. destruct Hwf as (Hl & Hf & Hss).
  exists (<[Z.to_nat o := Some s]> (slots lv)).
  pose proof (aset_in_range (slots lv) o (Some s) ltac:(unfold offset_ok in Ho; lia)) as Hset.
  destruct (level_set_spec (set_slots lv (<[Z.to_nat o := Some s]> (slots lv))) o) as
    (lv' & Hlv' & Hwf' & Hsl & Hid & Hhas); [|done|].
  { split_and!; [done|done|cbn; by rewrite length_insert]. }
  exists lv'. assert (Hslot : forall o', offset_ok o' ->
    slot_at lv' o' = if o' =? o then Some s else slot_at lv o').
  { intros o' _. unfold slot_at. rewrite Hsl. cbn [slots set_slots].
    destruct (Z.eqb_spec o' o) as [->|Hne]; [by rewrite (aget_aset_eq _ _ _ _ Hset)|].
    by rewrite (aget_aset_ne _ _ _ _ _ Hset). }
  split_and!; try done.
  - split; [done|]. intros o' Ho'. rewrite Hhas, Hslot by done.
    destruct (o' =? o); [eauto|]. by apply Hc.
  - assert (o ∈ offsets lv') as Hin by (apply elem_of_offsets; split; [done|]; rewrite Hhas by done; by rewrite Z.eqb_refl).
    intros He. rewrite He in Hin. set_solver.
  - intros o' Ho'. unfold level_slot. rewrite Hhas, Hslot by done. by destruct (o' =? o).
Qed.

Lemma insert_ok b B S m t p price volume : book_ok b B S m -> B !! (t / 128) = Some p ->
  m !! t = None -> freeSlotCount b <> 0 ->
  exists b' S', insert_level b p (t mod 128) price volume = Some b' /\ tickSize b' = tickSize b /\
    book_ok b' B S' (<[t := {| price := price; volume := volume |}]> m) /\
    (live b B (eq p) -> live b' B (fun _ => False)).
Proof.
  intros Hok Hp Hm Hcount. unfold insert_level.
  destruct (free_list_pop _ _ _ _ (ok_slot_pool _ _ _ _ Hok) Hcount) as (s & Hs & Hr & Hns & Hpool).
  rewrite Hs. cbn [mbind option_bind].
  destruct (ok_block _ _ _ _ Hok _ _ Hp) as (lv & Hlv & Hid & Hcell & Hpr). rewrite Hlv. cbn [mbind option_bind].
  destruct (level_insert lv (t mod 128) s Hcell (tick_offset t)) as (ss & lv' & Hss & Hlv' & Hcell' & Hid' & Hlive' & Hslot).
  rewrite Hss. cbn [mbind option_bind]. rewrite Hlv'. cbn [mbind option_bind].
  pose proof (aset_in_range (blocks b) p lv' (aget_Some_range _ _ _ Hlv)) as Hbl.
  rewrite Hbl. set (bl := <[Z.to_nat p := lv']> (blocks b)) in *. cbn [mbind option_bind].
  destruct (aget_in_range (entries b) s) as [e He]; [rewrite (ok_entries _ _ _ _ Hok); lia|].
  rewrite He. cbn [mbind option_bind]. pose proof (aget_Some_range _ _ _ He) as Her.
  set (b1 := set_blocks (set_freeSlots b (freeSlots b) (freeSlotCount b - 1)) bl).
  change (entries b) with (entries b1). pose proof (aset_in_range (entries b1) s (assignValues e price volume) Her) as Hes.
  rewrite Hes. eexists _, (<[t := s]> S). split_and!; [done|done| |].
  - assert (Hst : S !! t = None).
    { destruct (S !! t) eqn:E; [|done]. destruct (ok_entry _ _ _ _ Hok _ _ E) as (? & _ & ?). congruence. }
    destruct (block_write b B S m _ p lv lv' bl Hok Hp Hlv Hbl Hid' Hcell') as (Hdir & Hbll & Hcells & Hfree & Hts).
    assert (Hm1 : forall t', <[t := e]> m !! t' = <[t := s]> S !! t' ≫= aget (entries b)).
    { intros t'. destruct (Z.eq_dec t' t) as [->|Hne]; [by rewrite !lookup_insert_eq|].
      rewrite !lookup_insert_ne by done. apply (ok_map _ _ _ _ Hok). }
    rewrite <- (insert_insert_eq m t (assignValues e price volume) e).
    apply (entry_write b1) with (s := s); [|by rewrite lookup_insert_eq|done].
    split; try done; try apply Hok.
    + by apply (dir_ok_frame _ b1 _ Hdir).
    + intros t'. change (tick_slot b1 B t') with (tick_slot (set_blocks b bl) B t'). rewrite Hts.
      destruct (Z.eq_dec t' t) as [->|Hne].
      * rewrite lookup_insert_eq, Z.eqb_refl, Hslot by apply tick_offset. by rewrite Z.eqb_refl.
      * rewrite lookup_insert_ne by done. destruct (Z.eqb_spec (t' / 128) (t / 128)) as [E|]; [|apply Hok].
        rewrite Hslot by apply tick_offset.
        destruct (Z.eqb_spec (t' mod 128) (t mod 128)) as [E'|]; [by destruct Hne, (tick_eq t' t)|].
        apply (ok_tick _ _ _ _ Hok t' p lv); [by rewrite E|done].
    + intros t1 t2 s'. rewrite !lookup_insert_Some.
      assert (forall t', S !! t' <> Some s) by (intros t' Ht'; apply Hns; by exists t').
      pose proof (ok_slot_inj _ _ _ _ Hok t1 t2 s'). naive_solver.
    + intros t' s' [[_ <-]|[_ Hs']]%lookup_insert_Some; [done|]. by eapply ok_slot_range.
    + eapply free_list_ext; [|exact Hpool]. intros y _. by rewrite placed_insert.
  - intros Hlive q lvq Hq _. cbn. destruct (Z.eq_dec q p) as [->|Hne].
    + rewrite (aget_aset_eq _ _ _ _ Hbl). by intros [= <-].
    + rewrite (aget_aset_ne _ _ _ _ _ Hbl) by done. apply Hlive; [done|congruence].
Qed.

(** ** Removing a level *)

(** The removal branch of [update]. *)
Definition remove_level (IsBid : bool) (b : SortedBook) (p offset : Z) : option (SortedBook * bool) :=
  lv ← aget (blocks b) p;
  lv' ← level_reset lv offset;
  bl ← aset (blocks b) p lv';
  s ← slot_at lv' offset;
  fs ← aset (freeSlots b) (freeSlotCount b) s;
  let b1 := set_freeSlots (set_blocks b bl) fs (freeSlotCount b + 1) in
  e ← level_empty lv';
  if (e : bool) then b2 ← releaseBlock IsBid b1 p; Some (b2, true) else Some (b1, true).

Lemma level_remove lv o : cell_ok lv -> offset_ok o ->
  exists lv', level_reset lv o = Some lv' /\ cell_ok lv' /\ blockId lv' = blockId lv /\
    slots lv' = slots lv /\
    forall o', offset_ok o' -> level_slot lv' o' = if o' =? o then None else level_slot lv o'.
Proof.
  intros [Hwf Hc] Ho. destruct (level_reset_spec lv o Hwf Ho) as (lv' & Hlv' & Hwf' & Hsl & Hid & Hhas).
  assert (Hslot : forall o', slot_at lv' o' = slot_at lv o') by (intros; unfold slot_at; by rewrite Hsl).
  exists lv'. split_and!; try done.
  - split; [done|]. intros o' Ho'. rewrite Hhas, Hslot by done. destruct (o' =? o); [done|]. by apply Hc.
  - intros o' Ho'. unfold level_slot. rewrite Hhas, Hslot by done. by destruct (o' =? o).
Qed.

(** An empty block holds no tick, so it can leave the directory. *)
Lemma tick_slot_unplace b b' B id p lv : dir_ok b B -> B !! id = Some p -> aget (blocks b) p = Some lv ->
  offsets lv = [] -> blocks b' = blocks b -> forall t, tick_slot b' (delete id B) t = tick_slot b B t.
Proof.
  intros Hd Hp Hlv Hempty Hbl t. unfold tick_slot. rewrite Hbl. destruct (Z.eq_dec (t / 128) id) as [->|Hne].
  - rewrite lookup_delete_eq, Hp. cbn. rewrite Hlv. cbn. unfold level_slot.
    by rewrite offsets_nil by (try done; apply tick_offset).
  - by rewrite lookup_delete_ne.
Qed.

Lemma release_ok IsBid b B S m id p lv : book_ok b B S m -> live b B (eq p) -> B !! id = Some p ->
  aget (blocks b) p = Some lv -> offsets lv = [] ->
  exists b', releaseBlock IsBid b p = Some b' /\ tickSize b' = tickSize b /\ repr b' m.
Proof.
  intros Hok Hlive Hp Hlv Hempty. destruct (ok_block _ _ _ _ Hok _ _ Hp) as (_ & _ & _ & _ & Hr).
  destruct (releaseBlock_spec IsBid b B id p (ok_dir _ _ _ _ Hok) (ok_pool _ _ _ _ Hok) Hr Hp)
    as (b' & Hrel & Hbl & Hdir & Hpool & Ht & He & Hfs & Hfc).
  exists b'. split_and!; [done|done|]. exists (delete id B), S.
  assert (Hpl : forall q, placed (delete id B) q <-> placed B q /\ q <> p)
    by (intros q; apply (placed_delete b), Hp; apply Hok).
  split.
  - split; rewrite ?Hbl, ?He, ?Hfs, ?Hfc; try done; try apply Hok.
    + intros q lvq Hq Hn. destruct (Z.eq_dec q p) as [->|Hne]; [congruence|].
      apply (ok_free _ _ _ _ Hok q); [done|]. rewrite Hpl in Hn. tauto.
    + intros t. rewrite (tick_slot_unplace b b' B id p lv); try done; apply Hok.
  - intros q lvq [Hq Hne]%Hpl _. rewrite Hbl. apply Hlive; [done|congruence].
Qed.

Lemma remove_ok IsBid b B S m t p e : book_ok b B S m -> live b B (fun _ => False) ->
  B !! (t / 128) = Some p -> m !! t = Some e ->
  exists b', remove_level IsBid b p (t mod 128) = Some (b', true) /\ tickSize b' = tickSize b /\
    repr b' (delete t m).
Proof.
  intros Hok Hlive Hp Hm. unfold remove_level.
  destruct (ok_block _ _ _ _ Hok _ _ Hp) as (lv & Hlv & Hid & Hcell & Hpr). rewrite Hlv. cbn [mbind option_bind].
  destruct (level_remove lv (t mod 128) Hcell (tick_offset t)) as (lv' & Hlv' & Hcell' & Hid' & Hsl & Hslot).
  rewrite Hlv'. cbn [mbind option_bind].
  pose proof (aset_in_range (blocks b) p lv' (aget_Some_range _ _ _ Hlv)) as Hbl.
  rewrite Hbl. set (bl := <[Z.to_nat p := lv']> (blocks b)) in *. cbn [mbind option_bind].
  destruct (proj1 (ok_some _ _ _ _ Hok t)) as [s Hs]; [by rewrite Hm|].
  assert (Hat : slot_at lv' (t mod 128) = Some s).
  { rewrite (ok_tick _ _ _ _ Hok t p lv Hp Hlv) in Hs. unfold level_slot in Hs. unfold slot_at. rewrite Hsl.
    by destruct (level_has lv (t mod 128)). }
  rewrite Hat. cbn [mbind option_bind].
  destruct (free_list_push _ _ _ _ s (ok_slot_pool _ _ _ _ Hok)) as (fs & Hfs & Hpool);
    [by exists t | by eapply ok_slot_range|].
  rewrite Hfs. cbn [mbind option_bind]. set (b1 := set_freeSlots (set_blocks b bl) fs (freeSlotCount b + 1)).
  destruct (block_write b B S m _ p lv lv' bl Hok Hp Hlv Hbl Hid' Hcell') as (Hdir & Hbll & Hcells & Hfree & Hts).
  assert (Hok1 : book_ok b1 B (delete t S) (delete t m)).
  { split; try done; try apply Hok.
    - by apply (dir_ok_frame _ b1 _ Hdir).
    - intros t'. change (tick_slot b1 B t') with (tick_slot (set_blocks b bl) B t'). rewrite Hts.
      destruct (Z.eq_dec t' t) as [->|Hne].
      + rewrite lookup_delete_eq, Z.eqb_refl, Hslot by apply tick_offset. by rewrite Z.eqb_refl.
      + rewrite lookup_delete_ne by done. destruct (Z.eqb_spec (t' / 128) (t / 128)) as [E|]; [|apply Hok].
        rewrite Hslot by apply tick_offset.
        destruct (Z.eqb_spec (t' mod 128) (t mod 128)) as [E'|]; [by destruct Hne, (tick_eq t' t)|].
        apply (ok_tick _ _ _ _ Hok t' p lv); [by rewrite E|done].
    - intros t1 t2 s' [_ H1]%lookup_delete_Some [_ H2]%lookup_delete_Some. by apply (ok_slot_inj _ _ _ _ Hok t1 t2 s').
    - intros t' s' [_ H']%lookup_delete_Some. by eapply ok_slot_range.
    - eapply free_list_ext; [|exact Hpool]. intros y _. unfold placed. setoid_rewrite lookup_delete_Some.
      pose proof (ok_slot_inj _ _ _ _ Hok). naive_solver.
    - intros t'. destruct (Z.eq_dec t' t) as [->|Hne]; [by rewrite !lookup_delete_eq|].
      rewrite !lookup_delete_ne by done. apply Hok. }
  assert (Hlive1 : live b1 B (eq p)).
  { intros q lvq Hq Hne. cbn. rewrite (aget_aset_ne _ _ _ _ _ Hbl) by congruence. by apply Hlive; [|tauto]. }
  assert (Hlv1 : aget (blocks b1) p = Some lv') by apply (aget_aset_eq _ _ _ _ Hbl).
  destruct (level_empty_spec lv' (proj1 Hcell')) as (emp & -> & Hemp). cbn [mbind option_bind].
  destruct emp.
  - destruct (release_ok IsBid b1 B _ _ (t / 128) p lv' Hok1 Hlive1 Hp Hlv1) as (b' & -> & Ht & Hrepr); [by apply Hemp|].
    by exists b'.
  - exists b1. split_and!; [done|done|]. exists B, (delete t S). split; [done|].
    intros q lvq Hq _ Hlvq. destruct (Z.eq_dec q p) as [->|Hne]; [|by apply (Hlive1 q lvq)].
    rewrite Hlv1 in Hlvq. injection Hlvq as <-. intros Ho. by apply Hemp in Ho.
Qed.

(** ** Adding a block *)

Lemma acquire_ok IsBid b B S m id : book_ok b B S m -> live b B (fun _ => False) ->
  B !! id = None -> freeBlockCount b <> 0 ->
  exists b' p, acquireBlock IsBid b id = Some (b', Some p) /\ same_levels b b' /\
    book_ok b' (<[id := p]> B) S m /\ live b' (<[id := p]> B) (eq p).
Proof.
  intros Hok Hlive Hnone Hcount.
  destruct (acquireBlock_spec IsBid b B id (ok_dir _ _ _ _ Hok) (ok_pool _ _ _ _ Hok) (ok_blocks _ _ _ _ Hok) Hnone Hcount)
    as (b' & p & lv & Hacq & Hlv & Hnp & Hbl & Hdir & Hpool & Hsame).
  exists b', p. pose proof Hsame as (Ht & He & Hfs & Hfc). split_and!; [done|done| |].
  - assert (Hempty : offsets lv = []) by by eapply ok_free.
    assert (Hget : forall q, q <> p -> aget (blocks b') q = aget (blocks b) q)
      by (intros q Hq; by apply (aget_aset_ne _ _ _ _ _ Hbl)).
    assert (Hgetp : aget (blocks b') p = Some (set_blockId lv id)) by by apply (aget_aset_eq _ _ _ _ Hbl).
    split; rewrite ?He, ?Hfs, ?Hfc; try done; try apply Hok.
    + rewrite (aset_length _ _ _ _ Hbl). apply Hok.
    + intros q lvq. destruct (Z.eq_dec q p) as [->|Hne].
      * rewrite Hgetp. intros [= <-]. apply (ok_cells _ _ _ _ Hok _ _ Hlv).
      * rewrite Hget by done. eapply ok_cells, Hok.
    + intros q lvq Hq Hn. rewrite placed_insert in Hn by done.
      rewrite Hget in Hq by tauto. eapply ok_free; [exact Hok|done|tauto].
    + intros t. rewrite (ok_slots _ _ _ _ Hok). unfold tick_slot. destruct (Z.eq_dec (t / 128) id) as [->|Hne].
      * rewrite Hnone, lookup_insert_eq. cbn. rewrite Hgetp. cbn. unfold level_slot.
        change (level_has (set_blockId lv id)) with (level_has lv).
        by rewrite offsets_nil by (try done; apply tick_offset).
      * rewrite lookup_insert_ne by done. destruct (B !! (t / 128)) as [q|] eqn:E; [|done]. cbn.
        rewrite Hget; [done|]. intros ->. apply Hnp. by eexists.
  - intros q lvq Hq Hne. rewrite placed_insert in Hq by done.
    rewrite (aget_aset_ne _ _ _ _ _ Hbl) by congruence. apply Hlive; [|tauto]. destruct Hq; congruence.
Qed.

(** ** The specification of [update] *)

(** What one absolute level does to the map. *)
Definition apply_level (m : gmap Z Entry) (t price volume : Z) : gmap Z Entry :=
  if volume =? 0 then delete t m else <[t := {| price := price; volume := volume |}]> m.

(** Room for a new level: an entry slot, and a block unless the tick's block exists. *)
Definition fits (m : gmap Z Entry) (t : Z) : bool :=
  bool_decide (Z.of_nat (size m) < MAX_LEVELS) &&
  (bool_decide (t / 128 ∈ block_ids m) || bool_decide (Z.of_nat (size (block_ids m)) < MAX_BLOCKS)).

Definition accepts (m : gmap Z Entry) (t volume : Z) : bool :=
  (volume =? 0) || bool_decide (is_Some (m !! t)) || fits m t.

Section Update.
  Context (IsBid : bool).

(** The shape of [update] once its lookup is known. *)
Lemma update_unfold b B S m price volume t : book_ok b B S m -> toTick b price = Some t ->
  update IsBid b price volume =
    if volume =? 0 then
      match B !! (t / 128), bool_decide (is_Some (m !! t)) with
      | Some p, true => remove_level IsBid b p (t mod 128)
      | _, _ => Some (b, true)
      end
    else
    match B !! (t / 128), bool_decide (is_Some (m !! t)) with
    | Some p, true =>
        lv ← aget (blocks b) p;
        s ← slot_at lv (t mod 128);
        e ← aget (entries b) s;
        es ← aset (entries b) s (assignValues e price volume);
        Some (set_entries b es, true)
    | _, _ =>
        if freeSlotCount b =? 0 then Some (b, false) else
        '(b1, level1) ← (match B !! (t / 128) with
                         | Some p => Some (b, Some p)
                         | None => acquireBlock IsBid b (t / 128)
                         end);
        match level1 with
        | None => Some (b1, false)
        | Some p => b2 ← insert_level b1 p (t mod 128) price volume; Some (b2, true)
        end
    end.
Proof.
  intros Hok Ht. unfold update. rewrite Ht. cbn [mbind option_bind].
  destruct (tick_parts t) as [-> ->]. rewrite (findBlock_spec b B) by apply Hok. cbn [mbind option_bind].
  destruct (B !! (t / 128)) as [p|] eqn:Hp.
  - destruct (ok_block _ _ _ _ Hok _ _ Hp) as (lv & Hlv & _ & [Hwf _] & _). rewrite Hlv. cbn [mbind option_bind].
    rewrite level_test_spec by (try done; apply tick_offset). cbn [mbind option_bind].
    rewrite (ok_has _ _ _ _ Hok t p lv Hp Hlv).
    unfold remove_level, insert_level. rewrite Hlv. cbn [mbind option_bind].
    destruct (volume =? 0), (bool_decide _); try done. destruct (freeSlotCount b =? 0); [done|].
    cbn [mbind option_bind]. bind_cases.
  - cbn. destruct (volume =? 0); [done|].
    destruct (freeSlotCount b =? 0); [done|].
    destruct (acquireBlock IsBid b (t / 128)) as [[b1 [p|]]|]; try done. cbn [mbind option_bind].
    unfold insert_level. bind_cases.
Qed.

Lemma ok_fits b B S m t : book_ok b B S m -> live b B (fun _ => False) ->
  fits m t = negb (freeSlotCount b =? 0) &&
    (bool_decide (is_Some (B !! (t / 128))) || negb (freeBlockCount b =? 0)).
Proof.
  intros Hok Hlive. unfold fits. rewrite (ok_block_ids _ _ _ _ Hok Hlive), size_dom.
  pose proof (ok_level_count _ _ _ _ Hok). pose proof (ok_block_count _ _ _ _ Hok).
  pose proof (proj1 (proj2 (ok_slot_pool _ _ _ _ Hok))). pose proof (proj1 (proj2 (ok_pool _ _ _ _ Hok))).
  f_equal; [case_bool_decide; zbool|]. f_equal; [|case_bool_decide; zbool].
  apply bool_decide_ext. apply elem_of_dom.
Qed.

Lemma update_overwrite b B S m t p price volume : book_ok b B S m -> B !! (t / 128) = Some p ->
  is_Some (m !! t) ->
  exists es, (lv ← aget (blocks b) p;
              s ← slot_at lv (t mod 128);
              e ← aget (entries b) s;
              es ← aset (entries b) s (assignValues e price volume);
              Some (set_entries b es, true)) = Some (set_entries b es, true) /\
    book_ok (set_entries b es) B S (<[t := {| price := price; volume := volume |}]> m).
Proof.
  intros Hok Hp Hm. destruct (ok_block _ _ _ _ Hok _ _ Hp) as (lv & Hlv & _). rewrite Hlv. cbn [mbind option_bind].
  apply (ok_some _ _ _ _ Hok) in Hm as [s Hs]. pose proof Hs as Hsl.
  rewrite (ok_tick _ _ _ _ Hok t p lv Hp Hlv) in Hsl. unfold level_slot in Hsl.
  destruct (level_has lv (t mod 128)); [|done]. rewrite Hsl. cbn [mbind option_bind].
  destruct (ok_entry _ _ _ _ Hok t s Hs) as (e & He & _). rewrite He. cbn [mbind option_bind].
  pose proof (aset_in_range (entries b) s (assignValues e price volume) (aget_Some_range _ _ _ He)) as Hes.
  rewrite Hes. eexists. split; [done|]. by eapply entry_write.
Qed.

Lemma update_new b B S m t price volume : book_ok b B S m -> live b B (fun _ => False) ->
  m !! t = None -> fits m t = true ->
  exists b', ('(b1, level1) ← (match B !! (t / 128) with
                               | Some p => Some (b, Some p)
                               | None => acquireBlock IsBid b (t / 128)
                               end);
              match level1 with
              | None => Some (b1, false)
              | Some p => b2 ← insert_level b1 p (t mod 128) price volume; Some (b2, true)
              end) = Some (b', true) /\ tickSize b' = tickSize b /\
    repr b' (<[t := {| price := price; volume := volume |}]> m).
Proof.
  intros Hok Hlive Hm Hfits. rewrite (ok_fits b B S) in Hfits by done.
  apply andb_prop in Hfits as [Hfs%negb_true_iff%Z.eqb_neq Hfb].
  destruct (B !! (t / 128)) as [p|] eqn:Hp.
  - cbn [mbind option_bind]. destruct (insert_ok b B S m t p price volume Hok Hp Hm Hfs) as (b' & S' & -> & Ht & Hok' & Hl').
    exists b'. split_and!; [done|done|]. exists B, S'. split; [done|]. apply Hl'. intros q lv Hq _. by apply Hlive; [|tauto].
  - rewrite bool_decide_false in Hfb by by intros []. apply negb_true_iff, Z.eqb_neq in Hfb.
    destruct (acquire_ok IsBid b B S m (t / 128) Hok Hlive Hp Hfb) as (b1 & p & -> & (Ht1 & _ & _ & Hc1) & Hok1 & Hlive1).
    cbn [mbind option_bind].
    destruct (insert_ok b1 _ S m t p price volume Hok1) as (b' & S' & -> & Ht & Hok' & Hl');
      [by rewrite lookup_insert_eq|done|by rewrite Hc1|].
    exists b'. split_and!; [done|congruence|]. eexists _, S'. split; [done|]. by apply Hl'.
Qed.

(** A level that does not fit: the book is returned as it was. *)
Lemma update_full b B S m t price volume : book_ok b B S m -> live b B (fun _ => False) ->
  fits m t = false ->
  (if freeSlotCount b =? 0 then Some (b, false) else
   '(b1, level1) ← (match B !! (t / 128) with
                    | Some p => Some (b, Some p)
                    | None => acquireBlock IsBid b (t / 128)
                    end);
   match level1 with
   | None => Some (b1, false)
   | Some p => b2 ← insert_level b1 p (t mod 128) price volume; Some (b2, true)
   end) = Some (b, false).
Proof.
  intros Hok Hlive Hfits. rewrite (ok_fits b B S) in Hfits by done.
  destruct (freeSlotCount b =? 0); [done|]. cbn in Hfits.
  destruct (B !! (t / 128)) as [p|]; [done|]. cbn in Hfits. apply negb_false_iff in Hfits.
  unfold acquireBlock. by rewrite Hfits.
Qed.

(** [update] on a represented book: total, refuses exactly when the level does not
    fit, leaves the book as it was when it refuses, else applies the level. *)
Lemma update_repr b m price volume t : repr b m -> toTick b price = Some t ->
  exists b', update IsBid b price volume = Some (b', accepts m t volume) /\
    repr b' (if accepts m t volume then apply_level m t price volume else m) /\
    tickSize b' = tickSize b /\ (accepts m t volume = false -> b' = b).
Proof.
  intros (B & S & Hok & Hlive) Ht. rewrite (update_unfold b B S m) with (t := t) by done.
  unfold accepts, apply_level. destruct (Z.eqb_spec volume 0) as [Hv|Hv]; cbn [orb].
  - assert (m !! t = None -> repr b (delete t m)) as Hskip
      by (intros E; rewrite delete_id by done; by exists B, S).
    destruct (B !! (t / 128)) as [p|] eqn:Hp.
    + destruct (m !! t) as [e|] eqn:Hm; cbn.
      * destruct (remove_ok IsBid b B S m t p e Hok Hlive Hp Hm) as (b' & -> & Hts & Hrepr). by exists b'.
      * exists b. split_and!; auto.
    + exists b. split_and!; try done. by apply Hskip, (ok_absent b B S).
  - destruct (bool_decide (is_Some (m !! t))) eqn:Hm; cbn [orb].
    + apply bool_decide_eq_true in Hm. destruct (B !! (t / 128)) as [p|] eqn:Hp.
      * destruct (update_overwrite b B S m t p price volume Hok Hp Hm) as (es & -> & Hok').
        exists (set_entries b es). split_and!; [done| |done|done]. exists B, S. done.
      * rewrite (ok_absent b B S m Hok t Hp) in Hm. by destruct Hm.
    + apply bool_decide_eq_false in Hm. apply eq_None_not_Some in Hm.
      replace (match B !! (t / 128) with Some _ | _ => _ end) with
        (if freeSlotCount b =? 0 then Some (b, false) else
         '(b1, level1) ← (match B !! (t / 128) with
                          | Some p => Some (b, Some p)
                          | None => acquireBlock IsBid b (t / 128)
                          end);
         match level1 with
         | None => Some (b1, false)
         | Some p => b2 ← insert_level b1 p (t mod 128) price volume; Some (b2, true)
         end) by by destruct (B !! (t / 128)).
      destruct (fits m t) eqn:Hf.
      * destruct (update_new b B S m t price volume Hok Hlive Hm Hf) as (b' & Hnew & Hts & Hrepr).
        exists b'. rewrite (ok_fits b B S) in Hf by done. apply andb_prop in Hf as [Hfs%negb_true_iff _].
        rewrite Hfs. by split_and!.
      * exists b. rewrite (update_full b B S m) by done. split_and!; try done. by exists B, S.
Qed.

End Update.

(** ** Construction, [clear], tick size *)

Lemma clear_ok b : length (blocks b) = Z.to_nat MAX_BLOCKS -> Forall (fun lv => length (slots lv) = 128%nat) (blocks b) ->
  length (entries b) = Z.to_nat MAX_LEVELS -> repr (clear b) ∅.
Proof.
  intros Hbl Hsl He. exists ∅, ∅.
  assert (Hnone : forall q, ~ placed ∅ q) by (intros q (i & Hi); done).
  assert (Hfl : forall cap fl, 0 <= cap -> fl ≡ₚ seqZ 0 cap -> free_list cap fl cap (placed ∅)).
  { intros cap fl Hcap Hp. eapply free_list_ext; [|by apply free_list_init]. intros x _. split; [done|]. apply Hnone. }
  assert (Hrev : forall cap, 0 <= cap -> ((fun i => cap - 1 - i) <$> seqZ 0 cap) ≡ₚ seqZ 0 cap).
  { intros cap Hcap. apply NoDup_Permutation.
    - apply NoDup_fmap_2_strong; [intros; lia|apply NoDup_seqZ].
    - apply NoDup_seqZ.
    - intros x. rewrite list_elem_of_fmap, elem_of_seqZ. split.
      + intros (y & -> & Hy%elem_of_seqZ). lia.
      + intros Hx. exists (cap - 1 - x). rewrite elem_of_seqZ. lia. }
  assert (Hcell : forall p lv, aget (blocks (clear b)) p = Some lv -> cell_ok lv /\ offsets lv = []).
  { intros p lv. unfold clear, aget. cbn. destruct (p <? 0); [done|]. rewrite list_lookup_fmap.
    destruct (blocks b !! Z.to_nat p) as [lv0|] eqn:E; [|done]. intros [= <-].
    rewrite Forall_lookup in Hsl. specialize (Hsl _ _ E).
    assert (Hwf : level_wf (set_bits lv0 [0; 0])) by (split_and!; [done|repeat constructor; done|done]).
    assert (Hoff : offsets (set_bits lv0 [0; 0]) = []) by (by rewrite (offsets_words _ 0 0)).
    split; [|done]. split; [done|]. intros o Ho Hh. by rewrite (offsets_nil _ o Hoff Ho) in Hh. }
  split; [split|].
  - by apply (dir_ok_frame _ (clear b) _ (dir_ok_empty b (windowBase b) false)).
  - apply Hfl; [done|]. by apply Hrev.
  - cbn. by rewrite length_fmap.
  - intros p lv Hlv. by apply Hcell in Hlv as [? _].
  - intros p lv Hlv _. by apply Hcell in Hlv as [_ ?].
  - done.
  - done.
  - done.
  - apply Hfl; [done|]. by apply Hrev.
  - done.
  - done.
  - by intros p lv Hp%Hnone.
Qed.

Lemma repr_shape b m : repr b m -> length (blocks b) = Z.to_nat MAX_BLOCKS /\
  Forall (fun lv => length (slots lv) = 128%nat) (blocks b) /\ length (entries b) = Z.to_nat MAX_LEVELS.
Proof.
  intros (B & S & Hok & _). split_and!; [apply Hok| |apply Hok]. rewrite Forall_lookup. intros k lv Hk.
  rewrite <- aget_nat in Hk. by destruct (ok_cells _ _ _ _ Hok _ _ Hk) as [(_ & _ & ?) _].
Qed.

Lemma repr_clear b m : repr b m -> repr (clear b) ∅.
Proof. intros (? & ? & ?)%repr_shape. by apply clear_ok. Qed.

Lemma repr_new : repr new_book ∅.
Proof.
  apply clear_ok; cbn [blocks entries]; [apply length_replicate| |apply length_replicate].
  apply Forall_replicate. done.
Qed.

Lemma repr_setTickSize b m t : repr b m -> repr (setTickSize b t) m.
Proof.
  intros (B & S & Hok & Hlive). exists B, S. split; [|done]. split; try apply Hok.
  apply (dir_ok_frame b); try done. apply Hok.
Qed.

(** ** [find] is lookup *)

Lemma find_repr b m price t : repr b m -> toTick b price = Some t -> find b price = Some (m !! t).
Proof.
  intros (B & S & Hok & _) Ht. unfold find. rewrite Ht. cbn [mbind option_bind].
  destruct (tick_parts t) as [-> ->]. rewrite (findBlock_spec b B) by apply Hok. cbn [mbind option_bind].
  destruct (B !! (t / 128)) as [p|] eqn:Hp; [|by rewrite (ok_absent b B S m Hok t Hp)].
  destruct (ok_block _ _ _ _ Hok _ _ Hp) as (lv & Hlv & _ & [Hwf _] & _). rewrite Hlv. cbn [mbind option_bind].
  rewrite level_test_spec by (try done; apply tick_offset). cbn [mbind option_bind].
  pose proof (ok_tick _ _ _ _ Hok t p lv Hp Hlv) as Hs. unfold level_slot in Hs.
  destruct (level_has lv (t mod 128)) eqn:Hh.
  - rewrite (ok_has _ _ _ _ Hok t p lv Hp Hlv) in Hh. apply bool_decide_eq_true in Hh.
    apply (ok_some _ _ _ _ Hok) in Hh as [s Hs']. rewrite Hs' in Hs. rewrite <- Hs. cbn.
    by destruct (ok_entry _ _ _ _ Hok t s Hs') as (e & -> & ->).
  - destruct (m !! t) eqn:E; [|done].
    destruct (proj1 (ok_some _ _ _ _ Hok t)) as [s Hs']; [by rewrite E|]. congruence.
Qed.

(** ** [levelCount] is the size *)

Lemma levelCount_repr b m : repr b m -> levelCount b = Z.of_nat (size m).
Proof. intros (B & S & Hok & _). unfold levelCount. pose proof (ok_level_count _ _ _ _ Hok). lia. Qed.
