(* ===== verification/SortedBookWalk.v ===== *)
(** * SortedBookWalk: the walk over the levels, best first

    [forEachBest] visits three ranges of blocks, each block word by word. This file
    proves that on a book representing [m] it is a plain loop over the entries of [m]
    in tick order (descending for bids), and derives [top]. *)

From S2P Require Import Prelude Model PriceLevel SortedBook FreeList BlockDir SortedBookSpec.

(** Reference: the entries of [m] sorted by tick, best first. *)
Definition ticks_best (IsBid : bool) (m : gmap Z Entry) : list Z :=
  let ts := merge_sort Z.le (elements (dom m)) in if IsBid then reverse ts else ts.

Definition best_first (IsBid : bool) (m : gmap Z Entry) : list Entry :=
  omap (m !!.) (ticks_best IsBid m).

(** ** Lists *)

Lemma reverse_concat {A} (ls : list (list A)) : reverse (concat ls) = concat (reverse <$> reverse ls).
Proof.
  induction ls as [|l ls IH]; [done|]. cbn [concat].
  rewrite reverse_app, reverse_cons, fmap_app, IH. rewrite concat_app. cbn. by rewrite app_nil_r.
Qed.

Lemma StronglySorted_le_lt (l : list Z) : StronglySorted Z.lt l -> StronglySorted Z.le l.
Proof.
  induction 1 as [|x l Hs IH Hx]; constructor; [done|]. eapply Forall_impl; [exact Hx|]. cbn. lia.
Qed.

Lemma StronglySorted_lt_NoDup (l : list Z) : StronglySorted Z.lt l -> NoDup l.
Proof.
  induction 1 as [|x l Hs IH Hx]; constructor; [|done]. rewrite Forall_forall in Hx.
  intros Hin. specialize (Hx _ Hin). lia.
Qed.

Lemma StronglySorted_seqZ a n : StronglySorted Z.lt (seqZ a n).
Proof.
  destruct (Z.lt_ge_cases n 0); [rewrite seqZ_nil by lia; constructor|].
  revert a. pattern n. apply natlike_ind; [| |lia].
  - intros a. rewrite seqZ_nil by lia. constructor.
  - intros k Hk IH a. rewrite seqZ_cons by lia. rewrite Z.pred_succ. constructor; [apply IH|].
    rewrite Forall_forall. intros x Hx%elem_of_seqZ. lia.
Qed.

Lemma StronglySorted_filter {A} (R : relation A) (P : A -> Prop) `{!forall x, Decision (P x)} (l : list A) :
  StronglySorted R l -> StronglySorted R (filter P l).
Proof.
  induction 1 as [|x l Hs IH Hx]; [constructor|]. rewrite filter_cons. case_decide; [|done].
  constructor; [done|]. rewrite Forall_forall in Hx |- *. intros y [_ Hy]%list_elem_of_filter. by apply Hx.
Qed.

(** The sorted list of a set is unique. *)
Lemma sorted_elements (X : gset Z) (l : list Z) : StronglySorted Z.lt l -> (forall x, x ∈ l <-> x ∈ X) ->
  l = merge_sort Z.le (elements X).
Proof.
  intros Hs Hin. apply (StronglySorted_unique Z.le).
  - by apply StronglySorted_le_lt.
  - apply StronglySorted_merge_sort; apply _.
  - rewrite merge_sort_Permutation. apply NoDup_Permutation.
    + by apply StronglySorted_lt_NoDup.
    + apply NoDup_elements.
    + intros x. by rewrite elem_of_elements.
Qed.

(** ** Blocks in order *)

Section Walk.
  Context (b : SortedBook) (B S : gmap Z Z) (m : gmap Z Entry) (Hok : book_ok b B S m).
Let Hd : dir_ok b B := ok_dir b B S m Hok.

(** All blocks, ascending, as [forEachBest] splits them. *)
Definition blocks_asc (low high : nat) : list Z :=
  take low (fallback b) ++ omap id (window b) ++ drop high (fallback b).

Lemma window_sorted w base : (forall k p, w !! k = Some (Some p) -> key b p = base + Z.of_nat k) ->
  StronglySorted (fun p q => key b p < key b q) (omap id w).
Proof.
  revert base. induction w as [|o w IH]; intros base Hw; [constructor|].
  assert (forall k p, w !! k = Some (Some p) -> key b p = base + 1 + Z.of_nat k) as Hw'.
  { intros k p Hk. rewrite (Hw (Datatypes.S k) p Hk). lia. }
  specialize (IH _ Hw'). destruct o as [p|]; [|done]. change (omap id (Some p :: w)) with (p :: omap id w).
  constructor; [done|]. rewrite Forall_forall. intros q [k Hk]%elem_of_omap_id.
  rewrite (Hw O p eq_refl), (Hw' k q Hk). lia.
Qed.

Lemma blocks_asc_spec low high : fallbackFind b (windowBase b) = Some low ->
  fallbackFind b (windowBase b + WINDOW) = Some high ->
  StronglySorted (fun p q => key b p < key b q) (blocks_asc low high) /\
  forall p, p ∈ blocks_asc low high <-> placed B p.
Proof.
  intros Hlow Hhigh.
  destruct (fallbackFind_spec b B (windowBase b) Hd) as (k1 & E1 & _ & Hlo1 & Hhi1). rewrite Hlow in E1. injection E1 as <-.
  destruct (fallbackFind_spec b B (windowBase b + WINDOW) Hd) as (k2 & E2 & _ & Hlo2 & Hhi2). rewrite Hhigh in E2. injection E2 as <-.
  assert (Hfb : forall p, p ∈ fallback b -> ~ in_window b (key b p)) by (intros p Hp; by eapply dir_fallback_key).
  assert (Hwk : forall p, p ∈ omap id (window b) -> in_window b (key b p)).
  { intros p (i & Hi & Hw)%(elem_of_window _ _ _ Hd). by rewrite (dir_key _ _ _ _ Hd Hi). }
  pose proof (dir_sorted _ _ Hd) as Hs. split.
  - assert (StronglySorted (fun p q => key b p < key b q) (take low (fallback b))) as Hs1
      by (rewrite <- (take_drop low (fallback b)) in Hs; by apply StronglySorted_app_1_l in Hs).
    assert (StronglySorted (fun p q => key b p < key b q) (drop high (fallback b))) as Hs3
      by (rewrite <- (take_drop high (fallback b)) in Hs; by apply StronglySorted_app_1_r in Hs).
    apply StronglySorted_app_2; [|done|apply StronglySorted_app_2; [| |done]].
    + intros p q Hp%Hlo1 [Hq%Hwk|Hq%Hhi2]%elem_of_app; unfold in_window, WINDOW in *; lia.
    + intros p q Hp%Hwk Hq%Hhi2. unfold in_window, WINDOW in *. lia.
    + apply (window_sorted _ (windowBase b)). intros k p Hk. by destruct (window_key b B k p Hd Hk).
  - intros p. unfold blocks_asc. rewrite !elem_of_app, (elem_of_window b B p Hd). unfold placed. split.
    + intros [Hp|[(id & Hid & _)|Hp]]; [|eauto|]; exists (key b p); eapply dir_fallback_key; try done.
      * rewrite <- (take_drop low (fallback b)). set_solver.
      * rewrite <- (take_drop high (fallback b)). set_solver.
    + intros [id Hid]. destruct (decide (in_window b id)) as [|Hn]; [right; left; eauto|].
      assert (p ∈ fallback b) as Hp by (apply (dir_fallback _ _ Hd); eauto).
      pose proof (dir_key _ _ _ _ Hd Hid) as Hk.
      destruct (Z.lt_ge_cases id (windowBase b)).
      * left. rewrite <- (take_drop low (fallback b)), elem_of_app in Hp. destruct Hp as [|Hp%Hhi1]; [done|lia].
      * right; right. rewrite <- (take_drop high (fallback b)), elem_of_app in Hp.
        destruct Hp as [Hp%Hlo2|]; [unfold in_window in Hn; lia|done].
Qed.

(** ** Ticks of a block *)

Definition block_ticks (p : Z) : list Z :=
  match aget (blocks b) p with
  | Some lv => (fun o => 128 * blockId lv + o) <$> offsets lv
  | None => []
  end.

Lemma placed_block p : placed B p -> exists lv, aget (blocks b) p = Some lv /\ cell_ok lv /\
  key b p = blockId lv /\ B !! blockId lv = Some p.
Proof.
  intros [id Hid]. destruct (ok_block _ _ _ _ Hok id p Hid) as (lv & Hlv & <- & Hcell & _).
  exists lv. split_and!; [done|done|by eapply dir_key|done].
Qed.

Lemma elem_of_block_ticks p t : placed B p -> t ∈ block_ticks p <-> key b p = t / 128 /\ is_Some (m !! t).
Proof.
  intros Hp. destruct (placed_block p Hp) as (lv & Hlv & Hcell & Hk & HB). unfold block_ticks. rewrite Hlv, Hk.
  rewrite list_elem_of_fmap. split.
  - intros (o & -> & [Ho Hh]%elem_of_offsets). destruct (tick_of (blockId lv) o Ho) as [E1 E2]. split; [done|].
    rewrite <- E2 in Hh. rewrite (ok_has _ _ _ _ Hok _ p lv) in Hh by by rewrite ?E1.
    by apply bool_decide_eq_true in Hh.
  - intros [E Hm]. exists (t mod 128). split; [rewrite E; apply Z.div_mod; lia|].
    apply elem_of_offsets. split; [apply tick_offset|].
    rewrite (ok_has _ _ _ _ Hok _ p lv) by by rewrite <- ?E. by apply bool_decide_eq_true.
Qed.

Lemma block_ticks_sorted p : StronglySorted Z.lt (block_ticks p).
Proof.
  unfold block_ticks. destruct (aget (blocks b) p) as [lv|]; [|constructor].
  apply (StronglySorted_fmap _ Z.lt); [intros; lia|]. apply StronglySorted_filter, StronglySorted_seqZ.
Qed.

Lemma ticks_asc ps : StronglySorted (fun p q => key b p < key b q) ps -> (forall p, p ∈ ps <-> placed B p) ->
  concat (block_ticks <$> ps) = merge_sort Z.le (elements (dom m)).
Proof.
  intros Hs Hin. apply sorted_elements.
  - assert (forall p, p ∈ ps -> placed B p) as Hps by (intros p; apply Hin). clear Hin.
    induction Hs as [|p ps Hs IH Hp]; [constructor|]. cbn. apply StronglySorted_app_2.
    + intros t1 t2 Ht1 (l & Hl & Ht2)%list_elem_of_In%in_concat.
      apply list_elem_of_In, list_elem_of_fmap in Hl as (q & -> & Hq). apply list_elem_of_In in Ht2.
      rewrite elem_of_block_ticks in Ht1 by (apply Hps; by left).
      rewrite elem_of_block_ticks in Ht2 by (apply Hps; by right).
      rewrite Forall_forall in Hp. specialize (Hp _ Hq). cbn in Hp. destruct Ht1 as [E1 _], Ht2 as [E2 _].
      rewrite (Z.div_mod t1 128), (Z.div_mod t2 128) by lia.
      pose proof (Z.mod_pos_bound t1 128). pose proof (Z.mod_pos_bound t2 128). lia.
    + apply block_ticks_sorted.
    + apply IH. intros q Hq. apply Hps. by right.
  - intros t. rewrite elem_of_dom, list_elem_of_In, in_concat. split.
    + intros (l & Hl & Ht). apply list_elem_of_In, list_elem_of_fmap in Hl as (q & -> & Hq%Hin).
      apply list_elem_of_In in Ht. by apply (elem_of_block_ticks q) in Ht as [_ ?].
    + intros Hm. destruct (B !! (t / 128)) as [p|] eqn:Hp;
        [|rewrite (ok_absent _ _ _ _ Hok t Hp) in Hm; by destruct Hm].
      exists (block_ticks p). split; apply list_elem_of_In.
      * apply list_elem_of_fmap_2, Hin. by eexists.
      * apply elem_of_block_ticks; [by eexists|]. split; [|done]. by apply (dir_key _ _ _ _ Hd).
Qed.

(** ** The walk *)

Context {St : Type} (fn : Entry -> St -> option (St * bool)).

Lemma visit_slots ss ts st :
  Forall2 (fun s t => exists e, aget (entries b) s = Some e /\ m !! t = Some e) ss ts ->
  visit (visit_slot fn b) ss st = visit fn (omap (m !!.) ts) st.
Proof.
  intros Hf. revert st. induction Hf as [|s t ss ts (e & He & Hm) Hf IH]; intros st; [done|].
  cbn. rewrite Hm. cbn [visit].
  replace (visit_slot fn b s st) with (fn e st) by (unfold visit_slot; by rewrite He).
  destruct (fn e st) as [[st' []]|]; [apply IH|done|done].
Qed.

Lemma block_visit IsBid p lv st : placed B p -> aget (blocks b) p = Some lv ->
  level_forEach (visit_slot fn b) IsBid lv st =
  visit fn (omap (m !!.) (if IsBid then reverse (block_ticks p) else block_ticks p)) st.
Proof.
  intros Hp Hlv. destruct (placed_block p Hp) as (lv' & Hlv' & [Hwf Hcell] & _ & HB).
  rewrite Hlv in Hlv'. injection Hlv' as <-. unfold block_ticks. rewrite Hlv.
  assert (exists ss, cells lv (offsets lv) ss /\
    Forall2 (fun s t => exists e, aget (entries b) s = Some e /\ m !! t = Some e) ss
      ((fun o => 128 * blockId lv + o) <$> offsets lv)) as (ss & Hc & Hf).
  { assert (forall o, o ∈ offsets lv -> offset_ok o /\ level_has lv o = true) as Hos by (intros o; apply elem_of_offsets).
    induction (offsets lv) as [|o os IH]; [exists []; split; constructor|].
    destruct IH as (ss & Hc & Hf); [intros o' Ho'; apply Hos; by right|].
    destruct (Hos o ltac:(by left)) as [Ho Hh]. destruct (Hcell o Ho Hh) as [s Hs]. exists (s :: ss).
    split; [by constructor|]. constructor; [|done]. destruct (tick_of (blockId lv) o Ho) as [E1 E2].
    destruct (ok_entry _ _ _ _ Hok (128 * blockId lv + o) s) as (e & ? & ?); [|by exists e].
    rewrite (ok_tick _ _ _ _ Hok _ p lv), E2 by by rewrite ?E1. unfold level_slot. by rewrite Hh. }
  rewrite (level_forEach_spec _ lv IsBid ss) by done. apply visit_slots. destruct IsBid; [by apply Forall2_reverse|done].
Qed.

Lemma forEach_blocks_visit IsBid ps st : (forall p, p ∈ ps -> placed B p) ->
  forEach_blocks IsBid fn b ps st =
  visit fn (omap (m !!.) (concat ((fun p => if IsBid then reverse (block_ticks p) else block_ticks p) <$> ps))) st.
Proof.
  revert st. induction ps as [|p ps IH]; intros st Hps; [done|]. cbn [forEach_blocks fmap list_fmap concat].
  destruct (placed_block p (Hps p ltac:(by left))) as (lv & Hlv & _). rewrite Hlv. cbn [mbind option_bind].
  rewrite (block_visit IsBid p lv st (Hps p ltac:(by left)) Hlv), omap_app, visit_app.
  destruct (visit fn _ st) as [[st' []]|]; [|done|done]. cbn [mbind option_bind].
  apply IH. intros q Hq. apply Hps. by right.
Qed.

Lemma forEach_ranges_visit IsBid rs st : (forall p, p ∈ concat rs -> placed B p) ->
  forEach_ranges IsBid fn b rs st =
  fst <$> visit fn (omap (m !!.)
    (concat ((fun p => if IsBid then reverse (block_ticks p) else block_ticks p) <$> concat rs))) st.
Proof.
  revert st. induction rs as [|r rs IH]; intros st Hps; [done|]. cbn [forEach_ranges concat] in *.
  rewrite forEach_blocks_visit by (intros p Hp; apply Hps; set_solver).
  rewrite fmap_app, concat_app, omap_app, visit_app.
  destruct (visit fn _ st) as [[st' []]|]; [|done|done]. cbn [mbind option_bind].
  apply IH. intros q Hq. apply Hps. set_solver.
Qed.

Lemma forEachBest_ok IsBid st : forEachBest IsBid fn b st = fst <$> visit fn (best_first IsBid m) st.
Proof.
  unfold forEachBest. destruct (fallbackFind_spec b B (windowBase b) Hd) as (low & Hlow & _).
  destruct (fallbackFind_spec b B (windowBase b + WINDOW) Hd) as (high & Hhigh & _).
  rewrite Hlow, Hhigh. cbn [mbind option_bind].
  destruct (blocks_asc_spec low high Hlow Hhigh) as [Hs Hin].
  assert (Hord : concat (best_order IsBid b low high) =
    if IsBid then reverse (blocks_asc low high) else blocks_asc low high).
  { unfold best_order, blocks_asc. destruct IsBid; cbn; rewrite ?app_nil_r; [|done].
    by rewrite !reverse_app, app_assoc. }
  rewrite forEach_ranges_visit.
  - unfold best_first, ticks_best. rewrite Hord, <- (ticks_asc _ Hs Hin). destruct IsBid; [|done].
    by rewrite reverse_concat, <- fmap_reverse, <- list_fmap_compose.
  - intros p. rewrite Hord. destruct IsBid; rewrite ?elem_of_reverse; apply Hin.
Qed.

End Walk.
