(* ===== verification/SortedBookThms.v ===== *)
(** * SortedBookThms: what one side of the book guarantees

    The properties of [SortedBook], for one operation on a book representing a map and
    for whole runs of operations from the constructor. *)

From S2P Require Import Prelude FixedPoint Model PriceLevel SortedBook FreeList BlockDir SortedBookSpec SortedBookWalk.

(** ** Ticks *)

Lemma toTick_Some b price t : toTick b price = Some t ->
  tickSize b <> 0 /\ t = Z.quot (price + Z.quot (tickSize b) 2) (tickSize b).
Proof.
  unfold toTick. destruct (Z.eqb_spec (tickSize b) 0); [done|]. case_match; [|done].
  intros [= <-]. done.
Qed.

Lemma toTick_mono b p1 p2 t1 t2 : 0 < tickSize b -> toTick b p1 = Some t1 -> toTick b p2 = Some t2 ->
  t1 < t2 -> p1 < p2.
Proof.
  intros Hpos [_ ->]%toTick_Some [_ ->]%toTick_Some Hlt.
  destruct (Z.lt_ge_cases p1 p2) as [|Hge]; [done|]. exfalso.
  pose proof (Z.quot_le_mono (p2 + Z.quot (tickSize b) 2) (p1 + Z.quot (tickSize b) 2) (tickSize b)). lia.
Qed.

(** [toTick] is the nearest tick: for a price of at least 0 the chosen tick is within
    half a tick size, and a multiple of the tick size is mapped to its quotient. *)
Lemma toTick_nearest b price t : 0 < tickSize b -> 0 <= price -> toTick b price = Some t ->
  - tickSize b <= 2 * (price - t * tickSize b) <= tickSize b /\ (forall k, price = k * tickSize b -> t = k).
Proof.
  intros Hpos Hp [_ ->]%toTick_Some. pose proof (Z.quot_pos (tickSize b) 2 ltac:(lia) ltac:(lia)).
  rewrite !Z.quot_div_nonneg by (try rewrite Z.quot_div_nonneg in *; lia).
  rewrite Z.quot_div_nonneg in * by lia.
  pose proof (Z.div_mod (tickSize b) 2 ltac:(lia)). pose proof (Z.mod_pos_bound (tickSize b) 2 ltac:(lia)).
  set (h := tickSize b / 2) in *.
  pose proof (Z.div_mod (price + h) (tickSize b) ltac:(lia)).
  pose proof (Z.mod_pos_bound (price + h) (tickSize b) ltac:(lia)).
  set (q := (price + h) / tickSize b) in *. split; [nia|].
  intros k ->. nia.
Qed.

(** ** [top] *)

Lemma visit_take {A} (count : nat) (l w : list A) : (length w < count)%nat ->
  fst <$> visit (fun e written => Some (written ++ [e], (length (written ++ [e]) <? count)%nat)) l w
    = Some (w ++ take (count - length w) l).
Proof.
  revert w. induction l as [|e l IH]; intros w Hw.
  - cbn. by rewrite take_nil, app_nil_r.
  - cbn [visit mbind option_bind]. rewrite length_app. cbn [length].
    replace (count - length w)%nat with (S (count - (length w + 1)))%nat by lia. cbn [take].
    destruct (Nat.ltb_spec (length w + 1) count) as [Hlt|Hge].
    + rewrite IH by (rewrite length_app; cbn; lia). rewrite length_app. cbn [length].
      by rewrite <- app_assoc.
    + replace (count - (length w + 1))%nat with O by lia. done.
Qed.

Lemma top_repr IsBid b m count : repr b m -> top IsBid b count = Some (take count (best_first IsBid m)).
Proof.
  intros (B & S & Hok & _). unfold top. destruct (Nat.eqb_spec count 0) as [->|Hne]; [done|].
  rewrite (forEachBest_ok b B S m Hok), visit_take by (cbn; lia). cbn. by rewrite Nat.sub_0_r.
Qed.

(** ** Prices

    [keyed b m]: every entry is filed under the tick of its own price. It holds as
    long as the tick size does not change while the book has levels. *)
Definition keyed (b : SortedBook) (m : gmap Z Entry) : Prop :=
  forall t e, m !! t = Some e -> toTick b (price e) = Some t.

Lemma keyed_empty b : keyed b ∅.
Proof. intros t e. by rewrite lookup_empty. Qed.

Lemma keyed_apply b b' m t p v : keyed b m -> toTick b p = Some t -> tickSize b' = tickSize b ->
  keyed b' (apply_level m t p v).
Proof.
  intros Hk Ht Hts. assert (Heq : forall q, toTick b' q = toTick b q) by (intros; unfold toTick; by rewrite Hts).
  intros t' e. rewrite Heq. unfold apply_level. destruct (v =? 0).
  - intros [_ ?]%lookup_delete_Some. by apply Hk.
  - intros [[<- <-]|[_ ?]]%lookup_insert_Some; [done|by apply Hk].
Qed.

Definition better (IsBid : bool) (e1 e2 : Entry) : Prop :=
  if IsBid then price e2 < price e1 else price e1 < price e2.

Lemma ticks_sorted (m : gmap Z Entry) : StronglySorted Z.lt (merge_sort Z.le (elements (dom m : gset Z))).
Proof.
  pose proof (StronglySorted_merge_sort Z.le (elements (dom m : gset Z))) as Hs.
  assert (NoDup (merge_sort Z.le (elements (dom m : gset Z)))) as Hnd.
  { rewrite merge_sort_Permutation. apply NoDup_elements. }
  revert Hs Hnd. generalize (merge_sort Z.le (elements (dom m : gset Z))). intros l Hs Hnd.
  assert (StronglySorted Z.le l) as Hs' by (apply Hs; apply _). clear Hs.
  induction Hs' as [|x l Hs IH Hx]; [constructor|]. apply NoDup_cons in Hnd as [Hni Hnd].
  constructor; [by apply IH|]. rewrite Forall_forall in Hx |- *. intros y Hy. specialize (Hx _ Hy).
  assert (x <> y) by (intros ->; done). lia.
Qed.

Lemma StronglySorted_reverse {A} (R : relation A) (l : list A) :
  StronglySorted R l -> StronglySorted (fun x y => R y x) (reverse l).
Proof.
  induction 1 as [|x l Hs IH Hx]; [constructor|]. rewrite reverse_cons. apply StronglySorted_app_2; [|done|].
  - intros y z Hy ->%list_elem_of_singleton. rewrite elem_of_reverse in Hy. rewrite Forall_forall in Hx. by apply Hx.
  - repeat constructor.
Qed.

Lemma StronglySorted_omap {A C} (R1 : relation A) (R2 : relation C) (f : A -> option C) (l : list A) :
  (forall x y c d, R1 x y -> f x = Some c -> f y = Some d -> R2 c d) ->
  StronglySorted R1 l -> StronglySorted R2 (omap f l).
Proof.
  intros HR. induction 1 as [|x l Hs IH Hx]; [constructor|]. cbn. destruct (f x) as [c|] eqn:E; [|done].
  constructor; [done|]. rewrite Forall_forall in Hx. rewrite Forall_forall. intros d (y & Hy & Hfy)%list_elem_of_omap.
  by eapply HR; [apply Hx| |].
Qed.

Lemma best_first_sorted IsBid b m : 0 < tickSize b -> keyed b m ->
  StronglySorted (better IsBid) (best_first IsBid m).
Proof.
  intros Hpos Hk. unfold best_first, ticks_best. destruct IsBid.
  - apply (StronglySorted_omap (fun x y => y < x)); [|apply StronglySorted_reverse, ticks_sorted].
    intros x y c d Hlt Hx%Hk Hy%Hk. cbn. by apply (toTick_mono b _ _ y x).
  - apply (StronglySorted_omap Z.lt); [|apply ticks_sorted].
    intros x y c d Hlt Hx%Hk Hy%Hk. cbn. by apply (toTick_mono b _ _ x y).
Qed.

(** ** Runs *)

(** The operations that change a side, as [SnapshotBuffer], [OrderbookArrays] and
    [DepthDecoder] issue them once the tick size is set. *)
Inductive book_op :=
  | OpUpdate (price volume : Z)
  | OpClear.

Definition book_step (IsBid : bool) (b : SortedBook) (op : book_op) : option SortedBook :=
  match op with
  | OpUpdate p v => '(b', _) ← update IsBid b p v; Some b'
  | OpClear => Some (clear b)
  end.

Fixpoint book_run (IsBid : bool) (b : SortedBook) (ops : list book_op) : option SortedBook :=
  match ops with
  | [] => Some b
  | op :: ops' => b' ← book_step IsBid b op; book_run IsBid b' ops'
  end.

(** The abstract machine: a map from tick to entry, bounded as [accepts] says. *)
Definition map_step (b : SortedBook) (m : gmap Z Entry) (op : book_op) : gmap Z Entry :=
  match op with
  | OpUpdate p v =>
      match toTick b p with
      | Some t => if accepts m t v then apply_level m t p v else m
      | None => m
      end
  | OpClear => ∅
  end.

(** Every price of the run has a tick (no signed overflow). *)
Definition op_ok (b : SortedBook) (op : book_op) : Prop :=
  match op with OpUpdate p _ => is_Some (toTick b p) | OpClear => True end.

Lemma book_step_repr IsBid b m op : repr b m -> keyed b m -> op_ok b op ->
  exists b', book_step IsBid b op = Some b' /\ tickSize b' = tickSize b /\
    repr b' (map_step b m op) /\ keyed b' (map_step b m op).
Proof.
  intros Hr Hk Hop. destruct op as [p v|]; cbn in *.
  - destruct Hop as [t Ht]. rewrite Ht. destruct (update_repr IsBid b m p v t Hr Ht) as (b' & -> & Hr' & Hts & _).
    exists b'. split_and!; [done|done|done|]. destruct (accepts m t v); [by apply (keyed_apply b)|].
    intros t' e He. unfold toTick. rewrite Hts. by apply Hk.
  - exists (clear b). split_and!; [done|done|by eapply repr_clear|apply keyed_empty].
Qed.

Lemma map_step_ext b b' m op : tickSize b' = tickSize b -> map_step b' m op = map_step b m op.
Proof. intros Hts. destruct op; cbn; [|done]. unfold toTick. by rewrite Hts. Qed.

Lemma book_run_repr IsBid b0 b m ops : tickSize b = tickSize b0 -> repr b m -> keyed b m ->
  Forall (op_ok b0) ops ->
  exists b', book_run IsBid b ops = Some b' /\ tickSize b' = tickSize b0 /\
    repr b' (foldl (map_step b0) m ops) /\ keyed b' (foldl (map_step b0) m ops).
Proof.
  intros Hts Hr Hk Hops. revert b m Hts Hr Hk.
  induction Hops as [|op ops Hop Hops IH]; intros b m Hts Hr Hk; cbn; [by exists b|].
  assert (Hop' : op_ok b op) by (destruct op; cbn in *; unfold toTick in *; by rewrite ?Hts).
  destruct (book_step_repr IsBid b m op Hr Hk Hop') as (b1 & -> & Ht1 & Hr1 & Hk1). cbn [mbind option_bind].
  rewrite (map_step_ext b0 b) in Hr1, Hk1 by done. apply IH; [congruence|done|done].
Qed.

(** ** Properties *)

(** [update] refines the map: on a book representing [m], for a price with tick [t],
    it reaches no undefined behaviour and returns [accepts m t volume]: removals and
    overwrites always succeed, a new level succeeds exactly when a slot is free and the
    tick's block exists or a block is free. The new book represents [m] with the level
    applied, and on refusal the book is literally unchanged. *)
Theorem update_refines IsBid b m price volume t :
  repr b m -> toTick b price = Some t ->
  exists b', update IsBid b price volume = Some (b', accepts m t volume) /\
    repr b' (if accepts m t volume then apply_level m t price volume else m) /\
    (accepts m t volume = false -> b' = b).
Proof.
  intros Hr Ht. destruct (update_repr IsBid b m price volume t Hr Ht) as (b' & H & H' & _ & ?). by exists b'.
Qed.

Definition book10 : SortedBook := setTickSize new_book 10.

Lemma repr_book10 : repr book10 ∅.
Proof. apply (repr_setTickSize _ _ _ repr_new). Qed.

Lemma update_refines_witness : exists b', update true book10 1234 5 = Some (b', accepts ∅ 123 5) /\
  repr b' (if accepts ∅ 123 5 then apply_level ∅ 123 1234 5 else ∅) /\
  (accepts ∅ 123 5 = false -> b' = book10).
Proof. apply (update_refines true book10 ∅ 1234 5 123 repr_book10). vm_compute. reflexivity. Defined.

(** C15 Memory safety and functional correctness of whole runs: from the constructor
    with a positive tick size, every sequence of updates and clears whose prices have
    ticks runs without undefined behaviour, and afterwards [find] is lookup in the map
    the abstract machine computed, and [levelCount] its size. *)
Theorem book_run_refines IsBid ts ops : Forall (op_ok (setTickSize new_book ts)) ops ->
  let b0 := setTickSize new_book ts in
  let m := foldl (map_step b0) ∅ ops in
  exists b, book_run IsBid b0 ops = Some b /\ levelCount b = Z.of_nat (size m) /\
    forall price t, toTick b0 price = Some t -> find b price = Some (m !! t).
Proof.
  intros Hops b0 m.
  destruct (book_run_repr IsBid b0 b0 ∅ ops eq_refl (repr_setTickSize _ _ ts repr_new) (keyed_empty _) Hops)
    as (b & Hrun & Hts & Hr & _).
  exists b. split_and!; [done|by apply levelCount_repr|]. intros price t Ht. apply find_repr; [done|].
  unfold toTick in *. by rewrite Hts.
Qed.

Lemma book_run_refines_witness :
  exists b, book_run false book10 [OpUpdate 100 1; OpUpdate 90000 2; OpUpdate 100 0] = Some b /\
    levelCount b = 1 /\ find b 90000 = Some (Some {| price := 90000; volume := 2 |}) /\ find b 100 = Some None.
Proof.
  destruct (book_run_refines false 10 [OpUpdate 100 1; OpUpdate 90000 2; OpUpdate 100 0]) as (b & Hrun & Hn & Hf).
  - repeat constructor; cbn; eexists; vm_compute; reflexivity.
  - exists b. split_and!; [exact Hrun|exact Hn| |].
    + exact (Hf 90000 9000 eq_refl).
    + exact (Hf 100 10 eq_refl).
Defined.

(** C16 [top] after any run returns the first [count] levels of the abstract map, best
    first, and their prices are strictly decreasing on the bid side and strictly
    increasing on the ask side. *)
Theorem top_best_levels IsBid ts ops count : 0 < ts -> Forall (op_ok (setTickSize new_book ts)) ops ->
  let b0 := setTickSize new_book ts in
  let m := foldl (map_step b0) ∅ ops in
  exists b, book_run IsBid b0 ops = Some b /\
    top IsBid b count = Some (take count (best_first IsBid m)) /\
    StronglySorted (better IsBid) (best_first IsBid m).
Proof.
  intros Hts Hops b0 m.
  destruct (book_run_repr IsBid b0 b0 ∅ ops eq_refl (repr_setTickSize _ _ ts repr_new) (keyed_empty _) Hops)
    as (b & Hrun & Ht & Hr & Hk).
  exists b. split_and!; [done|by apply top_repr|]. apply (best_first_sorted IsBid b); [|done]. rewrite Ht. exact Hts.
Qed.

Lemma top_best_levels_witness :
  exists b, book_run true book10 [OpUpdate 100 1; OpUpdate 90000 2; OpUpdate 120 3] = Some b /\
    top true b 2 = Some [{| price := 90000; volume := 2 |}; {| price := 120; volume := 3 |}].
Proof.
  destruct (top_best_levels true 10 [OpUpdate 100 1; OpUpdate 90000 2; OpUpdate 120 3] 2) as (b & Hrun & Htop & _).
  - lia.
  - repeat constructor; cbn; eexists; vm_compute; reflexivity.
  - exists b. split; [exact Hrun|]. rewrite Htop. vm_compute. reflexivity.
Defined.

(** [forEachBest] calls its callback on the entries of the represented map, best
    first, until it returns false, whatever the window and the fallback look like. *)
Theorem forEachBest_refines IsBid St (fn : Entry -> St -> option (St * bool)) b m st : repr b m ->
  forEachBest IsBid fn b st = fst <$> visit fn (best_first IsBid m) st.
Proof. intros (B & S & Hok & _). exact (forEachBest_ok b B S m Hok fn IsBid st). Qed.

Lemma forEachBest_refines_witness :
  forEachBest true (fun e n => Some (n + volume e, true)) book10 0 = Some 0.
Proof. rewrite (forEachBest_refines true Z _ book10 ∅ 0 repr_book10). vm_compute. reflexivity. Defined.

(** C40 [toTick] is the nearest tick, exact on multiples of the tick size. *)
Theorem toTick_rounds b price t : 0 < tickSize b -> 0 <= price -> toTick b price = Some t ->
  - tickSize b <= 2 * (price - t * tickSize b) <= tickSize b /\ (forall k, price = k * tickSize b -> t = k).
Proof. apply toTick_nearest. Qed.

Lemma toTick_rounds_witness : - 10 <= 2 * (1234 - 123 * 10) <= 10 /\ (forall k, 1234 = k * 10 -> 123 = k).
Proof. apply (toTick_rounds book10 1234 123); [cbn; lia|lia|vm_compute; reflexivity]. Defined.
