(* ===== verification/Enums.v ===== *)
(** * Enums: the domain enumerations and their wire names

    Models [src/api/common/enums/commonTypes.hpp] and [toEnum.hpp]. The enumerator
    [E::X] of [enum class E] is the constructor [E_X]. A function [returnE] maps the
    exchange's string to the enumerator: it throws [std::invalid_argument] on an
    unknown value, or falls back to a default where the source does. *)

From S2P Require Import Prelude FixedPoint.
From stdpp Require Import pretty.
#[local] Open Scope Z_scope.

(** ** [commonTypes.hpp] *)

Inductive OrderTypeSent :=
  | OrderTypeSent_NEW
  | OrderTypeSent_MODIFY
  | OrderTypeSent_CANCEL
  | OrderTypeSent_QUERY
  | OrderTypeSent_ACCOUNT_INFO
  | OrderTypeSent_NONE.

Inductive RateLimitType :=
  | RateLimitType_ORDER
  | RateLimitType_REQUEST_WEIGHT
  | RateLimitType_UNKNOWN.

Inductive IntervalRateLimit :=
  | IntervalRateLimit_SECOND
  | IntervalRateLimit_MINUTE
  | IntervalRateLimit_UNKNOWN.

Inductive MarginType :=
  | MarginType_ISOLATED
  | MarginType_CROSS.

Inductive PositionSide :=
  | PositionSide_BOTH
  | PositionSide_LONG
  | PositionSide_SHORT
  | PositionSide_NONE.

Inductive OrderSide :=
  | OrderSide_SELL
  | OrderSide_BUY
  | OrderSide_NONE.

Inductive AccountUpdateType :=
  | AccountUpdateType_DEPOSIT
  | AccountUpdateType_WITHDRAW
  | AccountUpdateType_ORDER
  | AccountUpdateType_FUNDING_FEE
  | AccountUpdateType_WITHDRAW_REJECT
  | AccountUpdateType_ADJUSTMENT
  | AccountUpdateType_INSURANCE_CLEAR
  | AccountUpdateType_ADMIN_DEPOSIT
  | AccountUpdateType_ADMIN_WITHDRAW
  | AccountUpdateType_MARGIN_TRANSFER
  | AccountUpdateType_MARGIN_TYPE_CHANGE
  | AccountUpdateType_ASSET_TRANSFER
  | AccountUpdateType_OPTIONS_PREMIUM_FEE
  | AccountUpdateType_OPTIONS_SETTLE_PROFIT
  | AccountUpdateType_AUTO_EXCHANGE
  | AccountUpdateType_COIN_SWAP_DEPOSIT
  | AccountUpdateType_COIN_SWAP_WITHDRAW.

Inductive OrderType :=
  | OrderType_LIMIT
  | OrderType_MARKET
  | OrderType_STOP
  | OrderType_STOP_MARKET
  | OrderType_TAKE_PROFIT
  | OrderType_TAKE_PROFIT_MARKET
  | OrderType_TRAILING_STOP_MARKET
  | OrderType_LIQUIDATION
  | OrderType_NONE.

Inductive ExecutionType :=
  | ExecutionType_NEW
  | ExecutionType_CANCELED
  | ExecutionType_CALCULATED
  | ExecutionType_EXPIRED
  | ExecutionType_TRADE
  | ExecutionType_AMENDMENT.

Inductive OrderStatus :=
  | OrderStatus_NEW
  | OrderStatus_PARTIALLY_FILLED
  | OrderStatus_FILLED
  | OrderStatus_CANCELED
  | OrderStatus_EXPIRED
  | OrderStatus_EXPIRED_IN_MATCH
  | OrderStatus_NONE.

Inductive TimeInForce :=
  | TimeInForce_GTC
  | TimeInForce_IOC
  | TimeInForce_FOK
  | TimeInForce_GTX
  | TimeInForce_NONE.

Inductive WorkingType :=
  | WorkingType_MARK_PRICE
  | WorkingType_CONTRACT_PRICE
  | WorkingType_NONE.

Inductive STPMode :=
  | STPMode_NONE
  | STPMode_EXPIRE_TAKER
  | STPMode_EXPIRE_MAKER
  | STPMode_EXPIRE_BOTH.

Inductive PriceMatchMode :=
  | PriceMatchMode_NONE
  | PriceMatchMode_OPPONENT
  | PriceMatchMode_QUEUE
  | PriceMatchMode_MAKER
  | PriceMatchMode_BIDDER.

Inductive StrategyStatus :=
  | StrategyStatus_NEW
  | StrategyStatus_WORKING
  | StrategyStatus_CANCELED
  | StrategyStatus_EXPIRED.

Inductive OpCode :=
  | OpCode_UPDATED
  | OpCode_CANCELED
  | OpCode_PLACED_OR_CANCELED
  | OpCode_STOP_REACHED
  | OpCode_LIQUIDATED
  | OpCode_MAX_ORDER_REACHED
  | OpCode_NEW_GRID_ORDER
  | OpCode_MARGIN_NOT_ENOUGH
  | OpCode_PRICE_OUT_OF_BOUNDS
  | OpCode_MARKET_CLOSED_OR_PAUSED
  | OpCode_CLOSE_FAILED
  | OpCode_MAX_NOTITIONAL_VALUE_EXCEEDED
  | OpCode_GRID_EXPIRED_KYC_OR_RESTRICTED
  | OpCode_RULES_VIOLATED_STOPPED
  | OpCode_POSITION_EMPTY_OR_LIQUIDATED.

Inductive ExpireReason :=
  | ExpireReason_NONE
  | ExpireReason_EXPIRED_SAVE
  | ExpireReason_IOC_FAIL
  | ExpireReason_IOC_FAIL_SAVE
  | ExpireReason_REVERSED
  | ExpireReason_LIQUIDATED
  | ExpireReason_GTE_FAILED
  | ExpireReason_SYMBOL_INVALID
  | ExpireReason_STOP_TRIGGERED
  | ExpireReason_MARKET_ORDER_FAIL.

Inductive StrategyType :=
  | StrategyType_STOP
  | StrategyType_TAKE_PROFIT
  | StrategyType_STOP_MARKET
  | StrategyType_TAKE_PROFIT_MARKET
  | StrategyType_TRAILING_STOP_MARKET
  | StrategyType_GRID
  | StrategyType_TWAP
  | StrategyType_VP
  | StrategyType_SIGNAL
  | StrategyType_CUSTOM.

Inductive EventType :=
  | EventType_ACCOUNT_UPDATE
  | EventType_MARGIN_CALL
  | EventType_ORDER_UPDATE
  | EventType_TRADE_LITE
  | EventType_ACCOUNT_CONFIG_UPDATE
  | EventType_STRATEGY_UPDATE
  | EventType_GRID_UPDATE
  | EventType_CONDITIONAL_ORDER_REJECT
  | EventType_ALGO_UPDATE
  | EventType_LISTEN_KEY_EXPIRED
  | EventType_UNKNOWN.

#[global] Instance OrderTypeSent_eq_dec : EqDecision OrderTypeSent.
Proof. solve_decision. Defined.
#[global] Instance RateLimitType_eq_dec : EqDecision RateLimitType.
Proof. solve_decision. Defined.
#[global] Instance IntervalRateLimit_eq_dec : EqDecision IntervalRateLimit.
Proof. solve_decision. Defined.
#[global] Instance MarginType_eq_dec : EqDecision MarginType.
Proof. solve_decision. Defined.
#[global] Instance PositionSide_eq_dec : EqDecision PositionSide.
Proof. solve_decision. Defined.
#[global] Instance OrderSide_eq_dec : EqDecision OrderSide.
Proof. solve_decision. Defined.
#[global] Instance AccountUpdateType_eq_dec : EqDecision AccountUpdateType.
Proof. solve_decision. Defined.
#[global] Instance OrderType_eq_dec : EqDecision OrderType.
Proof. solve_decision. Defined.
#[global] Instance ExecutionType_eq_dec : EqDecision ExecutionType.
Proof. solve_decision. Defined.
#[global] Instance OrderStatus_eq_dec : EqDecision OrderStatus.
Proof. solve_decision. Defined.
#[global] Instance TimeInForce_eq_dec : EqDecision TimeInForce.
Proof. solve_decision. Defined.
#[global] Instance WorkingType_eq_dec : EqDecision WorkingType.
Proof. solve_decision. Defined.
#[global] Instance STPMode_eq_dec : EqDecision STPMode.
Proof. solve_decision. Defined.
#[global] Instance PriceMatchMode_eq_dec : EqDecision PriceMatchMode.
Proof. solve_decision. Defined.
#[global] Instance StrategyStatus_eq_dec : EqDecision StrategyStatus.
Proof. solve_decision. Defined.
#[global] Instance OpCode_eq_dec : EqDecision OpCode.
Proof. solve_decision. Defined.
#[global] Instance ExpireReason_eq_dec : EqDecision ExpireReason.
Proof. solve_decision. Defined.
#[global] Instance StrategyType_eq_dec : EqDecision StrategyType.
Proof. solve_decision. Defined.
#[global] Instance EventType_eq_dec : EqDecision EventType.
Proof. solve_decision. Defined.

(** The underlying values of [enum class OpCode : int]. *)
Definition OpCode_value (c : OpCode) : Z :=
  match c with
  | OpCode_UPDATED => 8001
  | OpCode_CANCELED => 8002
  | OpCode_PLACED_OR_CANCELED => 8003
  | OpCode_STOP_REACHED => 8004
  | OpCode_LIQUIDATED => 8005
  | OpCode_MAX_ORDER_REACHED => 8006
  | OpCode_NEW_GRID_ORDER => 8007
  | OpCode_MARGIN_NOT_ENOUGH => 8008
  | OpCode_PRICE_OUT_OF_BOUNDS => 8009
  | OpCode_MARKET_CLOSED_OR_PAUSED => 8010
  | OpCode_CLOSE_FAILED => 8011
  | OpCode_MAX_NOTITIONAL_VALUE_EXCEEDED => 8012
  | OpCode_GRID_EXPIRED_KYC_OR_RESTRICTED => 8013
  | OpCode_RULES_VIOLATED_STOPPED => 8014
  | OpCode_POSITION_EMPTY_OR_LIQUIDATED => 8015
  end.

(** The three balance records. Their fields are indeterminate until assigned, hence the
    options; a [std::string] is empty. *)
Record AssetBalance := {
  ab_asset : string;
  ab_walletBalance : option Fixed;
  ab_crossWalletBalance : option Fixed;
  ab_balanceChange : option Fixed;
}.

Record PositionBalance := {
  pb_pair : string;
  pb_positionAmount : option Fixed;
  pb_entryPrice : option Fixed;
  pb_breakEvenPrice : option Fixed;
  pb_realizedPNL : option Fixed;
  pb_unrealizedPNL : option Fixed;
  pb_isolatedWalletBalance : option Fixed;
  pb_marginType : option MarginType;
  pb_positionSide : option PositionSide;
}.

Record MarginCallPosition := {
  mc_pair : string;
  mc_positionSide : option PositionSide;
  mc_positionAmount : option Fixed;
  mc_marginType : option MarginType;
  mc_isolatedWalletBalance : option Fixed;
  mc_markPrice : option Fixed;
  mc_unrealizedPNL : option Fixed;
  mc_maintenanceMargin : option Fixed;
}.

(** ** [toEnum.hpp] *)

(** [s == "..."] on [std::string]. *)
Notation "s == t" := (String.eqb s t) (at level 70) : bool_scope.

Definition returnEventType (requested : string) : EventType :=
  if (requested == "ACCOUNT_UPDATE") then EventType_ACCOUNT_UPDATE else
  if (requested == "MARGIN_CALL") then EventType_MARGIN_CALL else
  if (requested == "ORDER_TRADE_UPDATE") then EventType_ORDER_UPDATE else
  if (requested == "TRADE_LITE") then EventType_TRADE_LITE else
  if (requested == "ACCOUNT_CONFIG_UPDATE") then EventType_ACCOUNT_CONFIG_UPDATE else
  if (requested == "STRATEGY_UPDATE") then EventType_STRATEGY_UPDATE else
  if (requested == "GRID_UPDATE") then EventType_GRID_UPDATE else
  if (requested == "CONDITIONAL_ORDER_TRIGGER_REJECT") || (requested == "CONDITIONAL_ORDER_REJECT") then EventType_CONDITIONAL_ORDER_REJECT else
  if (requested == "ALGO_UPDATE") then EventType_ALGO_UPDATE else
  if (requested == "listenKeyExpired") then EventType_LISTEN_KEY_EXPIRED else
  EventType_UNKNOWN.

Definition returnAccountUpdateType (reason : string) : result AccountUpdateType :=
  if (reason == "DEPOSIT") then Ok AccountUpdateType_DEPOSIT else
  if (reason == "WITHDRAW") then Ok AccountUpdateType_WITHDRAW else
  if (reason == "ORDER") then Ok AccountUpdateType_ORDER else
  if (reason == "FUNDING_FEE") then Ok AccountUpdateType_FUNDING_FEE else
  if (reason == "WITHDRAW_REJECT") then Ok AccountUpdateType_WITHDRAW_REJECT else
  if (reason == "ADJUSTMENT") then Ok AccountUpdateType_ADJUSTMENT else
  if (reason == "INSURANCE_CLEAR") then Ok AccountUpdateType_INSURANCE_CLEAR else
  if (reason == "ADMIN_DEPOSIT") then Ok AccountUpdateType_ADMIN_DEPOSIT else
  if (reason == "ADMIN_WITHDRAW") then Ok AccountUpdateType_ADMIN_WITHDRAW else
  if (reason == "MARGIN_TRANSFER") then Ok AccountUpdateType_MARGIN_TRANSFER else
  if (reason == "MARGIN_TYPE_CHANGE") then Ok AccountUpdateType_MARGIN_TYPE_CHANGE else
  if (reason == "ASSET_TRANSFER") then Ok AccountUpdateType_ASSET_TRANSFER else
  if (reason == "OPTIONS_PREMIUM_FEE") then Ok AccountUpdateType_OPTIONS_PREMIUM_FEE else
  if (reason == "OPTIONS_SETTLE_PROFIT") then Ok AccountUpdateType_OPTIONS_SETTLE_PROFIT else
  if (reason == "AUTO_EXCHANGE") then Ok AccountUpdateType_AUTO_EXCHANGE else
  if (reason == "COIN_SWAP_DEPOSIT") then Ok AccountUpdateType_COIN_SWAP_DEPOSIT else
  if (reason == "COIN_SWAP_WITHDRAW") then Ok AccountUpdateType_COIN_SWAP_WITHDRAW else
  Throw (invalid_argument ("Unknown AccountUpdateType: " +:+ reason)%string).

Definition returnMarginType (type : string) : result MarginType :=
  if (type == "isolated") || (type == "ISOLATED") then Ok MarginType_ISOLATED else
  if (type == "cross") || (type == "CROSS") || (type == "crossed") || (type == "CROSSED") then Ok MarginType_CROSS else
  Throw (invalid_argument ("Unknown MarginType: " +:+ type)%string).

Definition returnPositionSide (side : string) : result PositionSide :=
  if (side == "BOTH") || (side == "both") then Ok PositionSide_BOTH else
  if (side == "LONG") || (side == "long") then Ok PositionSide_LONG else
  if (side == "SHORT") || (side == "short") then Ok PositionSide_SHORT else
  Throw (invalid_argument ("Unknown PositionSide: " +:+ side)%string).

Definition returnOrderSide (side : string) : result OrderSide :=
  if (side == "SELL") || (side == "sell") then Ok OrderSide_SELL else
  if (side == "BUY") || (side == "buy") then Ok OrderSide_BUY else
  Throw (invalid_argument ("Unknown OrderSide: " +:+ side)%string).

Definition returnOrderType (type : string) : result OrderType :=
  if (type == "LIMIT") || (type == "limit") then Ok OrderType_LIMIT else
  if (type == "MARKET") || (type == "market") then Ok OrderType_MARKET else
  if (type == "STOP") || (type == "stop") then Ok OrderType_STOP else
  if (type == "STOP_MARKET") || (type == "stop_market") then Ok OrderType_STOP_MARKET else
  if (type == "TAKE_PROFIT") || (type == "take_profit") then Ok OrderType_TAKE_PROFIT else
  if (type == "TAKE_PROFIT_MARKET") || (type == "take_profit_market") then Ok OrderType_TAKE_PROFIT_MARKET else
  if (type == "TRAILING_STOP_MARKET") || (type == "trailing_stop_market") then Ok OrderType_TRAILING_STOP_MARKET else
  if (type == "LIQUIDATION") || (type == "liquidation") then Ok OrderType_LIQUIDATION else
  Throw (invalid_argument ("Unknown OrderType: " +:+ type)%string).

Definition returnTimeInForce (tif : string) : TimeInForce :=
  if (tif == "GTC") || (tif == "gtc") then TimeInForce_GTC else
  if (tif == "IOC") || (tif == "ioc") then TimeInForce_IOC else
  if (tif == "FOK") || (tif == "fok") then TimeInForce_FOK else
  if (tif == "GTX") || (tif == "gtx") then TimeInForce_GTX else
  TimeInForce_GTC.

Definition returnExecutionType (exec : string) : result ExecutionType :=
  if (exec == "NEW") || (exec == "new") then Ok ExecutionType_NEW else
  if (exec == "CANCELED") || (exec == "canceled") then Ok ExecutionType_CANCELED else
  if (exec == "CALCULATED") || (exec == "calculated") then Ok ExecutionType_CALCULATED else
  if (exec == "EXPIRED") || (exec == "expired") then Ok ExecutionType_EXPIRED else
  if (exec == "TRADE") || (exec == "trade") then Ok ExecutionType_TRADE else
  if (exec == "AMENDMENT") || (exec == "amendment") then Ok ExecutionType_AMENDMENT else
  Throw (invalid_argument ("Unknown ExecutionType: " +:+ exec)%string).

Definition returnOrderStatus (status : string) : result OrderStatus :=
  if (status == "NEW") || (status == "new") then Ok OrderStatus_NEW else
  if (status == "PARTIALLY_FILLED") || (status == "partially_filled") then Ok OrderStatus_PARTIALLY_FILLED else
  if (status == "FILLED") || (status == "filled") then Ok OrderStatus_FILLED else
  if (status == "CANCELED") || (status == "canceled") then Ok OrderStatus_CANCELED else
  if (status == "EXPIRED") || (status == "expired") then Ok OrderStatus_EXPIRED else
  if (status == "EXPIRED_IN_MATCH") || (status == "expired_in_match") then Ok OrderStatus_EXPIRED_IN_MATCH else
  Throw (invalid_argument ("Unknown OrderStatus: " +:+ status)%string).

Definition returnWorkingType (wt : string) : result WorkingType :=
  if (wt == "MARK_PRICE") || (wt == "mark_price") then Ok WorkingType_MARK_PRICE else
  if (wt == "CONTRACT_PRICE") || (wt == "contract_price") then Ok WorkingType_CONTRACT_PRICE else
  Throw (invalid_argument ("Unknown WorkingType: " +:+ wt)%string).

Definition returnSTPMode (v : string) : result STPMode :=
  if (v == "NONE") || (v == "none") then Ok STPMode_NONE else
  if (v == "EXPIRE_TAKER") || (v == "expire_taker") then Ok STPMode_EXPIRE_TAKER else
  if (v == "EXPIRE_MAKER") || (v == "expire_maker") then Ok STPMode_EXPIRE_MAKER else
  if (v == "EXPIRE_BOTH") || (v == "expire_both") then Ok STPMode_EXPIRE_BOTH else
  Throw (invalid_argument ("Unknown STPMode: " +:+ v)%string).

Definition returnPriceMatchMode (pm : string) : result PriceMatchMode :=
  if (pm == "NONE") || (pm == "none") then Ok PriceMatchMode_NONE else
  if (pm == "OPPONENT") || (pm == "opponent") then Ok PriceMatchMode_OPPONENT else
  if (pm == "QUEUE") || (pm == "queue") then Ok PriceMatchMode_QUEUE else
  if (pm == "MAKER") || (pm == "maker") then Ok PriceMatchMode_MAKER else
  if (pm == "BIDDER") || (pm == "bidder") then Ok PriceMatchMode_BIDDER else
  Throw (invalid_argument ("Unknown PriceMatchMode: " +:+ pm)%string).

Definition returnExpireReason (reason : Z) : result ExpireReason :=
  if (reason =? 0)%Z then Ok ExpireReason_NONE else
  if (reason =? 1)%Z then Ok ExpireReason_EXPIRED_SAVE else
  if (reason =? 2)%Z then Ok ExpireReason_IOC_FAIL else
  if (reason =? 3)%Z then Ok ExpireReason_IOC_FAIL_SAVE else
  if (reason =? 4)%Z then Ok ExpireReason_REVERSED else
  if (reason =? 5)%Z then Ok ExpireReason_LIQUIDATED else
  if (reason =? 6)%Z then Ok ExpireReason_GTE_FAILED else
  if (reason =? 7)%Z then Ok ExpireReason_SYMBOL_INVALID else
  if (reason =? 8)%Z then Ok ExpireReason_STOP_TRIGGERED else
  if (reason =? 9)%Z then Ok ExpireReason_MARKET_ORDER_FAIL else
  Throw (invalid_argument ("Unknown ExpireReason code: " +:+ pretty reason)%string).

Definition returnStrategyType (type : string) : result StrategyType :=
  if (type == "STOP") then Ok StrategyType_STOP else
  if (type == "TAKE_PROFIT") then Ok StrategyType_TAKE_PROFIT else
  if (type == "STOP_MARKET") then Ok StrategyType_STOP_MARKET else
  if (type == "TAKE_PROFIT_MARKET") then Ok StrategyType_TAKE_PROFIT_MARKET else
  if (type == "TRAILING_STOP_MARKET") then Ok StrategyType_TRAILING_STOP_MARKET else
  if (type == "GRID") then Ok StrategyType_GRID else
  if (type == "TWAP") then Ok StrategyType_TWAP else
  if (type == "VP") then Ok StrategyType_VP else
  if (type == "SIGNAL") then Ok StrategyType_SIGNAL else
  if (type == "CUSTOM") then Ok StrategyType_CUSTOM else
  Throw (invalid_argument ("Unknown StrategyType string: " +:+ type)%string).

Definition returnStrategyStatus (status : string) : result StrategyStatus :=
  if (status == "NEW") then Ok StrategyStatus_NEW else
  if (status == "WORKING") then Ok StrategyStatus_WORKING else
  if (status == "CANCELED") then Ok StrategyStatus_CANCELED else
  if (status == "EXPIRED") then Ok StrategyStatus_EXPIRED else
  Throw (invalid_argument ("Unknown StrategyStatus string: " +:+ status)%string).

Definition returnOpCode (code : Z) : result OpCode :=
  if (code =? 8001)%Z then Ok OpCode_UPDATED else
  if (code =? 8002)%Z then Ok OpCode_CANCELED else
  if (code =? 8003)%Z then Ok OpCode_PLACED_OR_CANCELED else
  if (code =? 8004)%Z then Ok OpCode_STOP_REACHED else
  if (code =? 8005)%Z then Ok OpCode_LIQUIDATED else
  if (code =? 8006)%Z then Ok OpCode_MAX_ORDER_REACHED else
  if (code =? 8007)%Z then Ok OpCode_NEW_GRID_ORDER else
  if (code =? 8008)%Z then Ok OpCode_MARGIN_NOT_ENOUGH else
  if (code =? 8009)%Z then Ok OpCode_PRICE_OUT_OF_BOUNDS else
  if (code =? 8010)%Z then Ok OpCode_MARKET_CLOSED_OR_PAUSED else
  if (code =? 8011)%Z then Ok OpCode_CLOSE_FAILED else
  if (code =? 8012)%Z then Ok OpCode_MAX_NOTITIONAL_VALUE_EXCEEDED else
  if (code =? 8013)%Z then Ok OpCode_GRID_EXPIRED_KYC_OR_RESTRICTED else
  if (code =? 8014)%Z then Ok OpCode_RULES_VIOLATED_STOPPED else
  if (code =? 8015)%Z then Ok OpCode_POSITION_EMPTY_OR_LIQUIDATED else
  Throw (invalid_argument ("Unknown OpCode: " +:+ pretty code)%string).

Definition returnRateLimitType (s : string) : RateLimitType :=
  if (s == "ORDERS") then RateLimitType_ORDER else
  if (s == "REQUEST_WEIGHT") then RateLimitType_REQUEST_WEIGHT else
  RateLimitType_UNKNOWN.

Definition returnIntervalRateLimit (s : string) : IntervalRateLimit :=
  if (s == "SECOND") then IntervalRateLimit_SECOND else
  if (s == "MINUTE") then IntervalRateLimit_MINUTE else
  IntervalRateLimit_UNKNOWN.
