(* ===== verification/WireNames.v ===== *)
(** * WireNames: the exchange's names of the enumerators

    The names PlaceOrderParameters sends and the readers of [toEnum.hpp] accept, as one
    table per enumeration; an enumerator the exchange has no name for is the empty
    string. The lemmas are the round trip: reading a sent name gives the enumerator. *)

From S2P Require Import Prelude FixedPoint Enums.

Definition wire_PositionSide (s : PositionSide) : string :=
  match s with
  | PositionSide_BOTH => "BOTH" | PositionSide_LONG => "LONG" | PositionSide_SHORT => "SHORT" | PositionSide_NONE => ""
  end.

Definition wire_OrderSide (s : OrderSide) : string :=
  match s with OrderSide_SELL => "SELL" | OrderSide_BUY => "BUY" | OrderSide_NONE => "" end.

Definition wire_OrderType (t : OrderType) : string :=
  match t with
  | OrderType_LIMIT => "LIMIT" | OrderType_MARKET => "MARKET" | OrderType_STOP => "STOP"
  | OrderType_STOP_MARKET => "STOP_MARKET" | OrderType_TAKE_PROFIT => "TAKE_PROFIT"
  | OrderType_TAKE_PROFIT_MARKET => "TAKE_PROFIT_MARKET" | OrderType_TRAILING_STOP_MARKET => "TRAILING_STOP_MARKET"
  | OrderType_LIQUIDATION => "LIQUIDATION" | OrderType_NONE => ""
  end.

Definition wire_TimeInForce (t : TimeInForce) : string :=
  match t with
  | TimeInForce_GTC => "GTC" | TimeInForce_IOC => "IOC" | TimeInForce_FOK => "FOK" | TimeInForce_GTX => "GTX"
  | TimeInForce_NONE => ""
  end.

Definition wire_PriceMatchMode (m : PriceMatchMode) : string :=
  match m with
  | PriceMatchMode_NONE => "NONE" | PriceMatchMode_OPPONENT => "OPPONENT" | PriceMatchMode_QUEUE => "QUEUE"
  | PriceMatchMode_MAKER => "MAKER" | PriceMatchMode_BIDDER => "BIDDER"
  end.

Definition wire_OrderStatus (s : OrderStatus) : string :=
  match s with
  | OrderStatus_NEW => "NEW" | OrderStatus_PARTIALLY_FILLED => "PARTIALLY_FILLED" | OrderStatus_FILLED => "FILLED"
  | OrderStatus_CANCELED => "CANCELED" | OrderStatus_EXPIRED => "EXPIRED"
  | OrderStatus_EXPIRED_IN_MATCH => "EXPIRED_IN_MATCH" | OrderStatus_NONE => ""
  end.

Definition wire_WorkingType (t : WorkingType) : string :=
  match t with
  | WorkingType_MARK_PRICE => "MARK_PRICE" | WorkingType_CONTRACT_PRICE => "CONTRACT_PRICE" | WorkingType_NONE => ""
  end.

Definition wire_STPMode (m : STPMode) : string :=
  match m with
  | STPMode_NONE => "NONE" | STPMode_EXPIRE_TAKER => "EXPIRE_TAKER" | STPMode_EXPIRE_MAKER => "EXPIRE_MAKER"
  | STPMode_EXPIRE_BOTH => "EXPIRE_BOTH"
  end.

Definition wire_RateLimitType (t : RateLimitType) : string :=
  match t with
  | RateLimitType_ORDER => "ORDERS" | RateLimitType_REQUEST_WEIGHT => "REQUEST_WEIGHT" | RateLimitType_UNKNOWN => ""
  end.

Definition wire_Interval (i : IntervalRateLimit) : string :=
  match i with IntervalRateLimit_SECOND => "SECOND" | IntervalRateLimit_MINUTE => "MINUTE" | IntervalRateLimit_UNKNOWN => "" end.

(** Enumerators with a name. *)
Class Named (E : Type) := named : E -> bool.
#[global] Instance named_PositionSide : Named PositionSide := fun s => negb (String.eqb (wire_PositionSide s) "").
#[global] Instance named_OrderSide : Named OrderSide := fun s => negb (String.eqb (wire_OrderSide s) "").
#[global] Instance named_OrderType : Named OrderType := fun s => negb (String.eqb (wire_OrderType s) "").
#[global] Instance named_TimeInForce : Named TimeInForce := fun s => negb (String.eqb (wire_TimeInForce s) "").
#[global] Instance named_OrderStatus : Named OrderStatus := fun s => negb (String.eqb (wire_OrderStatus s) "").
#[global] Instance named_WorkingType : Named WorkingType := fun s => negb (String.eqb (wire_WorkingType s) "").

Lemma return_PositionSide s : named s = true -> returnPositionSide (wire_PositionSide s) = Ok s.
Proof. by destruct s. Qed.
Lemma return_OrderSide s : named s = true -> returnOrderSide (wire_OrderSide s) = Ok s.
Proof. by destruct s. Qed.
Lemma return_OrderType s : named s = true -> returnOrderType (wire_OrderType s) = Ok s.
Proof. by destruct s. Qed.
Lemma return_TimeInForce s : named s = true -> returnTimeInForce (wire_TimeInForce s) = s.
Proof. by destruct s. Qed.
Lemma return_TimeInForce_ok s : named s = true -> Ok (returnTimeInForce (wire_TimeInForce s)) = Ok s.
Proof. intros. by rewrite return_TimeInForce. Qed.
Lemma return_OrderStatus s : named s = true -> returnOrderStatus (wire_OrderStatus s) = Ok s.
Proof. by destruct s. Qed.
Lemma return_WorkingType s : named s = true -> returnWorkingType (wire_WorkingType s) = Ok s.
Proof. by destruct s. Qed.
Lemma return_PriceMatchMode s : returnPriceMatchMode (wire_PriceMatchMode s) = Ok s.
Proof. by destruct s. Qed.
Lemma return_STPMode s : returnSTPMode (wire_STPMode s) = Ok s.
Proof. by destruct s. Qed.
Lemma return_RateLimitType s : returnRateLimitType (wire_RateLimitType s) = s.
Proof. by destruct s. Qed.
Lemma return_Interval s : returnIntervalRateLimit (wire_Interval s) = s.
Proof. by destruct s. Qed.

#[export] Hint Resolve return_PositionSide return_OrderSide return_OrderType return_TimeInForce_ok return_OrderStatus return_WorkingType
  return_PriceMatchMode return_STPMode : astra.

(** ** The names of the user data events *)

Definition wire_ExecutionType (x : ExecutionType) : string :=
  match x with
  | ExecutionType_NEW => "NEW" | ExecutionType_CANCELED => "CANCELED" | ExecutionType_CALCULATED =>
  "CALCULATED" | ExecutionType_EXPIRED => "EXPIRED" | ExecutionType_TRADE => "TRADE" | ExecutionType_AMENDMENT
  => "AMENDMENT"
  end.

Lemma return_ExecutionType s : returnExecutionType (wire_ExecutionType s) = Ok s.
Proof. by destruct s. Qed.

Definition wire_AccountUpdateType (x : AccountUpdateType) : string :=
  match x with
  | AccountUpdateType_DEPOSIT => "DEPOSIT" | AccountUpdateType_WITHDRAW => "WITHDRAW" |
  AccountUpdateType_ORDER => "ORDER" | AccountUpdateType_FUNDING_FEE => "FUNDING_FEE" |
  AccountUpdateType_WITHDRAW_REJECT => "WITHDRAW_REJECT" | AccountUpdateType_ADJUSTMENT => "ADJUSTMENT" |
  AccountUpdateType_INSURANCE_CLEAR => "INSURANCE_CLEAR" | AccountUpdateType_ADMIN_DEPOSIT => "ADMIN_DEPOSIT"
  | AccountUpdateType_ADMIN_WITHDRAW => "ADMIN_WITHDRAW" | AccountUpdateType_MARGIN_TRANSFER =>
  "MARGIN_TRANSFER" | AccountUpdateType_MARGIN_TYPE_CHANGE => "MARGIN_TYPE_CHANGE" |
  AccountUpdateType_ASSET_TRANSFER => "ASSET_TRANSFER" | AccountUpdateType_OPTIONS_PREMIUM_FEE =>
  "OPTIONS_PREMIUM_FEE" | AccountUpdateType_OPTIONS_SETTLE_PROFIT => "OPTIONS_SETTLE_PROFIT" |
  AccountUpdateType_AUTO_EXCHANGE => "AUTO_EXCHANGE" | AccountUpdateType_COIN_SWAP_DEPOSIT =>
  "COIN_SWAP_DEPOSIT" | AccountUpdateType_COIN_SWAP_WITHDRAW => "COIN_SWAP_WITHDRAW"
  end.

Lemma return_AccountUpdateType s : returnAccountUpdateType (wire_AccountUpdateType s) = Ok s.
Proof. by destruct s. Qed.

Definition wire_MarginType (x : MarginType) : string :=
  match x with
  | MarginType_ISOLATED => "isolated" | MarginType_CROSS => "cross"
  end.

Lemma return_MarginType s : returnMarginType (wire_MarginType s) = Ok s.
Proof. by destruct s. Qed.

Definition wire_StrategyType (x : StrategyType) : string :=
  match x with
  | StrategyType_STOP => "STOP" | StrategyType_TAKE_PROFIT => "TAKE_PROFIT" | StrategyType_STOP_MARKET =>
  "STOP_MARKET" | StrategyType_TAKE_PROFIT_MARKET => "TAKE_PROFIT_MARKET" | StrategyType_TRAILING_STOP_MARKET
  => "TRAILING_STOP_MARKET" | StrategyType_GRID => "GRID" | StrategyType_TWAP => "TWAP" | StrategyType_VP =>
  "VP" | StrategyType_SIGNAL => "SIGNAL" | StrategyType_CUSTOM => "CUSTOM"
  end.

Lemma return_StrategyType s : returnStrategyType (wire_StrategyType s) = Ok s.
Proof. by destruct s. Qed.

Definition wire_StrategyStatus (x : StrategyStatus) : string :=
  match x with
  | StrategyStatus_NEW => "NEW" | StrategyStatus_WORKING => "WORKING" | StrategyStatus_CANCELED => "CANCELED"
  | StrategyStatus_EXPIRED => "EXPIRED"
  end.

Lemma return_StrategyStatus s : returnStrategyStatus (wire_StrategyStatus s) = Ok s.
Proof. by destruct s. Qed.

(** Expire reasons travel as numbers in a string. *)
Definition ExpireReason_value (x : ExpireReason) : Z :=
  match x with
  | ExpireReason_NONE => 0 | ExpireReason_EXPIRED_SAVE => 1 | ExpireReason_IOC_FAIL => 2 | ExpireReason_IOC_FAIL_SAVE => 3
  | ExpireReason_REVERSED => 4 | ExpireReason_LIQUIDATED => 5 | ExpireReason_GTE_FAILED => 6
  | ExpireReason_SYMBOL_INVALID => 7 | ExpireReason_STOP_TRIGGERED => 8 | ExpireReason_MARKET_ORDER_FAIL => 9
  end.

Lemma return_ExpireReason x : returnExpireReason (wrapS 32 (ExpireReason_value x)) = Ok x.
Proof. by destruct x. Qed.
Lemma return_OpCode c : returnOpCode (wrapS 32 (OpCode_value c)) = Ok c.
Proof. by destruct c. Qed.

#[export] Hint Resolve return_ExecutionType return_AccountUpdateType return_MarginType return_StrategyType return_StrategyStatus return_ExpireReason return_OpCode : astra.
