(* ===== verification/Json.v ===== *)
(** * Json: the interface to the JSON reader

    The sources read JSON through simdjson's on-demand API, a library they only call.
    Here it is a type class [Json V] over an abstract type [V] of values, one operation
    per call the sources make; each returns a [simdjson_result], the type [sj]: a value
    or an error code. A chained call on an error forwards the error, which is the bind
    of [sj]; [.value()] throws it.

    [JsonLaws] states what the sources rely on: the integer getters return a value of
    their C++ type, and an object does not answer a scalar getter. [JV] is a plain
    document tree that satisfies them, used to run the models on concrete messages. *)

From S2P Require Import Prelude FixedPoint.

Inductive sj (A : Type) :=
  | Val (a : A)
  | Err (ec : sj_error).
Arguments Val {A} a.
Arguments Err {A} ec.

#[global] Instance sj_ret : MRet sj := fun A a => Val a.
#[global] Instance sj_bind : MBind sj := fun A B f m =>
  match m with Val a => f a | Err ec => Err ec end.

(** [result.value()]. *)
Definition value {A} (m : sj A) : result A :=
  match m with Val a => Ok a | Err ec => Throw (simdjson_error ec) end.

(** [result.get(out)], by the value it stores and the code it returns. *)
Definition sj_get {A} (m : sj A) (out : A) : A * option sj_error :=
  match m with Val a => (a, None) | Err ec => (out, Some ec) end.

(** [json_type], as far as the sources tell the types apart. *)
Inductive json_type := json_object | json_array | json_other.

#[global] Instance json_type_eq_dec : EqDecision json_type.
Proof. solve_decision. Defined.

Class Json (V : Type) := {
  (** [parser.iterate(s)] *)
  iterate : string -> sj V;
  type_ : V -> sj json_type;
  (** [get_object()], checked before a field is read *)
  get_object : V -> sj V;
  (** [obj["k"]], also [find_field("k")] *)
  field : V -> string -> sj V;
  get_string : V -> sj string;
  get_int64 : V -> sj Z;
  get_uint64 : V -> sj Z;
  get_bool : V -> sj bool;
  (** [get_array()] and [for(auto x : array)]: the elements the loop sees, the last
      one being an error when the array is cut short *)
  get_array : V -> sj (list (sj V));
}.

Class JsonLaws (V : Type) `{Json V} := {
  get_int64_range v n : get_int64 v = Val n -> - 2 ^ 63 <= n < 2 ^ 63;
  get_uint64_range v n : get_uint64 v = Val n -> 0 <= n < 2 ^ 64;
}.

(** [readFixedAs<Int>]: an error code is thrown as it is, a string that does not parse
    as [std::invalid_argument]. *)
Definition readFixedAs (w : Z) {V} `{Json V} (f : sj V) : result Z :=
  match f ≫= get_string with
  | Err ec => Throw (simdjson_error ec)
  | Val text =>
      match parseFixed w text with
      | Some out => Ok out
      | None => Throw (invalid_argument ("not a decimal within range: " +:+ text)%string)
      end
  end.

Definition readFixed {V} `{Json V} (f : sj V) : result Fixed := readFixedAs 64 f.
Definition readFixed128 {V} `{Json V} (f : sj V) : result Fixed128 := readFixedAs 128 f.

(** [for(auto x : result)]: an error is yielded once, as the only element. *)
Definition elements {V} `{Json V} (f : sj V) : list (sj V) :=
  match f ≫= get_array with Val l => l | Err ec => [Err ec] end.

(** [result.get_string(receiver)] with the code ignored: an error leaves the receiver. *)
Definition assign_string {V} `{Json V} (f : sj V) (receiver : string) : string :=
  match f ≫= get_string with Val s => s | Err _ => receiver end.

(** ** A document tree *)

Inductive JV :=
  | JNull
  | JBool (b : bool)
  | JInt (n : Z)
  | JStr (s : string)
  | JArr (vs : list JV)
  | JObj (fs : list (string * JV)).

Fixpoint lookup_field (fs : list (string * JV)) (k : string) : sj JV :=
  match fs with
  | [] => Err NO_SUCH_FIELD
  | (k', v) :: fs' => if String.eqb k' k then Val v else lookup_field fs' k
  end.

(** The tree reader, for a set of texts given with their trees. *)
#[global] Instance JV_Json (texts : list (string * JV)) : Json JV := {
  iterate s := match lookup_field texts s with Val v => Val v | Err _ => Err (SJ_OTHER 0) end;
  type_ v := Val (match v with JObj _ => json_object | JArr _ => json_array | _ => json_other end);
  get_object v := match v with JObj _ => Val v | _ => Err INCORRECT_TYPE end;
  field v k := match v with JObj fs => lookup_field fs k | _ => Err INCORRECT_TYPE end;
  get_string v := match v with JStr s => Val s | _ => Err INCORRECT_TYPE end;
  get_int64 v := match v with JInt n => if in_int64 n then Val n else Err INCORRECT_TYPE | _ => Err INCORRECT_TYPE end;
  get_uint64 v := match v with
    JInt n => if (0 <=? n) && (n <? 2 ^ 64) then Val n else Err INCORRECT_TYPE | _ => Err INCORRECT_TYPE end;
  get_bool v := match v with JBool b => Val b | _ => Err INCORRECT_TYPE end;
  get_array v := match v with JArr vs => Val (Val <$> vs) | _ => Err INCORRECT_TYPE end;
}.

#[global] Instance JV_JsonLaws texts : @JsonLaws JV (JV_Json texts).
Proof.
  split; intros v n; destruct v; cbn; try done.
  - destruct (in_int64 _) eqn:E; [|done]. intros [= <-]. unfold in_int64 in E.
    apply andb_prop in E as [?%Z.leb_le ?%Z.ltb_lt]. lia.
  - destruct ((0 <=? _) && _) eqn:E; [|done]. intros [= <-].
    apply andb_prop in E as [?%Z.leb_le ?%Z.ltb_lt]. lia.
Qed.

(** ** Lemmas *)

Lemma readFixedAs_ok w {V} `{Json V} (f : sj V) n : readFixedAs w f = Ok n <->
  exists text, f ≫= get_string = Val text /\ parseFixed w text = Some n.
Proof.
  unfold readFixedAs. destruct (f ≫= get_string) as [text|ec].
  - destruct (parseFixed w text) eqn:E; split.
    + intros [= <-]. by exists text.
    + intros (t & [= <-] & ?). congruence.
    + done.
    + intros (t & [= <-] & ?). congruence.
  - split; [done|]. by intros (? & ? & _).
Qed.

Lemma value_ok {A} (m : sj A) a : value m = Ok a <-> m = Val a.
Proof. destruct m; cbn; split; congruence. Qed.
