(* ===== verification/Errors.v ===== *)
(** * Errors: API error codes, fetch errors and the checks on a REST response

    Models [src/api/common/error/apiError.hpp] and [fetchError.hpp]. *)

From S2P Require Import Prelude FixedPoint Json.
From stdpp Require Import pretty.
#[local] Open Scope Z_scope.

(** ** [apiError.hpp] *)

Inductive APIError :=
  | APIError_SUCCESS
  | APIError_BAD_FIELD
  | APIError_BOOST_ERROR
  | APIError_ORDERBOOK_OUTDATED
  | APIError_RETRY
  | APIError_UNKNOWN
  | APIError_DISCONNECTED
  | APIError_UNAUTHORIZED
  | APIError_TOO_MANY_REQUESTS
  | APIError_UNEXPECTED_RESP
  | APIError_TIMEOUT
  | APIError_SERVER_BUSY
  | APIError_INVALID_MESSAGE
  | APIError_UNKNOWN_ORDER_COMPOSITION
  | APIError_TOO_MANY_ORDERS
  | APIError_SERVICE_SHUTTING_DOWN
  | APIError_UNSUPPORTED_OPERATION
  | APIError_INVALID_TIMESTAMP
  | APIError_INVALID_SIGNATURE
  | APIError_COMP_ID_IN_USE
  | APIError_TOO_MANY_CONNECTIONS
  | APIError_LOGGED_OUT
  | APIError_ILLEGAL_CHARS
  | APIError_TOO_MANY_PARAMETERS
  | APIError_MANDATORY_PARAM_EMPTY_OR_MALFORMED
  | APIError_UNKNOWN_PARAM
  | APIError_UNREAD_PARAMETERS
  | APIError_PARAM_EMPTY
  | APIError_PARAM_NOT_REQUIRED
  | APIError_PARAM_OVERFLOW
  | APIError_BAD_PRECISION
  | APIError_NO_DEPTH
  | APIError_TIF_NOT_REQUIRED
  | APIError_INVALID_TIF
  | APIError_INVALID_ORDER_TYPE
  | APIError_INVALID_SIDE
  | APIError_EMPTY_NEW_CL_ORD_ID
  | APIError_EMPTY_ORG_CL_ORD_ID
  | APIError_BAD_INTERVAL
  | APIError_BAD_SYMBOL
  | APIError_INVALID_SYMBOLSTATUS
  | APIError_INVALID_LISTEN_KEY
  | APIError_MORE_THAN_XX_HOURS
  | APIError_OPTIONAL_PARAMS_BAD_COMBO
  | APIError_INVALID_PARAMETER
  | APIError_BAD_STRATEGY_TYPE
  | APIError_INVALID_JSON
  | APIError_INVALID_TICKER_TYPE
  | APIError_INVALID_CANCEL_RESTRICTIONS
  | APIError_DUPLICATE_SYMBOLS
  | APIError_INVALID_SBE_HEADER
  | APIError_UNSUPPORTED_SCHEMA_ID
  | APIError_SBE_DISABLED
  | APIError_OCO_ORDER_TYPE_REJECTED
  | APIError_OCO_ICEBERGQTY_TIMEINFORCE
  | APIError_DEPRECATED_SCHEMA
  | APIError_BUY_OCO_LIMIT_MUST_BE_BELOW
  | APIError_SELL_OCO_LIMIT_MUST_BE_ABOVE
  | APIError_BOTH_OCO_ORDERS_CANNOT_BE_LIMIT
  | APIError_INVALID_TAG_NUMBER
  | APIError_TAG_NOT_DEFINED_IN_MESSAGE
  | APIError_TAG_APPEARS_MORE_THAN_ONCE
  | APIError_TAG_OUT_OF_ORDER
  | APIError_GROUP_FIELDS_OUT_OF_ORDER
  | APIError_INVALID_COMPONENT
  | APIError_RESET_SEQ_NUM_SUPPORT
  | APIError_ALREADY_LOGGED_IN
  | APIError_GARBLED_MESSAGE
  | APIError_BAD_SENDER_COMPID
  | APIError_BAD_SEQ_NUM
  | APIError_EXPECTED_LOGON
  | APIError_TOO_MANY_MESSAGES
  | APIError_PARAMS_BAD_COMBO
  | APIError_NOT_ALLOWED_IN_DROP_COPY_SESSIONS
  | APIError_DROP_COPY_SESSION_NOT_ALLOWED
  | APIError_DROP_COPY_SESSION_REQUIRED
  | APIError_NOT_ALLOWED_IN_ORDER_ENTRY_SESSIONS
  | APIError_NOT_ALLOWED_IN_MARKET_DATA_SESSIONS
  | APIError_INCORRECT_NUM_IN_GROUP_COUNT
  | APIError_DUPLICATE_ENTRIES_IN_A_GROUP
  | APIError_INVALID_REQUEST_ID
  | APIError_TOO_MANY_SUBSCRIPTIONS
  | APIError_INVALID_TIME_UNIT
  | APIError_BUY_OCO_STOP_LOSS_MUST_BE_ABOVE
  | APIError_SELL_OCO_STOP_LOSS_MUST_BE_BELOW
  | APIError_BUY_OCO_TAKE_PROFIT_MUST_BE_BELOW
  | APIError_SELL_OCO_TAKE_PROFIT_MUST_BE_ABOVE
  | APIError_INVALID_PEG_PRICE_TYPE
  | APIError_INVALID_PEG_OFFSET_TYPE
  | APIError_SYMBOL_DOES_NOT_MATCH_STATUS
  | APIError_NEW_ORDER_REJECTED
  | APIError_CANCEL_REJECTED
  | APIError_NO_SUCH_ORDER
  | APIError_BAD_API_KEY_FMT
  | APIError_REJECTED_MBX_KEY
  | APIError_NO_TRADING_WINDOW
  | APIError_ORDER_ARCHIVED
  | APIError_SUBSCRIPTION_ACTIVE
  | APIError_SUBSCRIPTION_INACTIVE
  | APIError_CLIENT_ORDER_ID_INVALID
  | APIError_MAXIMUM_SUBSCRIPTION_IDS.

(** The underlying values of [enum class APIError : int]. *)
Definition APIError_value (e : APIError) : Z :=
  match e with
  | APIError_SUCCESS => 0
  | APIError_BAD_FIELD => 1
  | APIError_BOOST_ERROR => 2
  | APIError_ORDERBOOK_OUTDATED => 3
  | APIError_RETRY => 4
  | APIError_UNKNOWN => (-1000)
  | APIError_DISCONNECTED => (-1001)
  | APIError_UNAUTHORIZED => (-1002)
  | APIError_TOO_MANY_REQUESTS => (-1003)
  | APIError_UNEXPECTED_RESP => (-1006)
  | APIError_TIMEOUT => (-1007)
  | APIError_SERVER_BUSY => (-1008)
  | APIError_INVALID_MESSAGE => (-1013)
  | APIError_UNKNOWN_ORDER_COMPOSITION => (-1014)
  | APIError_TOO_MANY_ORDERS => (-1015)
  | APIError_SERVICE_SHUTTING_DOWN => (-1016)
  | APIError_UNSUPPORTED_OPERATION => (-1020)
  | APIError_INVALID_TIMESTAMP => (-1021)
  | APIError_INVALID_SIGNATURE => (-1022)
  | APIError_COMP_ID_IN_USE => (-1033)
  | APIError_TOO_MANY_CONNECTIONS => (-1034)
  | APIError_LOGGED_OUT => (-1035)
  | APIError_ILLEGAL_CHARS => (-1100)
  | APIError_TOO_MANY_PARAMETERS => (-1101)
  | APIError_MANDATORY_PARAM_EMPTY_OR_MALFORMED => (-1102)
  | APIError_UNKNOWN_PARAM => (-1103)
  | APIError_UNREAD_PARAMETERS => (-1104)
  | APIError_PARAM_EMPTY => (-1105)
  | APIError_PARAM_NOT_REQUIRED => (-1106)
  | APIError_PARAM_OVERFLOW => (-1108)
  | APIError_BAD_PRECISION => (-1111)
  | APIError_NO_DEPTH => (-1112)
  | APIError_TIF_NOT_REQUIRED => (-1114)
  | APIError_INVALID_TIF => (-1115)
  | APIError_INVALID_ORDER_TYPE => (-1116)
  | APIError_INVALID_SIDE => (-1117)
  | APIError_EMPTY_NEW_CL_ORD_ID => (-1118)
  | APIError_EMPTY_ORG_CL_ORD_ID => (-1119)
  | APIError_BAD_INTERVAL => (-1120)
  | APIError_BAD_SYMBOL => (-1121)
  | APIError_INVALID_SYMBOLSTATUS => (-1122)
  | APIError_INVALID_LISTEN_KEY => (-1125)
  | APIError_MORE_THAN_XX_HOURS => (-1127)
  | APIError_OPTIONAL_PARAMS_BAD_COMBO => (-1128)
  | APIError_INVALID_PARAMETER => (-1130)
  | APIError_BAD_STRATEGY_TYPE => (-1134)
  | APIError_INVALID_JSON => (-1135)
  | APIError_INVALID_TICKER_TYPE => (-1139)
  | APIError_INVALID_CANCEL_RESTRICTIONS => (-1145)
  | APIError_DUPLICATE_SYMBOLS => (-1151)
  | APIError_INVALID_SBE_HEADER => (-1152)
  | APIError_UNSUPPORTED_SCHEMA_ID => (-1153)
  | APIError_SBE_DISABLED => (-1155)
  | APIError_OCO_ORDER_TYPE_REJECTED => (-1158)
  | APIError_OCO_ICEBERGQTY_TIMEINFORCE => (-1160)
  | APIError_DEPRECATED_SCHEMA => (-1161)
  | APIError_BUY_OCO_LIMIT_MUST_BE_BELOW => (-1165)
  | APIError_SELL_OCO_LIMIT_MUST_BE_ABOVE => (-1166)
  | APIError_BOTH_OCO_ORDERS_CANNOT_BE_LIMIT => (-1168)
  | APIError_INVALID_TAG_NUMBER => (-1169)
  | APIError_TAG_NOT_DEFINED_IN_MESSAGE => (-1170)
  | APIError_TAG_APPEARS_MORE_THAN_ONCE => (-1171)
  | APIError_TAG_OUT_OF_ORDER => (-1172)
  | APIError_GROUP_FIELDS_OUT_OF_ORDER => (-1173)
  | APIError_INVALID_COMPONENT => (-1174)
  | APIError_RESET_SEQ_NUM_SUPPORT => (-1175)
  | APIError_ALREADY_LOGGED_IN => (-1176)
  | APIError_GARBLED_MESSAGE => (-1177)
  | APIError_BAD_SENDER_COMPID => (-1178)
  | APIError_BAD_SEQ_NUM => (-1179)
  | APIError_EXPECTED_LOGON => (-1180)
  | APIError_TOO_MANY_MESSAGES => (-1181)
  | APIError_PARAMS_BAD_COMBO => (-1182)
  | APIError_NOT_ALLOWED_IN_DROP_COPY_SESSIONS => (-1183)
  | APIError_DROP_COPY_SESSION_NOT_ALLOWED => (-1184)
  | APIError_DROP_COPY_SESSION_REQUIRED => (-1185)
  | APIError_NOT_ALLOWED_IN_ORDER_ENTRY_SESSIONS => (-1186)
  | APIError_NOT_ALLOWED_IN_MARKET_DATA_SESSIONS => (-1187)
  | APIError_INCORRECT_NUM_IN_GROUP_COUNT => (-1188)
  | APIError_DUPLICATE_ENTRIES_IN_A_GROUP => (-1189)
  | APIError_INVALID_REQUEST_ID => (-1190)
  | APIError_TOO_MANY_SUBSCRIPTIONS => (-1191)
  | APIError_INVALID_TIME_UNIT => (-1194)
  | APIError_BUY_OCO_STOP_LOSS_MUST_BE_ABOVE => (-1196)
  | APIError_SELL_OCO_STOP_LOSS_MUST_BE_BELOW => (-1197)
  | APIError_BUY_OCO_TAKE_PROFIT_MUST_BE_BELOW => (-1198)
  | APIError_SELL_OCO_TAKE_PROFIT_MUST_BE_ABOVE => (-1199)
  | APIError_INVALID_PEG_PRICE_TYPE => (-1210)
  | APIError_INVALID_PEG_OFFSET_TYPE => (-1211)
  | APIError_SYMBOL_DOES_NOT_MATCH_STATUS => (-1220)
  | APIError_NEW_ORDER_REJECTED => (-2010)
  | APIError_CANCEL_REJECTED => (-2011)
  | APIError_NO_SUCH_ORDER => (-2013)
  | APIError_BAD_API_KEY_FMT => (-2014)
  | APIError_REJECTED_MBX_KEY => (-2015)
  | APIError_NO_TRADING_WINDOW => (-2016)
  | APIError_ORDER_ARCHIVED => (-2026)
  | APIError_SUBSCRIPTION_ACTIVE => (-2035)
  | APIError_SUBSCRIPTION_INACTIVE => (-2036)
  | APIError_CLIENT_ORDER_ID_INVALID => (-2039)
  | APIError_MAXIMUM_SUBSCRIPTION_IDS => (-2042)
  end.

Definition fromErrorCode (code : Z) : APIError :=
  match code with
  | -1000 => APIError_UNKNOWN
  | -1001 => APIError_DISCONNECTED
  | -1002 => APIError_UNAUTHORIZED
  | -1003 => APIError_TOO_MANY_REQUESTS
  | -1006 => APIError_UNEXPECTED_RESP
  | -1007 => APIError_TIMEOUT
  | -1008 => APIError_SERVER_BUSY
  | -1013 => APIError_INVALID_MESSAGE
  | -1014 => APIError_UNKNOWN_ORDER_COMPOSITION
  | -1015 => APIError_TOO_MANY_ORDERS
  | -1016 => APIError_SERVICE_SHUTTING_DOWN
  | -1020 => APIError_UNSUPPORTED_OPERATION
  | -1021 => APIError_INVALID_TIMESTAMP
  | -1022 => APIError_INVALID_SIGNATURE
  | -1033 => APIError_COMP_ID_IN_USE
  | -1034 => APIError_TOO_MANY_CONNECTIONS
  | -1035 => APIError_LOGGED_OUT
  | -1100 => APIError_ILLEGAL_CHARS
  | -1101 => APIError_TOO_MANY_PARAMETERS
  | -1102 => APIError_MANDATORY_PARAM_EMPTY_OR_MALFORMED
  | -1103 => APIError_UNKNOWN_PARAM
  | -1104 => APIError_UNREAD_PARAMETERS
  | -1105 => APIError_PARAM_EMPTY
  | -1106 => APIError_PARAM_NOT_REQUIRED
  | -1108 => APIError_PARAM_OVERFLOW
  | -1111 => APIError_BAD_PRECISION
  | -1112 => APIError_NO_DEPTH
  | -1114 => APIError_TIF_NOT_REQUIRED
  | -1115 => APIError_INVALID_TIF
  | -1116 => APIError_INVALID_ORDER_TYPE
  | -1117 => APIError_INVALID_SIDE
  | -1118 => APIError_EMPTY_NEW_CL_ORD_ID
  | -1119 => APIError_EMPTY_ORG_CL_ORD_ID
  | -1120 => APIError_BAD_INTERVAL
  | -1121 => APIError_BAD_SYMBOL
  | -1122 => APIError_INVALID_SYMBOLSTATUS
  | -1125 => APIError_INVALID_LISTEN_KEY
  | -1127 => APIError_MORE_THAN_XX_HOURS
  | -1128 => APIError_OPTIONAL_PARAMS_BAD_COMBO
  | -1130 => APIError_INVALID_PARAMETER
  | -1134 => APIError_BAD_STRATEGY_TYPE
  | -1135 => APIError_INVALID_JSON
  | -1139 => APIError_INVALID_TICKER_TYPE
  | -1145 => APIError_INVALID_CANCEL_RESTRICTIONS
  | -1151 => APIError_DUPLICATE_SYMBOLS
  | -1152 => APIError_INVALID_SBE_HEADER
  | -1153 => APIError_UNSUPPORTED_SCHEMA_ID
  | -1155 => APIError_SBE_DISABLED
  | -1158 => APIError_OCO_ORDER_TYPE_REJECTED
  | -1160 => APIError_OCO_ICEBERGQTY_TIMEINFORCE
  | -1161 => APIError_DEPRECATED_SCHEMA
  | -1165 => APIError_BUY_OCO_LIMIT_MUST_BE_BELOW
  | -1166 => APIError_SELL_OCO_LIMIT_MUST_BE_ABOVE
  | -1168 => APIError_BOTH_OCO_ORDERS_CANNOT_BE_LIMIT
  | -1169 => APIError_INVALID_TAG_NUMBER
  | -1170 => APIError_TAG_NOT_DEFINED_IN_MESSAGE
  | -1171 => APIError_TAG_APPEARS_MORE_THAN_ONCE
  | -1172 => APIError_TAG_OUT_OF_ORDER
  | -1173 => APIError_GROUP_FIELDS_OUT_OF_ORDER
  | -1174 => APIError_INVALID_COMPONENT
  | -1175 => APIError_RESET_SEQ_NUM_SUPPORT
  | -1176 => APIError_ALREADY_LOGGED_IN
  | -1177 => APIError_GARBLED_MESSAGE
  | -1178 => APIError_BAD_SENDER_COMPID
  | -1179 => APIError_BAD_SEQ_NUM
  | -1180 => APIError_EXPECTED_LOGON
  | -1181 => APIError_TOO_MANY_MESSAGES
  | -1182 => APIError_PARAMS_BAD_COMBO
  | -1183 => APIError_NOT_ALLOWED_IN_DROP_COPY_SESSIONS
  | -1184 => APIError_DROP_COPY_SESSION_NOT_ALLOWED
  | -1185 => APIError_DROP_COPY_SESSION_REQUIRED
  | -1186 => APIError_NOT_ALLOWED_IN_ORDER_ENTRY_SESSIONS
  | -1187 => APIError_NOT_ALLOWED_IN_MARKET_DATA_SESSIONS
  | -1188 => APIError_INCORRECT_NUM_IN_GROUP_COUNT
  | -1189 => APIError_DUPLICATE_ENTRIES_IN_A_GROUP
  | -1190 => APIError_INVALID_REQUEST_ID
  | -1191 => APIError_TOO_MANY_SUBSCRIPTIONS
  | -1194 => APIError_INVALID_TIME_UNIT
  | -1196 => APIError_BUY_OCO_STOP_LOSS_MUST_BE_ABOVE
  | -1197 => APIError_SELL_OCO_STOP_LOSS_MUST_BE_BELOW
  | -1198 => APIError_BUY_OCO_TAKE_PROFIT_MUST_BE_BELOW
  | -1199 => APIError_SELL_OCO_TAKE_PROFIT_MUST_BE_ABOVE
  | -1210 => APIError_INVALID_PEG_PRICE_TYPE
  | -1211 => APIError_INVALID_PEG_OFFSET_TYPE
  | -1220 => APIError_SYMBOL_DOES_NOT_MATCH_STATUS
  | -2010 => APIError_NEW_ORDER_REJECTED
  | -2011 => APIError_CANCEL_REJECTED
  | -2013 => APIError_NO_SUCH_ORDER
  | -2014 => APIError_BAD_API_KEY_FMT
  | -2015 => APIError_REJECTED_MBX_KEY
  | -2016 => APIError_NO_TRADING_WINDOW
  | -2026 => APIError_ORDER_ARCHIVED
  | -2035 => APIError_SUBSCRIPTION_ACTIVE
  | -2036 => APIError_SUBSCRIPTION_INACTIVE
  | -2039 => APIError_CLIENT_ORDER_ID_INVALID
  | -2042 => APIError_MAXIMUM_SUBSCRIPTION_IDS
  | _ => APIError_UNKNOWN
  end.

(** Every enumerator is the one its value names: the positive values are the library's own. *)
Definition APIError_of_value (z : Z) : option APIError :=
  match z with
  | 0 => Some APIError_SUCCESS
  | 1 => Some APIError_BAD_FIELD
  | 2 => Some APIError_BOOST_ERROR
  | 3 => Some APIError_ORDERBOOK_OUTDATED
  | 4 => Some APIError_RETRY
  | _ => if bool_decide (APIError_value (fromErrorCode z) = z) then Some (fromErrorCode z) else None
  end.

Lemma APIError_of_value_value e : APIError_of_value (APIError_value e) = Some e.
Proof. by destruct e. Qed.

#[global] Instance APIError_value_inj : Inj eq eq APIError_value.
Proof.
  intros e1 e2 H. apply (f_equal APIError_of_value) in H. rewrite !APIError_of_value_value in H. congruence.
Qed.

#[global] Instance APIError_eq_dec : EqDecision APIError.
Proof.
  intros e1 e2. destruct (decide (APIError_value e1 = APIError_value e2)) as [E|E].
  - left. by apply (inj APIError_value).
  - right. congruence.
Defined.
(** ** [fetchError.hpp]

    [msg] is the unique_ptr: [None] is null. *)
Record FetchError := { error : APIError; msg : option string }.

Definition FetchError_msg (e : APIError) (s : string) : FetchError := {| error := e; msg := Some s |}.
Definition FetchError_code (errorCode : Z) (s : string) : FetchError :=
  {| error := fromErrorCode errorCode; msg := Some s |}.
Definition FetchError_of (e : APIError) : FetchError := {| error := e; msg := None |}.

Definition getErrorMsg (e : FetchError) : string := default ""%string (msg e).
(** [getErrorMsgUnsafe]: fills a null message, and returns it. *)
Definition getErrorMsgUnsafe (e : FetchError) : FetchError * string :=
  match msg e with
  | Some s => (e, s)
  | None => ({| error := error e; msg := Some ""%string |}, ""%string)
  end.
(** [explicit operator bool]: true on an error. *)
Definition getError (e : FetchError) : bool := negb (bool_decide (error e = APIError_SUCCESS)).

Section Response.
  Context {V : Type} `{Json V}.
  (** [simdjson::error_message]. *)
  Context (error_message : sj_error -> string).

(** [static_cast<int>(int64_t)]. *)
Definition to_int (n : Z) : Z := wrapS 32 n.

Definition getErrorFromSimdjson (obj : V) : FetchError :=
  let m := match field obj "msg" ≫= get_string with Val s => s | Err _ => ""%string end in
  match field obj "code" ≫= get_int64 with
  | Err _ => FetchError_msg APIError_UNKNOWN m
  | Val c => FetchError_msg (fromErrorCode (to_int c)) m
  end.

(** The [&&] chain: an object at top level with an integer ["code"]. *)
Definition error_code_of (doc : V) : option Z :=
  match type_ doc with
  | Val json_object =>
      match get_object doc with
      | Val obj => match field obj "code" ≫= get_int64 with Val c => Some c | Err _ => None end
      | Err _ => None
      end
  | _ => None
  end.

Definition getErrorFromDocument (doc : V) : FetchError :=
  match error_code_of doc with
  | Some c =>
      let m := match get_object doc ≫= fun obj => field obj "msg" ≫= get_string with
               | Val s => s | Err _ => ""%string end in
      FetchError_msg (fromErrorCode (to_int c)) m
  | None => FetchError_of APIError_SUCCESS
  end.

(** The document is an output parameter: [None] when it was not filled. *)
Definition iterateBody (body : string) : FetchError * option V :=
  match iterate body with
  | Err ec => (FetchError_msg APIError_BAD_FIELD ("Failed to parse response. error: " +:+ error_message ec)%string, None)
  | Val doc => (getErrorFromDocument doc, Some doc)
  end.

Definition fromHttpStatus (httpStatus : Z) : APIError :=
  if (httpStatus =? 418) || (httpStatus =? 429) then APIError_TOO_MANY_REQUESTS
  else if (httpStatus =? 401) || (httpStatus =? 403) then APIError_UNAUTHORIZED
  else if httpStatus =? 503 then APIError_SERVER_BUSY
  else APIError_UNEXPECTED_RESP.

(** The overload with an HTTP status. *)
Definition iterateResponse (body : string) (httpStatus : Z) : FetchError * option V :=
  let '(err, doc) := iterateBody body in
  let httpFailed := negb (httpStatus =? 0) && negb (Z.quot httpStatus 100 =? 2) in
  if negb httpFailed || (getError err && negb (bool_decide (error err = APIError_BAD_FIELD)))
  then (err, doc)
  else (FetchError_msg (fromHttpStatus httpStatus) ("HTTP " +:+ pretty httpStatus)%string, doc).

End Response.

(** ** Lemmas *)

Lemma fromErrorCode_not_internal c : APIError_value (fromErrorCode c) < 0.
Proof. unfold fromErrorCode. repeat case_match; done. Qed.

Lemma fromErrorCode_error c : fromErrorCode c <> APIError_SUCCESS.
Proof. intros E. pose proof (fromErrorCode_not_internal c) as H. rewrite E in H. cbn in H. lia. Qed.

Lemma getError_false e : getError e = false <-> error e = APIError_SUCCESS.
Proof. unfold getError. rewrite negb_false_iff, bool_decide_eq_true. done. Qed.

(** [fromErrorCode] inverts the enumerator values of the exchange's codes, maps every
    other integer to [UNKNOWN], and never yields one of the library's own codes: an
    error body can not be mistaken for [SUCCESS]. *)
Theorem fromErrorCode_exact c :
  (forall e, APIError_value e < 0 -> fromErrorCode (APIError_value e) = e) /\
  ((forall e, APIError_value e <> c) -> fromErrorCode c = APIError_UNKNOWN) /\
  APIError_value (fromErrorCode c) < 0.
Proof.
  split_and!; [by intros []| |apply fromErrorCode_not_internal].
  intros Hc. unfold fromErrorCode.
  repeat case_match; try done; subst;
    match goal with |- ?e = _ => by destruct (Hc e) end.
Qed.

(** C38 A response is accepted exactly when its body parses, is not an object with an
    integer ["code"], and the HTTP status is absent or 2xx; the caller then gets the
    document. *)
Theorem iterateResponse_success {V} `{Json V} (error_message : sj_error -> string) body httpStatus err doc :
  iterateResponse error_message body httpStatus = (err, doc) ->
  getError err = false <->
    exists d, doc = Some d /\ iterate body = Val d /\ error_code_of d = None /\
      (httpStatus = 0 \/ 200 <= httpStatus < 300).
Proof.
  unfold iterateResponse, iterateBody. intros Hr.
  assert (Hhttp : negb (httpStatus =? 0) && negb (Z.quot httpStatus 100 =? 2) = false <->
    (httpStatus = 0 \/ 200 <= httpStatus < 300)).
  { destruct (Z.eqb_spec httpStatus 0) as [->|Hne]; cbn; [tauto|].
    rewrite negb_false_iff, Z.eqb_eq. Z.to_euclidean_division_equations. lia. }
  assert (Hfail : forall s, getError (FetchError_msg (fromHttpStatus httpStatus) s) = true).
  { intros s. unfold getError, fromHttpStatus. cbn. repeat case_match; done. }
  destruct (iterate body) as [d|ec]; cbn in Hr.
  - unfold getErrorFromDocument in Hr. destruct (error_code_of d) as [c|] eqn:Hc.
    + assert (getError err = true) as ->.
      { assert (forall s, getError (FetchError_msg (fromErrorCode (to_int c)) s) = true) as Hg.
        { intros s. unfold getError. cbn. rewrite bool_decide_false; [done|]. apply fromErrorCode_error. }
        case_match; simplify_eq; auto. }
      split; [done|]. intros (? & -> & [= ->] & ? & _). congruence.
    + cbn in Hr. destruct (negb (httpStatus =? 0) && _) eqn:Ehttp; cbn in Hr; injection Hr as <- <-.
      * rewrite Hfail. split; [done|]. intros (? & _ & _ & _ & Hok). by apply Hhttp in Hok.
      * split; [|done]. intros _. exists d. split_and!; try done. by apply Hhttp.
  - assert (getError err = true) as -> by (case_match; simplify_eq; auto).
    split; [done|]. by intros (? & _ & ? & _).
Qed.

Lemma iterateResponse_success_witness :
  let texts := [("{}"%string, JObj [])] in
  let H := JV_Json texts in
  getError (FetchError_of APIError_SUCCESS) = false <->
    exists d, Some (JObj []) = Some d /\ iterate "{}" = Val d /\ error_code_of d = None /\
      (200 = 0 \/ 200 <= 200 < 300).
Proof.
  intros texts H. apply (iterateResponse_success (fun _ => ""%string) "{}" 200).
  vm_compute. reflexivity.
Defined.
