(* ===== verification/Snapshot.v ===== *)
(** * Snapshot: the buffer between the REST snapshot and the book

    Models [class OrderbookSnapshotIncoming] of
    [src/api/orderbook/orderbookSnapshotIncoming.hpp]: two arrays of 8192 entries with
    fill counts and read cursors. Array accesses out of bounds are [None], as in
    SortedBook; the theorems show that none happens. *)

From S2P Require Import Prelude FixedPoint Model.

Definition SNAPSHOT_CAPACITY : Z := 8192.

Record Snapshot := {
  bidArray : list Entry;
  askArray : list Entry;
  bidCount : Z;
  askCount : Z;
  lastBidGiven : Z;
  lastAskGiven : Z;
  lastGivenIndex : Z;
  updateId : Z;
}.

(** [updateId] is indeterminate until it is assigned: an argument. *)
Definition new_snapshot (indeterminate : Z) : Snapshot :=
  {| bidArray := replicate (Z.to_nat SNAPSHOT_CAPACITY) Entry_default;
     askArray := replicate (Z.to_nat SNAPSHOT_CAPACITY) Entry_default;
     bidCount := 0; askCount := 0; lastBidGiven := 0; lastAskGiven := 0; lastGivenIndex := 0;
     updateId := indeterminate |}.

Section Setters.
  Context (s : Snapshot).
Definition set_bids a n := {| bidArray := a; askArray := askArray s; bidCount := n; askCount := askCount s;
  lastBidGiven := lastBidGiven s; lastAskGiven := lastAskGiven s; lastGivenIndex := lastGivenIndex s; updateId := updateId s |}.
Definition set_asks a n := {| bidArray := bidArray s; askArray := a; bidCount := bidCount s; askCount := n;
  lastBidGiven := lastBidGiven s; lastAskGiven := lastAskGiven s; lastGivenIndex := lastGivenIndex s; updateId := updateId s |}.
Definition set_lastBid i := {| bidArray := bidArray s; askArray := askArray s; bidCount := bidCount s; askCount := askCount s;
  lastBidGiven := i; lastAskGiven := lastAskGiven s; lastGivenIndex := lastGivenIndex s; updateId := updateId s |}.
Definition set_lastAsk i := {| bidArray := bidArray s; askArray := askArray s; bidCount := bidCount s; askCount := askCount s;
  lastBidGiven := lastBidGiven s; lastAskGiven := i; lastGivenIndex := lastGivenIndex s; updateId := updateId s |}.
Definition set_lastIndex i := {| bidArray := bidArray s; askArray := askArray s; bidCount := bidCount s; askCount := askCount s;
  lastBidGiven := lastBidGiven s; lastAskGiven := lastAskGiven s; lastGivenIndex := i; updateId := updateId s |}.
Definition set_updateId u := {| bidArray := bidArray s; askArray := askArray s; bidCount := bidCount s; askCount := askCount s;
  lastBidGiven := lastBidGiven s; lastAskGiven := lastAskGiven s; lastGivenIndex := lastGivenIndex s; updateId := u |}.
End Setters.

Definition registerEntry (s : Snapshot) (price volume : Z) (isBid : bool) : option Snapshot :=
  if isBid then
    if SNAPSHOT_CAPACITY <=? bidCount s then Some s else
    a ← aset (bidArray s) (bidCount s) {| price := price; volume := volume |};
    Some (set_bids s a (bidCount s + 1))
  else
    if SNAPSHOT_CAPACITY <=? askCount s then Some s else
    a ← aset (askArray s) (askCount s) {| price := price; volume := volume |};
    Some (set_asks s a (askCount s + 1)).

(** [getEntries]: unlike the two below it checks no bound. *)
Definition getEntries (s : Snapshot) : option (Snapshot * (Entry * Entry)) :=
  b ← aget (bidArray s) (lastGivenIndex s);
  a ← aget (askArray s) (lastGivenIndex s);
  Some (set_lastIndex s (lastGivenIndex s + 1), (b, a)).

Definition getBid (s : Snapshot) : option (Snapshot * Entry) :=
  if bidCount s <=? lastBidGiven s then Some (s, Entry_default) else
  e ← aget (bidArray s) (lastBidGiven s);
  Some (set_lastBid s (lastBidGiven s + 1), e).

Definition getAsk (s : Snapshot) : option (Snapshot * Entry) :=
  if askCount s <=? lastAskGiven s then Some (s, Entry_default) else
  e ← aget (askArray s) (lastAskGiven s);
  Some (set_lastAsk s (lastAskGiven s + 1), e).

Definition reset (s : Snapshot) : Snapshot :=
  {| bidArray := bidArray s; askArray := askArray s; bidCount := 0; askCount := 0;
     lastBidGiven := 0; lastAskGiven := 0; lastGivenIndex := 0; updateId := updateId s |}.

(** ** The invariant

    [holds s bs os]: the buffer holds the bids [bs] and the asks [os] still to be read,
    in order. *)
Definition shape (s : Snapshot) : Prop :=
  length (bidArray s) = Z.to_nat SNAPSHOT_CAPACITY /\ length (askArray s) = Z.to_nat SNAPSHOT_CAPACITY.

Definition pending (a : list Entry) (last count : Z) : list Entry :=
  drop (Z.to_nat last) (take (Z.to_nat count) a).

Record holds (s : Snapshot) (bs os : list Entry) : Prop := {
  h_shape : shape s;
  h_bids : 0 <= lastBidGiven s <= bidCount s /\ bidCount s <= SNAPSHOT_CAPACITY;
  h_asks : 0 <= lastAskGiven s <= askCount s /\ askCount s <= SNAPSHOT_CAPACITY;
  h_bs : pending (bidArray s) (lastBidGiven s) (bidCount s) = bs;
  h_os : pending (askArray s) (lastAskGiven s) (askCount s) = os;
}.

Lemma holds_reset s : shape s -> holds (reset s) [] [].
Proof. intros Hs. split; cbn; try done; unfold SNAPSHOT_CAPACITY; lia. Qed.

Lemma pending_snoc a last count e : 0 <= last <= count -> Z.of_nat (length a) = SNAPSHOT_CAPACITY ->
  count < SNAPSHOT_CAPACITY ->
  exists a', aset a count e = Some a' /\ length a' = length a /\
    pending a' last (count + 1) = pending a last count ++ [e].
Proof.
  intros Hl Ha Hc. exists (<[Z.to_nat count := e]> a).
  split_and!; [by apply aset_in_range; lia | apply length_insert |].
  unfold pending. replace (Z.to_nat (count + 1)) with (S (Z.to_nat count)) by lia.
  rewrite (take_S_r _ _ e) by (apply list_lookup_insert_eq; lia). rewrite take_insert_ge by lia.
  rewrite drop_app_le; [done|]. rewrite length_take. lia.
Qed.

Lemma pending_head a last count : 0 <= last < count -> count <= Z.of_nat (length a) ->
  exists e, aget a last = Some e /\ pending a last count = e :: pending a (last + 1) count.
Proof.
  intros Hl Hc. destruct (aget_in_range a last) as [e He]; [lia|]. exists e. split; [done|].
  unfold pending. unfold aget in He. replace (last <? 0) with false in He by zbool.
  replace (Z.to_nat (last + 1)) with (S (Z.to_nat last)) by lia. apply drop_S.
  rewrite lookup_take_lt by lia. done.
Qed.

Lemma pending_nil a last count : count <= last -> pending a last count = [].
Proof. intros Hl. unfold pending. apply drop_ge. rewrite length_take. lia. Qed.

(** [registerEntry] appends, up to the capacity; it never writes out of bounds. *)
Lemma registerEntry_holds s bs os p v (isBid : bool) : holds s bs os ->
  (if isBid then lastBidGiven s = 0 else lastAskGiven s = 0) ->
  exists s', registerEntry s p v isBid = Some s' /\
    lastBidGiven s' = lastBidGiven s /\ lastAskGiven s' = lastAskGiven s /\ updateId s' = updateId s /\
    holds s' (if isBid then take (Z.to_nat SNAPSHOT_CAPACITY) (bs ++ [{| price := p; volume := v |}]) else bs)
             (if isBid then os else take (Z.to_nat SNAPSHOT_CAPACITY) (os ++ [{| price := p; volume := v |}])).
Proof.
  intros [[Hb Ha] Hbi Hai Hbs Hos] Hz. unfold registerEntry.
  assert (Hlen : forall a last count, last = 0 -> 0 <= last <= count -> count <= SNAPSHOT_CAPACITY ->
    length a = Z.to_nat SNAPSHOT_CAPACITY -> length (pending a last count) = Z.to_nat count).
  { intros a last count -> ? ? ?. unfold pending. rewrite drop_0, length_take. lia. }
  destruct isBid.
  - destruct (Z.leb_spec SNAPSHOT_CAPACITY (bidCount s)) as [Hge|Hlt].
    + exists s. split_and!; try done. split; try done.
      rewrite take_app_le by (rewrite <- Hbs, Hlen; lia). rewrite take_ge by (rewrite <- Hbs, Hlen; lia). done.
    + destruct (pending_snoc (bidArray s) (lastBidGiven s) (bidCount s) {| price := p; volume := v |})
        as (a & -> & Hla & Hp); [lia|lia|lia|]. cbn. eexists. split_and!; try done. split; cbn; try done; [split; cbn; congruence|lia|].
      rewrite Hp, Hbs, take_ge; [done|]. rewrite length_app, <- Hbs, Hlen by lia. cbn. lia.
  - destruct (Z.leb_spec SNAPSHOT_CAPACITY (askCount s)) as [Hge|Hlt].
    + exists s. split_and!; try done. split; try done.
      rewrite take_app_le by (rewrite <- Hos, Hlen; lia). rewrite take_ge by (rewrite <- Hos, Hlen; lia). done.
    + destruct (pending_snoc (askArray s) (lastAskGiven s) (askCount s) {| price := p; volume := v |})
        as (a & -> & Hla & Hp); [lia|lia|lia|]. cbn. eexists. split_and!; try done. split; cbn; try done; [split; cbn; congruence|lia|].
      rewrite Hp, Hos, take_ge; [done|]. rewrite length_app, <- Hos, Hlen by lia. cbn. lia.
Qed.

(** The cursors: one entry per call, then the zero entry for ever. *)
Lemma getBid_holds s bs os : holds s bs os ->
  match bs with
  | [] => getBid s = Some (s, Entry_default)
  | e :: bs' => exists s', getBid s = Some (s', e) /\ updateId s' = updateId s /\ holds s' bs' os
  end.
Proof.
  intros [[Hb Ha] Hbi Hai Hbs Hos]. unfold getBid. destruct (Z.leb_spec (bidCount s) (lastBidGiven s)) as [Hge|Hlt].
  - rewrite pending_nil in Hbs by done. by subst.
  - destruct (pending_head (bidArray s) (lastBidGiven s) (bidCount s)) as (e & -> & Hp); [lia|lia|].
    rewrite Hp in Hbs. subst. cbn. eexists. split_and!; try done. split; cbn; try done; lia.
Qed.

Lemma getAsk_holds s bs os : holds s bs os ->
  match os with
  | [] => getAsk s = Some (s, Entry_default)
  | e :: os' => exists s', getAsk s = Some (s', e) /\ updateId s' = updateId s /\ holds s' bs os'
  end.
Proof.
  intros [[Hb Ha] Hbi Hai Hbs Hos]. unfold getAsk. destruct (Z.leb_spec (askCount s) (lastAskGiven s)) as [Hge|Hlt].
  - rewrite pending_nil in Hos by done. by subst.
  - destruct (pending_head (askArray s) (lastAskGiven s) (askCount s)) as (e & -> & Hp); [lia|lia|].
    rewrite Hp in Hos. subst. cbn. eexists. split_and!; try done. split; cbn; try done; lia.
Qed.
