(* ===== verification/ArrayHolder.v ===== *)
(** * ArrayHolder: the slots of depth events in flight

    Models [class OrderbookArrayHolder] and [class OrderbookArrays] of
    [src/api/orderbook/orderbookArrays.hpp]. The [freeSlots] ring is a FIFO queue (see
    RingBuffer for the ring itself).

    [acquire] and [release] run on different threads. [Conc] interleaves their atomic
    accesses: [acquire] loads the counter, decrements it, then dequeues; [release]
    enqueues, then increments. The theorem is the comment of the source: [acquire] never
    waits on the ring, and no slot is ever owned twice. *)

From S2P Require Import Prelude FixedPoint Model.

Definition DEPTH_EVENT_CAPACITY : Z := 1024.
Definition SLOTS : Z := 128.

(** [bidArray]/[askArray] point into the slot the event owns, so the model carries the
    contents; [None] is the null pointer of a dropped event. *)
Record OrderbookArrays := {
  bidArray : option (list Entry);
  askArray : option (list Entry);
  slot : Z;
  bidCount : Z;
  askCount : Z;
  u : Z;
  U : Z;
  pu : Z;
}.

(** The default constructor: a dropped event. *)
Definition dropped_event : OrderbookArrays :=
  {| bidArray := None; askArray := None; slot := -1; bidCount := 0; askCount := 0; u := 0; U := 0; pu := 0 |}.

Definition dropped (a : OrderbookArrays) : bool := match bidArray a with None => true | Some _ => false end.

Record Holder := { freeSlots : list Z; freeCount : Z }.

Definition new_holder : Holder := {| freeSlots := seqZ 0 SLOTS; freeCount := SLOTS |}.

(** [acquire], when no [release] is under way; [None] would be a dequeue that waits. *)
Definition acquire (h : Holder) : option (Holder * Z) :=
  if freeCount h =? 0 then Some (h, -1) else
  match freeSlots h with
  | s :: r => Some ({| freeSlots := r; freeCount := freeCount h - 1 |}, s)
  | [] => None
  end.

Definition release (h : Holder) (s : Z) : Holder :=
  {| freeSlots := freeSlots h ++ [s]; freeCount := freeCount h + 1 |}.

Module Conc.

(** Where the one acquiring thread stands between its atomic accesses. *)
Inductive acq_pc := AIdle | ALoaded | ASubbed.

(** [pending] counts the [release] calls between their two accesses; [owned] lists the
    slots events hold. *)
Record st := {
  ring : list Z;
  count : Z;
  pc : acq_pc;
  pending : nat;
  owned : list Z;
}.

Definition init : st :=
  {| ring := freeSlots new_holder; count := freeCount new_holder; pc := AIdle; pending := 0; owned := [] |}.

Inductive step : st -> st -> Prop :=
  | acquire_load s : pc s = AIdle -> count s <> 0 ->
      step s {| ring := ring s; count := count s; pc := ALoaded; pending := pending s; owned := owned s |}
  | acquire_sub s : pc s = ALoaded ->
      step s {| ring := ring s; count := count s - 1; pc := ASubbed; pending := pending s; owned := owned s |}
  | acquire_dequeue s x r : pc s = ASubbed -> ring s = x :: r ->
      step s {| ring := r; count := count s; pc := AIdle; pending := pending s; owned := x :: owned s |}
  | release_enqueue s o1 x o2 : owned s = o1 ++ x :: o2 ->
      step s {| ring := ring s ++ [x]; count := count s; pc := pc s; pending := S (pending s); owned := o1 ++ o2 |}
  | release_count s n : pending s = S n ->
      step s {| ring := ring s; count := count s + 1; pc := pc s; pending := n; owned := owned s |}.

Definition reachable (s : st) : Prop := rtc step init s.

Record inv (s : st) : Prop := {
  inv_slots : ring s ++ owned s ≡ₚ seqZ 0 SLOTS;
  inv_count : Z.of_nat (length (ring s)) =
    count s + (match pc s with ASubbed => 1 | _ => 0 end) + Z.of_nat (pending s);
  inv_loaded : 0 <= count s /\ (pc s = ALoaded -> 0 < count s);
}.

Lemma inv_init : inv init.
Proof. split; cbn; [by rewrite app_nil_r|done|]. unfold SLOTS. split; [lia|done]. Qed.

Lemma inv_step s s' : inv s -> step s s' -> inv s'.
Proof.
  intros [Hs Hc Hl] Hstep. destruct Hstep as [s Hpc Hn|s Hpc|s x r Hpc Hr|s o1 x o2 Ho|s n Hn];
    split; cbn in *; rewrite ?Hpc in *.
  all: rewrite ?length_app; cbn [length].
  all: try done; try (split; intros; try done; lia); try lia.
  - destruct Hl as [? Hl]. specialize (Hl eq_refl). split; [lia|done].
  - rewrite Hr in Hs. rewrite <- Hs. cbn. by rewrite Permutation_middle.
  - rewrite Hr in Hc. cbn in Hc. lia.
  - rewrite Ho in Hs. rewrite <- Hs. rewrite <- app_assoc. cbn. by rewrite (Permutation_middle o1 o2 x).
Qed.

Lemma inv_reachable s : reachable s -> inv s.
Proof.
  intros Hr. unfold reachable in Hr. pose proof inv_init as Hi. revert Hi. generalize init, Hr.
  intros s0 Hrtc. induction Hrtc; eauto using inv_step.
Qed.

(** Under every interleaving of [acquire] and [release]: once [acquire] has taken a
    count the ring has a slot for it (it never waits), the counter stays in range, and
    every slot is either free exactly once or owned by exactly one event. *)
Theorem holder_safe s : reachable s ->
  (pc s = ASubbed -> exists x r, ring s = x :: r) /\ 0 <= count s <= SLOTS /\
  NoDup (ring s ++ owned s) /\ (forall x, x ∈ ring s ++ owned s <-> 0 <= x < SLOTS).
Proof.
  intros [Hs Hc [Hl _]]%inv_reachable. assert (Hlen : length (ring s ++ owned s) = 128%nat) by (by rewrite Hs).
  rewrite length_app in Hlen. split_and!.
  - intros Hpc. rewrite Hpc in Hc. destruct (ring s) as [|x r]; [cbn in Hc; lia|eauto].
  - done.
  - unfold SLOTS. destruct (pc s); lia.
  - rewrite Hs. apply NoDup_seqZ.
  - intros x. rewrite Hs, elem_of_seqZ. lia.
Qed.

Lemma holder_safe_witness :
  let s := {| ring := seqZ 0 SLOTS; count := SLOTS - 1; pc := ASubbed; pending := 0; owned := [] |} in
  exists x r, ring s = x :: r.
Proof.
  intros s. apply (holder_safe s); [|reflexivity].
  eapply rtc_l; [apply (acquire_load init); [reflexivity|discriminate]|].
  eapply rtc_l; [apply acquire_sub; reflexivity|]. apply rtc_refl.
Defined.

End Conc.
