(* ===== verification/Orderbook.v ===== *)
(** * Orderbook: keeping the book aligned with the depth stream

    Models [class APIManager::Orderbook] of [src/api/orderbook/orderbook.hpp]: the
    thread function [executionLoop] and everything it calls.

    What the thread can not decide is given by its environment:
    - [FuturesAPI], the REST client, as an interface (the [k]-th call may answer
      differently from the others); FuturesRest implements it;
    - [events], the depth events the stream delivers, in order; when they are used up
      the stream is silent for ever or, with [streamEnd], has given up;
    - [budget], the number of times the thread reads [running] before the destructor
      clears it (every finite execution prefix has such a number).

    Readers run under the same lock as the updates, so what they can see is the state
    at each release of the lock and at each store to [synced]: the model appends a
    [View] to [trace] there. The option monad is undefined behaviour, as in SortedBook;
    the loops recurse on fuel that [OrderbookSpec] proves sufficient. *)

From S2P Require Import Prelude FixedPoint Model SortedBook Errors Snapshot ArrayHolder.

Class FuturesAPI := {
  (** the call number, the snapshot buffer; the error and the buffer after the call *)
  fetchOrderbookSnapshot : string -> nat -> Snapshot -> option (FetchError * Snapshot);
  fetchExchangeInfoForPair : string -> PairInfo -> FetchError * PairInfo;
}.

Definition snapshotAttempts : nat := 3.
Definition maxFailedSyncs : Z := 5.

(** What a reader could copy out at one moment. *)
Record View := { v_bids : SortedBook; v_asks : SortedBook; v_updateID : Z; v_synced : bool }.

Inductive action :=
  | Published (v : View)       (** the lock is released, or [synced] stored *)
  | Torn (v : View)            (** the lock is released after a level did not fit *)
  | Fetched (e : FetchError)
  | Slept (ms : Z)
  | Consumed (ev : OrderbookArrays)  (** taken from the stream's buffer *)
  | Released (s : Z).          (** a slot handed back *)

Record OB := {
  bidBook : SortedBook;
  askBook : SortedBook;
  snapshot : Snapshot;
  updateID : Z;
  synced : bool;
  running : bool;
  lastError : option FetchError;
  holder : Holder;
  events : list OrderbookArrays;
  calls : nat;
  budget : nat;
  trace : list action;
}.

Section Setters.
  Context (o : OB).
Definition set_books b a := {| bidBook := b; askBook := a; snapshot := snapshot o; updateID := updateID o; synced := synced o; running := running o; lastError := lastError o; holder := holder o; events := events o; calls := calls o; budget := budget o; trace := trace o |}.
Definition set_snapshot s n := {| bidBook := bidBook o; askBook := askBook o; snapshot := s; updateID := updateID o; synced := synced o; running := running o; lastError := lastError o; holder := holder o; events := events o; calls := n; budget := budget o; trace := trace o |}.
Definition set_updateID i := {| bidBook := bidBook o; askBook := askBook o; snapshot := snapshot o; updateID := i; synced := synced o; running := running o; lastError := lastError o; holder := holder o; events := events o; calls := calls o; budget := budget o; trace := trace o |}.
Definition set_synced x := {| bidBook := bidBook o; askBook := askBook o; snapshot := snapshot o; updateID := updateID o; synced := x; running := running o; lastError := lastError o; holder := holder o; events := events o; calls := calls o; budget := budget o; trace := trace o |}.
Definition set_running r e n := {| bidBook := bidBook o; askBook := askBook o; snapshot := snapshot o; updateID := updateID o; synced := synced o; running := r; lastError := e; holder := holder o; events := events o; calls := calls o; budget := n; trace := trace o |}.
Definition set_holder h := {| bidBook := bidBook o; askBook := askBook o; snapshot := snapshot o; updateID := updateID o; synced := synced o; running := running o; lastError := lastError o; holder := h; events := events o; calls := calls o; budget := budget o; trace := trace o |}.
Definition set_events es := {| bidBook := bidBook o; askBook := askBook o; snapshot := snapshot o; updateID := updateID o; synced := synced o; running := running o; lastError := lastError o; holder := holder o; events := es; calls := calls o; budget := budget o; trace := trace o |}.
Definition log a := {| bidBook := bidBook o; askBook := askBook o; snapshot := snapshot o; updateID := updateID o; synced := synced o; running := running o; lastError := lastError o; holder := holder o; events := events o; calls := calls o; budget := budget o; trace := trace o ++ [a] |}.
End Setters.

Definition view (o : OB) : View :=
  {| v_bids := bidBook o; v_asks := askBook o; v_updateID := updateID o; v_synced := synced o |}.
Definition publish (o : OB) : OB := log o (Published (view o)).

(** [synced.value.store(x)]. *)
Definition store_synced (o : OB) (x : bool) : OB := publish (set_synced o x).

(** [running.value.load()], counted against the budget. *)
Definition load_running (o : OB) : OB * bool :=
  if running o then
    match budget o with
    | O => (set_running o false (lastError o) O, false)
    | S n => (set_running o true (lastError o) n, true)
    end
  else (o, false).

Definition stop (o : OB) (err : FetchError) : OB :=
  let o1 := store_synced (set_running o (running o) (Some err) (budget o)) false in
  set_running o1 false (lastError o1) (budget o1).

Definition processEntry (o : OB) (e : Entry) (isBid : bool) : option (OB * bool) :=
  if isBid
  then '(b, r) ← update true (bidBook o) (price e) (volume e); Some (set_books o b (askBook o), r)
  else '(b, r) ← update false (askBook o) (price e) (volume e); Some (set_books o (bidBook o) b, r).

(** The two loops of [applySnapshot]; a buffer holds at most 8192 entries, the fuel. *)
Fixpoint drain (fuel : nat) (isBid : bool) (o : OB) : option OB :=
  match fuel with
  | O => None
  | S fuel' =>
      '(s, e) ← (if isBid then getBid (snapshot o) else getAsk (snapshot o));
      let o1 := set_snapshot o s (calls o) in
      if price e =? 0 then Some o1
      else '(o2, _) ← processEntry o1 e isBid; drain fuel' isBid o2
  end.

Definition drain_fuel : nat := S (Z.to_nat SNAPSHOT_CAPACITY).

Definition applySnapshot (o : OB) : option OB :=
  let o1 := set_books o (clear (bidBook o)) (clear (askBook o)) in
  o2 ← drain drain_fuel true o1;
  o3 ← drain drain_fuel false o2;
  Some (publish (set_updateID o3 (updateId (snapshot o3)))).

(** One of the loops of [applyUpdate], over the first [n] entries of a slot's array. *)
Fixpoint apply_levels (n : nat) (i : Z) (arr : list Entry) (isBid : bool) (o : OB) : option (OB * bool) :=
  match n with
  | O => Some (o, true)
  | S n' =>
      e ← aget arr i;
      '(o1, r) ← processEntry o e isBid;
      if (r : bool) then apply_levels n' (i + 1) arr isBid o1 else Some (o1, false)
  end.

(** The array of a null pointer is never read: a dropped event has count 0. *)
Definition deref (a : option (list Entry)) : list Entry := default [] a.

Definition applyUpdate (o : OB) (ev : OrderbookArrays) : option (OB * bool) :=
  '(o1, r1) ← apply_levels (Z.to_nat (bidCount ev)) 0 (deref (bidArray ev)) true o;
  if negb (r1 : bool) then Some (log o1 (Torn (view o1)), false) else
  '(o2, r2) ← apply_levels (Z.to_nat (askCount ev)) 0 (deref (askArray ev)) false o1;
  if negb (r2 : bool) then Some (log o2 (Torn (view o2)), false) else
  Some (publish (set_updateID o2 (u ev)), true).

Definition release_ (o : OB) (ev : OrderbookArrays) : OB :=
  if 0 <=? slot ev then log (set_holder o (release (holder o) (slot ev))) (Released (slot ev)) else o.

Definition toupper_char (c : ascii) : ascii :=
  if (97 <=? code c) && (code c <=? 122) then chr (code c - 32) else c.
Fixpoint toupper (s : string) : string :=
  match s with EmptyString => EmptyString | String c s' => String (toupper_char c) (toupper s') end.

Section Thread.
  Context `{FuturesAPI}.
  Context (pair : string).
  (** [None]: the stream never gives up. [Some e]: it does, [e] being the message its
      status reports (null when there is none). *)
  Context (streamEnd : option (option string)).

(** [resync]'s retry loop, [attempt] from 1. *)
Fixpoint retry (attempts : nat) (attempt : Z) (o : OB) (err : FetchError) : option (OB * FetchError) :=
  match attempts with
  | O => Some (o, err)
  | S n =>
      if negb (getError err) then Some (o, err) else
      let '(o1, alive) := load_running o in
      if negb alive then Some (o1, err) else
      let o2 := log o1 (Slept (250 * attempt)) in
      '(err', s) ← fetchOrderbookSnapshot pair (calls o2) (snapshot o2);
      retry n (attempt + 1) (log (set_snapshot o2 s (S (calls o2))) (Fetched err')) err'
  end.

Definition resync (o : OB) : option (OB * FetchError) :=
  let o1 := store_synced o false in
  '(err, s) ← fetchOrderbookSnapshot pair (calls o1) (snapshot o1);
  '(o2, err) ← retry (snapshotAttempts - 1) 1 (log (set_snapshot o1 s (S (calls o1))) (Fetched err)) err;
  if getError err then Some (o2, err)
  else o3 ← applySnapshot o2; Some (o3, FetchError_of APIError_SUCCESS).

(** The spin of [waitForUpdate] on an empty buffer, a turn per read of [running]. *)
Fixpoint spin (fuel : nat) (o : OB) : option OB :=
  match fuel with
  | O => None
  | S fuel' =>
      let '(o1, alive) := load_running o in
      if negb alive then Some o1 else
      match streamEnd with
      | Some m => Some (stop o1 (FetchError_msg APIError_DISCONNECTED (default "Depth stream closed"%string m)))
      | None => spin fuel' o1
      end
  end.

Definition waitForUpdate (o : OB) : option (OB * bool) :=
  match events o with
  | _ :: _ => Some (o, true)
  | [] => o1 ← spin (S (budget o)) o; Some (o1, false)
  end.

(** The event is [None] when the function returns false. *)
Definition nextUpdate (o : OB) : option (OB * option OrderbookArrays) :=
  '(o1, ok) ← waitForUpdate o;
  if negb (ok : bool) then Some (o1, None) else
  match events o1 with
  | ev :: evs => Some (log (set_events o1 evs) (Consumed ev), Some ev)
  | [] => None
  end.

Fixpoint applyFirstUpdate (fuel : nat) (o : OB) : option (OB * bool) :=
  match fuel with
  | O => None
  | S fuel' =>
      '(o1, next) ← nextUpdate o;
      match next with
      | None => Some (o1, false)
      | Some ev =>
          if dropped ev then Some (o1, false) else
          if u ev <? updateID o1 then applyFirstUpdate fuel' (release_ o1 ev) else
          '(o2, applied) ← (if U ev <=? updateID o1 then applyUpdate o1 ev else Some (o1, false));
          Some (release_ o2 ev, applied)
      end
  end.

Definition loadTickSize (o : OB) : OB * FetchError :=
  let symbol := toupper pair in
  let '(error, info) := fetchExchangeInfoForPair symbol PairInfo_zero in
  if getError error then (o, error)
  else if pairTickSize info <=? 0 then
    (o, FetchError_msg APIError_BAD_FIELD ("Exchange info has no tick size for " +:+ symbol)%string)
  else (set_books o (setTickSize (bidBook o) (pairTickSize info)) (setTickSize (askBook o) (pairTickSize info)),
        FetchError_of APIError_SUCCESS).

(** The inner loop of [executionLoop]: apply events while they connect. *)
Fixpoint follow (fuel : nat) (o : OB) : option OB :=
  match fuel with
  | O => None
  | S fuel' =>
      '(o1, next) ← nextUpdate o;
      match next with
      | None => Some o1
      | Some ev =>
          '(o2, applied) ← (if negb (dropped ev) && (pu ev =? updateID o1)
                            then applyUpdate o1 ev else Some (o1, false));
          let o3 := release_ o2 ev in
          if (applied : bool) then follow fuel' o3 else Some o3
      end
  end.

(** The outer loop. *)
Fixpoint main_loop (fuel : nat) (failedSyncs : Z) (o : OB) : option OB :=
  match fuel with
  | O => None
  | S fuel' =>
      let '(o, alive) := load_running o in
      if negb alive then Some o else
      '(o, err) ← resync o;
      if getError err then Some (stop o err) else
      '(o, ok) ← applyFirstUpdate (S (length (events o))) o;
      if negb (ok : bool) then
        let '(o, alive) := load_running o in
        if negb alive then Some o else
        let failedSyncs := failedSyncs + 1 in
        if failedSyncs =? maxFailedSyncs
        then Some (stop o (FetchError_msg APIError_ORDERBOOK_OUTDATED "Snapshot could not be aligned with the depth stream"))
        else main_loop fuel' failedSyncs o
      else
        o ← follow (S (length (events o))) (store_synced o true);
        main_loop fuel' 0 o
  end.

Definition executionLoop (o : OB) : option OB :=
  let '(o, error) := loadTickSize o in
  if getError error then Some (stop o error) else
  '(o, ok) ← waitForUpdate o;
  if negb (ok : bool) then Some o else
  main_loop (S (budget o)) 0 o.

End Thread.

(** The members as the constructor leaves them, before the thread starts. *)
Definition new_orderbook (indeterminate : Z) (h : Holder) (evs : list OrderbookArrays) (n : nat) : OB :=
  {| bidBook := new_book; askBook := new_book; snapshot := new_snapshot indeterminate; updateID := 0;
     synced := false; running := true; lastError := None; holder := h; events := evs;
     calls := O; budget := n; trace := [] |}.

(** ** Readers *)

(** [error()]: null while the thread runs. *)
Definition error_ (o : OB) : OB * option FetchError :=
  let '(o1, alive) := load_running o in (o1, if alive then None else lastError o1).
Definition isSynced (o : OB) : bool := synced o.
Definition getTopBids (o : OB) (size : nat) : option (list Entry) := top true (bidBook o) size.
Definition getTopAsks (o : OB) (size : nat) : option (list Entry) := top false (askBook o) size.
Definition getBestBid (o : OB) : option (option Entry) := es ← getTopBids o 1; Some (head es).
Definition getBestAsk (o : OB) : option (option Entry) := es ← getTopAsks o 1; Some (head es).
Definition getEntryWithPrice (o : OB) (p : Z) (isBid : bool) : option (option Entry) :=
  if isBid then find (bidBook o) p else find (askBook o) p.
