(* ===== verification/OrderbookSpec.v ===== *)
(** * OrderbookSpec: a synced book is the exchange's book

    [X n] is the exchange's book at update id [n]: for each side, a map from tick to
    entry. Under the documented contract of the two sources (a snapshot is the book at
    its [lastUpdateId]; an event carries the final value of every level that changed in
    [U..u], the previous event ending at [pu]) every view published while [synced] is
    the exchange's book at the view's [updateID]. Capacity is not assumed: an event that
    does not fit is refused and the book resyncs. *)

From S2P Require Import Prelude FixedPoint Model PriceLevel SortedBook FreeList BlockDir SortedBookSpec SortedBookWalk SortedBookThms Errors Snapshot ArrayHolder Orderbook.

(** The tick of a price under a tick size. *)
Definition tick_of (ts p : Z) : option Z := toTick (setTickSize new_book ts) p.

Lemma toTick_tick_of b p : toTick b p = tick_of (tickSize b) p.
Proof. done. Qed.

(** One absolute level applied to a side of the exchange's book. *)
Definition put (ts : Z) (m : gmap Z Entry) (e : Entry) : gmap Z Entry :=
  match tick_of ts (price e) with
  | Some t => apply_level m t (price e) (volume e)
  | None => m
  end.

Definition has_tick (ts : Z) (e : Entry) : Prop := is_Some (tick_of ts (price e)).

(** A side of the book at tick size [ts]. *)
Definition side_ok (ts : Z) (b : SortedBook) (m : gmap Z Entry) : Prop := repr b m /\ tickSize b = ts.

Lemma side_update IsBid ts b m e : side_ok ts b m -> has_tick ts e ->
  exists b' r, update IsBid b (price e) (volume e) = Some (b', r) /\
    side_ok ts b' (if r then put ts m e else m).
Proof.
  intros [Hr <-] [t Ht]. destruct (update_repr IsBid b m (price e) (volume e) t Hr Ht) as (b' & Hu & Hr' & Hts & _).
  exists b', (accepts m t (volume e)). split_and!; [done|]. unfold put. rewrite Ht. split; [done|congruence].
Qed.

Lemma side_clear ts b m : side_ok ts b m -> side_ok ts (clear b) ∅.
Proof. intros [Hr <-]. split; [by eapply repr_clear|done]. Qed.

(** ** Small sides never refuse *)

Lemma put_size ts m e : (size (put ts m e) <= S (size m))%nat.
Proof.
  unfold put. destruct (tick_of ts (price e)) as [t|]; [|lia]. unfold apply_level. case_match.
  - rewrite map_size_delete. case_match; unfold id; cbn; lia.
  - rewrite map_size_insert. case_match; unfold id; cbn; lia.
Qed.

Lemma block_ids_size m : (size (block_ids m) <= size m)%nat.
Proof.
  rewrite <- (size_dom (D := gset Z) m).
  change (length (elements (block_ids m)) <= length (elements (dom m : gset Z)))%nat.
  rewrite <- (length_fmap (fun t => t / 128) (elements (dom m : gset Z))).
  apply submseteq_length, NoDup_submseteq; [apply NoDup_elements|].
  intros id Hid%elem_of_elements. unfold block_ids in Hid. apply elem_of_map in Hid as (t & -> & Ht).
  apply (list_elem_of_fmap_2 (fun t => t / 128)). by apply elem_of_elements.
Qed.

Lemma small_accepts m t v : Z.of_nat (size m) < MAX_BLOCKS -> accepts m t v = true.
Proof.
  intros Hs. unfold accepts, fits. pose proof (block_ids_size m).
  rewrite (bool_decide_true (Z.of_nat (size m) < MAX_LEVELS)) by (unfold MAX_LEVELS, MAX_BLOCKS in *; lia).
  rewrite (bool_decide_true (Z.of_nat (size (block_ids m)) < MAX_BLOCKS)) by lia. cbn. by rewrite !orb_true_r.
Qed.

(** The comment of [applySnapshot]: a side of at most 1000 levels can not fill up. *)
Lemma side_update_small IsBid ts b m e : side_ok ts b m -> has_tick ts e -> Z.of_nat (size m) < MAX_BLOCKS ->
  exists b', update IsBid b (price e) (volume e) = Some (b', true) /\ side_ok ts b' (put ts m e).
Proof.
  intros [Hr <-] [t Ht] Hs. destruct (update_repr IsBid b m (price e) (volume e) t Hr Ht) as (b' & Hu & Hr' & Hts & _).
  rewrite small_accepts in Hu, Hr' by done. exists b'. split; [done|]. unfold put. rewrite Ht. done.
Qed.

(** ** Framing: what each function may change *)

Definition both (ts : Z) (o : OB) (mb ma : gmap Z Entry) : Prop :=
  side_ok ts (bidBook o) mb /\ side_ok ts (askBook o) ma.

Lemma processEntry_spec ts o mb ma e (isBid : bool) : both ts o mb ma -> has_tick ts e ->
  exists b a r, processEntry o e isBid = Some (set_books o b a, r) /\
    both ts (set_books o b a) (if isBid && r then put ts mb e else mb) (if negb isBid && r then put ts ma e else ma).
Proof.
  intros [Hb Ha] He. unfold processEntry. destruct isBid.
  - destruct (side_update true ts _ _ e Hb He) as (b' & r & -> & Hb'). exists b', (askBook o), r. by split; [|split].
  - destruct (side_update false ts _ _ e Ha He) as (a' & r & -> & Ha'). exists (bidBook o), a', r. by split; [|split].
Qed.

Lemma processEntry_small ts o mb ma e (isBid : bool) : both ts o mb ma -> has_tick ts e ->
  Z.of_nat (size (if isBid then mb else ma)) < MAX_BLOCKS ->
  exists b a, processEntry o e isBid = Some (set_books o b a, true) /\
    both ts (set_books o b a) (if isBid then put ts mb e else mb) (if isBid then ma else put ts ma e).
Proof.
  intros [Hb Ha] He Hs. unfold processEntry. destruct isBid.
  - destruct (side_update_small true ts _ _ e Hb He Hs) as (b' & -> & Hb'). exists b', (askBook o). by split; [|split].
  - destruct (side_update_small false ts _ _ e Ha He Hs) as (a' & -> & Ha'). exists (bidBook o), a'. by split; [|split].
Qed.

(** [apply_levels] over [n] entries of an array, from index [i]. *)
Lemma apply_levels_spec ts (isBid : bool) arr n : forall i o mb ma, both ts o mb ma -> (i + n <= length arr)%nat ->
  Forall (has_tick ts) (take n (drop i arr)) ->
  exists b a r mb' ma', apply_levels n (Z.of_nat i) arr isBid o = Some (set_books o b a, r) /\
    both ts (set_books o b a) mb' ma' /\
    (r = true -> mb' = (if isBid then foldl (put ts) mb (take n (drop i arr)) else mb) /\
                 ma' = (if isBid then ma else foldl (put ts) ma (take n (drop i arr)))).
Proof.
  induction n as [|n IH]; intros i o mb ma Hbo Hlen Hf; cbn [apply_levels].
  - exists (bidBook o), (askBook o), true, mb, ma. split_and!; [by destruct o|by destruct o|].
    intros _. by destruct isBid.
  - destruct (lookup_lt_is_Some_2 arr i) as [e He]; [lia|]. rewrite aget_nat, He. cbn [mbind option_bind].
    rewrite (drop_S arr e i He) in *. cbn [take] in *. inversion Hf as [|? ? Hte Hf']; subst.
    destruct (processEntry_spec ts o mb ma e isBid Hbo Hte) as (b1 & a1 & r1 & -> & Hbo1). cbn [mbind option_bind].
    destruct r1.
    + replace (Z.of_nat i + 1) with (Z.of_nat (S i)) by lia.
      destruct (IH (S i) _ _ _ Hbo1 ltac:(lia) Hf') as (b & a & r & mb' & ma' & -> & Hbo' & Hr).
      exists b, a, r, mb', ma'. split_and!; [done|done|]. intros ->. destruct (Hr eq_refl) as [-> ->].
      by destruct isBid.
    + eexists b1, a1, false, _, _. split_and!; [done|exact Hbo1|done].
Qed.

Lemma drain_spec ts (isBid : bool) es : forall fuel o mb ma bs os, both ts o mb ma ->
  holds (snapshot o) bs os -> es = (if isBid then bs else os) -> (length es < fuel)%nat ->
  Forall (has_tick ts) es -> Forall (fun e => price e <> 0) es ->
  Z.of_nat (size (if isBid then mb else ma)) + Z.of_nat (length es) <= MAX_BLOCKS ->
  exists b a s, drain fuel isBid o = Some (set_snapshot (set_books o b a) s (calls o)) /\
    both ts (set_books o b a) (if isBid then foldl (put ts) mb es else mb) (if isBid then ma else foldl (put ts) ma es) /\
    updateId s = updateId (snapshot o) /\ holds s (if isBid then [] else bs) (if isBid then os else []).
Proof.
  induction es as [|e es IH]; intros fuel o mb ma bs os Hbo Hh Hes Hfuel Ht Hnz Hsize;
    (destruct fuel as [|fuel]; [cbn in Hfuel; lia|]); cbn [drain].
  - exists (bidBook o), (askBook o), (snapshot o).
    destruct isBid; subst; [pose proof (getBid_holds _ _ _ Hh) as -> | pose proof (getAsk_holds _ _ _ Hh) as ->];
      cbn; (split_and!; [by destruct o|by destruct o|done|done]).
  - inversion Ht as [|? ? Hte Ht']; subst. inversion Hnz as [|? ? Hne Hnz']; subst. cbn [length] in *.
    assert (exists s, (if isBid then getBid (snapshot o) else getAsk (snapshot o)) = Some (s, e) /\
      updateId s = updateId (snapshot o) /\
      holds s (if isBid then es else bs) (if isBid then os else es)) as (s & -> & Hu & Hh1).
    { destruct isBid; subst; [pose proof (getBid_holds _ _ _ Hh) as Hg | pose proof (getAsk_holds _ _ _ Hh) as Hg];
        cbn in Hg; exact Hg. }
    cbn [mbind option_bind]. rewrite (proj2 (Z.eqb_neq _ _) Hne).
    destruct (processEntry_small ts (set_snapshot o s (calls o)) mb ma e isBid Hbo Hte) as (b1 & a1 & -> & Hbo1); [lia|].
    cbn [mbind option_bind].
    destruct (IH fuel _ _ _ (if isBid then es else bs) (if isBid then os else es) Hbo1 Hh1) as (b & a & s' & -> & Hbo' & Hu' & Hh');
      [by destruct isBid|lia|done|done| |].
    + destruct isBid; [pose proof (put_size ts mb e)|pose proof (put_size ts ma e)]; lia.
    + exists b, a, s'. split_and!; [done|by destruct isBid|cbn in *; congruence|by destruct isBid].
Qed.

(** ** The contract of the environment *)

Section Thread.
  Context `{FuturesAPI} (pair : string) (streamEnd : option (option string)).
  Context (ts : Z) (X : Z -> gmap Z Entry * gmap Z Entry).

(** The levels of one side of an event. *)
Definition levels (arr : option (list Entry)) (n : Z) : list Entry := take (Z.to_nat n) (deref arr).

(** A decoded event: counts within the slot's arrays, prices with ticks, and the final
    value of every level changed since any book in [U..u] or since the previous event. *)
Record event_ok (ev : OrderbookArrays) : Prop := {
  ev_counts : (Z.to_nat (bidCount ev) <= length (deref (bidArray ev)))%nat /\
              (Z.to_nat (askCount ev) <= length (deref (askArray ev)))%nat;
  ev_ticks : Forall (has_tick ts) (levels (bidArray ev) (bidCount ev)) /\
             Forall (has_tick ts) (levels (askArray ev) (askCount ev));
  ev_faithful : dropped ev = false -> forall j, U ev <= j <= u ev \/ j = pu ev ->
    (foldl (put ts) (X j).1 (levels (bidArray ev) (bidCount ev)),
     foldl (put ts) (X j).2 (levels (askArray ev) (askCount ev))) = X (u ev);
  ev_slot : dropped ev = true -> slot ev < 0;
}.

(** A snapshot: at most 1000 levels a side, as requested, and the book at its id. *)
Definition snapshot_ok (s : Snapshot) : Prop := exists bs os, holds s bs os /\
  (length bs <= 1000)%nat /\ (length os <= 1000)%nat /\
  Forall (fun e => has_tick ts e /\ price e <> 0) bs /\ Forall (fun e => has_tick ts e /\ price e <> 0) os /\
  X (updateId s) = (foldl (put ts) ∅ bs, foldl (put ts) ∅ os).

Definition snapshots_ok : Prop := forall k s, shape s -> exists e s',
  fetchOrderbookSnapshot pair k s = Some (e, s') /\ shape s' /\ (getError e = false -> snapshot_ok s').

(** ** The invariant of the thread *)

Definition view_ok (v : View) : Prop := v_synced v = true ->
  side_ok ts (v_bids v) (X (v_updateID v)).1 /\ side_ok ts (v_asks v) (X (v_updateID v)).2.

Definition trace_ok (tr : list action) : Prop := forall v, Published v ∈ tr -> view_ok v.

Definition released (tr : list action) : list Z :=
  omap (fun a => match a with Released s => Some s | _ => None end) tr.

Definition slots_of (ev : OrderbookArrays) : list Z := if 0 <=? slot ev then [slot ev] else [].

Definition consumed (tr : list action) : list Z :=
  concat ((fun a => match a with Consumed ev => slots_of ev | _ => [] end) <$> tr).

(** [held]: the slots taken from the stream and not handed back yet. *)
Record inv (held : list Z) (o : OB) : Prop := {
  inv_books : exists mb ma, both ts o mb ma;
  inv_shape : shape (snapshot o);
  inv_events : Forall event_ok (events o);
  inv_trace : trace_ok (trace o);
  inv_slots : released (trace o) ++ held = consumed (trace o);
  inv_error : forall e, lastError o = Some e -> getError e = true;
  inv_silent : running o = false -> lastError o = None -> budget o = O;
}.

Definition aligned (o : OB) : Prop := both ts o (X (updateID o)).1 (X (updateID o)).2.

Definition le (o o' : OB) : Prop :=
  (budget o' <= budget o)%nat /\ (length (events o') <= length (events o))%nat.

Lemma le_refl o : le o o.
Proof. by split. Qed.
Lemma le_trans o1 o2 o3 : le o1 o2 -> le o2 o3 -> le o1 o3.
Proof. unfold le. lia. Qed.

Lemma released_snoc tr a : released (tr ++ [a]) = released tr ++ released [a].
Proof. unfold released. by rewrite omap_app. Qed.
Lemma consumed_snoc tr a : consumed (tr ++ [a]) = consumed tr ++ consumed [a].
Proof. unfold consumed. by rewrite fmap_app, concat_app. Qed.

(** Appending one action to the trace. *)
Lemma inv_log held held' o a : inv held o -> (forall v, a = Published v -> view_ok v) ->
  released [a] ++ held' = held ++ consumed [a] \/ (consumed [a] = [] /\ held = released [a] ++ held') ->
  inv held' (log o a).
Proof.
  intros [Hb Hs He Ht Hsl Her Hsi] Hv Hh. split; try done.
  - intros v [Hin|Hin%list_elem_of_singleton]%elem_of_app; [by apply Ht|]. by apply Hv.
  - change (released (trace o ++ [a]) ++ held' = consumed (trace o ++ [a])). rewrite released_snoc, consumed_snoc, <- Hsl, <- !app_assoc. f_equal.
    destruct Hh as [->|[-> ->]]; [done|]. by rewrite app_nil_r.
Qed.

Lemma inv_publish held o : inv held o -> view_ok (view o) -> inv held (publish o).
Proof. intros Hi Hv. eapply inv_log; [done| |]. - by intros v [= <-]. - left. cbn. by rewrite app_nil_r. Qed.

Lemma inv_synced held o x : inv held o -> (x = true -> aligned o) -> inv held (store_synced o x).
Proof.
  intros Hi Hx. apply inv_publish; [by destruct Hi|]. intros E. apply Hx, E.
Qed.

Lemma inv_stop held o e : inv held o -> getError e = true -> inv held (stop o e) /\ running (stop o e) = false.
Proof.
  intros Hi He. split; [|done]. unfold stop.
  assert (inv held (set_running o (running o) (Some e) (budget o))) as Hi1.
  { destruct Hi. split; try done. cbn. by intros e' [= <-]. }
  apply (inv_synced _ _ false) in Hi1; [|done]. destruct Hi1. split; done.
Qed.

Lemma load_running_spec held o o' alive : inv held o -> load_running o = (o', alive) ->
  inv held o' /\ (aligned o -> aligned o') /\ le o o' /\ calls o' = calls o /\ snapshot o' = snapshot o /\
  (if alive then (budget o' < budget o)%nat else running o' = false).
Proof.
  intros Hi. unfold load_running. destruct (running o) eqn:Er; [destruct (budget o) as [|n] eqn:Eb|]; intros [= <- <-].
  - split_and!; try done; [|split; cbn; lia]. destruct Hi. split; done.
  - split_and!; try done; [|split; cbn; lia|cbn; lia]. destruct Hi. split; done.
  - split_and!; try done.
Qed.

(** ** The pieces *)

Lemma spin_spec held fuel : forall o, inv held o -> (budget o < fuel)%nat ->
  exists o', spin streamEnd fuel o = Some o' /\ inv held o' /\ le o o' /\ running o' = false.
Proof.
  induction fuel as [|fuel IH]; intros o Hi Hf; [lia|]. cbn [spin].
  destruct (load_running o) as [o1 alive] eqn:El. destruct (load_running_spec _ _ _ _ Hi El) as (Hi1 & _ & Hle & _ & _ & Ha).
  destruct alive; cbn [negb]; [|by exists o1].
  destruct streamEnd as [m|].
  - destruct (inv_stop held o1 (FetchError_msg APIError_DISCONNECTED (default "Depth stream closed"%string m)) Hi1 eq_refl) as [Hi2 Hr].
    eexists. split_and!; [done|done|exact Hle|done].
  - destruct (IH o1 Hi1) as (o' & -> & Hi' & Hle' & Hr); [lia|]. exists o'. split_and!; try done. by eapply le_trans.
Qed.

Lemma nextUpdate_spec o : inv [] o ->
  exists o' next, nextUpdate streamEnd o = Some (o', next) /\ le o o' /\
    match next with
    | None => inv [] o' /\ running o' = false
    | Some ev => inv (slots_of ev) o' /\ event_ok ev /\ (aligned o -> aligned o') /\
                 (length (events o') < length (events o))%nat
    end.
Proof.
  intros Hi. unfold nextUpdate, waitForUpdate. destruct (events o) as [|ev evs] eqn:Ee.
  - destruct (spin_spec [] (S (budget o)) o Hi) as (o' & -> & Hi' & Hle & Hr); [lia|]. cbn. by exists o', None.
  - cbn [mbind option_bind negb]. rewrite Ee. eexists _, (Some ev). split; [done|].
    pose proof (inv_events _ _ Hi) as Hev. rewrite Ee in Hev. inversion Hev as [|? ? Hev1 Hev2]; subst.
    split_and!; [by split; cbn; rewrite ?Ee; cbn; lia| |done|done|cbn; lia].
    apply (inv_log []); [|done|left; cbn; by rewrite app_nil_r]. destruct Hi. by split.
Qed.

Lemma inv_release o ev : inv (slots_of ev) o -> inv [] (release_ o ev).
Proof.
  intros Hi. unfold release_, slots_of in *. destruct (0 <=? slot ev); [|done].
  apply (inv_log [slot ev]); [by destruct Hi|done|by right].
Qed.

Lemma release_frame o ev : (aligned o -> aligned (release_ o ev)) /\ le o (release_ o ev) /\
  events (release_ o ev) = events o /\ running (release_ o ev) = running o.
Proof. unfold release_. by destruct (0 <=? slot ev). Qed.

Lemma inv_set_books held o b a mb ma : inv held o -> both ts (set_books o b a) mb ma -> inv held (set_books o b a).
Proof. intros [] Hbo. split; try done. by exists mb, ma. Qed.

Lemma applyUpdate_spec held o ev : inv held o -> aligned o -> event_ok ev -> dropped ev = false ->
  U ev <= updateID o <= u ev \/ updateID o = pu ev ->
  exists o' r, applyUpdate o ev = Some (o', r) /\ inv held o' /\ le o o' /\ events o' = events o /\
    (r = true -> aligned o').
Proof.
  intros Hi Hbo [[Hcb Hca] [Htb Hta] Hfa _] Hdr Hj. unfold applyUpdate. change 0 with (Z.of_nat 0).
  destruct (apply_levels_spec ts true (deref (bidArray ev)) (Z.to_nat (bidCount ev)) 0 o _ _ Hbo ltac:(lia))
    as (b1 & a1 & r1 & mb1 & ma1 & -> & Hbo1 & Hr1); [by rewrite drop_0|]. cbn [mbind option_bind].
  pose proof (inv_set_books _ _ _ _ _ _ Hi Hbo1) as Hi1. destruct r1; cbn [negb].
  2: { eexists _, false. split_and!; [done| |by split|done|done].
       apply (inv_log held); [done|done|left; cbn; by rewrite app_nil_r]. }
  destruct (apply_levels_spec ts false (deref (askArray ev)) (Z.to_nat (askCount ev)) 0 _ mb1 ma1 Hbo1 ltac:(lia))
    as (b2 & a2 & r2 & mb2 & ma2 & -> & Hbo2 & Hr2); [by rewrite drop_0|]. cbn [mbind option_bind].
  pose proof (inv_set_books _ _ _ _ _ _ Hi1 Hbo2) as Hi2. destruct r2; cbn [negb].
  2: { eexists _, false. split_and!; [done| |by split|done|done].
       apply (inv_log held); [done|done|left; cbn; by rewrite app_nil_r]. }
  destruct (Hr1 eq_refl) as [-> ->], (Hr2 eq_refl) as [-> ->]. rewrite !drop_0 in Hbo2.
  specialize (Hfa Hdr _ Hj).
  assert (Hal : aligned (publish (set_updateID (set_books (set_books o b1 a1) b2 a2) (u ev)))).
  { unfold aligned. cbn [publish log updateID set_updateID]. rewrite <- Hfa. exact Hbo2. }
  eexists _, true. split_and!; [done| |by split|done|done].
  apply inv_publish; [by destruct Hi2|]. intros _. exact Hal.
Qed.

Lemma applySnapshot_spec o : inv [] o -> snapshot_ok (snapshot o) ->
  exists o', applySnapshot o = Some o' /\ inv [] o' /\ le o o' /\ aligned o'.
Proof.
  intros Hi (bs & os & Hh & Hlb & Hlo & Hb & Ho & HX). destruct (inv_books _ _ Hi) as (mb & ma & Hsb & Hsa).
  apply Forall_and in Hb as [Hb1 Hb2]. apply Forall_and in Ho as [Ho1 Ho2]. unfold applySnapshot.
  assert (Hbo : both ts (set_books o (clear (bidBook o)) (clear (askBook o))) ∅ ∅)
    by (split; by eapply side_clear).
  destruct (drain_spec ts true bs drain_fuel _ ∅ ∅ bs os Hbo Hh eq_refl) as (b1 & a1 & s1 & -> & Hbo1 & Hu1 & Hh1);
    [unfold drain_fuel, SNAPSHOT_CAPACITY; lia|done|done|rewrite map_size_empty; unfold MAX_BLOCKS; lia|].
  cbn [mbind option_bind].
  match goal with |- context [drain drain_fuel false ?o1] =>
    destruct (drain_spec ts false os drain_fuel o1 (foldl (put ts) ∅ bs) ∅ [] os Hbo1 Hh1 eq_refl)
    as (b2 & a2 & s2 & -> & Hbo2 & Hu2 & Hh2);
    [unfold drain_fuel, SNAPSHOT_CAPACITY; lia|done|done|rewrite map_size_empty; unfold MAX_BLOCKS; lia|]
  end.
  cbn [mbind option_bind set_snapshot set_books snapshot calls] in *. eexists. split; [done|].
  set (o' := set_updateID _ _).
  assert (Hal : aligned o').
  { unfold aligned, o'. cbn [updateID set_updateID set_snapshot snapshot]. rewrite Hu2, Hu1, HX. exact Hbo2. }
  split_and!; [|by split|exact Hal]. apply inv_publish; [|intros _; exact Hal].
  destruct Hi. split; try done; [by eexists _, _|apply Hh2].
Qed.

Section Contract.
Context (Hsnap : snapshots_ok).

Lemma inv_fetched o s n e : inv [] o -> shape s -> inv [] (log (set_snapshot o s n) (Fetched e)).
Proof.
  intros Hi Hs. apply (inv_log []); [|done|by left]. destruct Hi. by split.
Qed.

Lemma retry_spec n : forall att o err, inv [] o -> (getError err = false -> snapshot_ok (snapshot o)) ->
  exists o' err', retry pair n att o err = Some (o', err') /\ inv [] o' /\ le o o' /\
    (getError err' = false -> snapshot_ok (snapshot o')).
Proof.
  induction n as [|n IH]; intros att o err Hi Herr; cbn [retry]; [by exists o, err|].
  destruct (getError err) eqn:Eg; cbn [negb]; [|exists o, err; split_and!; try done; intros _; by apply Herr].
  destruct (load_running o) as [o1 alive] eqn:El.
  destruct (load_running_spec _ _ _ _ Hi El) as (Hi1 & _ & Hle & Hcalls & Hs & _).
  destruct alive; cbn [negb]; [|exists o1, err; split_and!; try done; congruence].
  assert (inv [] (log o1 (Slept (250 * att)))) as Hi2 by (by apply (inv_log []); [..|left]).
  destruct (Hsnap (calls (log o1 (Slept (250 * att)))) (snapshot (log o1 (Slept (250 * att)))))
    as (e & s & -> & Hsh & Hok); [apply (inv_shape _ _ Hi2)|]. cbn [mbind option_bind].
  destruct (IH (att + 1) _ e (inv_fetched _ s (S (calls (log o1 (Slept (250 * att))))) e Hi2 Hsh)) as (o' & err' & -> & Hi' & Hle' & Hok'); [done|].
  exists o', err'. split_and!; try done. eapply le_trans; [exact Hle|exact Hle'].
Qed.

Lemma resync_spec o : inv [] o ->
  exists o' err, resync pair o = Some (o', err) /\ inv [] o' /\ le o o' /\ (getError err = false -> aligned o').
Proof.
  intros Hi. unfold resync. pose proof (inv_synced [] o false Hi ltac:(done)) as Hi1.
  destruct (Hsnap (calls (store_synced o false)) (snapshot (store_synced o false))) as (e & s & -> & Hsh & Hok);
    [apply (inv_shape _ _ Hi1)|]. cbn [mbind option_bind].
  destruct (retry_spec (snapshotAttempts - 1) 1 _ e (inv_fetched _ s (S (calls (store_synced o false))) e Hi1 Hsh))
    as (o2 & err & -> & Hi2 & Hle2 & Hok2); [done|]. cbn [mbind option_bind].
  destruct (getError err) eqn:Eg; [exists o2, err; split_and!; try done; congruence|].
  destruct (applySnapshot_spec o2 Hi2 (Hok2 eq_refl)) as (o3 & -> & Hi3 & Hle3 & Hal).
  exists o3, (FetchError_of APIError_SUCCESS). split_and!; try done. eapply le_trans; [exact Hle2|exact Hle3].
Qed.

Lemma applyFirstUpdate_spec fuel : forall o, inv [] o -> aligned o -> (length (events o) < fuel)%nat ->
  exists o' ok, applyFirstUpdate streamEnd fuel o = Some (o', ok) /\ inv [] o' /\ le o o' /\ (ok = true -> aligned o').
Proof.
  induction fuel as [|fuel IH]; intros o Hi Hal Hf; [lia|]. cbn [applyFirstUpdate].
  destruct (nextUpdate_spec o Hi) as (o1 & [ev|] & -> & Hle1 & Hn); cbn [mbind option_bind]; [|exists o1, false; by destruct Hn].
  destruct Hn as (Hi1 & Hev & Hal1 & Hlt). specialize (Hal1 Hal).
  destruct (dropped ev) eqn:Ed.
  - exists o1, false. split_and!; try done. pose proof (ev_slot _ Hev Ed) as Hneg.
    unfold slots_of in Hi1. by replace (0 <=? slot ev) with false in Hi1 by zbool.
  - destruct (Z.ltb_spec (u ev) (updateID o1)) as [Hu|Hu].
    + destruct (release_frame o1 ev) as (Hra & Hrl & Hre & _).
      destruct (IH (release_ o1 ev)) as (o' & ok & -> & Hi' & Hle' & Hok);
        [by apply inv_release|by apply Hra|rewrite Hre; lia|].
      exists o', ok. split_and!; try done. eapply le_trans; [exact Hle1|]. by eapply le_trans.
    + destruct (Z.leb_spec (U ev) (updateID o1)) as [HU|HU].
      * destruct (applyUpdate_spec _ o1 ev Hi1 Hal1 Hev Ed) as (o2 & r & -> & Hi2 & Hle2 & _ & Hr); [left; lia|].
        cbn [mbind option_bind]. destruct (release_frame o2 ev) as (Hra & Hrl & _). exists (release_ o2 ev), r.
        split_and!; [done|by apply inv_release| |auto]. eapply le_trans; [exact Hle1|]. by eapply le_trans.
      * cbn [mbind option_bind]. destruct (release_frame o1 ev) as (_ & Hrl & _). exists (release_ o1 ev), false.
        split_and!; [done|by apply inv_release|by eapply le_trans|done].
Qed.

Lemma follow_spec fuel : forall o, inv [] o -> aligned o -> (length (events o) < fuel)%nat ->
  exists o', follow streamEnd fuel o = Some o' /\ inv [] o' /\ le o o'.
Proof.
  induction fuel as [|fuel IH]; intros o Hi Hal Hf; [lia|]. cbn [follow].
  destruct (nextUpdate_spec o Hi) as (o1 & [ev|] & -> & Hle1 & Hn); cbn [mbind option_bind]; [|exists o1; by destruct Hn].
  destruct Hn as (Hi1 & Hev & Hal1 & Hlt). specialize (Hal1 Hal).
  assert (exists o2 r, (if negb (dropped ev) && (pu ev =? updateID o1) then applyUpdate o1 ev else Some (o1, false)) = Some (o2, r) /\
    inv (slots_of ev) o2 /\ le o1 o2 /\ events o2 = events o1 /\ (r = true -> aligned o2)) as (o2 & r & -> & Hi2 & Hle2 & He2 & Hr).
  { destruct (dropped ev) eqn:Ed; cbn [negb andb]; [by exists o1, false|].
    destruct (Z.eqb_spec (pu ev) (updateID o1)) as [Hp|]; [|by exists o1, false].
    apply applyUpdate_spec; try done. by right. }
  cbn [mbind option_bind]. destruct (release_frame o2 ev) as (Hra & Hrl & Hre & _). destruct r.
  - destruct (IH (release_ o2 ev)) as (o' & -> & Hi' & Hle'); [by apply inv_release|by apply Hra, Hr|rewrite Hre, He2; lia|].
    exists o'. split_and!; try done. eapply le_trans; [exact Hle1|]. eapply le_trans; [exact Hle2|]. by eapply le_trans.
  - exists (release_ o2 ev). split_and!; [done|by apply inv_release|].
    eapply le_trans; [exact Hle1|]. by eapply le_trans.
Qed.

Lemma main_loop_spec fuel : forall failed o, inv [] o -> (budget o < fuel)%nat ->
  exists o', main_loop pair streamEnd fuel failed o = Some o' /\ inv [] o' /\ running o' = false.
Proof.
  induction fuel as [|fuel IH]; intros failed o Hi Hf; [lia|]. cbn [main_loop].
  destruct (load_running o) as [o1 alive] eqn:El.
  destruct (load_running_spec _ _ _ _ Hi El) as (Hi1 & _ & Hle1 & _ & _ & Ha).
  destruct alive; cbn [negb]; [|by exists o1].
  destruct (resync_spec o1 Hi1) as (o2 & err & -> & Hi2 & Hle2 & Hal2). cbn [mbind option_bind].
  destruct (getError err) eqn:Eg.
  { destruct (inv_stop [] o2 err Hi2 Eg) as [? ?]. by eexists. }
  destruct (applyFirstUpdate_spec (S (length (events o2))) o2 Hi2 (Hal2 eq_refl)) as (o3 & ok & -> & Hi3 & Hle3 & Hal3); [lia|].
  cbn [mbind option_bind]. destruct ok; cbn [negb].
  - pose proof (inv_synced [] o3 true Hi3 Hal3) as Hi4.
    destruct (follow_spec (S (length (events o3))) (store_synced o3 true) Hi4 (Hal3 eq_refl)) as (o5 & -> & Hi5 & Hle5);
      [cbn; lia|]. cbn [mbind option_bind]. apply IH; [done|]. destruct Hle2, Hle3, Hle5 as [Hb _]. cbn in Hb. lia.
  - destruct (load_running o3) as [o4 alive] eqn:El4.
    destruct (load_running_spec _ _ _ _ Hi3 El4) as (Hi4 & _ & Hle4 & _ & _ & Ha4).
    destruct alive; cbn [negb]; [|by exists o4].
    destruct (failed + 1 =? maxFailedSyncs).
    + edestruct (inv_stop [] o4) as [? ?]; [done| |by eexists]. done.
    + apply IH; [done|]. destruct Hle2, Hle3. lia.
Qed.
End Contract.

(** The exchange info gives a tick size. *)
Definition tickSize_ok : Prop := exists e info,
  fetchExchangeInfoForPair (toupper pair) PairInfo_zero = (e, info) /\ getError e = false /\
  pairTickSize info = ts /\ 0 < ts.

Lemma new_orderbook_inv i h evs n : Forall event_ok evs -> tickSize_ok ->
  exists o, loadTickSize pair (new_orderbook i h evs n) = (o, FetchError_of APIError_SUCCESS) /\ inv [] o /\
    budget o = n /\ events o = evs.
Proof.
  intros Hevs (e & info & Hf & He & Hts & Hpos). unfold loadTickSize. rewrite Hf, He.
  replace (pairTickSize info <=? 0) with false by zbool. eexists. split_and!; [done| |done|done].
  split; try done.
  - exists ∅, ∅. split; (split; [apply repr_setTickSize, repr_new|done]).
  - intros v Hv. cbn in Hv. set_solver.
Qed.

Lemma executionLoop_spec i h evs n : snapshots_ok -> Forall event_ok evs -> tickSize_ok ->
  exists o, executionLoop pair streamEnd (new_orderbook i h evs n) = Some o /\ inv [] o /\ running o = false.
Proof.
  intros Hsnap Hevs Hts. unfold executionLoop.
  destruct (new_orderbook_inv i h evs n Hevs Hts) as (o & -> & Hi & Hb & He). cbn [getError FetchError_of error].
  change (getError (FetchError_of APIError_SUCCESS)) with false. cbn iota. unfold waitForUpdate.
  destruct (events o) as [|ev evs'] eqn:Ee.
  - destruct (spin_spec [] (S (budget o)) o Hi) as (o' & -> & Hi' & _ & Hr); [lia|]. by exists o'.
  - cbn [mbind option_bind negb]. apply main_loop_spec; [done|done|lia].
Qed.

End Thread.

(** ** Properties *)



(** ** A concrete environment

    An exchange with one level per side at id 10, whose bid is removed at id 11. *)
Section Demo.

Definition demo_bid : Entry := {| price := 1000; volume := 5 |}.
Definition demo_ask : Entry := {| price := 1010; volume := 7 |}.
Definition demo_event : OrderbookArrays :=
  {| bidArray := Some [{| price := 1000; volume := 0 |}]; askArray := Some []; slot := 0;
     bidCount := 1; askCount := 0; u := 11; U := 9; pu := 8 |}.

Definition demo_X (n : Z) : gmap Z Entry * gmap Z Entry :=
  let m := (foldl (put 10) ∅ [demo_bid], foldl (put 10) ∅ [demo_ask]) in
  if n <=? 10 then m else (foldl (put 10) m.1 [{| price := 1000; volume := 0 |}], m.2).

Definition demo_api : FuturesAPI := {|
  fetchOrderbookSnapshot _ _ s :=
    s1 ← registerEntry (reset s) 1000 5 true;
    s2 ← registerEntry s1 1010 7 false;
    Some (FetchError_of APIError_SUCCESS, set_updateId s2 10);
  fetchExchangeInfoForPair _ info :=
    (FetchError_of APIError_SUCCESS,
     {| minNotional := 0; maxPrice := 0; minPrice := 0; pairTickSize := 10;
        maxQuantity := 0; minQuantity := 0; stepsize := 0 |});
|}.

Lemma demo_snapshots : @snapshots_ok demo_api "btcusdt" 10 demo_X.
Proof.
  intros k s Hs. cbn [fetchOrderbookSnapshot demo_api]. pose proof (holds_reset s Hs) as H0.
  destruct (registerEntry_holds (reset s) [] [] 1000 5 true H0 eq_refl) as (s1 & -> & _ & Hl1 & _ & H1). cbn [mbind option_bind].
  destruct (registerEntry_holds s1 _ _ 1010 7 false H1 Hl1) as (s2 & -> & _ & _ & _ & H2). cbn [mbind option_bind].
  eexists _, _. split_and!; [done|apply (h_shape _ _ _ H2)|]. intros _.
  exists [demo_bid], [demo_ask]. split_and!; [|cbn; lia|cbn; lia| | |done].
  - destruct H2 as [[? ?] ? ? ? ?]. split; done.
  - repeat constructor; [|done]. eexists. vm_compute. reflexivity.
  - repeat constructor; [|done]. eexists. vm_compute. reflexivity.
Qed.

Lemma demo_event_ok : event_ok 10 demo_X demo_event.
Proof.
  split; try done.
  - split; repeat constructor; eexists; vm_compute; reflexivity.
  - intros _ j Hj. cbn [U u pu demo_event] in Hj. unfold demo_X.
    destruct (Z.leb_spec j 10); vm_compute; reflexivity.
Qed.

Lemma demo_tickSize : @tickSize_ok demo_api "btcusdt" 10.
Proof. eexists _, _. split_and!; [done|done|done|lia]. Qed.

End Demo.

(** The run: the snapshot, the first event that straddles it, then shutdown. *)
Example orderbook_demo :
  (o ← @executionLoop demo_api "btcusdt" None (new_orderbook 0 new_holder [demo_event] 3);
   b ← getTopBids o 5; a ← getTopAsks o 5;
   Some (b, a, updateID o, synced o, running o)) = Some ([], [demo_ask], 11, true, false).
Proof. vm_compute. reflexivity. Qed.


