(* ===== verification/RingBuffer.v ===== *)
(** * RingBuffer: the ticketed ring buffer, one thread at a time

    Models [class AtomicRingBuffer] of [AstraLib/Buffers/atomicRingBuffer.hpp] and
    [ThreadSafeIndexPool] on top of it, as run by a single thread: [None] is a spin that
    no other thread would end, or an access out of bounds. RingConc has the
    interleavings. The buffer refines a FIFO queue of capacity [SIZE].

    Tickets are [int64_t] counters that only grow; they are unbounded here, so the
    results hold for the first [2^63] operations. *)

From S2P Require Import Prelude.

(** [Slot<A>]: the sequence number and the payload. *)
Record Slot (A : Type) := { seq : Z; data : A }.
Arguments seq {A} _.
Arguments data {A} _.

Record RingBuffer (A : Type) := {
  buffer : list (Slot A);
  writeTicket : Z;
  readTicket : Z;
}.
Arguments buffer {A} _.
Arguments writeTicket {A} _.
Arguments readTicket {A} _.

Section Ring.
  Context {A : Type} (SIZE : Z).

Definition index (ticket : Z) : Z := Z.land ticket (SIZE - 1).

Definition prepareBuffer (bf : list (Slot A)) : list (Slot A) :=
  imap (fun i s => {| seq := Z.of_nat i; data := data s |}) bf.

(** The constructor, from the payloads' initial values. *)
Definition new_ring (datas : list A) : RingBuffer A :=
  {| buffer := prepareBuffer ((fun a => {| seq := 0; data := a |}) <$> datas); writeTicket := 0; readTicket := 0 |}.

(** [while(seq.load() != x)]: alone, the loop ends at once or never. *)
Definition await (bf : list (Slot A)) (i x : Z) : option (Slot A) :=
  s ← aget bf i; if seq s =? x then Some s else None.

Definition enqueue (r : RingBuffer A) (a : A) : option (RingBuffer A) :=
  let ticket := writeTicket r in
  let i := index ticket in
  _ ← await (buffer r) i ticket;
  bf ← aset (buffer r) i {| seq := ticket + 1; data := a |};
  Some {| buffer := bf; writeTicket := ticket + 1; readTicket := readTicket r |}.

(** [emplaceEnqueue]: the payload is destroyed and constructed in place. *)
Definition emplaceEnqueue (r : RingBuffer A) (a : A) : option (RingBuffer A) :=
  let ticket := writeTicket r in
  let i := index ticket in
  _ ← await (buffer r) i ticket;
  bf ← aset (buffer r) i {| seq := ticket + 1; data := a |};
  Some {| buffer := bf; writeTicket := ticket + 1; readTicket := readTicket r |}.

(** The payload stays in the slot: moving out of the types used here copies. *)
Definition dequeue (r : RingBuffer A) : option (RingBuffer A * A) :=
  let ticket := readTicket r in
  let i := index ticket in
  s ← await (buffer r) i (ticket + 1);
  bf ← aset (buffer r) i {| seq := ticket + SIZE; data := data s |};
  Some ({| buffer := bf; writeTicket := writeTicket r; readTicket := ticket + 1 |}, data s).

Definition clearBuffer (r : RingBuffer A) : RingBuffer A :=
  {| buffer := prepareBuffer (buffer r); writeTicket := 0; readTicket := 0 |}.

(** Alone, the reloaded ticket is the same one: [diff > 0] would loop for ever. *)
Definition tryEnqueue (r : RingBuffer A) (a : A) : option (RingBuffer A * bool) :=
  let ticket := writeTicket r in
  s ← aget (buffer r) (index ticket);
  let diff := seq s - ticket in
  if diff =? 0 then
    bf ← aset (buffer r) (index ticket) {| seq := ticket + 1; data := a |};
    Some ({| buffer := bf; writeTicket := ticket + 1; readTicket := readTicket r |}, true)
  else if diff <? 0 then Some (r, false) else None.

(** The inner option is [out] when the function returns true. *)
Definition tryDequeue (r : RingBuffer A) : option (RingBuffer A * option A) :=
  let ticket := readTicket r in
  s ← aget (buffer r) (index ticket);
  let diff := seq s - (ticket + 1) in
  if diff =? 0 then
    bf ← aset (buffer r) (index ticket) {| seq := ticket + SIZE; data := data s |};
    Some ({| buffer := bf; writeTicket := writeTicket r; readTicket := ticket + 1 |}, Some (data s))
  else if diff <? 0 then Some (r, None) else None.

(** The first [count] cells of [batchDequeueArray] after the call. *)
Fixpoint batch_loop (n : nat) (r : RingBuffer A) : option (RingBuffer A * list A) :=
  match n with
  | O => Some (r, [])
  | S n' => '(r1, a) ← dequeue r; '(r2, l) ← batch_loop n' r1; Some (r2, a :: l)
  end.

(** The comparison is between an [int] and a [size_t], so a negative count is a huge one. *)
Definition batchDequeue (BATCH_SIZE : Z) (r : RingBuffer A) (count : Z) : option (RingBuffer A * list A) :=
  let count := if BATCH_SIZE <? count mod 2 ^ 64 then BATCH_SIZE else count in
  batch_loop (Z.to_nat count) r.

Definition claimPtrNoSync (r : RingBuffer A) (i : Z) : option A := s ← aget (buffer r) i; Some (data s).

Definition approxSize (r : RingBuffer A) : Z :=
  let rd := readTicket r in let wr := writeTicket r in
  if wr <=? rd then 0 else let size := wr - rd in if SIZE <? size then SIZE else size.

Definition isEmpty (r : RingBuffer A) : bool := writeTicket r =? readTicket r.

End Ring.

(** ** The queue the ring holds *)

Section Spec.
  Context {A : Type} (k : Z) (Hk : 1 <= k).
Let SIZE : Z := 2 ^ k.
  Implicit Types (r : RingBuffer A) (q : list A).

Lemma SIZE_ge : 2 <= SIZE.
Proof. unfold SIZE. pose proof (Z.pow_le_mono_r 2 1 k). lia. Qed.

Lemma index_mod t : index SIZE t = t mod SIZE.
Proof.
  unfold index, SIZE. replace (2 ^ k - 1) with (Z.ones k) by (rewrite Z.ones_equiv; lia).
  apply Z.land_ones. lia.
Qed.

Lemma index_range t : 0 <= index SIZE t < SIZE.
Proof. rewrite index_mod. pose proof SIZE_ge. apply Z.mod_pos_bound. lia. Qed.

(** Within one lap two tickets share a slot only if they are equal. *)
Lemma index_inj t1 t2 : index SIZE t1 = index SIZE t2 -> - SIZE < t1 - t2 < SIZE -> t1 = t2.
Proof.
  rewrite !index_mod. pose proof SIZE_ge. intros E Hd.
  pose proof (Z.div_mod t1 SIZE ltac:(lia)). pose proof (Z.div_mod t2 SIZE ltac:(lia)).
  assert (t1 / SIZE - t2 / SIZE = 0); nia.
Qed.

Lemma index_lap t : index SIZE (t + SIZE) = index SIZE t.
Proof.
  rewrite !index_mod. pose proof SIZE_ge. replace (t + SIZE) with (t + 1 * SIZE) by lia. apply Z.mod_add. lia.
Qed.

(** [holds r q]: the queue is [q], oldest first. Slots of queued tickets are readable,
    the next [SIZE - length q] tickets find their slot writable. *)
Record holds r q : Prop := {
  h_length : Z.of_nat (length (buffer r)) = SIZE;
  h_tickets : 0 <= readTicket r /\ writeTicket r = readTicket r + Z.of_nat (length q);
  h_cap : Z.of_nat (length q) <= SIZE;
  h_full : forall j a, q !! j = Some a ->
    aget (buffer r) (index SIZE (readTicket r + Z.of_nat j)) = Some {| seq := readTicket r + Z.of_nat j + 1; data := a |};
  h_free : forall j, Z.of_nat (length q) <= j < SIZE -> exists a,
    aget (buffer r) (index SIZE (readTicket r + j)) = Some {| seq := readTicket r + j; data := a |};
}.

Lemma holds_push r q a : holds r q -> Z.of_nat (length q) < SIZE ->
  exists bf, aset (buffer r) (index SIZE (writeTicket r)) {| seq := writeTicket r + 1; data := a |} = Some bf /\
    holds {| buffer := bf; writeTicket := writeTicket r + 1; readTicket := readTicket r |} (q ++ [a]).
Proof.
  intros [Hl [Ht0 Ht] Hc Hf Hfr] Hlt. pose proof (index_range (writeTicket r)).
  assert (exists bf, aset (buffer r) (index SIZE (writeTicket r)) {| seq := writeTicket r + 1; data := a |} = Some bf) as [bf Hbf]
    by (eexists; apply aset_in_range; lia).
  exists bf. split; [done|]. split; cbn [buffer writeTicket readTicket].
  - by rewrite (aset_length _ _ _ _ Hbf).
  - rewrite length_app. cbn. lia.
  - rewrite length_app. cbn. lia.
  - intros j x Hj. apply lookup_app_Some in Hj as [Hj|[Hge Hj]].
    + pose proof (lookup_lt_Some _ _ _ Hj). rewrite (aget_aset_ne _ _ _ _ _ Hbf); [by apply Hf|].
      intros E. apply index_inj in E; lia.
    + apply list_lookup_singleton_Some in Hj as [Hj ->].
      replace (readTicket r + Z.of_nat j) with (writeTicket r) by lia. by apply (aget_aset_eq _ _ _ _ Hbf).
  - intros j Hj. rewrite length_app in Hj. cbn in Hj.
    rewrite (aget_aset_ne _ _ _ _ _ Hbf); [apply Hfr; lia|]. intros E. apply index_inj in E; lia.
Qed.

Lemma holds_pop r q a : holds r (a :: q) ->
  exists bf, aset (buffer r) (index SIZE (readTicket r)) {| seq := readTicket r + SIZE; data := a |} = Some bf /\
    holds {| buffer := bf; writeTicket := writeTicket r; readTicket := readTicket r + 1 |} q.
Proof.
  intros [Hl [Ht0 Ht] Hc Hf Hfr]. cbn [length] in *. pose proof (index_range (readTicket r)). pose proof SIZE_ge.
  assert (exists bf, aset (buffer r) (index SIZE (readTicket r)) {| seq := readTicket r + SIZE; data := a |} = Some bf) as [bf Hbf]
    by (eexists; apply aset_in_range; lia).
  exists bf. split; [done|]. split; cbn [buffer writeTicket readTicket]; [|lia|lia| |].
  - by rewrite (aset_length _ _ _ _ Hbf).
  - intros j x Hj. pose proof (lookup_lt_Some _ _ _ Hj).
    replace (readTicket r + 1 + Z.of_nat j) with (readTicket r + Z.of_nat (S j)) by lia.
    rewrite (aget_aset_ne _ _ _ _ _ Hbf); [by apply Hf|]. intros E. apply index_inj in E; lia.
  - intros j Hj. destruct (Z.eq_dec (j + 1) SIZE) as [E|Hne].
    + exists a. replace (readTicket r + 1 + j) with (readTicket r + SIZE) by lia. rewrite index_lap.
      by apply (aget_aset_eq _ _ _ _ Hbf).
    + replace (readTicket r + 1 + j) with (readTicket r + (j + 1)) by lia.
      rewrite (aget_aset_ne _ _ _ _ _ Hbf); [apply Hfr; lia|]. intros E. apply index_inj in E; lia.
Qed.

Lemma holds_head r q : holds r q ->
  exists s, aget (buffer r) (index SIZE (readTicket r)) = Some s /\
    match q with [] => seq s = readTicket r | a :: _ => s = {| seq := readTicket r + 1; data := a |} end.
Proof.
  intros [Hl Ht Hc Hf Hfr]. pose proof SIZE_ge. destruct q as [|a q].
  - destruct (Hfr 0) as [a Ha]; [cbn; lia|]. rewrite Z.add_0_r in Ha. by eexists.
  - specialize (Hf O a eq_refl). rewrite Z.add_0_r in Hf. by eexists.
Qed.

(** The slot of the next write: free, or holding the oldest item. *)
Lemma holds_tail r q : holds r q ->
  exists s, aget (buffer r) (index SIZE (writeTicket r)) = Some s /\
    (if Z.of_nat (length q) =? SIZE then seq s = writeTicket r + 1 - SIZE else seq s = writeTicket r).
Proof.
  intros Hh. pose proof (holds_head r q Hh) as (s & Hs & Hq). destruct Hh as [Hl [Ht0 Ht] Hc Hf Hfr]. pose proof SIZE_ge.
  destruct (Z.eqb_spec (Z.of_nat (length q)) SIZE) as [E|Hne].
  - exists s. replace (writeTicket r) with (readTicket r + SIZE) by lia. rewrite index_lap. split; [done|].
    destruct q as [|a q]; [cbn in E; lia|]. rewrite Hq. cbn. lia.
  - destruct (Hfr (Z.of_nat (length q))) as [a Ha]; [lia|]. rewrite <- Ht in Ha. by eexists.
Qed.

Lemma enqueue_holds r q a : holds r q -> Z.of_nat (length q) < SIZE ->
  exists r', enqueue SIZE r a = Some r' /\ holds r' (q ++ [a]).
Proof.
  intros Hh Hlt. destruct (holds_tail r q Hh) as (s & Hs & Hseq). replace (Z.of_nat (length q) =? SIZE) with false in Hseq by zbool.
  destruct (holds_push r q a Hh Hlt) as (bf & Hbf & Hh').
  unfold enqueue, await. rewrite Hs. cbn [mbind option_bind]. rewrite Hseq, Z.eqb_refl. cbn [mbind option_bind].
  rewrite Hbf. cbn [mbind option_bind]. by eexists.
Qed.

Lemma enqueue_full r q a : holds r q -> SIZE <= Z.of_nat (length q) -> enqueue SIZE r a = None.
Proof.
  intros Hh Hge. destruct (holds_tail r q Hh) as (s & Hs & Hseq). pose proof (h_cap _ _ Hh). pose proof SIZE_ge.
  replace (Z.of_nat (length q) =? SIZE) with true in Hseq by zbool.
  unfold enqueue, await. rewrite Hs. cbn [mbind option_bind]. by replace (seq s =? writeTicket r) with false by zbool.
Qed.

Lemma holds_clear r : Z.of_nat (length (buffer r)) = SIZE -> holds (clearBuffer r) [].
Proof.
  intros Hl. pose proof SIZE_ge. split; cbn [clearBuffer buffer writeTicket readTicket length]; try lia.
  - unfold prepareBuffer. by rewrite length_imap.
  - done.
  - intros j Hj. rewrite Z.add_0_l, index_mod, Z.mod_small by (cbn in Hj; lia).
    destruct (aget_in_range (buffer r) j) as [s Hs]; [cbn in Hj; lia|]. exists (data s).
    unfold aget in *. destruct (j <? 0) eqn:E; [done|]. unfold prepareBuffer. rewrite list_lookup_imap, Hs. cbn.
    f_equal. f_equal. apply Z.ltb_ge in E. lia.
Qed.

Lemma holds_new_ring (datas : list A) : Z.of_nat (length datas) = SIZE -> holds (new_ring datas) [].
Proof.
  intros Hl. refine (holds_clear {| buffer := (fun a : A => {| seq := 0; data := a |}) <$> datas; writeTicket := 0; readTicket := 0 |} _).
  cbn. by rewrite length_fmap.
Qed.

(** C37 The ring buffer, run by one thread, is a FIFO queue of capacity [SIZE]: with
    queue [q], [enqueue] appends if there is room and would spin for ever otherwise,
    [dequeue] takes the oldest item or would spin on an empty queue, the [try] variants
    report full and empty instead, and the size queries are exact. *)
Theorem ring_is_fifo r q : holds r q ->
  (forall a, if Z.of_nat (length q) <? SIZE
     then exists r', enqueue SIZE r a = Some r' /\ tryEnqueue SIZE r a = Some (r', true) /\ holds r' (q ++ [a])
     else enqueue SIZE r a = None /\ tryEnqueue SIZE r a = Some (r, false)) /\
  match q with
  | [] => dequeue SIZE r = None /\ tryDequeue SIZE r = Some (r, None)
  | a :: q' => exists r', dequeue SIZE r = Some (r', a) /\ tryDequeue SIZE r = Some (r', Some a) /\ holds r' q'
  end /\
  approxSize SIZE r = Z.of_nat (length q) /\ isEmpty r = bool_decide (q = []).
Proof.
  intros Hh. pose proof (h_tickets _ _ Hh) as [Ht0 Ht]. pose proof (h_cap _ _ Hh). pose proof SIZE_ge. split_and!.
  - intros a. destruct (holds_tail r q Hh) as (s & Hs & Hseq). unfold enqueue, tryEnqueue, await. rewrite Hs. cbn [mbind option_bind].
    destruct (Z.ltb_spec (Z.of_nat (length q)) SIZE) as [Hlt|Hge].
    + replace (Z.of_nat (length q) =? SIZE) with false in Hseq by zbool. rewrite Hseq, Z.eqb_refl, Z.sub_diag. cbn [mbind option_bind Z.eqb].
      destruct (holds_push r q a Hh Hlt) as (bf & -> & Hh'). cbn. by eexists.
    + replace (Z.of_nat (length q) =? SIZE) with true in Hseq by zbool. rewrite Hseq.
      replace (writeTicket r + 1 - SIZE =? writeTicket r) with false by zbool.
      replace (writeTicket r + 1 - SIZE - writeTicket r =? 0) with false by zbool.
      by replace (writeTicket r + 1 - SIZE - writeTicket r <? 0) with true by zbool.
  - destruct (holds_head r q Hh) as (s & Hs & Hq). unfold dequeue, tryDequeue, await. rewrite Hs. cbn [mbind option_bind].
    destruct q as [|a q'].
    + rewrite Hq. replace (readTicket r =? readTicket r + 1) with false by zbool.
      replace (readTicket r - (readTicket r + 1) =? 0) with false by zbool.
      by replace (readTicket r - (readTicket r + 1) <? 0) with true by zbool.
    + subst s. cbn [seq data]. rewrite Z.eqb_refl, Z.sub_diag. cbn [mbind option_bind Z.eqb data].
      destruct (holds_pop r q' a Hh) as (bf & -> & Hh'). cbn. by eexists.
  - unfold approxSize. rewrite Ht. zbool.
  - unfold isEmpty. rewrite Ht. case_bool_decide as E; [subst; cbn; zbool|].
    destruct q; [done|]. cbn. zbool.
Qed.

(** [batchDequeue] takes the oldest [count] items, at most [BATCH_SIZE]. *)
Lemma batch_loop_fifo n : forall r q, holds r q -> (n <= length q)%nat ->
  exists r', batch_loop SIZE n r = Some (r', take n q) /\ holds r' (drop n q).
Proof.
  induction n as [|n IH]; intros r q Hh Hn; [exists r; by rewrite take_0, drop_0|].
  destruct q as [|a q]; [cbn in Hn; lia|]. cbn [batch_loop].
  destruct (holds_head r (a :: q) Hh) as (s & Hs & ->). unfold dequeue, await. rewrite Hs. cbn [mbind option_bind seq].
  rewrite Z.eqb_refl. cbn [mbind option_bind data].
  destruct (holds_pop r q a Hh) as (bf & -> & Hh'). cbn [mbind option_bind].
  destruct (IH _ q Hh') as (r' & -> & Hr'); [cbn in Hn; lia|]. by exists r'.
Qed.
End Spec.

(** ** [ThreadSafeIndexPool] *)

Section Pool.
  Context (SIZE : Z).

Fixpoint enqueue_all (r : RingBuffer Z) (l : list Z) : option (RingBuffer Z) :=
  match l with [] => Some r | a :: l' => r' ← enqueue SIZE r a; enqueue_all r' l' end.

Definition initializeIndexes (r : RingBuffer Z) : option (RingBuffer Z) := enqueue_all r (seqZ 0 SIZE).
Definition new_pool (datas : list Z) : option (RingBuffer Z) := initializeIndexes (new_ring datas).
Definition getIndex (r : RingBuffer Z) : option (RingBuffer Z * Z) := dequeue SIZE r.
Definition returnIndex (r : RingBuffer Z) (i : Z) : option (RingBuffer Z) := enqueue SIZE r i.
Definition reInitializePool (r : RingBuffer Z) : option (RingBuffer Z) := initializeIndexes (clearBuffer r).
End Pool.

Lemma enqueue_all_holds k l : 1 <= k -> forall r q, holds k r q -> Z.of_nat (length q) + Z.of_nat (length l) <= 2 ^ k ->
  exists r', enqueue_all (2 ^ k) r l = Some r' /\ holds k r' (q ++ l).
Proof.
  intros Hk. induction l as [|a l IH]; intros r q Hh Hlen; cbn [enqueue_all length] in *.
  - exists r. by rewrite app_nil_r.
  - destruct (enqueue_holds k Hk r q a Hh) as (r1 & -> & Hh'); [lia|]. cbn [mbind option_bind].
    destruct (IH _ (q ++ [a]) Hh') as (r' & -> & Hr'); [rewrite length_app; cbn; lia|].
    exists r'. by rewrite <- app_assoc in Hr'.
Qed.

(** A pool built or re-initialised from any state holds every index once, in order,
    without blocking. *)
Theorem pool_reinitialised k r : 1 <= k -> Z.of_nat (length (buffer r)) = 2 ^ k ->
  exists r', reInitializePool (2 ^ k) r = Some r' /\ holds k r' (seqZ 0 (2 ^ k)).
Proof.
  intros Hk Hl. assert (0 < 2 ^ k) by (apply Z.pow_pos_nonneg; lia). unfold reInitializePool, initializeIndexes.
  destruct (enqueue_all_holds k (seqZ 0 (2 ^ k)) Hk (clearBuffer r) []) as (r' & -> & Hr').
  - by apply holds_clear.
  - rewrite length_seqZ. cbn. lia.
  - by exists r'.
Qed.

Lemma pool_reinitialised_witness :
  exists r', reInitializePool 4 (new_ring [0; 0; 0; 0]) = Some r' /\ holds 2 r' [0; 1; 2; 3].
Proof. exact (pool_reinitialised 2 (new_ring [0; 0; 0; 0]) ltac:(lia) eq_refl). Defined.

Lemma ring_is_fifo_witness :
  exists r', dequeue 2 (clearBuffer (new_ring [0; 0])) = None /\
    enqueue 2 (clearBuffer (new_ring [0; 0])) 7 = Some r' /\ holds 1 r' [7].
Proof.
  assert (holds 1 (clearBuffer (new_ring [0; 0])) []) as Hh by (apply holds_clear; [lia|reflexivity]).
  destruct (ring_is_fifo 1 ltac:(lia) (clearBuffer (new_ring [0; 0])) [] Hh) as (He & [Hd _] & _).
  specialize (He 7). destruct He as (r' & He & _ & Hr'). exists r'. split_and!; [exact Hd|exact He|exact Hr'].
Defined.
