(* ===== verification/RingConc.v ===== *)
(** * RingConc: the ring buffer under every interleaving

    The same class as RingBuffer, as a step relation: any number of threads run
    [enqueue], [dequeue], [tryEnqueue] and [tryDequeue], one atomic access or payload
    access per step. A thread is at a [pc]; a spin is a step that is not enabled yet.
    Relaxed loads of a ticket may return any earlier value. [inn] and [out] are ghosts:
    the value each write ticket carries and what each read ticket obtained. *)

From S2P Require Import Prelude RingBuffer.

Inductive pc (A : Type) :=
  | PWait (t : Z) (a : A)    (** enqueue: ticket taken, spinning on the slot *)
  | PWrite (t : Z) (a : A)   (** slot seen free, payload not written yet *)
  | PDone (t : Z)            (** payload written, [seq] not stored yet *)
  | TPLoad (t : Z) (a : A)   (** tryEnqueue: ticket loaded, not taken *)
  | TPSeen (t : Z) (a : A)   (** [diff == 0] seen, exchange not done *)
  | CWait (t : Z)            (** dequeue: ticket taken, spinning *)
  | CRead (t : Z)            (** slot seen full, payload not read yet *)
  | CMoved (t : Z) (a : A)   (** payload moved out, [seq] not stored yet *)
  | TCLoad (t : Z)           (** tryDequeue: ticket loaded *)
  | TCSeen (t : Z).          (** [diff == 0] seen *)
Arguments PWait {A} _ _.
Arguments PWrite {A} _ _.
Arguments PDone {A} _.
Arguments TPLoad {A} _ _.
Arguments TPSeen {A} _ _.
Arguments CWait {A} _.
Arguments CRead {A} _.
Arguments CMoved {A} _ _.
Arguments TCLoad {A} _.
Arguments TCSeen {A} _.

Record st (A : Type) := St {
  sq : Z -> Z;               (** [buffer[i].seq] *)
  dat : Z -> option A;       (** [buffer[i].data], [None] before the first write *)
  wt : Z;
  rt : Z;
  thr : gmap nat (pc A);
  inn : gmap Z A;
  out : list (Z * A);
}.
Arguments St {A} _ _ _ _ _ _ _.
Arguments sq {A} _ _.
Arguments dat {A} _ _.
Arguments wt {A} _.
Arguments rt {A} _.
Arguments thr {A} _.
Arguments inn {A} _.
Arguments out {A} _.

Definition upd {B : Type} (f : Z -> B) (i : Z) (x : B) : Z -> B := fun j => if j =? i then x else f j.

Section Conc.
  Context {A : Type} (SIZE : Z).
  Notation ix := (index SIZE).

Definition init : st A := St (fun i => i) (fun _ => None) 0 0 ∅ ∅ [].

Definition goto (s : st A) (i : nat) (p : pc A) : st A :=
  St (sq s) (dat s) (wt s) (rt s) (<[i := p]> (thr s)) (inn s) (out s).

Inductive step : st A -> st A -> Prop :=
  (** [enqueue] *)
  | enq_take s i a : thr s !! i = None ->
      step s (St (sq s) (dat s) (wt s + 1) (rt s) (<[i := PWait (wt s) a]> (thr s)) (<[wt s := a]> (inn s)) (out s))
  | enq_see s i t a : thr s !! i = Some (PWait t a) -> sq s (ix t) = t -> step s (goto s i (PWrite t a))
  | enq_write s i t a : thr s !! i = Some (PWrite t a) ->
      step s (St (sq s) (upd (dat s) (ix t) (Some a)) (wt s) (rt s) (<[i := PDone t]> (thr s)) (inn s) (out s))
  | enq_publish s i t : thr s !! i = Some (PDone t) ->
      step s (St (upd (sq s) (ix t) (t + 1)) (dat s) (wt s) (rt s) (delete i (thr s)) (inn s) (out s))
  (** [tryEnqueue] *)
  | tpush_load s i t a : thr s !! i = None -> 0 <= t <= wt s -> step s (goto s i (TPLoad t a))
  | tpush_see s i t a : thr s !! i = Some (TPLoad t a) -> sq s (ix t) - t = 0 -> step s (goto s i (TPSeen t a))
  | tpush_full s i t a : thr s !! i = Some (TPLoad t a) -> sq s (ix t) - t < 0 ->
      step s (St (sq s) (dat s) (wt s) (rt s) (delete i (thr s)) (inn s) (out s))
  | tpush_reload s i t a t' : thr s !! i = Some (TPLoad t a) -> 0 < sq s (ix t) - t -> 0 <= t' <= wt s ->
      step s (goto s i (TPLoad t' a))
  | tpush_cas s i t a : thr s !! i = Some (TPSeen t a) -> wt s = t ->
      step s (St (sq s) (dat s) (t + 1) (rt s) (<[i := PWrite t a]> (thr s)) (<[t := a]> (inn s)) (out s))
  | tpush_fail s i t a : thr s !! i = Some (TPSeen t a) -> step s (goto s i (TPLoad (wt s) a))
  (** [dequeue] *)
  | deq_take s i : thr s !! i = None ->
      step s (St (sq s) (dat s) (wt s) (rt s + 1) (<[i := CWait (rt s)]> (thr s)) (inn s) (out s))
  | deq_see s i t : thr s !! i = Some (CWait t) -> sq s (ix t) = t + 1 -> step s (goto s i (CRead t))
  | deq_move s i t a : thr s !! i = Some (CRead t) -> dat s (ix t) = Some a -> step s (goto s i (CMoved t a))
  | deq_release s i t a : thr s !! i = Some (CMoved t a) ->
      step s (St (upd (sq s) (ix t) (t + SIZE)) (dat s) (wt s) (rt s) (delete i (thr s)) (inn s) (out s ++ [(t, a)]))
  (** [tryDequeue] *)
  | tpop_load s i t : thr s !! i = None -> 0 <= t <= rt s -> step s (goto s i (TCLoad t))
  | tpop_see s i t : thr s !! i = Some (TCLoad t) -> sq s (ix t) - (t + 1) = 0 -> step s (goto s i (TCSeen t))
  | tpop_empty s i t : thr s !! i = Some (TCLoad t) -> sq s (ix t) - (t + 1) < 0 ->
      step s (St (sq s) (dat s) (wt s) (rt s) (delete i (thr s)) (inn s) (out s))
  | tpop_reload s i t t' : thr s !! i = Some (TCLoad t) -> 0 < sq s (ix t) - (t + 1) -> 0 <= t' <= rt s ->
      step s (goto s i (TCLoad t'))
  | tpop_cas s i t : thr s !! i = Some (TCSeen t) -> rt s = t ->
      step s (St (sq s) (dat s) (wt s) (t + 1) (<[i := CRead t]> (thr s)) (inn s) (out s))
  | tpop_fail s i t : thr s !! i = Some (TCSeen t) -> step s (goto s i (TCLoad (rt s))).

Definition reachable (s : st A) : Prop := rtc step init s.

(** The ticket a thread owns, and whether it is inside a payload access. *)
Definition wticket (p : pc A) : option Z :=
  match p with PWait t _ | PWrite t _ | PDone t => Some t | _ => None end.
Definition rticket (p : pc A) : option Z :=
  match p with CWait t | CRead t | CMoved t _ => Some t | _ => None end.
Definition slot_access (p : pc A) : option Z :=
  match p with PWrite t _ | PDone t | CRead t | CMoved t _ => Some (ix t) | _ => None end.
End Conc.

(** ** The invariant *)

Section Inv.
  Context {A : Type} (k : Z) (Hk : 1 <= k).
Let SIZE : Z := 2 ^ k.
  Notation ix := (index SIZE).
  Notation step := (@step A SIZE).

Lemma ix_mod t : ix t = t mod SIZE.
Proof. apply (index_mod k Hk). Qed.

(** Tickets of one slot are whole laps apart. *)
Lemma same_slot t t' : ix t = ix t' -> t = t' \/ t + SIZE <= t' \/ t' + SIZE <= t.
Proof.
  intros E. pose proof (index_inj k Hk t t') as Hi. fold SIZE in Hi. specialize (Hi E). lia.
Qed.

Lemma same_slot_laps t t' : ix t = ix t' -> exists q, t = t' + q * SIZE.
Proof.
  rewrite !ix_mod. intros E. exists (t / SIZE - t' / SIZE). pose proof (SIZE_ge k Hk) as Hs. fold SIZE in Hs.
  pose proof (Z.div_mod t SIZE ltac:(lia)). pose proof (Z.div_mod t' SIZE ltac:(lia)). lia.
Qed.

Definition pc_ok (s : st A) (p : pc A) : Prop :=
  match p with
  | PWait t a => 0 <= t < wt s /\ inn s !! t = Some a /\ sq s (ix t) <= t
  | PWrite t a => 0 <= t < wt s /\ inn s !! t = Some a /\ sq s (ix t) = t
  | PDone t => 0 <= t < wt s /\ sq s (ix t) = t /\ dat s (ix t) = inn s !! t
  | TPLoad t _ => 0 <= t <= wt s
  | TPSeen t _ => 0 <= t <= wt s /\ t <= sq s (ix t)
  | CWait t => 0 <= t < rt s /\ sq s (ix t) <= t + 1
  | CRead t => 0 <= t < rt s /\ sq s (ix t) = t + 1
  | CMoved t a => 0 <= t < rt s /\ sq s (ix t) = t + 1 /\ inn s !! t = Some a
  | TCLoad t => 0 <= t <= rt s
  | TCSeen t => 0 <= t <= rt s /\ t + 1 <= sq s (ix t)
  end.

Definition unique (f : pc A -> option Z) (m : gmap nat (pc A)) : Prop := forall i j p q t,
  m !! i = Some p -> m !! j = Some q -> f p = Some t -> f q = Some t -> i = j.

Record inv (s : st A) : Prop := {
  i_pos : 0 <= wt s /\ 0 <= rt s;
  i_inn : forall t, is_Some (inn s !! t) <-> 0 <= t < wt s;
  i_shape : forall t, 0 <= t -> exists n, sq s (ix t) = t + n * SIZE \/ sq s (ix t) = t + n * SIZE + 1;
  i_full : forall t, 0 <= t -> sq s (ix t) = t + 1 -> t < wt s /\ dat s (ix t) = inn s !! t;
  i_free : forall t, 0 <= t -> t + SIZE <= sq s (ix t) -> t < rt s /\ t < wt s;
  i_thr : forall i p, thr s !! i = Some p -> pc_ok s p;
  i_wuniq : unique wticket (thr s);
  i_runiq : unique rticket (thr s);
  i_out : forall t a, (t, a) ∈ out s -> 0 <= t /\ inn s !! t = Some a /\ t + SIZE <= sq s (ix t);
  i_nodup : NoDup (out s).*1;
  i_read : forall t, 0 <= t < rt s -> (exists i p, thr s !! i = Some p /\ rticket p = Some t) \/ t ∈ (out s).*1;
}.

Lemma SIZE_2 : 2 <= SIZE.
Proof. apply (SIZE_ge k Hk). Qed.

Lemma ring_inv_init : inv init.
Proof.
  pose proof SIZE_2. split; cbn; try done.
  - intros t. rewrite lookup_empty. split; [by intros []|lia].
  - intros t Ht. exists (- (t / SIZE)). left. rewrite ix_mod.
    pose proof (Z.div_mod t SIZE ltac:(lia)). lia.
  - intros t Ht E. rewrite ix_mod in E.
    pose proof (Z.mod_le t SIZE ltac:(lia) ltac:(lia)). lia.
  - intros t Ht E. rewrite ix_mod in E.
    pose proof (Z.mod_le t SIZE ltac:(lia) ltac:(lia)). lia.
  - intros t a Hin. by apply not_elem_of_nil in Hin.
  - constructor.
  - intros t Ht. lia.
Qed.

(** ** Changing one thread *)

Definition put_thr (m : gmap nat (pc A)) (i : nat) (o : option (pc A)) : gmap nat (pc A) :=
  partial_alter (fun _ => o) i m.

Lemma lookup_put_thr m i o j : put_thr m i o !! j = if decide (j = i) then o else m !! j.
Proof.
  unfold put_thr. case_decide; subst; [apply lookup_partial_alter_eq | by apply lookup_partial_alter_ne].
Qed.

Definition ticket_of (f : pc A -> option Z) (o : option (pc A)) : option Z := o ≫= f.

(** A new ticket, if it is a new one, belongs to nobody else. *)
Lemma unique_put f m i o : unique f m ->
  (forall t, ticket_of f o = Some t -> ticket_of f (m !! i) = Some t \/
     forall j p, m !! j = Some p -> f p <> Some t) -> unique f (put_thr m i o).
Proof.
  intros Hu Ho a b p q t Ha Hb Hp Hq. rewrite lookup_put_thr in Ha, Hb.
  repeat case_decide; subst; try done.
  - destruct (Ho t) as [Hold|Hnew]; [exact Hq| |by destruct (Hnew a p)].
    unfold ticket_of in Hold. destruct (m !! i) as [p'|] eqn:E; [|done]. by apply (Hu a i p p' t).
  - destruct (Ho t) as [Hold|Hnew]; [exact Hp| |by destruct (Hnew b q)].
    unfold ticket_of in Hold. destruct (m !! i) as [p'|] eqn:E; [|done]. by apply (Hu i b p' q t).
  - by apply (Hu a b p q t).
Qed.

(** A step that only moves thread [i], keeping the tickets it owns. *)
Lemma inv_move s i o : inv s -> (forall p, o = Some p -> pc_ok s p) ->
  ticket_of wticket o = ticket_of wticket (thr s !! i) ->
  ticket_of rticket o = ticket_of rticket (thr s !! i) ->
  inv (St (sq s) (dat s) (wt s) (rt s) (put_thr (thr s) i o) (inn s) (out s)).
Proof.
  intros [] Ho Hw Hr. split; try done; cbn [thr sq dat wt rt inn out].
  - intros j p Hj. rewrite lookup_put_thr in Hj. case_decide; [by apply Ho|by eapply i_thr0].
  - apply unique_put; [done|]. intros t Ht. left. congruence.
  - apply unique_put; [done|]. intros t Ht. left. congruence.
  - intros t Ht. destruct (i_read0 t Ht) as [(j & p & Hj & Hp)|]; [left|by right].
    destruct (decide (j = i)) as [->|Hne].
    + rewrite Hj in Hr. cbn in Hr. rewrite Hp in Hr. destruct o as [p'|]; [|done]. exists i, p'.
      rewrite lookup_put_thr, decide_True by done. by split.
    + exists j, p. by rewrite lookup_put_thr, decide_False.
Qed.

Lemma inv_owner s i p t : inv s -> thr s !! i = Some p -> (wticket p = Some t -> 0 <= t < wt s) /\ (rticket p = Some t -> 0 <= t < rt s).
Proof. intros Hi Hp. pose proof (i_thr _ Hi _ _ Hp). destruct p; cbn in *; split; intros; simplify_eq; tauto. Qed.

(** Taking a write ticket: [enqueue]'s fetch_add, or [tryEnqueue]'s exchange. *)
Lemma inv_take_write s i a p : inv s -> ticket_of wticket (thr s !! i) = None -> ticket_of rticket (thr s !! i) = None ->
  (p = PWait (wt s) a \/ p = PWrite (wt s) a /\ sq s (ix (wt s)) = wt s) ->
  inv (St (sq s) (dat s) (wt s + 1) (rt s) (put_thr (thr s) i (Some p)) (<[wt s := a]> (inn s)) (out s)).
Proof.
  intros Hi How Hor Hp. pose proof SIZE_2. pose proof Hi as [[Hw0 Hr0] Hinn Hsh Hfull Hfree Hthr Hwu Hru Hout Hnd Hrd].
  assert (Hold : forall t x, inn s !! t = Some x -> t <> wt s /\ <[wt s := a]> (inn s) !! t = Some x).
  { intros t x Hx. assert (0 <= t < wt s) by (apply Hinn; eauto). rewrite lookup_insert_ne by lia. split; [lia|done]. }
  assert (Hle : sq s (ix (wt s)) <= wt s).
  { destruct (Hsh (wt s) Hw0) as (n & Hn). pose proof (Hfull (wt s) Hw0). pose proof (Hfree (wt s) Hw0).
    assert (n <= 0) by nia. destruct (Z.eq_dec n 0) as [->|]; nia. }
  split; cbn [thr sq dat wt rt inn out]; try done; try lia.
  - intros t. rewrite lookup_insert_is_Some, Hinn. lia.
  - intros t Ht Hs. destruct (Hfull t Ht Hs) as [? Hd]. split; [lia|]. by rewrite lookup_insert_ne by lia.
  - intros t Ht Hs. destruct (Hfree t Ht Hs). lia.
  - intros j q Hj. rewrite lookup_put_thr in Hj. case_decide.
    + injection Hj as <-. destruct Hp as [->|[-> ?]]; cbn; rewrite lookup_insert_eq; split_and!; lia || done.
    + specialize (Hthr j q Hj). destruct q; cbn in *; try tauto; try lia.
      * destruct Hthr as (? & Hx & ?). destruct (Hold _ _ Hx). split_and!; [lia|lia|done|done].
      * destruct Hthr as (? & Hx & ?). destruct (Hold _ _ Hx). split_and!; [lia|lia|done|done].
      * destruct Hthr as (? & ? & Hd). split_and!; [lia|lia|done|]. by rewrite lookup_insert_ne by lia.
      * destruct Hthr as (? & ? & Hx). destruct (Hold _ _ Hx). split_and!; lia || done.
  - apply unique_put; [done|]. intros t Ht. right. intros j q Hj Hq.
    assert (t = wt s) as -> by (by destruct Hp as [->|[-> _]]; cbn in Ht; simplify_eq).
    destruct (inv_owner s j q (wt s) Hi Hj) as [Hb _]. specialize (Hb Hq). lia.
  - apply unique_put; [done|]. intros t Ht. by destruct Hp as [->|[-> _]].
  - intros t x Hx. destruct (Hout t x Hx) as (? & Hx' & ?). by destruct (Hold _ _ Hx').
  - intros t Ht. destruct (Hrd t Ht) as [(j & q & Hj & Hq)|]; [left|by right]. exists j, q.
    rewrite lookup_put_thr, decide_False; [done|]. intros ->. rewrite Hj in Hor. cbn in Hor. congruence.
Qed.

(** Taking a read ticket: [dequeue]'s fetch_add, or [tryDequeue]'s exchange. *)
Lemma inv_take_read s i p : inv s -> ticket_of wticket (thr s !! i) = None -> ticket_of rticket (thr s !! i) = None ->
  (p = CWait (rt s) \/ p = CRead (rt s) /\ sq s (ix (rt s)) = rt s + 1) ->
  inv (St (sq s) (dat s) (wt s) (rt s + 1) (put_thr (thr s) i (Some p)) (inn s) (out s)).
Proof.
  intros Hi How Hor Hp. pose proof SIZE_2. pose proof Hi as [[Hw0 Hr0] Hinn Hsh Hfull Hfree Hthr Hwu Hru Hout Hnd Hrd].
  assert (Hle : sq s (ix (rt s)) <= rt s + 1).
  { destruct (Hsh (rt s) Hr0) as (n & Hn). pose proof (Hfree (rt s) Hr0).
    assert (n <= 0) by nia. destruct (Z.eq_dec n 0) as [->|]; nia. }
  split; cbn [thr sq dat wt rt inn out]; try done; try lia.
  - intros t Ht Hs. destruct (Hfree t Ht Hs). lia.
  - intros j q Hj. rewrite lookup_put_thr in Hj. case_decide.
    + injection Hj as <-. destruct Hp as [->|[-> ?]]; cbn; split_and!; lia.
    + specialize (Hthr j q Hj). destruct q; cbn in *; try tauto; try lia; try (split_and!; lia || tauto).
  - apply unique_put; [done|]. intros t Ht. by destruct Hp as [->|[-> _]].
  - apply unique_put; [done|]. intros t Ht. right. intros j q Hj Hq.
    assert (t = rt s) as -> by (by destruct Hp as [->|[-> _]]; cbn in Ht; simplify_eq).
    destruct (inv_owner s j q (rt s) Hi Hj) as [_ Hb]. specialize (Hb Hq). lia.
  - intros t Ht. destruct (Z.eq_dec t (rt s)) as [->|Hne].
    + left. exists i, p. rewrite lookup_put_thr, decide_True by done. split; [done|]. by destruct Hp as [->|[-> _]].
    + destruct (Hrd t ltac:(lia)) as [(j & q & Hj & Hq)|]; [left|by right]. exists j, q.
      rewrite lookup_put_thr, decide_False; [done|]. intros ->. rewrite Hj in Hor. cbn in Hor. congruence.
Qed.

(** The payload write of thread [i]. *)
Lemma inv_write s i t a : inv s -> thr s !! i = Some (PWrite t a) ->
  inv (St (sq s) (upd (dat s) (ix t) (Some a)) (wt s) (rt s) (put_thr (thr s) i (Some (PDone t))) (inn s) (out s)).
Proof.
  intros Hi Hpc. pose proof SIZE_2. pose proof Hi as [[Hw0 Hr0] Hinn Hsh Hfull Hfree Hthr Hwu Hru Hout Hnd Hrd].
  pose proof (Hthr _ _ Hpc) as (Ht & Hin & Hsq).
  assert (Hother : forall t', sq s (ix t') = t' + 1 -> upd (dat s) (ix t) (Some a) (ix t') = dat s (ix t')).
  { intros t' Ht'. unfold upd. destruct (Z.eqb_spec (ix t') (ix t)) as [E|]; [|done].
    rewrite E, Hsq in Ht'. pose proof (same_slot _ _ E). lia. }
  split; cbn [thr sq dat wt rt inn out]; try done.
  - intros t' Ht' Hs. rewrite Hother by done. by apply Hfull.
  - intros j q Hj. rewrite lookup_put_thr in Hj. case_decide as Hd.
    + injection Hj as <-. cbn. unfold upd. rewrite Z.eqb_refl, Hin. by split_and!; try lia.
    + pose proof (Hthr j q Hj) as Hq. destruct q; cbn in *; try tauto.
      destruct Hq as (? & Hs & Hdat). split_and!; try lia. unfold upd.
      destruct (Z.eqb_spec (ix t0) (ix t)) as [E|]; [|done]. exfalso. apply Hd.
      apply (Hwu j i (PDone t0) (PWrite t a) t); try done. cbn. f_equal. rewrite E in Hs. lia.
  - apply unique_put; [done|]. intros t' Ht'. left. by rewrite Hpc.
  - apply unique_put; [done|]. intros t' Ht'. done.
  - intros t' Ht'. destruct (Hrd t' Ht') as [(j & q & Hj & Hq)|]; [left|by right]. exists j, q.
    rewrite lookup_put_thr, decide_False; [done|]. intros ->. rewrite Hpc in Hj. by injection Hj as <-.
Qed.

(** Publishing: [seq.store(ticket + 1)]. *)
Lemma ring_inv_publish s i t : inv s -> thr s !! i = Some (PDone t) ->
  inv (St (upd (sq s) (ix t) (t + 1)) (dat s) (wt s) (rt s) (put_thr (thr s) i None) (inn s) (out s)).
Proof.
  intros Hi Hpc. pose proof SIZE_2. pose proof Hi as [[Hw0 Hr0] Hinn Hsh Hfull Hfree Hthr Hwu Hru Hout Hnd Hrd].
  pose proof (Hthr _ _ Hpc) as (Ht & Hsq & Hdat).
  split; cbn [thr sq dat wt rt inn out]; try done; unfold upd.
  - intros t' Ht'. destruct (Z.eqb_spec (ix t') (ix t)) as [E|]; [|by apply Hsh].
    destruct (Hsh t' Ht') as (n & Hn). rewrite E, Hsq in Hn. exists n. destruct Hn as [Hn|Hn]; [right; lia|].
    exfalso. destruct (same_slot_laps _ _ E) as [q Hq]. assert (q * SIZE + n * SIZE = -1) as Hqn by lia.
    rewrite <- Z.mul_add_distr_r in Hqn. destruct (Z.le_gt_cases 0 (q + n)); nia.
  - intros t' Ht' Hs. destruct (Z.eqb_spec (ix t') (ix t)) as [E|]; [|by apply Hfull].
    assert (t' = t) as -> by lia. split; [lia|done].
  - intros t' Ht' Hs. destruct (Z.eqb_spec (ix t') (ix t)) as [E|]; [|by apply Hfree].
    apply Hfree; [done|]. rewrite E, Hsq. pose proof (same_slot _ _ E). lia.
  - intros j q Hj. rewrite lookup_put_thr in Hj. case_decide as Hd; [done|].
    pose proof (Hthr j q Hj) as Hq.
    assert (Hw : forall t', wticket q = Some t' -> t' <> t).
    { intros t' Ht' ->. by apply Hd, (Hwu j i q (PDone t) t). }
    destruct q; cbn in *; try tauto;
      (destruct (Z.eqb_spec (ix t0) (ix t)) as [E|]; [|tauto]); rewrite E, Hsq in Hq;
      pose proof (same_slot _ _ E); try specialize (Hw _ eq_refl); split_and!; try tauto; lia.
  - apply unique_put; [done|]. intros t' Ht'. done.
  - apply unique_put; [done|]. intros t' Ht'. done.
  - intros t' x Hx. destruct (Hout t' x Hx) as (? & ? & ?). split_and!; try done.
    destruct (Z.eqb_spec (ix t') (ix t)) as [E|]; [|done]. rewrite E, Hsq in *. lia.
  - intros t' Ht'. destruct (Hrd t' Ht') as [(j & q & Hj & Hq)|]; [left|by right]. exists j, q.
    rewrite lookup_put_thr, decide_False; [done|]. intros ->. rewrite Hpc in Hj. by injection Hj as <-.
Qed.

(** Releasing: [seq.store(ticket + SIZE)]. *)
Lemma ring_inv_release s i t a : inv s -> thr s !! i = Some (CMoved t a) ->
  inv (St (upd (sq s) (ix t) (t + SIZE)) (dat s) (wt s) (rt s) (put_thr (thr s) i None) (inn s) (out s ++ [(t, a)])).
Proof.
  intros Hi Hpc. pose proof SIZE_2. pose proof Hi as [[Hw0 Hr0] Hinn Hsh Hfull Hfree Hthr Hwu Hru Hout Hnd Hrd].
  pose proof (Hthr _ _ Hpc) as (Ht & Hsq & Hin). pose proof (Hfull t ltac:(lia) Hsq) as [Htw _].
  split; cbn [thr sq dat wt rt inn out]; try done; unfold upd.
  - intros t' Ht'. destruct (Z.eqb_spec (ix t') (ix t)) as [E|]; [|by apply Hsh].
    destruct (same_slot_laps _ _ E) as [q Hq]. exists (1 - q). left. lia.
  - intros t' Ht' Hs. destruct (Z.eqb_spec (ix t') (ix t)) as [E|]; [|by apply Hfull].
    pose proof (same_slot _ _ E). lia.
  - intros t' Ht' Hs. destruct (Z.eqb_spec (ix t') (ix t)) as [E|]; [|by apply Hfree].
    destruct (Z.eq_dec t' t) as [->|]; [lia|]. apply Hfree; [done|]. rewrite E, Hsq.
    pose proof (same_slot _ _ E). lia.
  - intros j q Hj. rewrite lookup_put_thr in Hj. case_decide as Hd; [done|].
    pose proof (Hthr j q Hj) as Hq.
    assert (Hr : forall t', rticket q = Some t' -> t' <> t).
    { intros t' Ht' ->. by apply Hd, (Hru j i q (CMoved t a) t). }
    destruct q; cbn in *; try tauto;
      (destruct (Z.eqb_spec (ix t0) (ix t)) as [E|]; [|tauto]); rewrite E, Hsq in Hq;
      pose proof (same_slot _ _ E); try specialize (Hr _ eq_refl); split_and!; try tauto; lia.
  - apply unique_put; [done|]. intros t' Ht'. done.
  - apply unique_put; [done|]. intros t' Ht'. done.
  - intros t' x [Hx|Hx%list_elem_of_singleton]%elem_of_app.
    + destruct (Hout t' x Hx) as (? & ? & ?). split_and!; try done.
      destruct (Z.eqb_spec (ix t') (ix t)) as [E|]; [|done]. rewrite E, Hsq in *. pose proof (same_slot _ _ E). lia.
    + injection Hx as -> ->. rewrite Z.eqb_refl. split_and!; [lia|done|lia].
  - rewrite fmap_app. apply NoDup_app. split_and!; [done| |apply NoDup_singleton].
    intros t' Hx1 Hx2.
    apply list_elem_of_singleton in Hx2 as ->. apply list_elem_of_fmap in Hx1 as ([t1 x] & E1 & Hx).
    cbn in E1. subst t1. destruct (Hout t x Hx). lia.
  - intros t' Ht'. rewrite fmap_app, elem_of_app. destruct (Hrd t' Ht') as [(j & q & Hj & Hq)|]; [|tauto].
    destruct (decide (j = i)) as [->|Hne].
    + rewrite Hpc in Hj. injection Hj as <-. injection Hq as <-. right; right. cbn. set_solver.
    + left. exists j, q. by rewrite lookup_put_thr, decide_False.
Qed.

(** The two exchanges succeed only on a slot that is still as it was seen. *)
Lemma cas_write s i t a : inv s -> thr s !! i = Some (TPSeen t a) -> wt s = t -> sq s (ix (wt s)) = wt s.
Proof.
  intros Hi Hpc Ht. pose proof SIZE_2. destruct (i_thr _ Hi _ _ Hpc) as [? Hs]. rewrite <- Ht in *.
  destruct (i_shape _ Hi (wt s)) as (n & Hn); [lia|]. pose proof (i_full _ Hi (wt s)). pose proof (i_free _ Hi (wt s)).
  destruct (Z.lt_trichotomy n 0) as [?|[->|?]]; [nia|lia|]. assert (SIZE <= n * SIZE) by nia. lia.
Qed.

Lemma cas_read s i t : inv s -> thr s !! i = Some (TCSeen t) -> rt s = t -> sq s (ix (rt s)) = rt s + 1.
Proof.
  intros Hi Hpc Ht. pose proof SIZE_2. destruct (i_thr _ Hi _ _ Hpc) as [? Hs]. rewrite <- Ht in *.
  destruct (i_shape _ Hi (rt s)) as (n & Hn); [lia|]. pose proof (i_free _ Hi (rt s)).
  destruct (Z.lt_trichotomy n 0) as [?|[->|?]]; [nia|lia|]. assert (SIZE <= n * SIZE) by nia. lia.
Qed.

Lemma ring_inv_step s s' : inv s -> step s s' -> inv s'.
Proof.
  intros Hi Hstep. pose proof (i_pos _ Hi). pose proof (i_thr _ Hi) as Hthr.
  destruct Hstep as [s i a Hn|s i t a Hp Hs|s i t a Hp|s i t Hp|s i t a Hn Hb|s i t a Hp Hs|s i t a Hp Hs|s i t a t' Hp Hs Hb
    |s i t a Hp Hs|s i t a Hp|s i Hn|s i t Hp Hs|s i t a Hp Hd|s i t a Hp|s i t Hn Hb|s i t Hp Hs|s i t Hp Hs|s i t t' Hp Hs Hb
    |s i t Hp Hs|s i t Hp].
  all: try (pose proof (Hthr _ _ Hp) as Hpc; cbn in Hpc).
  - apply inv_take_write; [done|by rewrite Hn|by rewrite Hn|by left].
  - apply (inv_move s i (Some (PWrite t a))); [done| |by rewrite Hp|by rewrite Hp].
    intros p [= <-]. cbn. tauto.
  - by apply inv_write.
  - by apply (ring_inv_publish s i t).
  - apply (inv_move s i (Some (TPLoad t a))); [done| |by rewrite Hn|by rewrite Hn]. by intros p [= <-].
  - apply (inv_move s i (Some (TPSeen t a))); [done| |by rewrite Hp|by rewrite Hp]. intros p [= <-]. cbn. lia.
  - by apply (inv_move s i None); [| |rewrite Hp|rewrite Hp].
  - apply (inv_move s i (Some (TPLoad t' a))); [done| |by rewrite Hp|by rewrite Hp]. by intros p [= <-].
  - pose proof (cas_write _ _ _ _ Hi Hp Hs). subst t. apply inv_take_write; [done|by rewrite Hp|by rewrite Hp|by right].
  - apply (inv_move s i (Some (TPLoad (wt s) a))); [done| |by rewrite Hp|by rewrite Hp]. intros p [= <-]. cbn. lia.
  - apply inv_take_read; [done|by rewrite Hn|by rewrite Hn|by left].
  - apply (inv_move s i (Some (CRead t))); [done| |by rewrite Hp|by rewrite Hp]. intros p [= <-]. cbn. tauto.
  - apply (inv_move s i (Some (CMoved t a))); [done| |by rewrite Hp|by rewrite Hp]. intros p [= <-]. cbn.
    destruct Hpc as [? Hsq]. destruct (i_full _ Hi t ltac:(lia) Hsq) as [_ Hdat]. split_and!; try lia. congruence.
  - by apply (ring_inv_release s i t a).
  - apply (inv_move s i (Some (TCLoad t))); [done| |by rewrite Hn|by rewrite Hn]. by intros p [= <-].
  - apply (inv_move s i (Some (TCSeen t))); [done| |by rewrite Hp|by rewrite Hp]. intros p [= <-]. cbn. lia.
  - by apply (inv_move s i None); [| |rewrite Hp|rewrite Hp].
  - apply (inv_move s i (Some (TCLoad t'))); [done| |by rewrite Hp|by rewrite Hp]. by intros p [= <-].
  - pose proof (cas_read _ _ _ Hi Hp Hs). subst t. apply inv_take_read; [done|by rewrite Hp|by rewrite Hp|by right].
  - apply (inv_move s i (Some (TCLoad (rt s)))); [done| |by rewrite Hp|by rewrite Hp]. intros p [= <-]. cbn. lia.
Qed.

Lemma ring_inv_reachable s : @reachable A SIZE s -> inv s.
Proof.
  intros Hr. unfold reachable in Hr. pose proof ring_inv_init as Hi. revert Hi. generalize (@init A), Hr.
  intros s0 Hrtc. induction Hrtc; eauto using ring_inv_step.
Qed.

(** C20 Under every interleaving of any number of producers and consumers (blocking and
    [try] variants): a value obtained with read ticket [t] is the one enqueued with
    write ticket [t] (FIFO by ticket, nothing lost, invented or duplicated); two threads
    are never inside the same slot's payload; a consumer that has seen its slot finds
    the value there; and once every thread is done each read ticket was answered. *)
Theorem ring_linear s : @reachable A SIZE s ->
  (forall t a, (t, a) ∈ out s -> inn s !! t = Some a) /\ NoDup (out s).*1 /\
  (forall i j p q x, thr s !! i = Some p -> thr s !! j = Some q ->
     slot_access SIZE p = Some x -> slot_access SIZE q = Some x -> i = j) /\
  (forall i t, thr s !! i = Some (CRead t) -> exists a, dat s (ix t) = Some a /\ inn s !! t = Some a) /\
  (thr s = ∅ -> forall t, 0 <= t < rt s <-> t ∈ (out s).*1).
Proof.
  intros Hi%ring_inv_reachable. pose proof SIZE_2.
  pose proof Hi as [[Hw0 Hr0] Hinn Hsh Hfull Hfree Hthr Hwu Hru Hout Hnd Hrd]. split_and!; try done.
  - intros t a Ht. by apply Hout.
  - intros i j p q x Hp Hq Hxp Hxq.
    pose proof (Hthr _ _ Hp) as Hpp. pose proof (Hthr _ _ Hq) as Hqq.
    destruct p; try done; destruct q; try done; cbn in Hxp, Hxq, Hpp, Hqq;
      assert (E : ix t = ix t0) by congruence; rewrite E in Hpp; pose proof (same_slot _ _ E);
      try (exfalso; lia).
    all: assert (t = t0) as -> by lia.
    all: first [ by eapply (Hwu i j); [exact Hp|exact Hq|..] | by eapply (Hru i j); [exact Hp|exact Hq|..] ].
  - intros i t Hp. destruct (Hthr _ _ Hp) as [Ht Hs]. destruct (Hfull t ltac:(lia) Hs) as [Htw Hd].
    destruct (proj2 (Hinn t) ltac:(lia)) as [a Ha]. exists a. by rewrite Hd.
  - intros He t. split.
    + intros Ht. destruct (Hrd t Ht) as [(i & p & Hp & _)|]; [|done]. by rewrite He, lookup_empty in Hp.
    + intros ([t' a] & -> & Hx)%list_elem_of_fmap. destruct (Hout t' a Hx) as (? & _ & Hs). cbn.
      destruct (Hfree t'); lia.
Qed.
End Inv.

(** A producer puts 7 in while a consumer already waits: the consumer finds it. *)
Definition demo_run : st Z :=
  let s0 := init in
  let s1 := St (sq s0) (dat s0) 1 0 {[0%nat := PWait 0 7]} {[0 := 7]} [] in
  let s2 := St (sq s0) (dat s0) 1 1 (<[1%nat := CWait 0]> (thr s1)) (inn s1) [] in
  let s3 := goto s2 0 (PWrite 0 7) in
  let s4 := St (sq s0) (upd (dat s0) 0 (Some 7)) 1 1 (<[0%nat := PDone 0]> (thr s3)) (inn s1) [] in
  let s5 := St (upd (sq s0) 0 1) (dat s4) 1 1 (delete 0%nat (thr s4)) (inn s1) [] in
  goto s5 1 (CRead 0).

Lemma ring_linear_witness : exists a, dat demo_run (index 4 0) = Some a /\ inn demo_run !! 0 = Some a.
Proof.
  apply (ring_linear 2 ltac:(lia) demo_run) with (i := 1%nat); [|reflexivity].
  eapply rtc_l; [apply (enq_take 4 init 0 7); reflexivity|].
  eapply rtc_l; [apply (deq_take 4 _ 1); reflexivity|].
  eapply rtc_l; [apply (enq_see 4 _ 0 0 7); reflexivity|].
  eapply rtc_l; [apply (enq_write 4 _ 0 0 7); reflexivity|].
  eapply rtc_l; [apply (enq_publish 4 _ 0 0); reflexivity|].
  eapply rtc_l; [apply (deq_see 4 _ 1 0); reflexivity|]. apply rtc_refl.
Defined.
