(* ===== verification/Spinlock.v ===== *)
(** * Spinlock: critical sections are single steps

    Models [src/include/AstraLib/Atomic/spinlock.hpp] and
    [src/src/core/parsing/threadSafeParser.hpp]. Threads run critical sections (a
    [SpinlockGuard], or [parserAccess] to [returnParser]) on shared data of any type, one
    read or write at a time and interleaved at will (sequential consistency). The theorem is what the
    other files rely on where they take a locked method as one step: the data is always
    what the sections entered so far make of it when each runs alone, in the order the lock was taken. *)

From S2P Require Import Prelude.

Section Spinlock.
  (** the data the lock protects *)
  Context {D : Type}.

(** The effect of one step of a section, and a section. *)
Definition effect : Type := D -> D.
Definition body : Type := list effect.

(** Where a thread stands: outside any section, in [lock] for one, or inside with the
    steps that are left. *)
Inductive pc := Outside | Locking (b : body) | Inside (rest : body).

Record Thread := {
  todo : list body;
  pos : pc;
}.

Record Sys := {
  atomic : bool;              (** [atomic.value] *)
  data : D;
  crew : list Thread;
  entered : list body;        (** the sections entered, oldest first *)
}.

Definition set_thread (s : Sys) (i : nat) (t : Thread) : Sys :=
  {| atomic := atomic s; data := data s; crew := <[i := t]> (crew s); entered := entered s |}.

Definition new_Sys (d : D) (programs : list (list body)) : Sys :=
  {| atomic := false; data := d; crew := (fun l => {| todo := l; pos := Outside |}) <$> programs; entered := [] |}.

(** One turn of the loop of [lock]: [exchange(true)], which leaves the loop when the flag was
    clear. The [cpuRelax] turns in between have no effect. *)
Definition lock (s : Sys) (i : nat) (l : list body) (b : body) : Sys :=
  if atomic s then s
  else {| atomic := true; data := data s; crew := <[i := {| todo := l; pos := Inside b |}]> (crew s); entered := entered s ++ [b] |}.

Definition unlock (s : Sys) (i : nat) (l : list body) : Sys :=
  {| atomic := false; data := data s; crew := <[i := {| todo := l; pos := Outside |}]> (crew s); entered := entered s |}.

Definition touch (s : Sys) (i : nat) (l : list body) (f : effect) (rest : body) : Sys :=
  {| atomic := atomic s; data := f (data s); crew := <[i := {| todo := l; pos := Inside rest |}]> (crew s); entered := entered s |}.

(** The next step of thread [i]: [SpinlockGuard]'s constructor, the guarded steps, its
    destructor. *)
Definition guard_step (i : nat) (s : Sys) : option Sys :=
  t ← crew s !! i;
  match pos t with
  | Outside => match todo t with b :: l => Some (set_thread s i {| todo := l; pos := Locking b |}) | [] => None end
  | Locking b => Some (lock s i (todo t) b)
  | Inside (f :: rest) => Some (touch s i (todo t) f rest)
  | Inside [] => Some (unlock s i (todo t))
  end.

Inductive guard_steps : Sys -> Sys -> Prop :=
  | guard_steps_intro i s s' : guard_step i s = Some s' -> guard_steps s s'.

(** ** What the sections do alone *)

Definition run_body (b : body) (d : D) : D := foldl (fun d f => f d) d b.
Definition run_bodies (l : list body) (d : D) : D := foldl (fun d b => run_body b d) d l.

Definition inside (t : Thread) : bool := match pos t with Inside _ => true | _ => false end.

(** The lock is free and the data is what the sections made of it, or one thread holds it
    and is part of the way through the last of them. *)
Definition lock_inv (d : D) (s : Sys) : Prop :=
  if atomic s then
    exists i t before done_ rest, crew s !! i = Some t /\ pos t = Inside rest /\
      entered s = before ++ [done_ ++ rest] /\ data s = run_body done_ (run_bodies before d) /\
      forall j t', crew s !! j = Some t' -> inside t' = true -> j = i
  else data s = run_bodies (entered s) d /\ forall j t', crew s !! j = Some t' -> inside t' = false.

Lemma others_outside (l : list Thread) i t j t' : <[i := t]> l !! j = Some t' -> j = i /\ t' = t \/ j <> i /\ l !! j = Some t'.
Proof.
  intros E. destruct (decide (j = i)) as [->|Hn]; [left|right].
  - assert (Hl : (i < length l)%nat) by (apply lookup_lt_Some in E; by rewrite length_insert in E).
    rewrite list_lookup_insert_eq in E by done. by injection E as <-.
  - by rewrite list_lookup_insert_ne in E.
Qed.

Lemma lock_step_inv d i s s' : guard_step i s = Some s' -> lock_inv d s -> lock_inv d s'.
Proof.
  unfold guard_step, lock_inv. destruct (crew s !! i) as [t|] eqn:Et; cbn; [|done].
  assert (Hi : (i < length (crew s))%nat) by by eapply lookup_lt_Some.
  destruct (pos t) as [|b|rest] eqn:Ep; cbn.
  - (* outside *) destruct (todo t) as [|b l]; [done|]. intros [= <-] H. cbn. destruct (atomic s).
    + destruct H as (k & u & be & dn & re & Ek & Hk & He & Hd & Hu). exists k, u, be, dn, re.
      assert (k <> i) by congruence. rewrite list_lookup_insert_ne by done. split_and!; try done.
      intros j t' [[-> ->]|[_ Hj]]%others_outside; [done|by apply (Hu j t')].
    + destruct H as [Hd Hu]. split; [done|]. intros j t' [[-> ->]|[_ Hj]]%others_outside; [done|by eapply Hu].
  - (* the exchange *) intros [= <-] H. unfold lock. destruct (atomic s) eqn:Ea; [rewrite Ea; done|]. cbn. destruct H as [Hd Hu].
    exists i, {| todo := todo t; pos := Inside b |}, (entered s), [], b. rewrite list_lookup_insert_eq by done. split_and!; try done.
    intros j t' [[-> ->]|[_ Hj]]%others_outside Hin; [done|]. apply Hu in Hj. congruence.
  - (* inside *) destruct (atomic s) eqn:Ea; [|intros _ [_ Hu]; apply Hu in Et; unfold inside in Et; by rewrite Ep in Et].
    destruct rest as [|f rest]; intros [= <-] (k & u & be & dn & re & Ek & Hk & He & Hd & Hu); cbn;
      assert (k = i) as -> by (symmetry; apply (Hu i t Et); unfold inside; by rewrite Ep);
      assert (u = t) as -> by congruence; rewrite Ep in Hk; injection Hk as <-.
    + rewrite app_nil_r in He. split.
      * rewrite Hd, He. unfold run_bodies. by rewrite foldl_app.
      * intros j t' [[-> ->]|[Hn Hj]]%others_outside; [done|]. destruct (inside t') eqn:E; [|done]. by destruct Hn; eapply Hu.
    + rewrite Ea. exists i, {| todo := todo t; pos := Inside rest |}, be, (dn ++ [f]), rest. rewrite list_lookup_insert_eq by done.
      split_and!; try done.
      * by rewrite <-app_assoc.
      * rewrite Hd. unfold run_body. by rewrite foldl_app.
      * intros j t' [[-> ->]|[_ Hj]]%others_outside Hin; [done|by eapply Hu].
Qed.

(** C27 Under every interleaving at most one thread is inside a section, and the data is what
    the sections entered so far make of it when each runs alone in the order the lock was
    taken, the last one up to the step its thread has reached. While a section is running its
    thread can step; otherwise the lock is free, so no thread waits for ever on a lock nobody holds. *)
Theorem critical_sections_atomic (d : D) programs s (H : rtc guard_steps (new_Sys d programs) s) :
  (forall i j t u, crew s !! i = Some t -> crew s !! j = Some u -> inside t = true -> inside u = true -> i = j) /\
  ((atomic s = false /\ data s = run_bodies (entered s) d) \/
   (atomic s = true /\ exists i t before done_ rest, crew s !! i = Some t /\ pos t = Inside rest /\
      entered s = before ++ [done_ ++ rest] /\ data s = run_body done_ (run_bodies before d) /\ is_Some (guard_step i s))).
Proof.
  assert (Hi : lock_inv d s).
  { revert s H. apply rtc_ind_r; [|by intros x y _ [i ? ? E]; apply (lock_step_inv d i)].
    split; [done|]. intros j t' E. apply list_lookup_fmap_Some in E as (l & -> & _). done. }
  unfold lock_inv in Hi. destruct (atomic s) eqn:Ea.
  - destruct Hi as (k & u & be & dn & re & Ek & Hk & He & Hd & Hu). split.
    + intros i j t v Ei Ej Ht Hv. by rewrite (Hu i t Ei Ht), (Hu j v Ej Hv).
    + right. split; [done|]. exists k, u, be, dn, re. split_and!; try done.
      unfold guard_step. rewrite Ek. cbn. rewrite Hk. by destruct re; eexists.
  - destruct Hi as [Hd Hu]. split; [|by left]. intros i j t v Ei _ Ht _. apply Hu in Ei. congruence.
Qed.
End Spinlock.
#[global] Arguments Sys : clear implicits.

(** ** The shared parser *)

(** [ThreadSafeParserRAII]: a section whose data is the parser; what the owner does with it
    in between are the steps. *)
Definition ThreadSafeParser (P : Type) : Type := Sys P.
Definition parserAccess {P} (s : ThreadSafeParser P) (i : nat) (l : list (@body P)) (b : @body P) : ThreadSafeParser P := lock s i l b.
Definition returnParser {P} (s : ThreadSafeParser P) (i : nat) (l : list (@body P)) : ThreadSafeParser P := unlock s i l.

(** Two threads that increment a counter in two steps (read into a temporary, write back),
    interrupted while inside. *)
Section Demo.
Definition bump : @body (Z * Z) := [fun d => (d.1, d.1); fun d => (d.2 + 1, d.2)].
Definition shared0 : Sys (Z * Z) := new_Sys (0, 0) [[bump]; [bump]].
Definition guard_run {D} (l : list nat) (s : Sys D) : option (Sys D) := foldl (fun r i => r ≫= guard_step i) (Some s) l.

Lemma guard_run_reachable {D} l (s0 s s' : Sys D) : rtc guard_steps s0 s -> guard_run l s = Some s' -> rtc guard_steps s0 s'.
Proof.
  revert s. induction l as [|i l IH]; intros s Hs E; [by injection E as <-|].
  unfold guard_run in E. cbn in E. destruct (guard_step i s) as [s1|] eqn:E1.
  - apply (IH s1); [|exact E]. eapply rtc_r; [exact Hs|by eapply guard_steps_intro].
  - exfalso. clear -E. by induction l.
Qed.

Definition counter_trace : list nat := [0; 1; 0; 0; 1; 0; 1; 0; 1; 1; 1]%nat.
Definition shared_end : Sys (Z * Z) := default shared0 (guard_run counter_trace shared0).

Example counter_end : (atomic shared_end, (data shared_end).1) = (true, 2).
Proof. vm_compute. reflexivity. Qed.

Lemma shared_end_reachable : rtc guard_steps shared0 shared_end.
Proof. apply (guard_run_reachable counter_trace shared0 shared0); [apply rtc_refl|vm_compute; reflexivity]. Defined.

Lemma critical_sections_atomic_witness :
  exists i t before done_ rest, crew shared_end !! i = Some t /\ pos t = Inside rest /\
    entered shared_end = before ++ [done_ ++ rest] /\ data shared_end = run_body done_ (run_bodies before (0, 0)) /\
    is_Some (guard_step i shared_end).
Proof.
  destruct (critical_sections_atomic (0, 0) [[bump]; [bump]] shared_end shared_end_reachable) as [_ [[Ha _]|[_ H]]]; [|exact H].
  exfalso. revert Ha. vm_compute. discriminate.
Defined.
End Demo.
