(* ===== verification/AtomicFutex.v ===== *)
(** * AtomicFutex: waiting for a word to change

    Models [src/include/AstraLib/Atomic/atomicFutex.hpp]: threads that [wait] and threads
    that [wake], one access of [futex_val] or system call at a time. The kernel is the
    documented one: [FUTEX_WAIT] sleeps only if the word still has the expected value and
    fails with [EAGAIN] otherwise, a sleep may be interrupted ([EINTR]), and [FUTEX_WAKE] of
    one wakes some sleeper, any one, if there is one. (The other errors of [FUTEX_WAIT] are
    for words that are not aligned or not mapped.)

    [wait] never returns before a [wake] that came after it started; one waiter never sleeps
    through a [wake], unless 2^32 of them come between; with two waiters it can
    ([futex_stolen]): the wake goes to the one that started after the addition. *)

From S2P Require Import Prelude.

(** Where a thread is; the number is how often the word had been increased when the waiter
    read it (a history variable: the code keeps the value [expected]). *)
Inductive fpc :=
  | WaitLoad
  | WaitCall (expected : Z) (seen_at : nat)     (** [syscall(FUTEX_WAIT)] *)
  | Asleep (expected : Z) (seen_at : nat)
  | WaitCheck (expected : Z) (seen_at : nat)    (** [current != expected] *)
  | Waited (seen_at : nat)
  | WakeAdd                                     (** [fetch_add] *)
  | WakeCall                                    (** [syscall(FUTEX_WAKE, 1)] *)
  | Woke.

Record Futex := { futex_val : Z; adds : nat; threads : list fpc }.

Definition to (f : Futex) (i : nat) (p : fpc) : Futex := {| futex_val := futex_val f; adds := adds f; threads := <[i := p]> (threads f) |}.

(** [int] arithmetic of [fetch_add], as bits. *)
Definition increment (v : Z) : Z := wrapU 32 (v + 1).

Definition new_AtomicFutex (ts : list fpc) : Futex := {| futex_val := 0; adds := 0; threads := ts |}.

Definition is_asleep (p : fpc) : bool := match p with Asleep _ _ => true | _ => false end.

(** The next step of thread [i]; [j] is the sleeper the kernel picks, or the thread itself
    for an interrupted sleep. *)
Definition futex_step (i j : nat) (f : Futex) : option Futex :=
  p ← threads f !! i;
  match p with
  | WaitLoad => Some (to f i (WaitCall (futex_val f) (adds f)))
  | WaitCall e k => Some (to f i (if futex_val f =? e then Asleep e k else WaitCheck e k))
  | Asleep e k => if (i =? j)%nat then Some (to f i (WaitCheck e k)) else None
  | WaitCheck e k => Some (to f i (if futex_val f =? e then WaitCall e k else Waited k))
  | WakeAdd => Some {| futex_val := increment (futex_val f); adds := S (adds f); threads := <[i := WakeCall]> (threads f) |}
  | WakeCall =>
      match threads f !! j with
      | Some (Asleep e k) => Some (to (to f j (WaitCheck e k)) i Woke)
      | _ => if existsb is_asleep (threads f) then None else Some (to f i Woke)
      end
  | Waited _ | Woke => None
  end.

Definition starting (ts : list fpc) : Prop := Forall (fun p => p = WaitLoad \/ p = WakeAdd) ts.

Definition futex_reachable (ts : list fpc) (f : Futex) : Prop :=
  rtc (fun a b => exists i j, futex_step i j a = Some b) (new_AtomicFutex ts) f.

(** ** What a waiter knows *)

Definition waiter_ok (f : Futex) (p : fpc) : Prop :=
  match p with
  | WaitCall e k | Asleep e k | WaitCheck e k => e = wrapU 32 (Z.of_nat k) /\ (k <= adds f)%nat
  | Waited k => (k < adds f)%nat
  | _ => True
  end.

Record futex_inv (f : Futex) : Prop := {
  fi_val : futex_val f = wrapU 32 (Z.of_nat (adds f));
  fi_threads : forall i p, threads f !! i = Some p -> waiter_ok f p;
}.

Lemma insert_inv (l : list fpc) i p j q : <[i := p]> l !! j = Some q -> q = p \/ l !! j = Some q.
Proof.
  intros E. destruct (decide (j = i)) as [->|Hn]; [left|right].
  - assert (i < length l)%nat by (apply lookup_lt_Some in E; by rewrite length_insert in E).
    rewrite list_lookup_insert_eq in E by done. by injection E.
  - by rewrite list_lookup_insert_ne in E.
Qed.

Lemma futex_to f i p : futex_inv f -> waiter_ok f p -> futex_inv (to f i p).
Proof.
  intros [Hv Ht] Hp. split; [done|]. cbn. intros j q [->|Hq]%insert_inv; [by destruct p|]. specialize (Ht j q Hq). by destruct q.
Qed.

Lemma increment_of n : increment (wrapU 32 (Z.of_nat n)) = wrapU 32 (Z.of_nat (S n)).
Proof. unfold increment, wrapU. rewrite Z.add_mod_idemp_l by done. f_equal. lia. Qed.

Lemma futex_step_inv i j f f' : futex_step i j f = Some f' -> futex_inv f -> futex_inv f'.
Proof.
  intros Hst Hi. pose proof Hi as [Hv Ht]. unfold futex_step in Hst. destruct (threads f !! i) as [p|] eqn:Ep; [cbn in Hst|done].
  pose proof (Ht i p Ep) as Hp. destruct p as [|e k|e k|e k|k| | |]; cbn in Hp; simplify_eq.
  - apply futex_to; [done|]. cbn. split; [done|lia].
  - apply futex_to; [done|]. by destruct (futex_val f =? e).
  - destruct (i =? j)%nat; simplify_eq. by apply futex_to.
  - apply futex_to; [done|]. destruct (Z.eqb_spec (futex_val f) e) as [|Hn]; [done|]. cbn. destruct Hp as [He Hk].
    destruct (decide (k = adds f)) as [->|]; [|lia]. by rewrite Hv, <- He in Hn.
  - split; cbn.
    + by rewrite Hv, increment_of.
    + intros x q [->|Hq]%insert_inv; [done|]. specialize (Ht x q Hq). destruct q; cbn in *; try done; try lia; (split; [tauto|lia]).
  - destruct (threads f !! j) as [[|?|e k|?|?| | |]|] eqn:Ej; try (destruct (existsb is_asleep (threads f)); simplify_eq; by apply futex_to).
    simplify_eq. apply futex_to; [|done]. apply futex_to; [done|]. exact (Ht j _ Ej).
Qed.

Lemma futex_inv_reachable ts f : starting ts -> futex_reachable ts f -> futex_inv f.
Proof.
  intros Hs Hr. unfold futex_reachable in Hr. revert f Hr. refine (rtc_ind_r futex_inv (new_AtomicFutex ts) _ _).
  - split; [done|]. cbn. intros i p Hp. by destruct (Forall_lookup_1 _ _ _ _ Hs Hp) as [-> | ->].
  - intros x y _ (i & j & Hst) Hx. by eapply futex_step_inv.
Qed.

(** [wait] returns only after an increment that came after it read the word. *)
Theorem futex_no_early_return ts f i k : starting ts -> futex_reachable ts f -> threads f !! i = Some (Waited k) -> (k < adds f)%nat.
Proof. intros Hs Hr Hi. exact (fi_threads f (futex_inv_reachable ts f Hs Hr) i _ Hi). Qed.

(** ** One waiter *)

Definition waits (p : fpc) : bool := match p with WakeAdd | WakeCall | Woke => false | _ => true end.

Definition one_waiter (l : list fpc) : Prop := forall i j, waits <$> l !! i = Some true -> waits <$> l !! j = Some true -> i = j.

Lemma insert_waits (l : list fpc) i p q x : l !! i = Some p -> waits q = waits p -> waits <$> <[i := q]> l !! x = waits <$> l !! x.
Proof.
  intros Hi Hq. destruct (decide (x = i)) as [->|Hn]; [|by rewrite list_lookup_insert_ne].
  rewrite list_lookup_insert_eq by (by eapply lookup_lt_Some). rewrite Hi. cbn. by rewrite Hq.
Qed.

Lemma futex_step_waits i j f f' x : futex_step i j f = Some f' -> waits <$> threads f' !! x = waits <$> threads f !! x.
Proof.
  unfold futex_step. intros Hst. destruct (threads f !! i) as [p|] eqn:Ep; [cbn in Hst|done].
  destruct p as [|e k|e k|e k|k| | |]; simplify_eq; try (eapply insert_waits; [done|]; cbn; by try case_match).
  - destruct (i =? j)%nat; simplify_eq. by eapply insert_waits.
  - destruct (threads f !! j) as [[|?|e k|?|?| | |]|] eqn:Ej; try (destruct (existsb is_asleep (threads f)); simplify_eq; by eapply insert_waits).
    simplify_eq. cbn. assert (i <> j) as Hn by congruence.
    rewrite (insert_waits _ i WakeCall) by (try done; by rewrite list_lookup_insert_ne). by eapply insert_waits.
Qed.

(** A sleeper has seen every increment, or somebody is about to wake it - or 2^32
    increments have brought the word back. *)
Definition sleep_ok (f : Futex) : Prop := forall i e k, threads f !! i = Some (Asleep e k) ->
  adds f = k \/ (exists j, threads f !! j = Some WakeCall) \/ Z.of_nat k + 2 ^ 32 <= Z.of_nat (adds f).

Lemma same_word n k : (k <= n)%nat -> wrapU 32 (Z.of_nat n) = wrapU 32 (Z.of_nat k) -> n = k \/ Z.of_nat k + 2 ^ 32 <= Z.of_nat n.
Proof.
  unfold wrapU. intros Hk E. destruct (decide (Z.of_nat n < Z.of_nat k + 2 ^ 32)) as [Hn|Hn]; [left|right; lia].
  assert ((Z.of_nat n - Z.of_nat k) mod 2 ^ 32 = 0) as E0 by (rewrite Zminus_mod, E, Z.sub_diag; done).
  rewrite Z.mod_small in E0 by lia. lia.
Qed.

(** A step that wakes nobody and leaves the number of increments. *)
Lemma sleep_to f i p q : sleep_ok f -> threads f !! i = Some p -> p <> WakeCall ->
  (forall e k, q = Asleep e k -> adds f = k \/ Z.of_nat k + 2 ^ 32 <= Z.of_nat (adds f)) -> sleep_ok (to f i q).
Proof.
  intros Hs Hi Hp Hq x e k. cbn. intros Hx. apply insert_inv in Hx as [E|Hx]; [by destruct (Hq e k (eq_sym E)); auto|].
  destruct (Hs x e k Hx) as [?|[[j Hj]|?]]; [by left| |by right; right]. right. left. exists j.
  rewrite list_lookup_insert_ne; [done|]. intros ->. congruence.
Qed.

Lemma sleep_step i j f f' : futex_step i j f = Some f' -> futex_inv f -> one_waiter (threads f) -> sleep_ok f -> sleep_ok f'.
Proof.
  intros Hst [Hv Ht] Ho Hs. unfold futex_step in Hst. destruct (threads f !! i) as [p|] eqn:Ep; [cbn in Hst|done].
  pose proof (Ht i p Ep) as Hp. destruct p as [|e k|e k|e k|k| | |]; cbn in Hp; simplify_eq.
  - by eapply sleep_to.
  - eapply sleep_to; [done|done|done|]. intros e' k' E. destruct (Z.eqb_spec (futex_val f) e) as [Ee|]; [|done]. injection E as <- <-.
    destruct Hp as [He Hk]. apply same_word; [done|]. by rewrite <- Hv, <- He.
  - destruct (i =? j)%nat; simplify_eq. by eapply sleep_to.
  - eapply sleep_to; [done|done|done|]. intros e' k' E. by destruct (futex_val f =? e).
  - intros x e k _. right. left. exists i. cbn. apply list_lookup_insert_eq. by eapply lookup_lt_Some.
  - assert (existsb is_asleep (threads f) = false -> sleep_ok (to f i Woke)) as Hnone.
    { intros Hn x e k Hx. exfalso. cbn in Hx. apply insert_inv in Hx as [|Hx]; [done|].
      enough (existsb is_asleep (threads f) = true) by congruence. apply existsb_exists. exists (Asleep e k).
      split; [|done]. apply list_elem_of_In. by eapply list_elem_of_lookup_2. }
    destruct (threads f !! j) as [[|?|e k|?|?| | |]|] eqn:Ej; try (destruct (existsb is_asleep (threads f)); simplify_eq; by apply Hnone).
    simplify_eq. intros x e' k' Hx. exfalso. cbn in Hx. apply insert_inv in Hx as [|Hx]; [done|].
    assert (x = j) as ->.
    { apply insert_inv in Hx as [|Hx]; [done|]. apply Ho; [by rewrite Hx|by rewrite Ej]. }
    rewrite list_lookup_insert_eq in Hx by (by eapply lookup_lt_Some). done.
Qed.

(** One waiter and any number of wakes: it is not asleep when the wakes are over, unless
    none came after it read the word, or 2^32 of them. *)
Theorem futex_no_lost_wakeup ts f i e k : starting ts -> one_waiter ts -> futex_reachable ts f ->
  threads f !! i = Some (Asleep e k) -> (forall j, threads f !! j <> Some WakeCall) ->
  adds f = k \/ Z.of_nat k + 2 ^ 32 <= Z.of_nat (adds f).
Proof.
  intros Hs Ho Hr Hi Hw.
  assert (one_waiter (threads f) /\ sleep_ok f) as [_ Hok].
  { pose proof Hr as Hr'. unfold futex_reachable in Hr'. revert f Hr' Hr Hi Hw.
    intros f Hr' _ _ _. revert f Hr'. refine (rtc_ind_r (fun f => one_waiter (threads f) /\ sleep_ok f) (new_AtomicFutex ts) _ _).
    - split; [done|]. intros x e' k' Hx. cbn in Hx. by destruct (Forall_lookup_1 _ _ _ _ Hs Hx).
    - intros x y Hx (a & b & Hst) [Hox Hsx]. split; [|eapply sleep_step; try done; by apply (futex_inv_reachable ts)].
      intros c d Hc Hd. apply Hox; [by rewrite <- (futex_step_waits _ _ _ _ c Hst)|by rewrite <- (futex_step_waits _ _ _ _ d Hst)]. }
  destruct (Hok i e k Hi) as [?|[[j Hj]|?]]; [by left|by destruct (Hw j)|by right].
Qed.

(** ** A stolen wake *)

Definition futex_run (l : list (nat * nat)) (f : Futex) : option Futex := foldl (fun f ij => f ≫= futex_step ij.1 ij.2) (Some f) l.

(** The first waiter sleeps, the waker adds, the second waiter starts and sleeps, the kernel
    wakes the second, which finds nothing new: the first sleeps on a value that is gone. *)
Definition stolen : list (nat * nat) := [(0, 0); (0, 0); (2, 2); (1, 1); (1, 1); (2, 1); (1, 1); (1, 1)]%nat.

Example futex_stolen : (fun f => (futex_val f, threads f)) <$> futex_run stolen (new_AtomicFutex [WaitLoad; WaitLoad; WakeAdd]) =
  Some (1, [Asleep 0 0; Asleep 1 1; Woke]).
Proof. vm_compute. reflexivity. Qed.

(** One waiter is woken. *)
Example futex_woken : (fun f => threads f) <$> futex_run [(0, 0); (0, 0); (1, 1); (1, 0); (0, 0)]%nat (new_AtomicFutex [WaitLoad; WakeAdd]) =
  Some [Waited 0; Woke].
Proof. vm_compute. reflexivity. Qed.
