(* ===== verification/Clock.v ===== *)
(** * Clock: timestamps and the cycle timer

    Models [src/include/AstraLib/Time/timeNow.hpp] and [src/include/AstraLib/Time/timer.hpp].
    What the clocks and the hardware counters show is given to the functions: the
    nanoseconds of [system_clock], the counter ([rdtscp], or [cntvct_el0] on aarch64) at each
    read, and the frequency of the counter on aarch64. *)

From Stdlib Require Import SpecFloat.
From S2P Require Import Prelude FixedPoint.

(** ** [timeNow.hpp]: [duration_cast] drops the fraction. *)

Definition unixTimestampNS (now : Z) : Z := now.
Definition unixTimestampMS (now : Z) : Z := now ÷ 1000000.

(** ** [class Timer] *)

Definition billion : spec_float := double_of 1000000000.
Definition div (a b : spec_float) : spec_float := SFdiv 53 1024 a b.

(** A counter is an [uint64_t]; so is the difference of two reads. *)
Definition elapsed (from to : Z) : Z := wrapU 64 (to - from).

Record Timer := { startTime : Z; ghz : spec_float }.

(** [setGHz]: the counter at both ends of one second, or the frequency. *)
Definition setGHz_x86 (t : Timer) (t1 t2 : Z) : Timer := {| startTime := startTime t; ghz := div (double_of (elapsed t1 t2)) billion |}.
Definition setGHz_aarch64 (t : Timer) (frequency : Z) : Timer := {| startTime := startTime t; ghz := div (double_of frequency) billion |}.

Definition start (t : Timer) (now : Z) : Timer := {| startTime := now; ghz := ghz t |}.
Definition getTimeCycles (t : Timer) (now : Z) : Z := elapsed (startTime t) now.
Definition getTimeNs (t : Timer) (now : Z) : spec_float := div (double_of (getTimeCycles t now)) (ghz t).

(** What [write] prints after its label: cycles, nanoseconds, microseconds. *)
Definition write (t : Timer) (now : Z) : Z * spec_float * spec_float :=
  let cycles := getTimeCycles t now in
  let ns := div (double_of cycles) (ghz t) in
  let us := div ns (double_of 1000) in
  (cycles, ns, us).

(** The counter after [n] more ticks. *)
Definition counter (c n : Z) : Z := wrapU 64 (c + n).

(** The timer counts the ticks since [start], also over a wrap-around of the counter, as
    long as they fit 64 bits; starting again forgets what was before. *)
Theorem timer_cycles t c n m : 0 <= n < 2 ^ 64 ->
  getTimeCycles (start t c) (counter c n) = n /\ getTimeCycles (start (start t m) c) (counter c n) = n.
Proof.
  intros Hn. unfold getTimeCycles, start, elapsed, counter, wrapU. cbn [startTime]. split.
  all: rewrite Zminus_mod_idemp_l, Z.add_simpl_l; by apply Z.mod_small.
Qed.

(** A millisecond timestamp is the last whole millisecond, and never runs backwards. *)
Theorem timestamp_ms a b : 0 <= a <= b ->
  unixTimestampMS a <= unixTimestampMS b /\ unixTimestampMS a * 1000000 <= unixTimestampNS a < (unixTimestampMS a + 1) * 1000000.
Proof.
  intros Hab. unfold unixTimestampMS, unixTimestampNS. rewrite !Z.quot_div_nonneg by lia. split.
  - apply Z.div_le_mono; lia.
  - pose proof (Z.div_mod a 1000000). pose proof (Z.mod_pos_bound a 1000000). lia.
Qed.

(** 3 GHz: 6000 cycles are 2000 ns, 2 microseconds, also when the counter wraps in between. *)
Example timer_reads : let t := start (setGHz_x86 {| startTime := 0; ghz := S754_nan |} (2 ^ 64 - 1000) 2999999000) (2 ^ 64 - 1) in
  write t 5999 = (6000, double_of 2000, double_of 2).
Proof. vm_compute. reflexivity. Qed.

(** The generic timer of aarch64 at 24 MHz counts ticks, 24 a microsecond. *)
Example ticks_read : let t := start (setGHz_aarch64 {| startTime := 0; ghz := S754_nan |} 24000000) 100 in
  getTimeCycles t 124 = 24 /\ getTimeNs t 124 = double_of 1000.
Proof. vm_compute. split; reflexivity. Qed.
