(* ===== verification/ThreadPool.v ===== *)
(** * ThreadPool: a dispatcher and its workers

    Models [src/include/AstraLib/Threading/ThreadPool.hpp]: [ThreadGate], [Worker] and
    [ThreadPool], as threads whose single reads and writes interleave (sequential
    consistency). [act a p] is the next step of thread [a]; [None] when it is blocked in
    [waiter] or [join], or has nothing to do. The task queue, an [AtomicRingBuffer] of 1024, is the list its
    own development ([RingBuffer], [RingConc]) shows it to be. Tasks are values of a type [T], and calling one records it in
    [executed]; a task that throws ends the process and is not modelled. *)

From S2P Require Import Prelude.

(** Where a worker stands in [thread_loop]. *)
Inductive wpc := WCheck | WWait | WTask | WClear | WReset | WFree | WExited.

Section Pool.
  Context {T : Type}.

Record Worker := {
  flag : bool;              (** the gate's flag is 1 *)
  task : option T;
  poolFlag : bool;
  wrunning : bool;
  wat : wpc;
}.

(** Where the dispatcher stands in [taskDispatcher]. *)
Inductive dpc :=
  | DCheck
  | DWait
  | DInner
  | DScan (t : T)
  | DAssign (t : T)
  | DSignal
  | DEmpty
  | DReset
  | DRecheck
  | DResignal
  | DExited.

(** Where [~ThreadPool] stands; the workers are destroyed last to first. *)
Inductive dtor_pc :=
  | Alive
  | Stopping
  | Joining
  | KillRunning (i : nat)
  | KillSignal (i : nat)
  | KillJoin (i : nat)
  | Destroyed.

Record Pool := {
  taskFlag : bool;
  taskQueue : list T;
  running : bool;
  id : nat;                 (** [lastIdDispatched] *)
  dat : dpc;
  threads : list Worker;
  callers : nat;            (** calls of [assignTask] that have enqueued and not signalled *)
  dtor : dtor_pc;
  assigned : list T;
  executed : list T;
}.

Definition QUEUE_CAPACITY : nat := 1024.

(** ** ThreadGate *)

Definition gate_signaler (w : Worker) : Worker := {| flag := true; task := task w; poolFlag := poolFlag w; wrunning := wrunning w; wat := wat w |}.
Definition gate_reset (w : Worker) : Worker := {| flag := false; task := task w; poolFlag := poolFlag w; wrunning := wrunning w; wat := wat w |}.

Definition set_task (w : Worker) (t : option T) : Worker := {| flag := flag w; task := t; poolFlag := poolFlag w; wrunning := wrunning w; wat := wat w |}.
Definition set_poolFlag (w : Worker) (b : bool) : Worker := {| flag := flag w; task := task w; poolFlag := b; wrunning := wrunning w; wat := wat w |}.
Definition set_wrunning (w : Worker) (b : bool) : Worker := {| flag := flag w; task := task w; poolFlag := poolFlag w; wrunning := b; wat := wat w |}.
Definition goto (w : Worker) (l : wpc) : Worker := {| flag := flag w; task := task w; poolFlag := poolFlag w; wrunning := wrunning w; wat := l |}.

Definition new_Worker : Worker := {| flag := false; task := None; poolFlag := false; wrunning := true; wat := WCheck |}.

(** One step of [thread_loop], with the task it calls if it does. *)
Definition thread_loop (w : Worker) : option (Worker * option T) :=
  match wat w with
  | WCheck => Some (goto w (if wrunning w then WWait else WExited), None)
  | WWait => if flag w then Some (goto w WTask, None) else None
  | WTask => match task w with Some t => Some (goto w WClear, Some t) | None => Some (goto w WCheck, None) end
  | WClear => Some (goto (set_task w None) WReset, None)
  | WReset => Some (goto (gate_reset w) WFree, None)
  | WFree => Some (goto (set_poolFlag w false) WCheck, None)
  | WExited => None
  end.

(** ** Updates of the pool *)

Section Updates.
  Variable p : Pool.

Definition set_dat (f : bool) (l : dpc) : Pool := {| taskFlag := f; taskQueue := taskQueue p; running := running p; id := id p; dat := l; threads := threads p; callers := callers p; dtor := dtor p; assigned := assigned p; executed := executed p |}.
Definition set_taskQueue (q : list T) : Pool := {| taskFlag := taskFlag p; taskQueue := q; running := running p; id := id p; dat := dat p; threads := threads p; callers := callers p; dtor := dtor p; assigned := assigned p; executed := executed p |}.
Definition set_id (i : nat) : Pool := {| taskFlag := taskFlag p; taskQueue := taskQueue p; running := running p; id := i; dat := dat p; threads := threads p; callers := callers p; dtor := dtor p; assigned := assigned p; executed := executed p |}.
Definition set_worker (i : nat) (w : Worker) : Pool := {| taskFlag := taskFlag p; taskQueue := taskQueue p; running := running p; id := id p; dat := dat p; threads := <[i := w]> (threads p); callers := callers p; dtor := dtor p; assigned := assigned p; executed := executed p |}.
Definition set_callers (f : bool) (n : nat) : Pool := {| taskFlag := f; taskQueue := taskQueue p; running := running p; id := id p; dat := dat p; threads := threads p; callers := n; dtor := dtor p; assigned := assigned p; executed := executed p |}.
Definition set_dtor (r : bool) (d : dtor_pc) : Pool := {| taskFlag := taskFlag p; taskQueue := taskQueue p; running := r; id := id p; dat := dat p; threads := threads p; callers := callers p; dtor := d; assigned := assigned p; executed := executed p |}.
Definition add_assigned (t : T) : Pool := {| taskFlag := taskFlag p; taskQueue := taskQueue p; running := running p; id := id p; dat := dat p; threads := threads p; callers := callers p; dtor := dtor p; assigned := assigned p ++ [t]; executed := executed p |}.
Definition add_executed (o : option T) : Pool := {| taskFlag := taskFlag p; taskQueue := taskQueue p; running := running p; id := id p; dat := dat p; threads := threads p; callers := callers p; dtor := dtor p; assigned := assigned p; executed := executed p ++ option_list o |}.
End Updates.

Definition new_ThreadPool (n : nat) : Pool :=
  {| taskFlag := false; taskQueue := []; running := true; id := 0; dat := DCheck; threads := replicate n new_Worker;
     callers := 0; dtor := Alive; assigned := []; executed := [] |}.

(** ** The threads *)

Definition next_id (p : Pool) : nat := (id p + 1) mod length (threads p).

(** [compare_exchange_strong(expected, 1)] on the flag of worker [id]. *)
Definition scan_free (p : Pool) : bool :=
  match threads p !! id p with Some w => negb (poolFlag w) | None => false end.

(** One step of the dispatcher. The first round over the workers and the endless rounds
    after it are the same loop body. *)
Definition taskDispatcher (p : Pool) : option Pool :=
  let go := set_dat p (taskFlag p) in
  match dat p with
  | DCheck => Some (go (if running p then DWait else DExited))
  | DWait => if taskFlag p then Some (go DInner) else None
  | DInner =>
      match taskQueue p with
      | t :: q => Some (if running p then set_dat (set_taskQueue p q) (taskFlag p) (DScan t) else go DEmpty)
      | [] => Some (go DEmpty)
      end
  | DScan t =>
      w ← threads p !! id p;
      Some (if poolFlag w then set_id p (next_id p)
            else set_dat (set_worker p (id p) (set_poolFlag w true)) (taskFlag p) (DAssign t))
  | DAssign t => w ← threads p !! id p; Some (set_dat (set_worker p (id p) (set_task w (Some t))) (taskFlag p) DSignal)
  | DSignal => w ← threads p !! id p; Some (set_dat (set_id (set_worker p (id p) (gate_signaler w)) (next_id p)) (taskFlag p) DInner)
  | DEmpty => Some (go (match taskQueue p with [] => DReset | _ => DCheck end))
  | DReset => Some (set_dat p false DRecheck)
  | DRecheck => Some (go (match taskQueue p with [] => DCheck | _ => DResignal end))
  | DResignal => Some (set_dat p true DCheck)
  | DExited => None
  end.

(** One step of [~ThreadPool]; [~Worker] of worker [i] is [KillRunning i] to [KillJoin i]. *)
Definition destructor (p : Pool) : option Pool :=
  match dtor p with
  | Alive => if (callers p =? 0)%nat then Some (set_dtor p false Stopping) else None
  | Stopping => Some (set_dat (set_dtor p (running p) Joining) true (dat p))
  | Joining => match dat p with DExited => Some (set_dtor p (running p) (KillRunning (length (threads p) - 1))) | _ => None end
  | KillRunning i => w ← threads p !! i; Some (set_dtor (set_worker p i (set_wrunning w false)) (running p) (KillSignal i))
  | KillSignal i => w ← threads p !! i; Some (set_dtor (set_worker p i (gate_signaler w)) (running p) (KillJoin i))
  | KillJoin i =>
      w ← threads p !! i;
      match wat w with
      | WExited => Some (set_dtor p (running p) (match i with O => Destroyed | S j => KillRunning j end))
      | _ => None
      end
  | Destroyed => None
  end.

Inductive thread :=
  | Assign (t : T)          (** [assignTask] up to its enqueue, which waits for room *)
  | Signal                  (** its [taskGate.signaler()] *)
  | Dispatcher
  | WorkerThread (i : nat)
  | Destructor.

Definition act (a : thread) (p : Pool) : option Pool :=
  match a with
  | Assign t =>
      match dtor p with
      | Alive => if (length (taskQueue p) <? QUEUE_CAPACITY)%nat
                 then Some (set_callers (add_assigned (set_taskQueue p (taskQueue p ++ [t])) t) (taskFlag p) (S (callers p))) else None
      | _ => None
      end
  | Signal => match callers p with S n => Some (set_callers p true n) | O => None end
  | Dispatcher => taskDispatcher p
  | WorkerThread i =>
      w ← threads p !! i;
      '(w', o) ← thread_loop w;
      Some (add_executed (set_worker p i w') o)
  | Destructor => destructor p
  end.

Inductive step : Pool -> Pool -> Prop :=
  | step_act a p p' : act a p = Some p' -> step p p'.

Definition reachable (n : nat) (p : Pool) : Prop := rtc step (new_ThreadPool n) p.
End Pool.
#[global] Arguments Worker : clear implicits.
#[global] Arguments Pool : clear implicits.
#[global] Arguments dpc : clear implicits.
#[global] Arguments thread : clear implicits.

(** ** Invariants *)

Section Inv.
  Context {T : Type}.
  Implicit Types (p : Pool T) (w : Worker T).

(** The task a worker was handed and has not called. *)
Definition held w : list T := match wat w with WClear => [] | _ => option_list (task w) end.

(** The task in the dispatcher's hands. *)
Definition carried p : list T := match dat p with DScan t | DAssign t => [t] | _ => [] end.

Definition pending p : list T := taskQueue p ++ carried p ++ concat (held <$> threads p).

(** A free worker, one that was handed a task, and one that has not been woken for the
    task it was given. *)
Definition idle w : Prop :=
  task w = None /\ (flag w = true -> wrunning w = false) /\ (wrunning w = true -> wat w = WCheck \/ wat w = WWait) /\
  wat w <> WClear /\ wat w <> WReset /\ wat w <> WFree.

Definition given w : Prop := flag w = false /\ task w <> None /\ (wat w = WCheck \/ wat w = WWait).

Definition busy w : Prop :=
  match wat w with
  | WCheck | WWait | WTask | WClear => flag w = true /\ task w <> None
  | WReset => task w = None
  | WFree => task w = None /\ (flag w = true -> wrunning w = false)
  | WExited => True
  end.

(** The worker the dispatcher is handing a task to, before and after it has stored it. *)
Definition hand p (i : nat) : option bool :=
  match dat p with
  | DAssign _ => if (i =? id p)%nat then Some false else None
  | DSignal => if (i =? id p)%nat then Some true else None
  | _ => None
  end.

(** The workers not yet told to stop. *)
Definition living (d : dtor_pc) (i : nat) : bool :=
  match d with
  | Alive | Stopping | Joining => true
  | KillRunning j => (i <=? j)%nat
  | KillSignal j | KillJoin j => (i <? j)%nat
  | Destroyed => false
  end.

Record worker_inv (h : option bool) (d : dtor_pc) (i : nat) w : Prop := {
  wk_state : match h with
    | Some false => poolFlag w = true /\ idle w
    | Some true => poolFlag w = true /\ given w
    | None => if poolFlag w then busy w else idle w
    end;
  wk_running : wrunning w = living d i;
  wk_exited : wat w = WExited -> wrunning w = false;
  wk_woken : d = KillJoin i -> wat w = WWait -> flag w = true;
}.

Record pool_inv (n : nat) p : Prop := {
  pi_threads : length (threads p) = n;
  pi_id : (id p < n)%nat;
  pi_all : assigned p ≡ₚ executed p ++ pending p;
  pi_flag : match dat p with DInner | DScan _ | DAssign _ | DSignal | DEmpty | DReset => taskFlag p = true | _ => True end;
  pi_wake : match dat p with DCheck | DWait => taskQueue p <> [] -> taskFlag p = true \/ (0 < callers p)%nat | _ => True end;
  pi_running : running p = match dtor p with Alive => true | _ => false end;
  pi_exited : dat p = DExited -> running p = false;
  pi_joined : match dtor p with Alive | Stopping => True | Joining => dat p = DWait -> taskFlag p = true | _ => dat p = DExited end;
  pi_callers : dtor p <> Alive -> callers p = 0%nat;
  pi_kill : match dtor p with KillRunning j | KillSignal j | KillJoin j => (j < n)%nat | _ => True end;
  pi_workers : forall i w, threads p !! i = Some w -> worker_inv (hand p i) (dtor p) i w;
}.

Lemma loop_inv h d i w w' o : worker_inv h d i w -> (h <> None -> living d i = true) -> thread_loop w = Some (w', o) ->
  worker_inv h d i w' /\ poolFlag w' = (poolFlag w && match wat w with WFree => false | _ => true end).
Proof.
  intros [Hs Hr Hx Hw] Hh. destruct w as [f t pf r l]. unfold thread_loop, given, idle, busy in *. cbn in *.
  destruct l; [|destruct f|destruct t|..]; intros [= <- <-]; cbn in *; (split; [|by rewrite ?andb_true_r, ?andb_false_r]); split; cbn in *;
    unfold given, idle, busy in *; cbn in *; try done;
    destruct h as [[]|]; try destruct pf; try destruct r; try specialize (Hh ltac:(done)); try (intuition congruence);
    intros ->; unfold living in Hr; by rewrite Nat.ltb_irrefl in Hr.
Qed.

(** ** What is still to run *)

Lemma held_insert (ws : list (Worker T)) i w w' : ws !! i = Some w ->
  exists rest, concat (held <$> ws) ≡ₚ held w ++ rest /\ concat (held <$> <[i := w']> ws) ≡ₚ held w' ++ rest.
Proof.
  intros E. exists (concat (held <$> (take i ws ++ drop (S i) ws))).
  rewrite (insert_take_drop _ _ _ (lookup_lt_Some _ _ _ E)). rewrite <-(take_drop_middle ws i w E) at 1.
  rewrite !fmap_app, !concat_app. cbn. split; by rewrite !(assoc_L (++)), (Permutation_app_comm (concat (held <$> take i ws))).
Qed.

Lemma held_same (ws : list (Worker T)) i w w' : ws !! i = Some w -> held w' = held w ->
  concat (held <$> <[i := w']> ws) = concat (held <$> ws).
Proof. intros E Hh. rewrite list_fmap_insert, Hh, list_insert_id; [done|]. by rewrite list_lookup_fmap, E. Qed.

Lemma loop_held w w' o : thread_loop w = Some (w', o) -> held w ≡ₚ option_list o ++ held w'.
Proof.
  destruct w as [f t pf r l]. unfold thread_loop, held. cbn.
  destruct l; [|destruct f|destruct t|..]; intros [= <- <-]; cbn; try done. by destruct r.
Qed.

(** ** Every step preserves the invariant *)

Lemma dispatcher_living n p : pool_inv n p -> dat p <> DExited -> (dtor p = Alive \/ dtor p = Stopping \/ dtor p = Joining).
Proof. intros [] Hd. destruct (dtor p); auto; congruence. Qed.

Lemma insert_workers p i w w' (P : nat -> Worker T -> Prop) :
  (forall j v, threads p !! j = Some v -> j <> i -> P j v) -> P i w' -> threads p !! i = Some w ->
  forall j v, <[i := w']> (threads p) !! j = Some v -> P j v.
Proof.
  intros Ho Hi E j v Hj. destruct (decide (i = j)) as [<-|Hn].
  - rewrite list_lookup_insert_eq in Hj; [by injection Hj as <-|by eapply lookup_lt_Some].
  - rewrite list_lookup_insert_ne in Hj by done. by apply Ho.
Qed.

Lemma init_inv n : (0 < n)%nat -> pool_inv n (new_ThreadPool n).
Proof.
  intros Hn. split; cbn; try done; [apply length_replicate| |].
  - rewrite fmap_replicate. by induction n as [|[|n] IH]; [done| |apply IH; lia].
  - intros i w [-> _]%lookup_replicate. split; cbn; try done. unfold idle. cbn. split_and!; auto; done.
Qed.

Lemma assign_inv n t p p' : act (Assign t) p = Some p' -> pool_inv n p -> pool_inv n p'.
Proof.
  unfold act. destruct (dtor p) eqn:Ed; try done. destruct (_ <? QUEUE_CAPACITY)%nat; [|done]. intros [= <-] [].
  split; cbn; try done.
  - unfold pending in *. cbn. rewrite pi_all0. unfold carried. cbn. solve_Permutation.
  - destruct (dat p); try done; right; lia.
Qed.

Lemma signal_inv n p p' : act Signal p = Some p' -> pool_inv n p -> pool_inv n p'.
Proof.
  cbn. destruct (callers p) as [|m] eqn:Ec; [done|]. intros [= <-] [].
  assert (Ea : dtor p = Alive) by (destruct (dtor p); try done; specialize (pi_callers0 ltac:(done)); congruence).
  split; cbn; try done; rewrite ?Ea in *; try done.
  - by destruct (dat p).
  - destruct (dat p); auto.
Qed.

Lemma worker_inv_step n i p p' : act (WorkerThread i) p = Some p' -> pool_inv n p -> pool_inv n p'.
Proof.
  cbn. destruct (threads p !! i) as [w|] eqn:Ew; cbn; [|done].
  destruct (thread_loop w) as [[w' o]|] eqn:El; cbn; [|done]. intros [= <-] Hi. pose proof Hi as [].
  split; cbn; try done.
  - by rewrite length_insert.
  - destruct (held_insert _ _ _ w' Ew) as (rest & H1 & H2). unfold pending, carried in *. cbn in *.
    rewrite pi_all0, H1, H2, (loop_held _ _ _ El). solve_Permutation.
  - apply (insert_workers p i w w' (fun j => worker_inv (hand p j) (dtor p) j)); [by auto| |done].
    refine (proj1 (loop_inv _ _ _ _ _ _ (pi_workers0 _ _ Ew) _ El)). intros Hh. unfold hand in Hh.
    destruct (dispatcher_living n p Hi) as [-> | [-> | ->]]; try done. intros E. by rewrite E in Hh.
Qed.

Lemma id_next n p : (0 < n)%nat -> length (threads p) = n -> (next_id p < n)%nat.
Proof. intros Hn <-. apply Nat.mod_upper_bound. lia. Qed.

(** Moves of the dispatcher with no task in its hands. *)
Definition plain (l : dpc T) : bool := match l with DScan _ | DAssign _ | DSignal => false | _ => true end.

Lemma goto_inv n p f l : pool_inv n p -> dat p <> DExited -> plain (dat p) = true -> plain l = true ->
  (match l with DInner | DEmpty | DReset => f = true | _ => True end) ->
  (match l with DCheck | DWait => taskQueue p <> [] -> f = true \/ (0 < callers p)%nat | _ => True end) ->
  (l = DExited -> running p = false) -> (l = DWait -> running p = true) -> pool_inv n (set_dat p f l).
Proof.
  intros Hi Hx Hp Hl Hf Hw He Hr. pose proof (dispatcher_living n p Hi Hx) as Hd. destruct Hi as [].
  assert (Hh : forall l i, plain l = true -> hand (set_dat p f l) i = None) by (intros []; done).
  assert (Hh' : forall i, hand p i = None) by (intros i; unfold hand; by destruct (dat p)).
  split; cbn; try done.
  - unfold pending, carried in *. cbn. destruct (dat p), l; done.
  - by destruct l.
  - destruct Hd as [E1 | [E1 | E1]]; rewrite E1 in *; try done. intros E. specialize (Hr E). congruence.
  - intros i w E. rewrite Hh by done. rewrite <-(Hh' i). by apply pi_workers0.
Qed.

(** Moves that carry a task from the queue to a worker. *)
Lemma carry_inv n p p' : pool_inv n p -> dat p <> DExited -> taskFlag p' = true ->
  (assigned p' = assigned p /\ executed p' = executed p /\ running p' = running p /\ dtor p' = dtor p /\ callers p' = callers p /\
   length (threads p') = length (threads p)) ->
  (id p' < n)%nat -> match dat p' with DInner | DScan _ | DAssign _ | DSignal => true | _ => false end = true ->
  pending p' ≡ₚ pending p ->
  (forall i w, threads p' !! i = Some w -> worker_inv (hand p' i) (dtor p) i w) -> pool_inv n p'.
Proof.
  intros Hi Hx Hf (E1 & E2 & E3 & E4 & E5 & E6) Hid Hl Hpe Hw. pose proof (dispatcher_living n p Hi Hx) as Hd. destruct Hi as [].
  split; rewrite ?E1, ?E2, ?E3, ?E4, ?E5, ?E6; try done.
  - by rewrite Hpe.
  - by destruct (dat p').
  - by destruct (dat p').
  - by destruct (dat p').
  - by destruct Hd as [-> | [-> | ->]].
Qed.

(** Handing over: the flag taken, the task stored, the worker woken. *)
Lemma take_worker w d i : worker_inv None d i w -> poolFlag w = false -> worker_inv (Some false) d i (set_poolFlag w true).
Proof. intros [Hs ? ? ?] Hf. rewrite Hf in Hs. by split. Qed.

Lemma give_worker w t d i : worker_inv (Some false) d i w -> living d i = true -> worker_inv (Some true) d i (set_task w (Some t)).
Proof.
  intros [[Hf (Ht & Hg & Hw & _)] Hr Hx Hk] Hl. split; cbn; try done. rewrite Hr, Hl in *. split; [done|].
  unfold given. cbn. split_and!; [|done|by apply Hw]. destruct (flag w); [|done]. by specialize (Hg eq_refl).
Qed.

Lemma wake_worker w d i : worker_inv (Some true) d i w -> worker_inv None d i (gate_signaler w).
Proof.
  intros [[Hf (Ht & Hg & Hw)] Hr Hx Hk]. split; cbn; try done. rewrite Hf. unfold busy. cbn. by destruct Hw as [-> | ->].
Qed.

Lemma dispatcher_inv n p p' : act Dispatcher p = Some p' -> pool_inv n p -> pool_inv n p'.
Proof.
  intros E Hi. pose proof Hi as []. cbn in E. unfold taskDispatcher in E.
  assert (Hnx := id_next n p ltac:(lia) pi_threads0).
  destruct (dat p) as [| | |t|t| | | | | |] eqn:Ed; [..|done].
  - injection E as <-. apply goto_inv; rewrite ?Ed; try done; by destruct (running p).
  - destruct (taskFlag p) eqn:Ef; [|done]. injection E as <-. by apply goto_inv; rewrite ?Ed.
  - destruct (taskQueue p) as [|t q] eqn:Eq; [injection E as <-; by apply goto_inv; rewrite ?Ed|].
    destruct (running p) eqn:Er; injection E as <-; [|by apply goto_inv; rewrite ?Ed].
    apply (carry_inv n p); rewrite ?Ed; try done.
    + unfold pending, carried. cbn. rewrite Ed, Eq. solve_Permutation.
    + intros i w Ew. specialize (pi_workers0 i w Ew). unfold hand in *. cbn. by rewrite Ed in pi_workers0.
  - destruct (threads p !! id p) as [w|] eqn:Ew; cbn in E; [|done].
    destruct (poolFlag w) eqn:Ef; injection E as <-.
    + apply (carry_inv n p); cbn; rewrite ?Ed; try done. 
      intros i v Ev. specialize (pi_workers0 i v Ev). unfold hand in *. cbn. by rewrite Ed in *.
    + apply (carry_inv n p); cbn; rewrite ?Ed, ?length_insert; try done.
      * unfold pending, carried. cbn. by rewrite Ed, (held_same _ _ _ _ Ew).
      * unfold hand in *. cbn. rewrite Ed in pi_workers0. apply (insert_workers p (id p) w _ (fun j => worker_inv (if (j =? id p)%nat then Some false else None) (dtor p) j));
          [|rewrite Nat.eqb_refl; apply take_worker; [by apply pi_workers0|done]|done].
        intros j v Ev Hn. rewrite (proj2 (Nat.eqb_neq _ _) Hn). by apply pi_workers0.
  - destruct (threads p !! id p) as [w|] eqn:Ew; cbn in E; [|done]. injection E as <-.
    pose proof (pi_workers0 _ _ Ew) as Hw. unfold hand in Hw, pi_workers0. rewrite Ed in Hw, pi_workers0. rewrite Nat.eqb_refl in Hw.
    apply (carry_inv n p); cbn; rewrite ?Ed, ?length_insert; try done.
    + destruct (held_insert _ _ _ (set_task w (Some t)) Ew) as (rest & H1 & H2). unfold pending, carried. cbn. rewrite Ed, H1, H2.
      destruct Hw as [(_ & Ht & _ & _ & Hc & _) _ _ _]. unfold held. cbn. rewrite Ht. destruct (wat w); try done.
    + unfold hand in *. cbn. apply (insert_workers p (id p) w _ (fun j => worker_inv (if (j =? id p)%nat then Some true else None) (dtor p) j));
        [|rewrite Nat.eqb_refl; apply give_worker; [exact Hw|]|done].
      * intros j v Ev Hn. rewrite (proj2 (Nat.eqb_neq _ _) Hn). specialize (pi_workers0 _ _ Ev).
        by rewrite (proj2 (Nat.eqb_neq _ _) Hn) in pi_workers0.
      * by destruct (dispatcher_living n p Hi) as [-> | [-> | ->]]; [congruence|..].
  - destruct (threads p !! id p) as [w|] eqn:Ew; cbn in E; [|done]. injection E as <-.
    pose proof (pi_workers0 _ _ Ew) as Hw. unfold hand in Hw, pi_workers0. rewrite Ed in Hw, pi_workers0. rewrite Nat.eqb_refl in Hw.
    apply (carry_inv n p); cbn; rewrite ?Ed, ?length_insert; try done.
    + unfold pending, carried. cbn. by rewrite Ed, (held_same _ _ _ _ Ew).
    + unfold hand. cbn. apply (insert_workers p (id p) w _ (worker_inv None (dtor p))); [|by apply wake_worker|done].
      intros j v Ev Hn. specialize (pi_workers0 _ _ Ev). by rewrite (proj2 (Nat.eqb_neq _ _) Hn) in pi_workers0.
  - injection E as <-. destruct (taskQueue p) eqn:Eq; apply goto_inv; rewrite ?Ed; auto; done.
  - injection E as <-. by apply goto_inv; rewrite ?Ed.
  - injection E as <-. destruct (taskQueue p) eqn:Eq; apply goto_inv; rewrite ?Ed, ?Eq; done.
  - injection E as <-. apply goto_inv; rewrite ?Ed; auto; done.
Qed.

Lemma worker_dtor h d d' i w : worker_inv h d i w -> living d' i = living d i -> (d' <> KillJoin i) -> worker_inv h d' i w.
Proof. intros [] E Hn. by split; rewrite ?E. Qed.

(** [~Worker]: told to stop, then woken. *)
Lemma stop_worker k w : worker_inv None (KillRunning k) k w -> worker_inv None (KillSignal k) k (set_wrunning w false).
Proof.
  intros [Hs Hr Hx Hk]. split; cbn [poolFlag wrunning wat flag set_wrunning]; try done; [|by unfold living; rewrite Nat.ltb_irrefl].
  destruct (poolFlag w); [unfold busy in *; cbn; destruct (wat w); intuition|].
  unfold idle in *. cbn. intuition congruence.
Qed.

Lemma signal_worker k w : worker_inv None (KillSignal k) k w -> worker_inv None (KillJoin k) k (gate_signaler w).
Proof.
  intros [Hs Hr Hx Hk]. split; cbn [poolFlag wrunning wat flag gate_signaler]; try done.
  unfold living in Hr. rewrite Nat.ltb_irrefl in Hr.
  destruct (poolFlag w); [unfold busy in *; cbn; destruct (wat w); intuition|].
  unfold idle in *. cbn. intuition congruence.
Qed.

Lemma destructor_inv n p p' : act Destructor p = Some p' -> pool_inv n p -> pool_inv n p'.
Proof.
  intros E Hi. pose proof Hi as []. cbn in E. unfold destructor in E.
  destruct (dtor p) as [| | |k|k|k|] eqn:Ed; [..|done].
  - destruct (callers p =? 0)%nat eqn:Ec; [|done]. injection E as <-. apply Nat.eqb_eq in Ec. split; cbn; try done; try (intros _; by apply pi_callers0).
    intros i w Ew. eapply worker_dtor; [by apply pi_workers0|done|done].
  - injection E as <-. split; cbn; try done; try (intros _; by apply pi_callers0).
    + by destruct (dat p).
    + destruct (dat p); auto.
    + intros i w Ew. eapply worker_dtor; [by apply pi_workers0|done|done].
  - destruct (dat p) eqn:Ex; try done. injection E as <-. split; cbn; rewrite ?Ex; try done; try (intros _; by apply pi_callers0); [lia|].
    intros i w Ew. eapply worker_dtor; [by apply pi_workers0| |done]. cbn. apply Nat.leb_le. apply lookup_lt_Some in Ew. lia.
  - destruct (threads p !! k) as [w|] eqn:Ew; cbn in E; [|done]. injection E as <-.
    assert (Hh : forall j, hand p j = None) by (intros j; unfold hand; by rewrite pi_joined0).
    split; cbn; rewrite ?length_insert, ?pi_joined0; try done; try (intros _; by apply pi_callers0).
    + unfold pending, carried in *. cbn. by rewrite (held_same _ _ _ _ Ew).
    + unfold hand. cbn. rewrite pi_joined0. apply (insert_workers p k w _ (worker_inv None (KillSignal k))); [| |done].
      * intros j v Ev Hn. eapply worker_dtor; [rewrite <-(Hh j); by apply pi_workers0| |done].
        unfold living. destruct (Nat.ltb_spec j k), (Nat.leb_spec j k); try done; lia.
      * apply stop_worker. rewrite <-(Hh k). by apply pi_workers0.
  - destruct (threads p !! k) as [w|] eqn:Ew; cbn in E; [|done]. injection E as <-.
    assert (Hh : forall j, hand p j = None) by (intros j; unfold hand; by rewrite pi_joined0).
    split; cbn; rewrite ?length_insert, ?pi_joined0; try done; try (intros _; by apply pi_callers0).
    + unfold pending, carried in *. cbn. by rewrite (held_same _ _ _ _ Ew).
    + unfold hand. cbn. rewrite pi_joined0. apply (insert_workers p k w _ (worker_inv None (KillJoin k))); [| |done].
      * intros j v Ev Hn. eapply worker_dtor; [rewrite <-(Hh j); by apply pi_workers0|done|congruence].
      * apply signal_worker. rewrite <-(Hh k). by apply pi_workers0.
  - destruct (threads p !! k) as [w|] eqn:Ew; cbn in E; [|done]. destruct (wat w); try done. injection E as <-.
    split; cbn; try done; try (intros _; by apply pi_callers0); try (by destruct k).
    + destruct k; [done|]. lia.
    + intros i v Ev. eapply worker_dtor; [by apply pi_workers0| |by destruct k]. by destruct k.
Qed.

Lemma reachable_pool n p : (0 < n)%nat -> reachable n p -> pool_inv n p.
Proof.
  intros Hn. apply (rtc_ind_r (pool_inv n)); [by apply init_inv|].
  intros x y _ [a ? ? E] Hi. destruct a; eauto using assign_inv, signal_inv, dispatcher_inv, worker_inv_step, destructor_inv.
Qed.

(** ** Progress *)

(** A failed [compare_exchange] of the dispatcher, the only step that does nothing but
    move on to the next worker. *)
Definition spin p p' : Prop := (exists t, dat p = DScan t) /\ scan_free p = false /\ act Dispatcher p = Some p'.

(** Any other step of the pool's own: neither a new task nor a destruction begun. *)
Definition internal p (a : thread T) : Prop :=
  match a with Assign _ => False | Destructor => dtor p <> Alive | Dispatcher => (forall t, dat p = DScan t -> scan_free p = true) | _ => True end.
Definition advance p p' : Prop := exists a, internal p a /\ act a p = Some p'.

Definition can_advance p : Prop := exists p1 p2, rtc spin p p1 /\ advance p1 p2.

Lemma advance_act p a p' : internal p a -> act a p = Some p' -> can_advance p.
Proof. intros Hi E. exists p, p'. split; [apply rtc_refl|by exists a]. Qed.

Lemma worker_can p i w : threads p !! i = Some w -> (wat w = WWait -> flag w = true) -> wat w <> WExited -> can_advance p.
Proof.
  intros Ew Hf Hx.
  destruct (thread_loop w) as [[w' o]|] eqn:El.
  2: { exfalso. unfold thread_loop in El. destruct (wat w); try done; [by rewrite Hf in El|by destruct (task w)]. }
  apply (advance_act p (WorkerThread i) (add_executed (set_worker p i w') o)); [done|]. cbn. by rewrite Ew; cbn; rewrite El.
Qed.

Lemma busy_can p i w : threads p !! i = Some w -> worker_inv None (dtor p) i w -> living (dtor p) i = true ->
  task w <> None \/ poolFlag w = true -> can_advance p.
Proof.
  intros Ew [Hs Hr Hx Hk] Hl Ht. rewrite Hl in Hr. eapply worker_can; [done| |intros E; by rewrite Hx in Hr].
  intros E. destruct (poolFlag w); [unfold busy in Hs; rewrite E in Hs; by destruct Hs|].
  destruct Hs as (? & _). by destruct Ht.
Qed.

Lemma scan_reaches n t d p w : dat p = DScan t -> length (threads p) = n -> (id p < n)%nat ->
  threads p !! ((id p + d) mod n)%nat = Some w -> poolFlag w = false ->
  exists p1, rtc spin p p1 /\ dat p1 = DScan t /\ scan_free p1 = true.
Proof.
  revert p. induction d as [|d IH]; intros p Hd Hn Hi Ew Hf.
  - exists p. split_and!; [apply rtc_refl|done|]. rewrite Nat.add_0_r, Nat.mod_small in Ew by done.
    unfold scan_free. by rewrite Ew, Hf.
  - destruct (scan_free p) eqn:Es; [exists p; split_and!; [apply rtc_refl|done|done]|].
    destruct (IH (set_id p (next_id p))) as (p1 & H1 & H2 & H3); try done.
    + cbn. apply id_next; lia.
    + cbn. unfold next_id. rewrite Hn, Nat.Div0.add_mod_idemp_l. by rewrite <-Nat.add_assoc.
    + exists p1. split_and!; [|done|done]. eapply rtc_l; [|exact H1]. split_and!; [by exists t|done|].
      cbn. unfold taskDispatcher, scan_free in *. rewrite Hd.
      destruct (threads p !! id p) as [v|] eqn:Ev; [|apply lookup_ge_None in Ev; lia]. cbn.
      by destruct (poolFlag v).
Qed.

Lemma scan_can n t p : pool_inv n p -> dat p = DScan t -> can_advance p.
Proof.
  intros Hi Hd. pose proof (dispatcher_living n p Hi ltac:(congruence)) as Hl. destruct Hi as [].
  destruct (decide (Exists (fun w => poolFlag w = false) (threads p))) as [(w & Hin & Hf)%Exists_exists|Ha].
  - apply list_elem_of_lookup in Hin as [j Ej].
    pose proof (lookup_lt_Some _ _ _ Ej) as Hj.
    destruct (scan_reaches n t (n - id p + j) p w) as (p1 & H1 & H2 & H3); try done.
    { replace (id p + (n - id p + j))%nat with (j + 1 * n)%nat by lia. rewrite Nat.Div0.mod_add, Nat.mod_small by lia. done. }
    assert (exists p2, act Dispatcher p1 = Some p2) as [p2 E2].
    { unfold scan_free in H3. cbn. unfold taskDispatcher. rewrite H2. destruct (threads p1 !! id p1); [by eexists|done]. }
    exists p1, p2. split; [done|]. exists Dispatcher. split; [by intros ? _|done].
  - destruct (threads p !! 0%nat) as [w|] eqn:Ew; [|apply lookup_ge_None in Ew; lia].
    specialize (pi_workers0 _ _ Ew). unfold hand in pi_workers0. rewrite Hd in pi_workers0.
    eapply busy_can; [done|done|by destruct Hl as [-> | [-> | ->]]|]. right.
    destruct (poolFlag w) eqn:Ef; [done|]. destruct Ha. apply Exists_exists. exists w. split; [|done]. by eapply list_elem_of_lookup_2.
Qed.

Lemma pending_can n p : pool_inv n p -> dtor p = Alive -> dat p = DWait \/ dat p = DExited -> taskFlag p = false \/ dat p = DExited ->
  callers p = 0%nat -> pending p <> [] -> can_advance p.
Proof.
  intros [] Ha [Hd | Hd] Hf Hc Hp; [|rewrite pi_running0, Ha in pi_exited0; by specialize (pi_exited0 Hd)].
  destruct Hf as [Hf|]; [|congruence]. rewrite Hd, Hf, Hc in *.
  destruct (taskQueue p) as [|t q] eqn:Eq; [|destruct (pi_wake0 ltac:(done)); [done|lia]].
  unfold pending, carried in Hp. rewrite Hd, Eq in Hp. cbn in Hp.
  destruct (decide (Exists (fun w => held w <> []) (threads p))) as [(w & Hin & Hh)%Exists_exists|Hn].
  - apply list_elem_of_lookup in Hin as [j Ej]. specialize (pi_workers0 _ _ Ej). unfold hand in pi_workers0. rewrite Hd in pi_workers0.
    eapply busy_can; [done|done|by rewrite Ha|]. left. intros E. unfold held in Hh. rewrite E in Hh. by destruct (wat w).
  - destruct Hp. clear -Hn. induction (threads p) as [|w ws IH]; [done|]. cbn.
    rewrite IH by (intros H; apply Hn; by right). destruct (held w) eqn:E; [done|]. destruct Hn. left. by rewrite E.
Qed.

Lemma dispatcher_can n p : pool_inv n p -> dat p <> DWait \/ taskFlag p = true -> dat p <> DExited -> can_advance p.
Proof.
  intros Hi Hw Hx. destruct (dat p) as [| | |t|t| | | | | |] eqn:Ed; try done; try (by eapply scan_can).
  all: try (eapply (advance_act p Dispatcher); [intros ? ?; congruence|cbn; unfold taskDispatcher; rewrite Ed; done]).
  - destruct Hw as [?|Hw]; [done|].
    eapply (advance_act p Dispatcher); [intros ? ?; congruence|cbn; unfold taskDispatcher; rewrite Ed, Hw; done].
  - destruct (taskQueue p) eqn:Eq; eapply (advance_act p Dispatcher); try (intros ? ?; congruence);
      cbn; unfold taskDispatcher; rewrite Ed, Eq; done.
  - destruct (threads p !! id p) as [w|] eqn:Ew; [|apply lookup_ge_None in Ew; destruct Hi; lia].
    eapply (advance_act p Dispatcher); [intros ? ?; congruence|cbn; unfold taskDispatcher; rewrite Ed, Ew; done].
  - destruct (threads p !! id p) as [w|] eqn:Ew; [|apply lookup_ge_None in Ew; destruct Hi; lia].
    eapply (advance_act p Dispatcher); [intros ? ?; congruence|cbn; unfold taskDispatcher; rewrite Ed, Ew; done].
Qed.

Lemma destructor_can n p : pool_inv n p -> dtor p <> Alive -> dtor p <> Destroyed -> can_advance p.
Proof.
  intros Hi Ha Hd. pose proof Hi as [].
  assert (Hgo : forall p', destructor p = Some p' -> can_advance p) by (intros p' E; by apply (advance_act p Destructor p')).
  unfold destructor in Hgo. destruct (dtor p) as [| | |k|k|k|] eqn:Ed; try done.
  - by eapply Hgo.
  - destruct (dat p) eqn:E; try (apply (dispatcher_can n); [done|rewrite E; auto|congruence]). by eapply Hgo.
  - destruct (threads p !! k) as [w|] eqn:Ew; [by eapply Hgo|apply lookup_ge_None in Ew; lia].
  - destruct (threads p !! k) as [w|] eqn:Ew; [by eapply Hgo|apply lookup_ge_None in Ew; lia].
  - destruct (threads p !! k) as [w|] eqn:Ew; [|apply lookup_ge_None in Ew; lia]. cbn in Hgo.
    destruct (wat w) eqn:El; try (eapply worker_can; [done|congruence|congruence]); [|by eapply Hgo].
    eapply worker_can; [done| |congruence]. intros _. by apply (wk_woken _ _ _ _ (pi_workers0 _ _ Ew)).
Qed.
End Inv.

(** ** Theorems *)

(** C29 No task is lost or run twice: at any moment, also during and after the pool's
    destruction, the tasks that were assigned are those that have been called, each once,
    and those that wait in the queue, in the dispatcher's hands or with a worker. *)
Theorem pool_runs_once {T} n (p : Pool T) (Hn : (0 < n)%nat) (H : reachable n p) :
  assigned p ≡ₚ executed p ++ pending p.
Proof. by apply (reachable_pool n) in H as []. Qed.


(** ** Two workers *)

Section Demo.
Definition run_threads (l : list (thread nat)) (p : Pool nat) : option (Pool nat) := foldl (fun r a => r ≫= act a) (Some p) l.

Lemma run_threads_reachable n l p p' : reachable n p -> run_threads l p = Some p' -> reachable n p'.
Proof.
  revert p. induction l as [|a l IH]; intros p Hp E; [by injection E as <-|].
  unfold run_threads in E. cbn in E. destruct (act a p) as [p1|] eqn:E1.
  - apply (IH p1); [|exact E]. eapply rtc_r; [exact Hp|by eapply step_act].
  - exfalso. clear -E. by induction l.
Qed.

Definition pool_trace : list (thread nat) :=
  [Dispatcher; WorkerThread 0; WorkerThread 1; Assign 7%nat; Assign 8%nat; Signal; Signal] ++ replicate 9 Dispatcher ++
  replicate 5 (WorkerThread 1) ++ [WorkerThread 0].
Definition mid_pool : Pool nat := default (new_ThreadPool 2) (run_threads pool_trace (new_ThreadPool 2)).

Lemma mid_pool_reachable : reachable 2 mid_pool.
Proof. apply (run_threads_reachable 2 pool_trace (new_ThreadPool 2)); [apply rtc_refl|vm_compute; reflexivity]. Defined.

Example mid_pool_state : (assigned mid_pool, executed mid_pool, pending mid_pool) = ([7; 8], [8], [7])%nat.
Proof. vm_compute. reflexivity. Qed.

Lemma pool_runs_once_witness : assigned mid_pool ≡ₚ executed mid_pool ++ pending mid_pool.
Proof. apply (pool_runs_once 2); [lia|exact mid_pool_reachable]. Defined.

End Demo.
