(* ===== verification/DepthDecoder.v ===== *)
(** * DepthDecoder: a depth message becomes an event

    Models [struct DepthDecoder] of [src/api/orderbook/decodeEntries.hpp] over the
    abstract JSON reader. The [try] block is a computation in the error monad; whatever
    it throws is caught, so the decoder itself never fails. [None] is undefined
    behaviour (an access out of the slot's array). *)

From S2P Require Import Prelude FixedPoint Model Json ArrayHolder.

Section Decoder.
  Context {V : Type} `{Json V}.

(** The loop over the fields of one [price, quantity] pair: [values] and [fields]. *)
Fixpoint read_fields (fs : list (sj V)) (values : option Fixed * option Fixed) (fields : Z)
    : result (option Fixed * option Fixed * Z) :=
  match fs with
  | [] => Ok (values, fields)
  | f :: fs' =>
      values' ← (if fields <? 2 then
                   v ← value f; n ← readFixed (Val v);
                   mret (if fields =? 0 then (Some n, values.2) else (values.1, Some n))
                 else mret values : result _);
      read_fields fs' values' (fields + 1)
  end.

(** [values[i]] is indeterminate until it is read: [default 0] is never reached, as the
    pair is short then. *)
Definition entry_of (values : option Fixed * option Fixed) : Entry :=
  assignValues Entry_default (default 0 values.1) (default 0 values.2).

(** [readLevels]: the entries written to [out] in order, and the returned flag. *)
Fixpoint readLevels (levels : list (sj V)) (out : list Entry) (count : Z) : result (list Entry * Z * bool) :=
  match levels with
  | [] => Ok (out, count, true)
  | level :: levels' =>
      if DEPTH_EVENT_CAPACITY <=? count then Ok (out, count, false) else
      l ← value level; pair ← value (get_array l);
      '(values, fields) ← read_fields pair (None, None) 0;
      if fields <? 2 then Ok (out, count, false)
      else readLevels levels' (<[Z.to_nat count := entry_of values]> out) (count + 1)
  end.

(** [int64_t u = obj["u"].get_uint64().value()]: a conversion of a [uint64_t]. *)
Definition get_id (obj : V) (k : string) : result Z :=
  n ← value (field obj k ≫= get_uint64); mret (wrapS 64 n).

(** The [try] block. [bids] and [asks] are the slot's arrays; iterating an erroneous
    field throws as [value] does. [Ok None] is the return after a failed [readLevels]. *)
Definition decode_body (json : string) (slot : Z) (bids asks : list Entry) : result (option OrderbookArrays) :=
  doc ← value (iterate json);
  obj ← value (field doc "data" ≫= get_object);
  bs ← value (field obj "b" ≫= get_array);
  '(bids', bidCount, ok) ← readLevels bs bids 0;
  if negb (ok : bool) then mret None else
  as_ ← value (field obj "a" ≫= get_array);
  '(asks', askCount, ok) ← readLevels as_ asks 0;
  if negb (ok : bool) then mret None else
  u ← get_id obj "u"; U ← get_id obj "U"; pu ← get_id obj "pu";
  mret (Some {| bidArray := Some bids'; askArray := Some asks'; slot := slot;
                bidCount := bidCount; askCount := askCount; u := u; U := U; pu := pu |}).

(** [operator()]. [arrays] are the contents of the slots' arrays. *)
Definition decode (h : Holder) (arrays : Z -> list Entry * list Entry) (json : string)
    : option (Holder * OrderbookArrays) :=
  '(h1, slot) ← acquire h;
  if slot <? 0 then Some (h1, dropped_event) else
  let '(bids, asks) := arrays slot in
  match decode_body json slot bids asks with
  | Ok (Some ev) => Some (h1, ev)
  | Ok None | Throw _ => Some (release h1 slot, dropped_event)
  end.

(** ** What a decoded event guarantees *)

(** The reference reading of one side: exactly the pairs' prices and quantities. *)
Definition level_spec (level : sj V) (e : Entry) : Prop :=
  exists l p q rest, level = Val l /\ get_array l = Val (p :: q :: rest) /\
    readFixed p = Ok (price e) /\ readFixed q = Ok (volume e).

Lemma readFixed_value (f : sj V) n : (v ← value f; readFixed (Val v)) = Ok n -> readFixed f = Ok n.
Proof. by destruct f. Qed.

Lemma read_fields_rest fs : forall values k, 2 <= k -> read_fields fs values k = Ok (values, k + Z.of_nat (length fs)).
Proof.
  induction fs as [|f fs IH]; intros values k Hk; cbn [read_fields length]; [do 2 f_equal; lia|].
  replace (k <? 2) with false by zbool. cbn [mbind result_bind mret result_ret].
  rewrite IH by lia. do 2 f_equal. lia.
Qed.

Lemma read_fields_spec fs vals k : read_fields fs (None, None) 0 = Ok (vals, k) -> k <? 2 = false ->
  exists p q rest a b, fs = p :: q :: rest /\ vals = (Some a, Some b) /\ readFixed p = Ok a /\ readFixed q = Ok b.
Proof.
  destruct fs as [|p [|q rest]]; cbn [read_fields]; [by intros [= <- <-]| |].
  - destruct p as [p|]; [|done]. cbn. destruct (readFixed (Val p)) as [a|]; [|done]. cbn. intros [= <- <-]. done.
  - destruct p as [p|]; [|done]. cbn [value mbind result_bind Z.ltb Z.compare].
    destruct (readFixed (Val p)) as [a|] eqn:Ea; [|done]. cbn [mbind result_bind mret result_ret Z.eqb].
    destruct q as [q|]; [|done]. cbn [value mbind result_bind].
    destruct (readFixed (Val q)) as [b|] eqn:Eb; [|done].
    change (0 + 1 <? 2) with true. change (0 + 1 =? 0) with false. cbn [mbind result_bind mret result_ret].
    rewrite read_fields_rest by lia. intros [= <- <-] _. by exists (Val p), (Val q), rest, a, b.
Qed.

Lemma readLevels_spec levels : forall out count out' count', 0 <= count ->
  readLevels levels out count = Ok (out', count', true) ->
  Z.of_nat (length out) = DEPTH_EVENT_CAPACITY -> count <= DEPTH_EVENT_CAPACITY ->
  length out' = length out /\ count' = count + Z.of_nat (length levels) /\ count' <= DEPTH_EVENT_CAPACITY /\
  take (Z.to_nat count) out' = take (Z.to_nat count) out /\
  Forall2 level_spec levels (drop (Z.to_nat count) (take (Z.to_nat count') out')).
Proof.
  induction levels as [|level levels IH]; intros out count out' count' H0 Hr Hlen Hc; cbn [readLevels length] in *.
  - injection Hr as <- <-. split_and!; [done|lia|done|done|]. rewrite drop_ge; [constructor|]. rewrite length_take. lia.
  - destruct (Z.leb_spec DEPTH_EVENT_CAPACITY count) as [|Hlt]; [done|].
    apply result_bind_ok in Hr as (l & Hl%value_ok & Hr). apply result_bind_ok in Hr as (pair & Hp%value_ok & Hr).
    apply result_bind_ok in Hr as ([values fields] & Hf & Hr).
    destruct (fields <? 2) eqn:E; [done|].
    destruct (read_fields_spec _ _ _ Hf E) as (p & q & rest & a & b & -> & -> & Ha & Hb).
    apply IH in Hr as (H1 & H2 & H3 & H4 & H5); [|lia|by rewrite length_insert|lia].
    rewrite length_insert in H1. replace (Z.to_nat (count + 1)) with (S (Z.to_nat count)) in H4, H5 by lia.
    set (e := entry_of (Some a, Some b)) in *.
    assert (He : out' !! Z.to_nat count = Some e).
    { assert (take (S (Z.to_nat count)) out' !! Z.to_nat count = Some e) as Hx.
      { rewrite H4, lookup_take_lt by lia. apply list_lookup_insert_eq. lia. }
      by rewrite lookup_take_lt in Hx by lia. }
    split_and!; [done|lia|done| |].
    + apply (f_equal (take (Z.to_nat count))) in H4. rewrite !take_take in H4.
      rewrite Nat.min_l in H4 by lia. by rewrite take_insert_ge in H4 by lia.
    + rewrite (drop_S _ e (Z.to_nat count)) by (rewrite lookup_take_lt by lia; done).
      constructor; [|done]. by exists l, p, q, rest.
Qed.
(** Conversely, well-formed pairs that fit are accepted. *)
Lemma read_fields_pair p q rest a b : readFixed p = Ok a -> readFixed q = Ok b ->
  read_fields (p :: q :: rest) (None, None) 0 = Ok (Some a, Some b, 2 + Z.of_nat (length rest)).
Proof.
  intros Ha Hb. destruct p as [p|]; [|done]. destruct q as [q|]; [|done]. cbn [read_fields value mbind result_bind].
  rewrite Ha. change (0 <? 2) with true. change (0 + 1 <? 2) with true. cbn [mbind result_bind].
  change (0 =? 0) with true. change (0 + 1 =? 0) with false. rewrite Hb.
  cbn [mbind result_bind mret result_ret]. by rewrite read_fields_rest by lia.
Qed.

Definition levels_ok (levels : list (sj V)) : Prop :=
  Forall (fun l => exists e, level_spec l e) levels /\ Z.of_nat (length levels) <= DEPTH_EVENT_CAPACITY.

Lemma readLevels_complete levels : forall out count, 0 <= count ->
  Forall (fun l => exists e, level_spec l e) levels -> count + Z.of_nat (length levels) <= DEPTH_EVENT_CAPACITY ->
  exists out' count', readLevels levels out count = Ok (out', count', true).
Proof.
  induction levels as [|level levels IH]; intros out count H0 Hf Hc; cbn [readLevels length] in *; [by eexists _, _|].
  apply Forall_cons in Hf as [(e & l & p & q & rest & -> & Hl & Hp & Hq) Hf].
  replace (DEPTH_EVENT_CAPACITY <=? count) with false by zbool. cbn [value mbind result_bind]. rewrite Hl.
  cbn [value mbind result_bind]. rewrite (read_fields_pair _ _ _ _ _ Hp Hq). cbn [mbind result_bind].
  replace (2 + Z.of_nat (length rest) <? 2) with false by zbool. apply IH; [lia|done|lia].
Qed.

(** The parts of a depth message. *)
Record message (json : string) (bs as_ : list (sj V)) (u U pu : Z) : Prop := {
  m_doc : V;
  m_obj : V;
  m_iterate : iterate json = Val m_doc;
  m_data : field m_doc "data" ≫= get_object = Val m_obj;
  m_b : field m_obj "b" ≫= get_array = Val bs;
  m_a : field m_obj "a" ≫= get_array = Val as_;
  m_u : field m_obj "u" ≫= get_uint64 = Val u;
  m_U : field m_obj "U" ≫= get_uint64 = Val U;
  m_pu : field m_obj "pu" ≫= get_uint64 = Val pu;
}.

Lemma decode_body_complete json slot bids asks bs as_ u U pu : message json bs as_ u U pu ->
  levels_ok bs -> levels_ok as_ -> exists ev, decode_body json slot bids asks = Ok (Some ev).
Proof.
  intros [doc obj E1 E2 E3 E4 E5 E6 E7] [Hb Hbn] [Ha Han]. unfold decode_body, get_id.
  rewrite E1. cbn [value mbind result_bind]. rewrite E2. cbn [value mbind result_bind]. rewrite E3. cbn [value mbind result_bind].
  destruct (readLevels_complete bs bids 0 ltac:(lia) Hb ltac:(lia)) as (bo & bn & ->). cbn [mbind result_bind negb].
  rewrite E4. cbn [value mbind result_bind].
  destruct (readLevels_complete as_ asks 0 ltac:(lia) Ha ltac:(lia)) as (ao & an & ->). cbn [mbind result_bind negb].
  rewrite E5, E6, E7. cbn. by eexists.
Qed.

(** What an accepted body says. *)
Lemma decode_body_sound json slot_ bids asks ev :
  Z.of_nat (length bids) = DEPTH_EVENT_CAPACITY -> Z.of_nat (length asks) = DEPTH_EVENT_CAPACITY ->
  decode_body json slot_ bids asks = Ok (Some ev) ->
  slot ev = slot_ /\ exists bs as_ u' U' pu' bo ao, message json bs as_ u' U' pu' /\ levels_ok bs /\ levels_ok as_ /\
    u ev = wrapS 64 u' /\ U ev = wrapS 64 U' /\ pu ev = wrapS 64 pu' /\
    bidArray ev = Some bo /\ askArray ev = Some ao /\
    bidCount ev = Z.of_nat (length bs) /\ askCount ev = Z.of_nat (length as_) /\
    Forall2 level_spec bs (take (Z.to_nat (bidCount ev)) bo) /\
    Forall2 level_spec as_ (take (Z.to_nat (askCount ev)) ao).
Proof.
  intros Hlb Hla Ed. unfold decode_body, get_id in Ed.
  apply result_bind_ok in Ed as (doc & E1%value_ok & Ed). apply result_bind_ok in Ed as (obj & E2%value_ok & Ed).
  apply result_bind_ok in Ed as (bs & E3%value_ok & Ed). apply result_bind_ok in Ed as ([[bids' nb] okb] & Hb & Ed).
  destruct okb; cbn [negb] in Ed; [|done].
  apply result_bind_ok in Ed as (as_ & E4%value_ok & Ed). apply result_bind_ok in Ed as ([[asks' na] oka] & Hao & Ed).
  destruct oka; cbn [negb] in Ed; [|done].
  apply result_bind_ok in Ed as (? & (u' & E5%value_ok & [= <-])%result_bind_ok & Ed).
  apply result_bind_ok in Ed as (? & (U' & E6%value_ok & [= <-])%result_bind_ok & Ed).
  apply result_bind_ok in Ed as (? & (pu' & E7%value_ok & [= <-])%result_bind_ok & Ed). injection Ed as <-.
  apply readLevels_spec in Hb as (_ & -> & Hbc & _ & Hbf); [|lia|done|unfold DEPTH_EVENT_CAPACITY; lia].
  apply readLevels_spec in Hao as (_ & -> & Hac & _ & Haf); [|lia|done|unfold DEPTH_EVENT_CAPACITY; lia].
  rewrite drop_0 in Hbf, Haf. split; [done|]. exists bs, as_, u', U', pu', bids', asks'. cbn.
  assert (forall ls es, Forall2 level_spec ls es -> Forall (fun l => exists e, level_spec l e) ls) as Hall.
  { intros ls es Hf. induction Hf; constructor; eauto. }
  split_and!; try done; try (split; [by eapply Hall|lia]). by eapply (Build_message _ _ _ _ _ _ doc obj).
Qed.
End Decoder.

(** C22 The decoder always returns, and never leaks a slot. A live event owns the slot
    just acquired, its ids are those of the message and its counted entries are exactly
    the pairs of the message's ["b"] and ["a"] arrays, in order. The event is dropped
    only if no slot was free or the message is not such a depth message within the
    capacity, and then the slot is back with the holder. *)
Theorem decode_correct {V} `{Json V} h arrays json :
  (forall s, Z.of_nat (length (arrays s).1) = DEPTH_EVENT_CAPACITY /\ Z.of_nat (length (arrays s).2) = DEPTH_EVENT_CAPACITY) ->
  Forall (fun s => 0 <= s) (freeSlots h) -> freeCount h = Z.of_nat (length (freeSlots h)) ->
  exists h' ev, decode h arrays json = Some (h', ev) /\
  if dropped ev
  then slot ev < 0 /\ freeSlots h' ≡ₚ freeSlots h /\ freeCount h' = freeCount h /\
    (freeCount h = 0 \/ forall bs as_ u U pu, message json bs as_ u U pu -> levels_ok bs -> levels_ok as_ -> False)
  else freeSlots h = slot ev :: freeSlots h' /\ freeCount h' = freeCount h - 1 /\
    exists bs as_ u' U' pu' bids asks, message json bs as_ u' U' pu' /\ levels_ok bs /\ levels_ok as_ /\
      u ev = wrapS 64 u' /\ U ev = wrapS 64 U' /\ pu ev = wrapS 64 pu' /\
      bidArray ev = Some bids /\ askArray ev = Some asks /\
      bidCount ev = Z.of_nat (length bs) /\ askCount ev = Z.of_nat (length as_) /\
      Forall2 level_spec bs (take (Z.to_nat (bidCount ev)) bids) /\
      Forall2 level_spec as_ (take (Z.to_nat (askCount ev)) asks).
Proof.
  intros Harr Hpos Hcnt. unfold decode, acquire. destruct (Z.eqb_spec (freeCount h) 0) as [E|Hne].
  { cbn. do 2 eexists. split; [done|]. cbn. split_and!; [lia|done|done|by left]. }
  destruct (freeSlots h) as [|s r] eqn:Hfs; [cbn in Hcnt; lia|]. cbn [mbind option_bind].
  inversion Hpos as [|? ? Hs _]; subst. replace (s <? 0) with false by zbool.
  destruct (arrays s) as [bids asks] eqn:Ea. specialize (Harr s) as [Hlb Hla]. rewrite Ea in Hlb, Hla. cbn in Hlb, Hla.
  assert (Hdrop : (forall ev, decode_body json s bids asks <> Ok (Some ev)) ->
    forall bs as_ u U pu, message json bs as_ u U pu -> levels_ok bs -> levels_ok as_ -> False).
  { intros Hn bs as_ u' U' pu' Hm Hb Ha. destruct (decode_body_complete json s bids asks _ _ _ _ _ Hm Hb Ha) as [ev Hev].
    by destruct (Hn ev). }
  destruct (decode_body json s bids asks) as [[ev|]|x] eqn:Ed; do 2 eexists; (split; [done|]).
  - destruct (decode_body_sound _ _ _ _ _ Hlb Hla Ed) as (<- & Hsp). destruct Hsp as (bs & as_ & u' & U' & pu' & bo & ao & Hsp).
    assert (dropped ev = false) as -> by (unfold dropped; by rewrite (proj1 (proj2 (proj2 (proj2 (proj2 (proj2 (proj2 Hsp)))))))).
    split_and!; [done|done|]. by exists bs, as_, u', U', pu', bo, ao.
  - cbn. split_and!; [lia|by rewrite Permutation_app_comm|lia|]. right. by apply Hdrop.
  - cbn. split_and!; [lia|by rewrite Permutation_app_comm|lia|]. right. by apply Hdrop.
Qed.

(** A message with one bid and no ask. *)
Definition demo_text : string := "msg".
Definition demo_tree : JV :=
  JObj [("data"%string, JObj [("b"%string, JArr [JArr [JStr "1.5"; JStr "2"]]); ("a"%string, JArr []);
                              ("u"%string, JInt 11); ("U"%string, JInt 9); ("pu"%string, JInt 8)])].
Definition demo_arrays (s : Z) : list Entry * list Entry :=
  let a := replicate (Z.to_nat DEPTH_EVENT_CAPACITY) Entry_default in (a, a).

Lemma decode_correct_witness :
  let J := JV_Json [(demo_text, demo_tree)] in
  exists h' ev, decode new_holder demo_arrays demo_text = Some (h', ev) /\ dropped ev = false /\
    freeSlots new_holder = slot ev :: freeSlots h'.
Proof.
  intros J. destruct (decode_correct new_holder demo_arrays demo_text) as (h' & ev & Hd & Hres).
  - intros s. vm_compute. split; reflexivity.
  - apply Forall_forall. intros s Hs%elem_of_seqZ. lia.
  - reflexivity.
  - assert (Hl : dropped ev = false) by (vm_compute in Hd; injection Hd as <- <-; reflexivity).
    exists h', ev. rewrite Hl in Hres. split; [exact Hd|]. split; [exact Hl|]. apply Hres.
Defined.
