(* ===== verification/BookFeed.v ===== *)
(** * BookFeed: a depth message on its way to the book thread

    [DepthDecoder::operator()] runs on the stream thread and the book thread reads the
    slot it filled, through the pointers of the event, with nothing but the ring and the
    slot holder between them. Here both threads run against the shared memory of the
    slots, one access at a time: the decoder writes a level per step, the event that is
    buffered carries pointers, and the book thread looks at the slot for as long as it
    holds the event.

    DepthDecoder and Orderbook treat an event as a value. [feed_faithful] is what entitles
    them to: the value an event had when it was taken is what [decode_body] makes of its
    message, and it does not change until the slot is released. *)

From S2P Require Import Prelude FixedPoint Model Json ArrayHolder DepthDecoder.

(** [class OrderbookArrays] as the ring carries it: [bidPtr] and [askPtr] are the slots
    whose arrays the pointers designate. *)
Record Event := {
  bidPtr : option Z;
  askPtr : option Z;
  ev_slot : Z;
  ev_bids : Z;
  ev_asks : Z;
  ev_u : Z;
  ev_U : Z;
  ev_pu : Z;
}.

Definition dropped_ptr : Event :=
  {| bidPtr := None; askPtr := None; ev_slot := -1; ev_bids := 0; ev_asks := 0; ev_u := 0; ev_U := 0; ev_pu := 0 |}.

(** The arrays of every slot. *)
Definition Memory : Type := Z -> list Entry * list Entry.

(** What dereferencing the pointers yields. *)
Definition value_of (m : Memory) (e : Event) : OrderbookArrays :=
  {| bidArray := (fun x => (m x).1) <$> bidPtr e; askArray := (fun x => (m x).2) <$> askPtr e;
     slot := ev_slot e; bidCount := ev_bids e; askCount := ev_asks e; u := ev_u e; U := ev_U e; pu := ev_pu e |}.

(** The slot an event owns. *)
Definition owns (e : Event) : list Z := if 0 <=? ev_slot e then [ev_slot e] else [].

(** [out[count] = entry] in one array of slot [x]. *)
Definition store (m : Memory) (x : Z) (isBid : bool) (n : Z) (e : Entry) : Memory := fun y =>
  if decide (y = x) then
    if isBid then (<[Z.to_nat n := e]> (m x).1, (m x).2) else ((m x).1, <[Z.to_nat n := e]> (m x).2)
  else m y.

(** Where the decoder is between two accesses to what it shares. [obj] is the message's
    ["data"], [levels] the pairs of a side still to be read, [n] the levels stored. *)
Inductive ppc (V : Type) :=
  | PIdle
  | PLoad                                                        (** [freeCount.load()] *)
  | PSub                                                         (** [freeCount.fetch_sub(1)] *)
  | PDequeue                                                     (** [freeSlots.dequeue()] *)
  | PParse (x : Z)
  | PBids (x : Z) (obj : V) (levels : list (sj V)) (n : Z)
  | PAsks (x : Z) (obj : V) (levels : list (sj V)) (nb n : Z)
  | PIds (x : Z) (obj : V) (nb na : Z)
  | PFail (x : Z)                                                (** [freeSlots.enqueue(slot)] *)
  | PUncount                                                     (** [freeCount.fetch_add(1)] *)
  | PReturn (e : Event).
Arguments PIdle {V}.
Arguments PLoad {V}.
Arguments PSub {V}.
Arguments PDequeue {V}.
Arguments PParse {V} _.
Arguments PBids {V} _ _ _ _.
Arguments PAsks {V} _ _ _ _ _.
Arguments PIds {V} _ _ _ _.
Arguments PFail {V} _.
Arguments PUncount {V}.
Arguments PReturn {V} _.

(** The book thread: no event, one being looked at, its slot enqueued but not counted. *)
Inductive bpc := BIdle | BHold (e : Event) | BUncount.

Record Feed (V : Type) := {
  mem : Memory;
  freeRing : list Z;              (** [freeSlots] *)
  freeCnt : Z;                    (** [freeCount] *)
  buffered : list Event;          (** the stream's [bufferOut] *)
  prod : ppc V;
  book : bpc;
  given : list string;            (** the messages given to the decoder *)
  starved : list nat;             (** the ones that found no slot *)
  seen : list OrderbookArrays;    (** what the book thread took, as values *)
}.
Arguments mem {V} _.
Arguments freeRing {V} _.
Arguments freeCnt {V} _.
Arguments buffered {V} _.
Arguments prod {V} _.
Arguments book {V} _.
Arguments given {V} _.
Arguments starved {V} _.
Arguments seen {V} _.

Section Stream.
  Context {V : Type} `{Json V}.
  Implicit Types f : Feed V.

Definition goto f (p : ppc V) : Feed V :=
  {| mem := mem f; freeRing := freeRing f; freeCnt := freeCnt f; buffered := buffered f; prod := p; book := book f;
     given := given f; starved := starved f; seen := seen f |}.
Definition set_mem f (m : Memory) : Feed V :=
  {| mem := m; freeRing := freeRing f; freeCnt := freeCnt f; buffered := buffered f; prod := prod f; book := book f;
     given := given f; starved := starved f; seen := seen f |}.
Definition set_free f (r : list Z) (n : Z) : Feed V :=
  {| mem := mem f; freeRing := r; freeCnt := n; buffered := buffered f; prod := prod f; book := book f;
     given := given f; starved := starved f; seen := seen f |}.
Definition set_buffered f (q : list Event) : Feed V :=
  {| mem := mem f; freeRing := freeRing f; freeCnt := freeCnt f; buffered := q; prod := prod f; book := book f;
     given := given f; starved := starved f; seen := seen f |}.
Definition set_book f (b : bpc) (l : list OrderbookArrays) : Feed V :=
  {| mem := mem f; freeRing := freeRing f; freeCnt := freeCnt f; buffered := buffered f; prod := prod f; book := b;
     given := given f; starved := starved f; seen := l |}.
Definition set_given f (l : list string) (s : list nat) : Feed V :=
  {| mem := mem f; freeRing := freeRing f; freeCnt := freeCnt f; buffered := buffered f; prod := prod f; book := book f;
     given := l; starved := s; seen := seen f |}.

(** The message being decoded. *)
Definition current f : string := default ""%string (last (given f)).

(** [parser.iterate(json)], ["data"] and ["b"]. *)
Definition open_message (json : string) : result (V * list (sj V)) :=
  doc ← value (iterate json);
  obj ← value (field doc "data" ≫= get_object);
  bs ← value (field obj "b" ≫= get_array);
  mret (obj, bs).

(** One turn of the loop of [readLevels]: [None] is its [return false]. *)
Definition read_level (level : sj V) : result (option Entry) :=
  l ← value level; pair ← value (get_array l);
  '(values, fields) ← read_fields pair (None, None) 0;
  mret (if fields <? 2 then None else Some (entry_of values)).

Definition read_ids (obj : V) : result (Z * Z * Z) :=
  u ← get_id obj "u"; U ← get_id obj "U"; pu ← get_id obj "pu"; mret (u, U, pu).

(** The next access of the decoder; [None]: it has nothing to do, or waits on the ring. *)
Definition decode_step f : option (Feed V) :=
  match prod f with
  | PIdle | PReturn _ => None
  | PLoad =>
      Some (if freeCnt f =? 0
            then goto (set_given f (given f) (starved f ++ [pred (length (given f))])) (PReturn dropped_ptr)
            else goto f PSub)
  | PSub => Some (goto (set_free f (freeRing f) (freeCnt f - 1)) PDequeue)
  | PDequeue =>
      match freeRing f with
      | x :: r => Some (goto (set_free f r (freeCnt f)) (PParse x))
      | [] => None
      end
  | PParse x =>
      Some (goto f (match open_message (current f) with Ok (obj, bs) => PBids x obj bs 0 | Throw _ => PFail x end))
  | PBids x obj [] n =>
      Some (goto f (match value (field obj "a" ≫= get_array) with Ok as_ => PAsks x obj as_ n 0 | Throw _ => PFail x end))
  | PBids x obj (level :: levels) n =>
      Some (if DEPTH_EVENT_CAPACITY <=? n then goto f (PFail x) else
            match read_level level with
            | Ok (Some e) => goto (set_mem f (store (mem f) x true n e)) (PBids x obj levels (n + 1))
            | _ => goto f (PFail x)
            end)
  | PAsks x obj [] nb n => Some (goto f (PIds x obj nb n))
  | PAsks x obj (level :: levels) nb n =>
      Some (if DEPTH_EVENT_CAPACITY <=? n then goto f (PFail x) else
            match read_level level with
            | Ok (Some e) => goto (set_mem f (store (mem f) x false n e)) (PAsks x obj levels nb (n + 1))
            | _ => goto f (PFail x)
            end)
  | PIds x obj nb na =>
      Some (goto f (match read_ids obj with
                    | Ok (u, U, pu) => PReturn {| bidPtr := Some x; askPtr := Some x; ev_slot := x; ev_bids := nb;
                                                  ev_asks := na; ev_u := u; ev_U := U; ev_pu := pu |}
                    | Throw _ => PFail x
                    end))
  | PFail x => Some (goto (set_free f (freeRing f ++ [x]) (freeCnt f)) PUncount)
  | PUncount => Some (goto (set_free f (freeRing f) (freeCnt f + 1)) (PReturn dropped_ptr))
  end.

(** The book thread takes an event ([nextUpdate]) and releases it. *)
Definition take_event f : option (Feed V) :=
  match book f, buffered f with
  | BIdle, e :: q => Some (set_book (set_buffered f q) (BHold e) (seen f ++ [value_of (mem f) e]))
  | _, _ => None
  end.

Definition book_step f : option (Feed V) :=
  match book f with
  | BIdle => None
  | BHold e =>
      Some (if 0 <=? ev_slot e then set_book (set_free f (freeRing f ++ [ev_slot e]) (freeCnt f)) BUncount (seen f)
            else set_book f BIdle (seen f))
  | BUncount => Some (set_book (set_free f (freeRing f) (freeCnt f + 1)) BIdle (seen f))
  end.

(** The stream thread calls the decoder on [json], and buffers what it returned. *)
Definition start f (json : string) : option (Feed V) :=
  match prod f with PIdle => Some (goto (set_given f (given f ++ [json]) (starved f)) PLoad) | _ => None end.
Definition push f : option (Feed V) :=
  match prod f with PReturn e => Some (goto (set_buffered f (buffered f ++ [e])) PIdle) | _ => None end.

Inductive label := LStart (json : string) | LDecode | LPush | LTake | LBook.

Definition fstep (l : label) f : option (Feed V) :=
  match l with
  | LStart json => start f json
  | LDecode => decode_step f
  | LPush => push f
  | LTake => take_event f
  | LBook => book_step f
  end.

(** The arrays hold whatever they hold when the program starts. *)
Definition new_feed (m : Memory) : Feed V :=
  {| mem := m; freeRing := freeSlots new_holder; freeCnt := freeCount new_holder; buffered := []; prod := PIdle;
     book := BIdle; given := []; starved := []; seen := [] |}.

Definition full (es : list Entry) : Prop := Z.of_nat (length es) = DEPTH_EVENT_CAPACITY.
Definition full_memory (m : Memory) : Prop := forall x, full (m x).1 /\ full (m x).2.

Definition reachable f : Prop :=
  exists m, full_memory m /\ rtc (fun a b => exists l, fstep l a = Some b) (new_feed m) f.

(** ** The slots: a refinement of the slot holder's protocol *)

Definition prod_owns (p : ppc V) : list Z :=
  match p with
  | PParse x | PBids x _ _ _ | PAsks x _ _ _ _ | PIds x _ _ _ | PFail x => [x]
  | PReturn e => owns e
  | _ => []
  end.
Definition book_owns (b : bpc) : list Z := match b with BHold e => owns e | _ => [] end.
Definition in_flight f : list Z := prod_owns (prod f) ++ (buffered f ≫= owns) ++ book_owns (book f).

Definition holder_pc (p : ppc V) : Conc.acq_pc :=
  match p with PSub => Conc.ALoaded | PDequeue => Conc.ASubbed | _ => Conc.AIdle end.
Definition releasing f : nat :=
  ((match prod f with PUncount => 1 | _ => 0 end) + (match book f with BUncount => 1 | _ => 0 end))%nat.

(** The slot holder as the two threads use it. *)
Record simulates (f : Feed V) (s : Conc.st) : Prop := {
  sim_ring : Conc.ring s = freeRing f;
  sim_count : Conc.count s = freeCnt f;
  sim_pc : Conc.pc s = holder_pc (prod f);
  sim_pending : Conc.pending s = releasing f;
  sim_owned : Conc.owned s ≡ₚ in_flight f;
}.

Lemma owned_range s x : Conc.inv s -> x ∈ Conc.owned s -> 0 <= x < SLOTS.
Proof.
  intros [Hs _ _] Hx. assert (x ∈ Conc.ring s ++ Conc.owned s) as Hin by (apply elem_of_app; by right).
  rewrite Hs, elem_of_seqZ in Hin. lia.
Qed.

Lemma owns_live x e : 0 <= x -> ev_slot e = x -> owns e = [x].
Proof. intros Hx <-. unfold owns. by replace (0 <=? ev_slot e) with true by zbool. Qed.

(** Handing [x] back: the enqueue of [release]. *)
Lemma holder_enqueue s x o : Conc.owned s ≡ₚ x :: o ->
  exists s', Conc.step s s' /\ Conc.ring s' = Conc.ring s ++ [x] /\ Conc.count s' = Conc.count s /\
    Conc.pc s' = Conc.pc s /\ Conc.pending s' = S (Conc.pending s) /\ Conc.owned s' ≡ₚ o.
Proof.
  intros Hp. assert (x ∈ Conc.owned s) as (o1 & o2 & E)%list_elem_of_split by (rewrite Hp; by left).
  eexists. split; [by apply (Conc.release_enqueue s o1 x o2)|]. cbn. split_and!; try done.
  rewrite E in Hp. rewrite <- Permutation_middle in Hp. by eapply Permutation_cons_inv.
Qed.

Lemma holder_uncount s n : Conc.pending s = S n ->
  exists s', Conc.step s s' /\ Conc.ring s' = Conc.ring s /\ Conc.count s' = Conc.count s + 1 /\
    Conc.pc s' = Conc.pc s /\ Conc.pending s' = n /\ Conc.owned s' = Conc.owned s.
Proof. intros E. eexists. split; [by apply (Conc.release_count s n)|]. done. Qed.

(** Steps that leave the holder alone. *)
Definition same_holder f f' : Prop :=
  freeRing f' = freeRing f /\ freeCnt f' = freeCnt f /\ holder_pc (prod f') = holder_pc (prod f) /\
  releasing f' = releasing f /\ in_flight f' ≡ₚ in_flight f.

Lemma simulates_same f f' s : simulates f s -> same_holder f f' -> simulates f' s.
Proof. intros [] (E0 & E & E1 & E2 & E3). split; try congruence. by rewrite E3. Qed.

(** Between the accesses to the holder the decoder only moves from a state that owns a
    slot to another. *)
Definition working (p : ppc V) (x : Z) : Prop := holder_pc p = Conc.AIdle /\ prod_owns p = [x] /\ p <> PUncount.

Lemma same_working f f' x : freeRing f' = freeRing f -> freeCnt f' = freeCnt f -> buffered f' = buffered f ->
  book f' = book f -> working (prod f) x -> working (prod f') x -> same_holder f f'.
Proof.
  intros E1 E2 E3 E4 (Ha & Hb & Hc) (Ha' & Hb' & Hc'). split_and!; try congruence.
  - unfold releasing. rewrite E4. by destruct (prod f), (prod f').
  - unfold in_flight. by rewrite Hb, Hb', E3, E4.
Qed.

Lemma decode_simulates f f' s : Conc.inv s -> simulates f s -> decode_step f = Some f' ->
  exists s', rtc Conc.step s s' /\ simulates f' s'.
Proof.
  intros Hi Hs Hst. pose proof (sim_owned _ _ Hs) as Ho.
  assert (forall g : Feed V, same_holder f g -> exists s', rtc Conc.step s s' /\ simulates g s') as Hsame.
  { intros g Hg. exists s. split; [apply rtc_refl|]. by apply (simulates_same f). }
  unfold decode_step in Hst. destruct (prod f) eqn:Ep; simplify_eq.
  - destruct (Z.eqb_spec (freeCnt f) 0) as [E|E].
    + apply Hsame. split_and!; try done; unfold releasing, in_flight; cbn; by rewrite Ep.
    + destruct Hs as [E1 E2 E3 E4 E5]. rewrite Ep in E3.
      eexists. split; [apply rtc_once, Conc.acquire_load; [done|congruence]|].
      split; cbn; try done; unfold releasing, in_flight in *; cbn in *; by rewrite Ep in *.
  - destruct Hs as [E1 E2 E3 E4 E5]. rewrite Ep in E3. eexists. split; [by apply rtc_once, Conc.acquire_sub|].
    split; cbn; try congruence; unfold releasing, in_flight in *; cbn in *; by rewrite Ep in *.
  - destruct (freeRing f) as [|x r] eqn:Er; simplify_eq. destruct Hs as [E1 E2 E3 E4 E5]. rewrite Ep in E3.
    eexists. split; [by apply rtc_once, (Conc.acquire_dequeue s x r); [|congruence]|].
    split; cbn; try congruence; unfold releasing, in_flight in *; cbn in *; rewrite Ep in *; [done|].
    cbn in E5. by rewrite E5.
  - apply Hsame, (same_working _ _ x); try done; rewrite ?Ep; [done|]. by destruct (open_message _) as [[]|].
  - destruct levels as [|level levels]; simplify_eq; apply Hsame.
    + apply (same_working _ _ x); try done; rewrite ?Ep; [done|]. cbn. by destruct (value _).
    + destruct (_ <=? _); [|destruct (read_level _) as [[]|]]; apply (same_working _ _ x); try done; by rewrite Ep.
  - destruct levels as [|level levels]; simplify_eq; apply Hsame.
    + apply (same_working _ _ x); try done; by rewrite Ep.
    + destruct (_ <=? _); [|destruct (read_level _) as [[]|]]; apply (same_working _ _ x); try done; by rewrite Ep.
  - assert (0 <= x < SLOTS) as Hx.
    { apply (owned_range s); [done|]. rewrite Ho. unfold in_flight. rewrite Ep. by left. }
    apply Hsame, (same_working _ _ x); try done; rewrite ?Ep; [done|]. destruct (read_ids _) as [[[]]|]; [|done].
    split_and!; try done. by apply owns_live; [lia|].
  - unfold in_flight in Ho. rewrite Ep in Ho. destruct Hs as [E1 E2 E3 E4 _]. rewrite Ep in E3.
    destruct (holder_enqueue s x _ Ho) as (s' & Hs' & F1 & F2 & F3 & F4 & F5).
    exists s'. split; [by apply rtc_once|]. split; cbn; try congruence.
    + by rewrite F3, E3.
    + rewrite F4, E4. unfold releasing. by rewrite Ep.
  - destruct Hs as [E1 E2 E3 E4 E5]. unfold releasing in E4. rewrite Ep in E3, E4.
    destruct (holder_uncount s _ E4) as (s' & Hs' & F1 & F2 & F3 & F4 & F5).
    exists s'. split; [by apply rtc_once|]. unfold in_flight in E5. rewrite Ep in E5. split; cbn; try congruence; [by rewrite F3, E3|by rewrite F5, E5].
Qed.

Lemma feed_simulates l f f' s : Conc.inv s -> simulates f s -> fstep l f = Some f' ->
  exists s', rtc Conc.step s s' /\ simulates f' s'.
Proof.
  intros Hi Hs Hst. destruct l as [json| | | |]; cbn [fstep] in Hst.
  - exists s. split; [apply rtc_refl|]. unfold start in Hst. destruct (prod f) eqn:Ep; simplify_eq.
    apply (simulates_same f); [done|]. split_and!; try done; unfold releasing, in_flight; cbn; by rewrite Ep.
  - by apply (decode_simulates f).
  - exists s. split; [apply rtc_refl|]. unfold push in Hst. destruct (prod f) eqn:Ep; simplify_eq.
    apply (simulates_same f); [done|]. split_and!; try done; unfold releasing, in_flight; cbn; rewrite Ep; [done..|].
    rewrite bind_app. cbn. rewrite app_nil_r. cbn. solve_Permutation.
  - exists s. split; [apply rtc_refl|]. unfold take_event in Hst. destruct (book f) eqn:Eb; simplify_eq.
    destruct (buffered f) as [|e q] eqn:Eq; simplify_eq. apply (simulates_same f); [done|].
    split_and!; try done; unfold releasing, in_flight; cbn; rewrite Eb, ?Eq; [done|]. cbn. solve_Permutation.
  - unfold book_step in Hst. destruct Hs as [E1 E2 E3 E4 E5]. unfold releasing, in_flight in *.
    destruct (book f) as [|e|] eqn:Eb; simplify_eq.
    + destruct (0 <=? ev_slot e) eqn:Es.
      * cbn [book_owns] in E5. unfold owns at 2 in E5. rewrite Es in E5.
        destruct (holder_enqueue s (ev_slot e) (prod_owns (prod f) ++ (buffered f ≫= owns) ++ [])) as (s' & Hs' & F1 & F2 & F3 & F4 & F5).
        { rewrite E5. solve_Permutation. }
        exists s'. split; [by apply rtc_once|]. split; cbn; try congruence; [|done]. rewrite F4, E4. unfold releasing. cbn. lia.
      * exists s. split; [apply rtc_refl|]. split; cbn; try done.
        rewrite E5. unfold in_flight. cbn. unfold owns at 2. by rewrite Es.
    + assert (Conc.pending s = S (match prod f with PUncount => 1 | _ => 0 end)%nat) as E6 by (rewrite E4; lia).
      destruct (holder_uncount s _ E6) as (s' & Hs' & F1 & F2 & F3 & F4 & F5).
      exists s'. split; [by apply rtc_once|]. split; cbn; try congruence.
      * rewrite F4. unfold releasing. cbn. lia.
      * by rewrite F5, E5.
Qed.

Lemma simulates_init m : simulates (new_feed m) Conc.init.
Proof. by split. Qed.

Lemma feed_ind_inv (I : Feed V -> Prop) : (forall m, full_memory m -> I (new_feed m)) ->
  (forall l f f', reachable f -> I f -> fstep l f = Some f' -> I f') -> forall f, reachable f -> I f.
Proof.
  intros H0 Hs f (m & Hm & Hr).
  revert f Hr. apply rtc_ind_r; [by apply H0|]. intros g g' Hg [l Hl] Hi. eapply Hs; [|done|done]. by exists m.
Qed.

(** The threads use the holder as its protocol says, so its guarantees are theirs. *)
Lemma holder_of f : reachable f -> exists s, Conc.reachable s /\ simulates f s.
Proof.
  revert f. apply feed_ind_inv.
  - intros m _. exists Conc.init. split; [apply rtc_refl|apply simulates_init].
  - intros l f f' _ (s & Hr & Hs) Hst. destruct (feed_simulates l f f' s) as (s' & Hr' & Hs'); [by apply Conc.inv_reachable|done|done|].
    exists s'. split; [unfold Conc.reachable in *; by etrans|done].
Qed.

Lemma slots_distinct f : reachable f -> freeRing f ++ in_flight f ≡ₚ seqZ 0 SLOTS.
Proof.
  intros (s & [Hi _ _]%Conc.inv_reachable & [E1 _ _ _ E5])%holder_of. by rewrite <- E1, <- E5.
Qed.

Lemma in_flight_NoDup f : reachable f -> NoDup (in_flight f).
Proof.
  intros Hr%slots_distinct. assert (NoDup (freeRing f ++ in_flight f)) as Hn by (rewrite Hr; apply NoDup_seqZ).
  by apply NoDup_app in Hn as (_ & _ & ?).
Qed.

(** ** The messages *)

Definition unreadable (json : string) : Prop :=
  forall bs as_ u U pu, message json bs as_ u U pu -> levels_ok bs -> levels_ok as_ -> False.

Definition outcome (r : result (option OrderbookArrays)) : option OrderbookArrays :=
  match r with Ok (Some ev) => Some ev | _ => None end.

(** What the decoder made of the [k]-th message. *)
Definition decoded f (k : nat) (json : string) (v : OrderbookArrays) : Prop :=
  (v = dropped_event /\ (k ∈ starved f \/ unreadable json)) \/
  (exists bids asks, full bids /\ full asks /\ outcome (decode_body json (slot v) bids asks) = Some v).

Lemma unreadable_outcome json x bids asks : outcome (decode_body json x bids asks) = None -> unreadable json.
Proof.
  intros Ho bs as_ u' U' pu' Hm Hb Ha. destruct (decode_body_complete json x bids asks _ _ _ _ _ Hm Hb Ha) as [ev Hev].
  by rewrite Hev in Ho.
Qed.

Definition finish (x : Z) (obj : V) (nb na : Z) (bids asks : list Entry) : result (option OrderbookArrays) :=
  '(u, U, pu) ← read_ids obj;
  mret (Some {| bidArray := Some bids; askArray := Some asks; slot := x; bidCount := nb; askCount := na;
                u := u; U := U; pu := pu |}).

Definition read_asks (x : Z) (obj : V) (nb : Z) (levels : list (sj V)) (n : Z) (bids asks : list Entry) :=
  '(asks', na, ok) ← readLevels levels asks n;
  if negb (ok : bool) then mret None else finish x obj nb na bids asks'.

Definition read_bids (x : Z) (obj : V) (levels : list (sj V)) (n : Z) (bids asks : list Entry) :=
  '(bids', nb, ok) ← readLevels levels bids n;
  if negb (ok : bool) then mret None else
  as_ ← value (field obj "a" ≫= get_array); read_asks x obj nb as_ 0 bids' asks.

Lemma decode_body_parts json x bids asks : decode_body json x bids asks =
  ('(obj, bs) ← open_message json; read_bids x obj bs 0 bids asks).
Proof.
  unfold decode_body, open_message, read_bids, read_asks, finish, read_ids, mret.
  destruct (value (iterate json)) as [doc|]; [cbn|done].
  destruct (value (field doc "data" ≫= get_object)) as [obj|]; [cbn|done].
  destruct (value (field obj "b" ≫= get_array)) as [bs|]; [cbn|done].
  destruct (readLevels bs bids 0) as [[[bo nb] []]|]; cbn; [|done..].
  destruct (value (field obj "a" ≫= get_array)) as [as_|]; [cbn|done].
  destruct (readLevels as_ asks 0) as [[[ao na] []]|]; cbn; [|done..].
  destruct (get_id obj "u"); [cbn|done]. destruct (get_id obj "U"); [cbn|done]. by destruct (get_id obj "pu").
Qed.

Lemma readLevels_cons level levels out n : readLevels (level :: levels) out n =
  if DEPTH_EVENT_CAPACITY <=? n then Ok (out, n, false) else
  e ← read_level level;
  match e with None => Ok (out, n, false) | Some e => readLevels levels (<[Z.to_nat n := e]> out) (n + 1) end.
Proof.
  cbn [readLevels]. destruct (_ <=? _); [done|]. unfold read_level.
  destruct (value level) as [l|]; [cbn|done]. destruct (value (get_array l)) as [pair|]; [cbn|done].
  destruct (read_fields _ _ _) as [[values fields]|]; [cbn|done]. by destruct (fields <? 2).
Qed.

(** The rest of the decoder, from where it is and on the arrays as they are. *)
Definition residual (json : string) (p : ppc V) (bids asks : list Entry) : option (option OrderbookArrays) :=
  match p with
  | PParse x => Some (outcome (decode_body json x bids asks))
  | PBids x obj levels n => Some (outcome (read_bids x obj levels n bids asks))
  | PAsks x obj levels nb n => Some (outcome (read_asks x obj nb levels n bids asks))
  | PIds x obj nb na => Some (outcome (finish x obj nb na bids asks))
  | PFail _ => Some None
  | _ => None
  end.

(** The pointers of an event are those of the slot it owns. *)
Definition ev_wf (e : Event) : Prop := forall x, bidPtr e = Some x \/ askPtr e = Some x -> x ∈ owns e.
Definition held_event (b : bpc) : list Event := match b with BHold e => [e] | _ => [] end.

Definition handed f : list OrderbookArrays := seen f ++ (value_of (mem f) <$> buffered f).

Record data_inv f : Prop := {
  d_full : full_memory (mem f);
  d_wf : Forall ev_wf (buffered f ++ held_event (book f));
  d_count : length (given f) = (length (handed f) + match prod f with PIdle => 0 | _ => 1 end)%nat;
  d_decoded : forall k v, handed f !! k = Some v -> exists json, given f !! k = Some json /\ decoded f k json v;
  d_held : forall e, book f = BHold e -> last (seen f) = Some (value_of (mem f) e);
  d_starved : Forall (fun k => k < length (given f))%nat (starved f);
  d_residual : forall x r, prod_owns (prod f) = [x] ->
    residual (current f) (prod f) (mem f x).1 (mem f x).2 = Some r ->
    exists bids asks, full bids /\ full asks /\ outcome (decode_body (current f) x bids asks) = r;
  d_unreadable : prod f = PUncount -> unreadable (current f);
  d_return : forall e, prod f = PReturn e ->
    ev_wf e /\ decoded f (pred (length (given f))) (current f) (value_of (mem f) e);
}.

(** A write to a slot is invisible through the events that do not own it. *)
Lemma value_of_store m x b n e ev : ev_wf ev -> x ∉ owns ev -> value_of (store m x b n e) ev = value_of m ev.
Proof.
  intros Hw Hx. unfold value_of.
  assert (forall p (g : list Entry * list Entry -> list Entry), (p = bidPtr ev \/ p = askPtr ev) ->
    (fun y => g (store m x b n e y)) <$> p = (fun y => g (m y)) <$> p) as E.
  { intros [y|] g Hp; [|done]. cbn. unfold store. destruct (decide (y = x)) as [->|]; [|done].
    destruct Hx. apply Hw. destruct Hp; auto. }
  by rewrite (E _ fst), (E _ snd) by auto.
Qed.

Lemma full_store m x b n e : full_memory m -> full_memory (store m x b n e).
Proof.
  intros Hm y. unfold store. destruct (decide (y = x)) as [->|]; [|apply Hm]. destruct (Hm x) as [H1 H2].
  unfold full in *. destruct b; cbn; by rewrite length_insert.
Qed.

Definition here f (p : ppc V) (x : Z) : option (option OrderbookArrays) := residual (current f) p (mem f x).1 (mem f x).2.

Lemma store_same m x b n e : store m x b n e x =
  if b then (<[Z.to_nat n := e]> (m x).1, (m x).2) else ((m x).1, <[Z.to_nat n := e]> (m x).2).
Proof. unfold store. by rewrite decide_True. Qed.

(** Until the ids are read, a step of the decoder leaves what remains to be computed
    alone: what it wrote is what the computation would have written. *)
Lemma decode_residual f f' x : prod_owns (prod f) = [x] ->
  match prod f with PParse _ | PBids _ _ _ _ | PAsks _ _ _ _ _ => True | _ => False end ->
  decode_step f = Some f' -> prod_owns (prod f') = [x] /\ here f' (prod f') x = here f (prod f) x /\ here f (prod f) x <> None.
Proof.
  unfold here, decode_step. intros Hx Hp Hst. destruct (prod f) eqn:Ep; try done; cbn in Hx; simplify_eq.
  - destruct (open_message (current f)) as [[obj bs]|] eqn:E; cbn; (split_and!; [done| |done]);
      change (current (goto _ _)) with (current f); by rewrite decode_body_parts, E.
  - destruct levels as [|level levels]; simplify_eq.
    + destruct (value _) as [as_|] eqn:E; cbn [residual prod goto]; (split_and!; [done| |done]);
        unfold read_bids; cbn [readLevels mbind result_bind negb]; by rewrite E.
    + cbn [residual]. unfold read_bids. rewrite readLevels_cons. destruct (DEPTH_EVENT_CAPACITY <=? n) eqn:En; [done|].
      destruct (read_level level) as [[e|]|] eqn:E; cbn [residual prod goto]; (split_and!; [done| |done]); try done.
      cbn [mem set_mem goto]. rewrite store_same. done.
  - destruct levels as [|level levels]; simplify_eq.
    + done.
    + cbn [residual]. unfold read_asks. rewrite readLevels_cons. destruct (DEPTH_EVENT_CAPACITY <=? n) eqn:En; [done|].
      destruct (read_level level) as [[e|]|] eqn:E; cbn [residual prod goto]; (split_and!; [done| |done]); try done.
      cbn [mem set_mem goto]. rewrite store_same. done.
Qed.

Lemma decoded_mono f f' k json v : starved f ⊆ starved f' -> decoded f k json v -> decoded f' k json v.
Proof. intros Hs [[-> [Hk|Hu]]|Hd]; [left; auto|left; auto|by right]. Qed.

(** A step of the decoder inside a message keeps the log. *)
Lemma data_inv_work f f' : data_inv f -> given f' = given f -> seen f' = seen f -> buffered f' = buffered f -> book f' = book f ->
  full_memory (mem f') -> (forall e, e ∈ buffered f ++ held_event (book f) -> value_of (mem f') e = value_of (mem f) e) ->
  starved f ⊆ starved f' -> Forall (fun k => k < length (given f))%nat (starved f') ->
  prod f <> PIdle -> prod f' <> PIdle ->
  (forall x r, prod_owns (prod f') = [x] -> here f' (prod f') x = Some r ->
    exists bids asks, full bids /\ full asks /\ outcome (decode_body (current f) x bids asks) = r) ->
  (prod f' = PUncount -> unreadable (current f)) ->
  (forall e, prod f' = PReturn e -> ev_wf e /\ decoded f' (pred (length (given f))) (current f) (value_of (mem f') e)) ->
  data_inv f'.
Proof.
  intros [] E1 E2 E3 E4 Hm Hv Hs Hs' Hp Hp' Hr Hu Hret.
  assert (handed f' = handed f) as Eh.
  { unfold handed. rewrite E2, E3. f_equal. apply list_fmap_ext. intros i e He. apply Hv, elem_of_app. left.
    by eapply list_elem_of_lookup_2. }
  assert (current f' = current f) as Ec by (unfold current; by rewrite E1).
  split; rewrite ?Ec, ?E1, ?E2, ?E3, ?E4; try done.
  - rewrite Eh, d_count0. by destruct (prod f), (prod f').
  - intros k v Hk. rewrite Eh in Hk. destruct (d_decoded0 k v Hk) as (json & Hj & Hd). exists json. split; [done|].
    by apply (decoded_mono f).
  - intros e Hb. rewrite (d_held0 e Hb). f_equal. symmetry. apply Hv, elem_of_app. right. rewrite Hb. by left.
  - unfold here in Hr. by rewrite Ec in Hr.
Qed.

Lemma owner_disjoint f x e : reachable f -> prod_owns (prod f) = [x] -> e ∈ buffered f ++ held_event (book f) -> x ∉ owns e.
Proof.
  intros Hr Hx He Hin. pose proof (in_flight_NoDup f Hr) as Hn. unfold in_flight in Hn. rewrite Hx in Hn.
  apply NoDup_cons in Hn as [Hn _]. apply Hn. apply elem_of_app. apply elem_of_app in He as [He|He].
  - left. apply list_elem_of_bind. eauto.
  - right. destruct (book f) as [|e'|]; cbn in *; [by apply elem_of_nil in He| |by apply elem_of_nil in He].
    by apply list_elem_of_singleton in He as ->.
Qed.

Definition reading (p : ppc V) : bool := match p with PParse _ | PBids _ _ _ _ | PAsks _ _ _ _ _ => true | _ => false end.

(** What a reading step does to the state besides moving on. *)
Lemma reading_frame f f' x : prod_owns (prod f) = [x] -> reading (prod f) = true -> decode_step f = Some f' ->
  given f' = given f /\ seen f' = seen f /\ buffered f' = buffered f /\ book f' = book f /\ starved f' = starved f /\
  (mem f' = mem f \/ exists b n e, mem f' = store (mem f) x b n e) /\
  match prod f' with PIdle | PUncount | PReturn _ => False | _ => True end.
Proof.
  unfold decode_step. intros Hx Hp Hst. destruct (prod f) eqn:Ep; try done; cbn in Hx; simplify_eq.
  - split_and!; try done; [by left|]. cbn. by destruct (open_message _) as [[]|].
  - destruct levels as [|level levels]; simplify_eq.
    + split_and!; try done; [by left|]. cbn. by destruct (value _).
    + destruct (_ <=? _); [|destruct (read_level level) as [[e|]|]]; split_and!; try done; cbn; eauto.
  - destruct levels as [|level levels]; simplify_eq.
    + split_and!; try done. by left.
    + destruct (_ <=? _); [|destruct (read_level level) as [[e|]|]]; split_and!; try done; cbn; eauto.
Qed.

Lemma reading_data f f' x : reachable f -> data_inv f -> prod_owns (prod f) = [x] -> reading (prod f) = true ->
  decode_step f = Some f' -> data_inv f'.
Proof.
  intros Hr Hi Hx Hp Hst. destruct (reading_frame f f' x Hx Hp Hst) as (E1 & E2 & E3 & E4 & E5 & Em & Hp').
  destruct (decode_residual f f' x Hx) as (Hx' & Hh & _); [by destruct (prod f)|done|].
  assert (forall e, e ∈ buffered f ++ held_event (book f) -> ev_wf e) as Hwf by (apply Forall_forall, (d_wf f Hi)).
  apply (data_inv_work f); try done.
  - destruct Em as [->|(b & n & e & ->)]; [apply Hi|apply full_store, Hi].
  - intros e He. destruct Em as [->|(b & n & e' & ->)]; [done|].
    apply value_of_store; [by apply Hwf|by apply (owner_disjoint f)].
  - by rewrite E5.
  - rewrite E5. apply Hi.
  - by destruct (prod f).
  - by destruct (prod f').
  - intros y r Hy Hr'. rewrite Hx' in Hy. injection Hy as <-. rewrite Hh in Hr'. by apply (d_residual f Hi).
  - by destruct (prod f').
  - by destruct (prod f').
Qed.

(** The accesses to the holder and the end of a message. *)
Lemma ids_data f f' x obj nb na : reachable f -> data_inv f -> prod f = PIds x obj nb na -> decode_step f = Some f' -> data_inv f'.
Proof.
  intros Hr Hi Hp Hst. unfold decode_step in Hst. rewrite Hp in Hst. simplify_eq.
  destruct (d_residual f Hi x (outcome (finish x obj nb na (mem f x).1 (mem f x).2))) as (b & a & Hb & Ha & Hd);
    [by rewrite Hp|by rewrite Hp|].
  assert (0 <= x) as Hx.
  { pose proof (slots_distinct f Hr) as Hs. assert (x ∈ freeRing f ++ in_flight f) as Hin.
    { apply elem_of_app. right. unfold in_flight. rewrite Hp. by left. }
    rewrite Hs, elem_of_seqZ in Hin. lia. }
  unfold finish in Hd. destruct (read_ids obj) as [[[u' U'] pu']|] eqn:E; cbn in Hd.
  - apply (data_inv_work f); try done; try (by apply Hi); [by rewrite Hp|].
    intros e [= <-]. split.
    + intros y Hy. rewrite (owns_live x) by done. cbn in Hy. destruct Hy as [[= ->]|[= ->]]; by left.
    + right. exists b, a. split_and!; done.
  - apply (data_inv_work f); try done; try (by apply Hi); [by rewrite Hp|].
    intros y r [= <-] [= <-]. by exists b, a.
Qed.

Lemma decode_data f f' : reachable f -> data_inv f -> decode_step f = Some f' -> data_inv f'.
Proof.
  intros Hr Hi Hst. destruct (reading (prod f)) eqn:Hp.
  { destruct (prod f) eqn:E; try done; by apply (reading_data f f' x); rewrite ?E. }
  destruct (prod f) eqn:Ep; try done; [| | | |by eapply (ids_data f)| | |]; unfold decode_step in Hst; rewrite Ep in Hst; simplify_eq; try done.
  - pose proof (d_count f Hi) as Hc. rewrite Ep in Hc. destruct (freeCnt f =? 0).
    + apply (data_inv_work f); try done; try (by apply Hi); try (by rewrite Ep); cbn.
      * apply list_subseteq_app_l. done.
      * apply Forall_app. split; [apply Hi|]. constructor; [lia|done].
      * intros e [= <-]. split; [by intros y [?|?]|]. left. split; [done|]. left. apply elem_of_app. right. by left.
    + apply (data_inv_work f); try done; try (by apply Hi); by rewrite Ep.
  - apply (data_inv_work f); try done; try (by apply Hi); by rewrite Ep.
  - destruct (freeRing f) as [|x r] eqn:Er; simplify_eq.
    apply (data_inv_work f); try done; try (by apply Hi); [by rewrite Ep|].
    intros y r' [= <-] [= <-]. destruct (d_full f Hi x) as [Hb Ha]. exists (mem f x).1, (mem f x).2. by split_and!.
  - destruct (d_residual f Hi x None) as (b & a & Hb & Ha & Hd); [by rewrite Ep..|].
    apply (data_inv_work f); try done; try (by apply Hi); [by rewrite Ep|]. intros _. by apply (unreadable_outcome _ x b a).
  - apply (data_inv_work f); try done; try (by apply Hi); [by rewrite Ep|]. intros e [= <-]. split; [by intros y [?|?]|].
    left. split; [done|]. right. by apply (d_unreadable f Hi).
Qed.

Lemma last_current f json : current (set_given f (given f ++ [json]) (starved f)) = json.
Proof. unfold current. cbn. by rewrite last_snoc. Qed.

Lemma start_data f f' json : data_inv f -> start f json = Some f' -> data_inv f'.
Proof.
  intros [] Hst. unfold start in Hst. destruct (prod f) eqn:Ep; simplify_eq. split; cbn; try done.
  - rewrite length_app. cbn. unfold handed in *. cbn in *. lia.
  - intros k v Hk. destruct (d_decoded0 k v Hk) as (j & Hj & Hd). exists j. split; [|done].
    by apply lookup_app_l_Some.
  - eapply Forall_impl; [done|]. intros k Hk. cbn in Hk. rewrite length_app. lia.
Qed.

Lemma push_data f f' : data_inv f -> push f = Some f' -> data_inv f'.
Proof.
  intros [] Hst. unfold push in Hst. destruct (prod f) as [| | | | | | | | | |e] eqn:Ep; simplify_eq.
  destruct (d_return0 e eq_refl) as [Hw Hd].
  assert (handed (goto (set_buffered f (buffered f ++ [e])) PIdle) = handed f ++ [value_of (mem f) e]) as Eh.
  { unfold handed. cbn. by rewrite fmap_app, app_assoc. }
  split; try done.
  - cbn. rewrite Forall_app in d_wf0. destruct d_wf0. rewrite !Forall_app. split_and!; try done. by constructor.
  - rewrite Eh, length_app. cbn. lia.
  - intros k v Hk. rewrite Eh in Hk. apply lookup_app_Some in Hk as [Hk|[Hk Hv]]; [by apply d_decoded0|].
    apply list_lookup_singleton_Some in Hv as [Hk' <-]. exists (current f). assert (k = pred (length (given f))) as -> by lia.
    split; [|done]. cbn. unfold current. rewrite last_lookup. destruct (given f !! pred (length (given f))) eqn:E; [done|].
    apply lookup_ge_None in E. lia.
Qed.

Lemma take_data f f' : data_inv f -> take_event f = Some f' -> data_inv f'.
Proof.
  intros [] Hst. unfold take_event in Hst. destruct (book f) eqn:Eb; simplify_eq.
  destruct (buffered f) as [|e q] eqn:Eq; simplify_eq.
  assert (handed (set_book (set_buffered f q) (BHold e) (seen f ++ [value_of (mem f) e])) = handed f) as Eh.
  { unfold handed. cbn. rewrite Eq. cbn. by rewrite <- app_assoc. }
  split; try done.
  - cbn in *. rewrite app_nil_r in d_wf0. apply Forall_cons in d_wf0 as [? ?]. apply Forall_app. split; [done|]. by constructor.
  - by rewrite Eh.
  - intros k v Hk. rewrite Eh in Hk. by apply d_decoded0.
  - cbn. intros e' [= <-]. by rewrite last_snoc.
Qed.

Lemma book_data f f' : data_inv f -> book_step f = Some f' -> data_inv f'.
Proof.
  intros [] Hst. unfold book_step in Hst. destruct (book f) as [|e|] eqn:Eb; simplify_eq.
  - cbn in d_wf0. apply Forall_app in d_wf0 as [Hw _]. destruct (0 <=? ev_slot e); split; cbn; rewrite ?app_nil_r; done.
  - by split.
Qed.

Lemma data_inv_reachable f : reachable f -> data_inv f.
Proof.
  revert f. apply feed_ind_inv.
  - intros m Hm. by split.
  - intros l f f' Hr Hi Hst. destruct l; cbn in Hst.
    + by eapply start_data.
    + by apply (decode_data f).
    + by eapply push_data.
    + by eapply take_data.
    + by eapply book_data.
Qed.

(** ** What the book thread is entitled to *)

(** The event says what the message says. *)
Definition carries (json : string) (v : OrderbookArrays) : Prop :=
  exists bs as_ u' U' pu' bids asks, message json bs as_ u' U' pu' /\ levels_ok bs /\ levels_ok as_ /\
    u v = wrapS 64 u' /\ U v = wrapS 64 U' /\ pu v = wrapS 64 pu' /\
    bidArray v = Some bids /\ askArray v = Some asks /\
    bidCount v = Z.of_nat (length bs) /\ askCount v = Z.of_nat (length as_) /\
    Forall2 level_spec bs (take (Z.to_nat (bidCount v)) bids) /\
    Forall2 level_spec as_ (take (Z.to_nat (askCount v)) asks).

Lemma decoded_spec f k json v : decoded f k json v ->
  if dropped v then v = dropped_event /\ (k ∈ starved f \/ unreadable json) else carries json v.
Proof.
  intros [[-> Hd]|(bids & asks & Hb & Ha & Ho)]; [done|]. unfold outcome in Ho.
  destruct (decode_body json (slot v) bids asks) as [[ev|]|] eqn:E; simplify_eq.
  destruct (decode_body_sound json (slot v) bids asks v Hb Ha E) as (_ & bs & as_ & u' & U' & pu' & bo & ao & Hsp).
  assert (bidArray v = Some bo) as Ebo by apply Hsp. unfold dropped. rewrite Ebo. unfold carries. eauto 10.
Qed.

Lemma handed_event f k v : reachable f -> handed f !! k = Some v ->
  exists json, given f !! k = Some json /\
    if dropped v then v = dropped_event /\ (k ∈ starved f \/ unreadable json) else carries json v.
Proof.
  intros Hr Hk. destruct (d_decoded f (data_inv_reachable f Hr) k v Hk) as (json & Hj & Hd).
  exists json. split; [done|]. by apply decoded_spec.
Qed.

(** The decoder never waits. *)
Lemma dequeue_ready f : reachable f -> prod f = PDequeue -> freeRing f <> [].
Proof.
  intros (s & [_ Hc [Hn _]]%Conc.inv_reachable & [E1 E2 E3 _ _])%holder_of Hp. rewrite E3, Hp in Hc. cbn in Hc.
  rewrite <- E1. intros E. rewrite E in Hc. cbn in Hc. lia.
Qed.

Lemma owns_length e : (length (owns e) <= 1)%nat.
Proof. unfold owns. case_match; cbn; lia. Qed.

(** When no slot is free, at least 127 events that own one are waiting for the book. *)
Lemma starved_backlog f : reachable f -> prod f = PLoad -> freeCnt f = 0 ->
  (127 <= length (buffered f ≫= owns))%nat.
Proof.
  intros Hr Hp H0. pose proof (slots_distinct f Hr) as Hd%Permutation_length.
  destruct (holder_of f Hr) as (s & [_ Hc _]%Conc.inv_reachable & [E1 E2 E3 E4 _]).
  rewrite E1, E2, E3, E4, H0, Hp in Hc. unfold releasing in Hc. rewrite Hp in Hc. cbn in Hc.
  rewrite length_app in Hd. unfold in_flight in Hd. rewrite Hp in Hd. cbn [prod_owns app] in Hd.
  rewrite length_app, length_seqZ in Hd. change (Z.to_nat SLOTS) with 128%nat in Hd.
  destruct (book f) as [|e|]; cbn in Hd, Hc; [lia| |lia]. pose proof (owns_length e). lia.
Qed.

Fixpoint decode_run (n : nat) f : option (Feed V) :=
  match n with O => Some f | S n' => f' ← decode_step f; decode_run n' f' end.

(** Steps the decoder still has to make, at most. *)
Definition steps_left (p : ppc V) : nat :=
  let cap n := Z.to_nat (DEPTH_EVENT_CAPACITY - n) in
  match p with
  | PIdle | PReturn _ => 0
  | PUncount => 1
  | PFail _ => 2
  | PIds _ _ _ _ => 3
  | PAsks _ _ _ _ n => 4 + cap n
  | PBids _ _ _ n => 5 + cap 0%Z + cap n
  | PParse _ => 6 + 2 * cap 0%Z
  | PDequeue => 7 + 2 * cap 0%Z
  | PSub => 8 + 2 * cap 0%Z
  | PLoad => 9 + 2 * cap 0%Z
  end%nat.

Lemma steps_left_decreases f f' : decode_step f = Some f' -> (steps_left (prod f') < steps_left (prod f))%nat.
Proof.
  unfold decode_step. intros Hst.
  destruct (prod f) as [| | | |x|x obj [|level levels] n|x obj [|level levels] nb n|x obj nb na|x| |e]; simplify_eq; unfold steps_left; cbn [prod goto].
  - destruct (freeCnt f =? 0); cbn [prod goto]; lia.
  - lia.
  - destruct (freeRing f); simplify_eq; cbn [prod goto]; lia.
  - destruct (open_message _) as [[]|]; lia.
  - destruct (value _); lia.
  - destruct (Z.leb_spec DEPTH_EVENT_CAPACITY n); [cbn [prod goto]; lia|].
    destruct (read_level level) as [[e|]|]; cbn [prod goto]; lia.
  - lia.
  - destruct (Z.leb_spec DEPTH_EVENT_CAPACITY n); [cbn [prod goto]; lia|].
    destruct (read_level level) as [[e|]|]; cbn [prod goto]; lia.
  - destruct (read_ids obj) as [[[]]|]; lia.
  - lia.
  - lia.
Qed.

Definition busy (p : ppc V) : bool := match p with PIdle | PReturn _ => false | _ => true end.

Lemma decode_step_enabled f : reachable f -> busy (prod f) = true -> exists f', decode_step f = Some f' /\ prod f' <> PIdle.
Proof.
  intros Hr Hb. pose proof (dequeue_ready f Hr) as Hd. unfold decode_step.
  destruct (prod f) as [| | | |x|x obj [|level levels] n|x obj [|level levels] nb n|x obj nb na|x| |e]; try done; try (eexists; split; [done|cbn]).
  - by destruct (_ =? _).
  - done.
  - destruct (freeRing f) as [|x r]; [by destruct Hd|]. eexists. split; [done|]. done.
  - by destruct (open_message _) as [[]|].
  - by destruct (value _).
  - destruct (_ <=? _); [done|]. by destruct (read_level level) as [[]|].
  - done.
  - destruct (_ <=? _); [done|]. by destruct (read_level level) as [[]|].
  - by destruct (read_ids obj) as [[[]]|].
  - done.
  - done.
Qed.

Lemma reachable_step l f f' : reachable f -> fstep l f = Some f' -> reachable f'.
Proof. intros (m & Hm & Hr) Hst. exists m. split; [done|]. eapply rtc_r; [done|]. by exists l. Qed.

(** Levels are counted from zero. *)
Lemma stored_nonneg f : reachable f -> match prod f with PBids _ _ _ n | PAsks _ _ _ _ n => 0 <= n | _ => True end.
Proof.
  revert f. apply feed_ind_inv; [done|]. intros l f f' _ Hi Hst. destruct l; cbn in Hst.
  - unfold start in Hst. by destruct (prod f); simplify_eq.
  - unfold decode_step in Hst.
    destruct (prod f) as [| | | |x|x obj [|level levels] n|x obj [|level levels] nb n|x obj nb na|x| |e]; simplify_eq; cbn; try done.
    + by destruct (freeCnt f =? 0).
    + by destruct (freeRing f); simplify_eq.
    + by destruct (open_message _) as [[]|].
    + by destruct (value _).
    + destruct (_ <=? _); [done|]. destruct (read_level level) as [[]|]; cbn; try done; lia.
    + destruct (_ <=? _); [done|]. destruct (read_level level) as [[]|]; cbn; try done; lia.
    + by destruct (read_ids obj) as [[[]]|].
  - unfold push in Hst. by destruct (prod f); simplify_eq.
  - unfold take_event in Hst. destruct (book f), (buffered f); by simplify_eq.
  - unfold book_step in Hst. destruct (book f) as [|e|]; simplify_eq; [by destruct (0 <=? ev_slot e)|done].
Qed.

Lemma decode_run_returns n f : (steps_left (prod f) <= n)%nat -> reachable f -> prod f <> PIdle ->
  exists k f' e, (k <= n)%nat /\ decode_run k f = Some f' /\ prod f' = PReturn e.
Proof.
  revert f. induction n as [|n IH]; intros f Hn Hr Hp.
  - exists 0%nat, f. destruct (prod f) eqn:E; cbn in Hn; try lia; [done|]. eauto.
  - destruct (busy (prod f)) eqn:Hb.
    + destruct (decode_step_enabled f Hr Hb) as (f1 & Hst & Hp1). pose proof (steps_left_decreases f f1 Hst).
      destruct (IH f1) as (k & f' & e & Hk & Hrun & He); [lia|by apply (reachable_step LDecode f)|done|].
      exists (S k), f', e. split_and!; [lia| |done]. cbn [decode_run]. by rewrite Hst.
    + exists 0%nat, f. destruct (prod f) eqn:E; try done. eexists. split_and!; [lia|done|done].
Qed.
End Stream.

(** ** Properties *)

(** C5 Under every interleaving of the decoder and the book thread on the memory of the
    slots: no message is skipped, the [k]-th event buffered or taken is the [k]-th
    message's; a live one has exactly its ids and its levels, and a dropped one stands for
    a message that found no slot or is no depth message within the capacity; what the book
    thread reads through the event's pointers stays, until it releases the slot, what it
    was when the event was taken; no slot is free or in use twice; and a message finds no
    slot only if at least 127 events that own one wait for the book thread. *)
Theorem feed_faithful {V} `{Json V} (f : Feed V) : reachable f ->
  length (given f) = (length (seen f) + length (buffered f) + match prod f with PIdle => 0 | _ => 1 end)%nat /\
  (forall k v, (seen f ++ (value_of (mem f) <$> buffered f)) !! k = Some v ->
    exists json, given f !! k = Some json /\
      if dropped v then v = dropped_event /\ (k ∈ starved f \/ unreadable json) else carries json v) /\
  (forall e, book f = BHold e -> last (seen f) = Some (value_of (mem f) e)) /\
  NoDup (freeRing f ++ in_flight f) /\
  (prod f = PLoad -> freeCnt f = 0 -> (127 <= length (buffered f ≫= owns))%nat).
Proof.
  intros Hr. pose proof (data_inv_reachable f Hr) as Hi. split_and!.
  - rewrite (d_count f Hi). unfold handed. by rewrite length_app, length_fmap.
  - intros k v. by apply handed_event.
  - apply (d_held f Hi).
  - rewrite (slots_distinct f Hr). apply NoDup_seqZ.
  - by apply starved_backlog.
Qed.

(** The decoder never blocks the stream thread: from any reachable state in which it is
    decoding, whatever the message, it returns an event within 2057 of its own accesses,
    and no access waits for the book thread. *)
Theorem decoder_returns {V} `{Json V} (f : Feed V) : reachable f -> prod f <> PIdle ->
  exists n f' e, (n <= 2057)%nat /\ decode_run n f = Some f' /\ prod f' = PReturn e.
Proof.
  intros Hr Hp. apply decode_run_returns; [|done|done]. pose proof (stored_nonneg f Hr) as Hn.
  destruct (prod f) as [| | | |x|x obj ls n|x obj ls nb n|x obj nb na|x| |e]; unfold steps_left, DEPTH_EVENT_CAPACITY; lia.
Qed.

(** ** One message through the feed *)

Fixpoint feed_run {V} `{Json V} (ls : list label) (f : Feed V) : option (Feed V) :=
  match ls with [] => Some f | l :: ls' => f' ← fstep l f; feed_run ls' f' end.

Lemma feed_run_reachable {V} `{Json V} ls : forall f f' : Feed V, reachable f -> feed_run ls f = Some f' -> reachable f'.
Proof.
  induction ls as [|l ls IH]; intros f f' Hr E; cbn in E; [by simplify_eq|].
  destruct (fstep l f) as [f1|] eqn:E1; [|done]. apply (IH f1); [by apply (reachable_step l f)|done].
Qed.

Lemma new_feed_reachable {V} `{Json V} m : full_memory m -> reachable (new_feed m).
Proof. intros Hm. exists m. split; [done|apply rtc_refl]. Qed.

Lemma demo_memory : full_memory demo_arrays.
Proof. intros x. vm_compute. split; reflexivity. Qed.

(** The decoder is half way through the bids, and has returned. *)
Definition demo_reading : list label := LStart demo_text :: repeat LDecode 5.
Definition demo_taken : list label := demo_reading ++ repeat LDecode 3 ++ [LPush; LTake].

Lemma feed_faithful_witness : let J := JV_Json [(demo_text, demo_tree)] in
  exists f e v, feed_run demo_taken (new_feed demo_arrays) = Some f /\ book f = BHold e /\
    last (seen f) = Some (value_of (mem f) e) /\ seen f !! 0%nat = Some v /\ carries demo_text v /\
    NoDup (freeRing f ++ in_flight f).
Proof.
  intros J. destruct (feed_run demo_taken (new_feed demo_arrays)) as [f|] eqn:E; [|vm_compute in E; discriminate E].
  assert (reachable f) as Hr by (eapply feed_run_reachable; [apply new_feed_reachable, demo_memory|exact E]).
  destruct (feed_faithful f Hr) as (_ & Hk & Hh & Hn & _).
  assert (exists e v, book f = BHold e /\ seen f !! 0%nat = Some v /\ dropped v = false /\ given f = [demo_text]) as (e & v & Hb & Hv & Hd & Hg).
  { vm_compute in E. injection E as <-. eexists _, _. split_and!; reflexivity. }
  exists f, e, v. split_and!; [reflexivity|exact Hb|by apply Hh|exact Hv| |exact Hn].
  destruct (Hk 0%nat v) as (json & Hj & Hc).
  - rewrite lookup_app, Hv. reflexivity.
  - rewrite Hg in Hj. injection Hj as <-. rewrite Hd in Hc. exact Hc.
Defined.

Lemma decoder_returns_witness : let J := JV_Json [(demo_text, demo_tree)] in
  exists f n f' e, feed_run demo_reading (new_feed demo_arrays) = Some f /\ (n <= 2057)%nat /\
    decode_run n f = Some f' /\ prod f' = PReturn e.
Proof.
  intros J. destruct (feed_run demo_reading (new_feed demo_arrays)) as [f|] eqn:E; [|vm_compute in E; discriminate E].
  assert (reachable f) as Hr by (eapply feed_run_reachable; [apply new_feed_reachable, demo_memory|exact E]).
  destruct (decoder_returns f Hr) as (n & f' & e & H1 & H2 & H3).
  - vm_compute in E. injection E as <-. discriminate.
  - exists f, n, f', e. split_and!; [reflexivity|exact H1|exact H2|exact H3].
Defined.
