(* ===== verification/RequestParameter.v ===== *)
(** * RequestParameter: JSON requests built from name/value pairs

    Models [src/core/protocol/requestParameter.hpp] and the payload transformation of
    [src/utils/crypto/hmacSha256.hpp]. The parameters of a variadic call are a list. *)

From S2P Require Import Prelude FixedPoint.

Definition quote : string := String (ascii_of_nat 34) EmptyString.

Record RequestParameter := { requestField : string; request : string; isConstructed : bool }.

Definition RequestParameter_of (f r : string) : RequestParameter :=
  {| requestField := f; request := r; isConstructed := false |}.
Definition RequestParameter_named (f : string) : RequestParameter :=
  {| requestField := f; request := ""; isConstructed := false |}.

Definition empty (s : string) : bool := match s with EmptyString => true | _ => false end.

(** The fold condition: every name and value is non-empty. *)
Definition all_set (ps : list RequestParameter) : bool :=
  forallb (fun p => negb (empty (requestField p)) && negb (empty (request p))) ps.

(** One pair; [raw p] decides whether the value is inserted without quotes. *)
Definition pair_json (raw : RequestParameter -> bool) (p : RequestParameter) : string :=
  (quote +:+ requestField p +:+ quote +:+ ": " +:+
   (if raw p then request p else quote +:+ request p +:+ quote))%string.

Fixpoint pairs_json (raw : RequestParameter -> bool) (first : bool) (ps : list RequestParameter) : string :=
  match ps with
  | [] => ""
  | p :: ps' => ((if first then "" else ", ") +:+ pair_json raw p +:+ pairs_json raw false ps')%string
  end.

Definition object_json (raw : RequestParameter -> bool) (ps : list RequestParameter) : string :=
  ("{" +:+ pairs_json raw true ps +:+ "}")%string.

(** The member function: fills [request] of [self]. *)
Definition makeRequest_member (self : RequestParameter) (ps : list RequestParameter) : RequestParameter :=
  if all_set ps then
    {| requestField := requestField self;
       request := object_json (fun p => isConstructed p || String.eqb (requestField p) "timestamp") ps;
       isConstructed := true |}
  else {| requestField := requestField self; request := ""; isConstructed := isConstructed self |}.

(** The free function. *)
Definition makeRequestFromRequestParameters (ps : list RequestParameter) : string :=
  if all_set ps then object_json isConstructed ps else "".

(** [request.back() == '}'] and [pop_back()]. *)
Fixpoint back (s : string) : option ascii :=
  match s with
  | EmptyString => None
  | String c EmptyString => Some c
  | String _ s' => back s'
  end.

Fixpoint pop_back (s : string) : string :=
  match s with
  | EmptyString => EmptyString
  | String c EmptyString => EmptyString
  | String c s' => String c (pop_back s')
  end.

Definition ends_object (s : string) : bool :=
  match back s with Some c => code c =? 125 | None => false end.

Definition add_member (self param : RequestParameter) : RequestParameter :=
  if negb (ends_object (request self)) then self else
  {| requestField := requestField self;
     request := (pop_back (request self) +:+ ", " +:+ quote +:+ requestField param +:+ quote +:+ ": " +:+
                 quote +:+ request param +:+ quote +:+ "}")%string;
     isConstructed := isConstructed self |}.

(** The free function: the value is inserted without quotes. *)
Definition addParameterToRequest (req : string) (param : RequestParameter) : string :=
  if negb (ends_object req) then req else
  (pop_back req +:+ ", " +:+ quote +:+ requestField param +:+ quote +:+ ": " +:+ request param +:+ "}")%string.

(** ** The signed payload

    [hmac_sha256] turns the JSON object into a query string before it signs it: drop the
    first and the last character, turn [,] into [&] and [:] into [=], drop quotes and
    spaces. [None]: [pop_back] on an empty string, undefined behaviour. *)
Definition payload_char (c : ascii) : ascii :=
  if code c =? 44 then chr 38
  else if code c =? 58 then chr 61
  else if (code c =? 34) || (code c =? 32) then chr 0 else c.

Fixpoint payload_map (s : string) : string :=
  match s with EmptyString => EmptyString | String c s' => String (payload_char c) (payload_map s') end.

Fixpoint remove_nul (s : string) : string :=
  match s with
  | EmptyString => EmptyString
  | String c s' => if code c =? 0 then remove_nul s' else String c (remove_nul s')
  end.

Definition hmac_payload (data : string) : option (result string) :=
  match data with
  | EmptyString => Some (Throw (runtime_error "Parameter empty"))
  | String _ EmptyString => None
  | String _ s => Some (Ok (remove_nul (payload_map (pop_back s))))
  end.

(** The digest is OpenSSL's, a parameter; its bytes are printed in lower-case hex. *)
Definition hexmap (n : Z) : ascii := chr (if n <? 10 then 48 + n else 87 + n).

Fixpoint hex (digest : list Z) : string :=
  match digest with
  | [] => ""
  | c :: d => String (hexmap (Z.shiftr c 4)) (String (hexmap (Z.land c 15)) (hex d))
  end.

Definition hmac_sha256 (HMAC : string -> string -> list Z) (key data : string) : option (result string) :=
  r ← hmac_payload data;
  Some (match r with Ok p => Ok (hex (HMAC key p)) | Throw x => Throw x end).

(** ** What is signed

    The reference query string [k1=v1&k2=v2...]. *)
Fixpoint query_string (ps : list RequestParameter) : string :=
  match ps with
  | [] => ""
  | [p] => (requestField p +:+ "=" +:+ request p)%string
  | p :: ps' => (requestField p +:+ "=" +:+ request p +:+ "&" +:+ query_string ps')%string
  end.

(** A character the transformation leaves alone. *)
Definition plain_char (c : ascii) : bool :=
  negb ((code c =? 44) || (code c =? 58) || (code c =? 34) || (code c =? 32) || (code c =? 0)).

Fixpoint plain (s : string) : bool :=
  match s with EmptyString => true | String c s' => plain_char c && plain s' end.

Lemma payload_app s t : remove_nul (payload_map (s +:+ t)) = (remove_nul (payload_map s) +:+ remove_nul (payload_map t))%string.
Proof.
  induction s as [|c s IH]; [done|]. rewrite string_app_cons. cbn [payload_map remove_nul]. rewrite IH.
  by destruct (code (payload_char c) =? 0).
Qed.

Lemma payload_plain s : plain s = true -> remove_nul (payload_map s) = s.
Proof.
  induction s as [|c s IH]; [done|]. cbn [plain payload_map remove_nul]. intros [Hc Hs]%andb_prop.
  unfold plain_char in Hc. rewrite !negb_orb in Hc. apply andb_prop in Hc as [Hc H0].
  apply andb_prop in Hc as [Hc H32]. apply andb_prop in Hc as [Hc H34]. apply andb_prop in Hc as [H44 H58].
  apply negb_true_iff in H0, H32, H34, H58, H44. unfold payload_char. rewrite H44, H58, H34, H32. cbn [orb].
  rewrite H0. by rewrite IH.
Qed.

Lemma pop_back_app s c : pop_back (s +:+ String c "") = s.
Proof.
  induction s as [|c' s IH]; [done|]. rewrite string_app_cons. cbn [pop_back]. rewrite IH.
  by destruct s.
Qed.

Lemma payload_pair raw p : plain (requestField p) = true -> plain (request p) = true ->
  remove_nul (payload_map (pair_json raw p)) = (requestField p +:+ "=" +:+ request p)%string.
Proof.
  intros Hf Hr. unfold pair_json. rewrite !payload_app. rewrite (payload_plain (requestField p)) by done.
  assert ((remove_nul (payload_map (if raw p then request p else quote +:+ request p +:+ quote)) = request p)%string) as ->.
  { destruct (raw p); [by apply payload_plain|]. rewrite !payload_app, (payload_plain (request p)) by done.
    change (remove_nul (payload_map quote)) with ""%string. by rewrite string_app_nil_r. }
  done.
Qed.

Lemma payload_pairs raw ps : Forall (fun p => plain (requestField p) = true /\ plain (request p) = true) ps ->
  remove_nul (payload_map (pairs_json raw true ps)) = query_string ps /\
  (ps <> [] -> remove_nul (payload_map (pairs_json raw false ps)) = ("&" +:+ query_string ps)%string).
Proof.
  induction 1 as [|p ps [Hf Hr] Hps [_ IH]]; [done|]. cbn [pairs_json].
  assert (Hone : forall s, remove_nul (payload_map (s +:+ pair_json raw p +:+ pairs_json raw false ps))
    = (remove_nul (payload_map s) +:+ query_string (p :: ps))%string).
  { intros s. rewrite !payload_app, payload_pair by done. destruct ps as [|p' ps'].
    - cbn [pairs_json query_string]. change (remove_nul (payload_map "")) with ""%string. by rewrite string_app_nil_r.
    - rewrite IH by done. change (query_string (p :: p' :: ps')) with
        (requestField p +:+ "=" +:+ request p +:+ "&" +:+ query_string (p' :: ps'))%string.
      by rewrite !string_app_assoc. }
  split; [|intros _]; by rewrite Hone.
Qed.

Lemma payload_object raw ps : Forall (fun p => plain (requestField p) = true /\ plain (request p) = true) ps ->
  hmac_payload (object_json raw ps) = Some (Ok (query_string ps)).
Proof.
  intros Hps. unfold object_json. change ("{" +:+ pairs_json raw true ps +:+ "}")%string with
    (String "{" (pairs_json raw true ps +:+ "}"))%string. unfold hmac_payload.
  destruct ((pairs_json raw true ps +:+ "}")%string) as [|c s] eqn:E.
  - by destruct (pairs_json raw true ps).
  - rewrite <- E. change "}"%string with (String "}" "")%string. rewrite pop_back_app.
    by destruct (payload_pairs raw ps Hps) as [-> _].
Qed.

(** What is signed is the query string of the parameters, in order: for non-empty
    names and values free of separators, the payload of the request object built from
    them is [k1=v1&k2=v2&...], quoted or not. *)
Theorem signed_payload self ps : ps <> [] -> all_set ps = true ->
  Forall (fun p => plain (requestField p) = true /\ plain (request p) = true) ps ->
  hmac_payload (request (makeRequest_member self ps)) = Some (Ok (query_string ps)) /\
  hmac_payload (makeRequestFromRequestParameters ps) = Some (Ok (query_string ps)).
Proof.
  intros Hne Hset Hps. unfold makeRequest_member, makeRequestFromRequestParameters. rewrite Hset. cbn [request].
  split; by apply payload_object.
Qed.

Lemma signed_payload_witness :
  hmac_payload (makeRequestFromRequestParameters
    [RequestParameter_of "symbol" "BTCUSDT"; RequestParameter_of "timestamp" "17"])
  = Some (Ok "symbol=BTCUSDT&timestamp=17"%string).
Proof.
  apply (signed_payload (RequestParameter_named "params")); [discriminate|reflexivity|].
  repeat constructor.
Defined.
