(* ===== verification/Manager.v ===== *)
(** * Manager: what the components are built from

    Models [src/manager/apiManager.hpp]: the credentials and the checks a component makes
    in its first member initialiser, the hosts, and the two constructors. The
    [io_context] and the TLS context are Boost objects; of the latter the model keeps
    whether the trust store was loaded. The shared parser is in StreamGroup. *)

From S2P Require Import Prelude RequestParameter.

Record Credentials := { apiKey : string; credPrivateKey : string }.

Definition hostSpot : string := "api.binance.com".
Definition hostFutures : string := "fapi.binance.com".
Definition hostFuturesWebsocket : string := "fstream.binance.com".
Definition hostFuturesWebsocketAPI : string := "ws-fapi.binance.com".

Record APIManager := {
  credentials : Credentials;
  verifyPaths : bool;          (** [ctx.set_default_verify_paths()] has been called *)
}.

(** The constructor without credentials, and the one with. *)
Definition new_APIManager : APIManager :=
  {| credentials := {| apiKey := ""; credPrivateKey := "" |}; verifyPaths := true |}.
Definition APIManager_of (c : Credentials) : APIManager := {| credentials := c; verifyPaths := true |}.

Definition requireAPIKey (c : Credentials) (component : string) : result string :=
  if empty (apiKey c)
  then Throw (invalid_argument (component +:+ " needs an API key: construct APIManager with Credentials")%string)
  else Ok (apiKey c).
Definition requirePrivateKey (c : Credentials) (component : string) : result string :=
  if empty (credPrivateKey c)
  then Throw (invalid_argument (component +:+ " needs a private key: construct APIManager with Credentials")%string)
  else Ok (credPrivateKey c).

(** A component that asks gets a key that is not empty, or throws; a manager for market
    data has none to give. *)
Lemma requireAPIKey_Ok c component k : requireAPIKey c component = Ok k <-> apiKey c = k /\ k <> ""%string.
Proof. unfold requireAPIKey. destruct (apiKey c) eqn:E; cbn; split; [done|by intros [<- ?]|by intros [= <-]|by intros [-> _]]. Qed.

Lemma requirePrivateKey_Ok c component k : requirePrivateKey c component = Ok k <-> credPrivateKey c = k /\ k <> ""%string.
Proof. unfold requirePrivateKey. destruct (credPrivateKey c) eqn:E; cbn; split; [done|by intros [<- ?]|by intros [= <-]|by intros [-> _]]. Qed.

Lemma market_data_only component :
  (exists e, requireAPIKey (credentials new_APIManager) component = Throw e) /\
  (exists e, requirePrivateKey (credentials new_APIManager) component = Throw e).
Proof. split; by eexists. Qed.
