(* ===== verification/Backoff.v ===== *)
(** * Backoff: the retry schedule of every connection holder

    Models [src/utils/net/exponentialBackOff.hpp] and the enumerations of
    [src/core/types/status.hpp]. The outcomes of the connection attempts and of the
    checks of the shutdown flag are functions of how many came before; the waits are
    recorded. [None] is a signed overflow. *)

From S2P Require Import Prelude.

Inductive RequestStatus := RequestStatus_SUCCESS | RequestStatus_FAIL | RequestStatus_UNKNOWN.
Inductive ConnectionStatus := ConnectionStatus_SUCCESS | ConnectionStatus_FAIL | ConnectionStatus_CLOSED.
Inductive PriceValid := PriceValid_VALID | PriceValid_NOT_VALID.

#[global] Instance RequestStatus_eq_dec : EqDecision RequestStatus.
Proof. solve_decision. Defined.
#[global] Instance ConnectionStatus_eq_dec : EqDecision ConnectionStatus.
Proof. solve_decision. Defined.

Definition connected (s : ConnectionStatus) : bool := bool_decide (s = ConnectionStatus_SUCCESS).

(** [StreamData]; [ec] is the message of the error code, [None] for no error. *)
Record StreamData := {
  status : ConnectionStatus;
  string_ : string;
  httpStatus : Z;
  ec : option string;
}.

Definition StreamData_empty : StreamData :=
  {| status := ConnectionStatus_FAIL; string_ := ""; httpStatus := 0; ec := None |}.

(** [explicit operator bool]. *)
Definition ok (d : StreamData) : bool := connected (status d).

(** ** [BackoffInterrupt]: a sticky flag *)
Record BackoffInterrupt := { signalled : bool }.
Definition new_interrupt : BackoffInterrupt := {| signalled := false |}.
Definition signal (b : BackoffInterrupt) : BackoffInterrupt := {| signalled := true |}.
Definition reset (b : BackoffInterrupt) : BackoffInterrupt := {| signalled := false |}.
(** Whether the wait ends by the flag; [during] says that it is raised meanwhile. *)
Definition waitFor (b : BackoffInterrupt) (during : bool) : bool := signalled b || during.

(** ** The policy *)
Record BackoffPolicy := { delay : Z; increasePerTry : Z; maxTryCount : Z }.
Definition default_policy : BackoffPolicy := {| delay := 500; increasePerTry := 2; maxTryCount := 7 |}.

(** [static_cast<int64_t>(std::pow(a, n))]: exact up to [2^53], the doubles that are
    integers; beyond that, for a negative exponent and for a product out of [int64_t]
    the model does not say. *)
Definition pow_int (a n : Z) : option Z :=
  if (0 <=? n) && (Z.abs (a ^ n) <=? 2 ^ 53) then Some (a ^ n) else None.

Definition maxDelay (p : BackoffPolicy) : option Z :=
  m ← pow_int (increasePerTry p) (maxTryCount p);
  if in_int64 (delay p * m) then Some (delay p * m) else None.

Section Backoff.
  Context (attempt : nat -> ConnectionStatus) (keepGoing : nat -> bool).

(** The [for(;;)]: [n] attempts and [c] checks so far; returns the status and the waits
    that were started. *)
Fixpoint backoff_loop (fuel : nat) (p : BackoffPolicy) (limit backoff : Z) (n c : nat)
    : option (ConnectionStatus * list Z) :=
  match fuel with
  | O => None
  | S fuel' =>
      if negb (keepGoing c) then Some (ConnectionStatus_CLOSED, []) else
      if negb (keepGoing (S c)) then Some (ConnectionStatus_CLOSED, [backoff]) else
      if connected (attempt n) then Some (ConnectionStatus_SUCCESS, [backoff]) else
      let backoff' := backoff * increasePerTry p in
      if negb (in_int64 backoff') then None else
      if limit <=? backoff' then Some (ConnectionStatus_FAIL, [backoff]) else
      '(st, waits) ← backoff_loop fuel' p limit backoff' (S n) (S (S c)); Some (st, backoff :: waits)
  end.

Definition exponentialBackOff (fuel : nat) (p : BackoffPolicy) : option (ConnectionStatus * list Z) :=
  limit ← maxDelay p;
  backoff_loop fuel p limit (delay p) 0 0.
End Backoff.

(** The overload without a shutdown flag. *)
Definition exponentialBackOff_simple (attempt : nat -> ConnectionStatus) (fuel : nat) (p : BackoffPolicy) :=
  exponentialBackOff attempt (fun _ => true) fuel p.

(** ** The schedule *)

Definition waits_upto (p : BackoffPolicy) (n : nat) : list Z :=
  (fun k => delay p * increasePerTry p ^ k) <$> seqZ 0 (Z.of_nat n).

Definition sum (l : list Z) : Z := fold_right Z.add 0 l.

Lemma waits_snoc p n : waits_upto p (S n) = waits_upto p n ++ [delay p * increasePerTry p ^ Z.of_nat n].
Proof.
  unfold waits_upto. replace (Z.of_nat (S n)) with (Z.of_nat n + 1) by lia. rewrite seqZ_app, fmap_app by lia.
  by rewrite Z.add_0_l.
Qed.

Section Schedule.
  Context (attempt : nat -> ConnectionStatus) (keepGoing : nat -> bool) (p : BackoffPolicy).
  Context (Hdelay : 0 < delay p) (Hinc : 2 <= increasePerTry p) (Htry : 0 < maxTryCount p).

Lemma pow_pos' n : 0 <= n -> 0 < increasePerTry p ^ n.
Proof. intros Hn. apply Z.pow_pos_nonneg; lia. Qed.

Lemma pow_mono n m : 0 <= n <= m -> increasePerTry p ^ n <= increasePerTry p ^ m.
Proof. intros H. apply Z.pow_le_mono_r; lia. Qed.

(** From the [n]-th attempt on, with enough fuel. *)
Lemma backoff_loop_spec limit : limit = delay p * increasePerTry p ^ maxTryCount p -> in_int64 limit = true ->
  forall fuel (n c : nat), Z.of_nat n < maxTryCount p -> maxTryCount p - Z.of_nat n <= Z.of_nat fuel ->
  exists st waits, backoff_loop attempt keepGoing fuel p limit (delay p * increasePerTry p ^ Z.of_nat n) n c = Some (st, waits) /\
    (exists m, (n <= m)%nat /\ Z.of_nat m <= maxTryCount p /\ waits_upto p n ++ waits = waits_upto p m /\
      match st with
      | ConnectionStatus_SUCCESS => (n < m)%nat /\ attempt (pred m) = ConnectionStatus_SUCCESS /\
          forall j, (n <= j < pred m)%nat -> attempt j <> ConnectionStatus_SUCCESS
      | ConnectionStatus_FAIL => Z.of_nat m = maxTryCount p /\ forall j, (n <= j < m)%nat -> attempt j <> ConnectionStatus_SUCCESS
      | ConnectionStatus_CLOSED => exists i, keepGoing i = false
      end).
Proof.
  intros Hlim Hint. induction fuel as [|fuel IH]; intros n c Hn Hf; [lia|]. cbn [backoff_loop].
  destruct (keepGoing c) eqn:Ek; cbn [negb].
  2: { exists ConnectionStatus_CLOSED, []. split; [done|]. exists n. rewrite app_nil_r. by split_and!; try lia; try done; eexists. }
  destruct (keepGoing (S c)) eqn:Ek'; cbn [negb].
  2: { exists ConnectionStatus_CLOSED, [delay p * increasePerTry p ^ Z.of_nat n]. split; [done|]. exists (S n).
       rewrite waits_snoc. split_and!; [lia|lia|done|by eexists]. }
  unfold connected. case_bool_decide as Ea.
  { exists ConnectionStatus_SUCCESS, [delay p * increasePerTry p ^ Z.of_nat n]. split; [done|]. exists (S n).
    rewrite waits_snoc. split_and!; [lia|lia|done|lia|done|intros j Hj; cbn in Hj; lia]. }
  replace (delay p * increasePerTry p ^ Z.of_nat n * increasePerTry p) with (delay p * increasePerTry p ^ Z.of_nat (S n))
    by (rewrite Nat2Z.inj_succ, Z.pow_succ_r by lia; lia).
  assert (Hle : delay p * increasePerTry p ^ Z.of_nat (S n) <= limit).
  { rewrite Hlim. apply Z.mul_le_mono_nonneg_l; [lia|]. apply pow_mono. lia. }
  assert (0 < delay p * increasePerTry p ^ Z.of_nat (S n)) by (apply Z.mul_pos_pos; [lia|apply pow_pos'; lia]).
  assert (in_int64 (delay p * increasePerTry p ^ Z.of_nat (S n)) = true) as ->.
  { unfold in_int64 in *. apply andb_prop in Hint as [_ Hint%Z.ltb_lt]. apply andb_true_intro.
    split; [apply Z.leb_le; lia|apply Z.ltb_lt; lia]. }
  cbn [negb]. destruct (Z.leb_spec limit (delay p * increasePerTry p ^ Z.of_nat (S n))) as [Hge|Hlt].
  - exists ConnectionStatus_FAIL, [delay p * increasePerTry p ^ Z.of_nat n]. split; [done|]. exists (S n).
    rewrite waits_snoc. split_and!; [lia|lia|done| |intros j Hj; by replace j with n by lia].
    destruct (Z.lt_ge_cases (Z.of_nat (S n)) (maxTryCount p)) as [Hl|]; [|lia]. exfalso.
    assert (increasePerTry p ^ Z.of_nat (S n) < increasePerTry p ^ maxTryCount p) by (apply Z.pow_lt_mono_r; lia). nia.
  - assert (Z.of_nat (S n) < maxTryCount p).
    { destruct (Z.lt_ge_cases (Z.of_nat (S n)) (maxTryCount p)) as [|Hge]; [done|].
      replace (Z.of_nat (S n)) with (maxTryCount p) in Hlt by lia. lia. }
    destruct (IH (S n) (S (S c))) as (st & waits & -> & m & Hm & Hmt & Hw & Hst); [lia|lia|]. cbn [mbind option_bind].
    exists st, (delay p * increasePerTry p ^ Z.of_nat n :: waits). split; [done|]. exists m.
    split_and!; [lia|lia|by rewrite <- Hw, waits_snoc, <- app_assoc|].
    destruct st.
    + destruct Hst as (? & ? & Hj). split_and!; [lia|done|]. intros j Hj'. destruct (decide (j = n)) as [->|]; [done|]. apply Hj. lia.
    + destruct Hst as (? & Hj). split; [done|]. intros j Hj'. destruct (decide (j = n)) as [->|]; [done|]. apply Hj. lia.
    + done.
Qed.
End Schedule.

(** The retry schedule: for a positive delay and a growing policy whose ceiling fits,
    [exponentialBackOff] terminates after at most [maxTryCount] attempts, waits
    [delay * increase^k] before the k-th one, succeeds at the first attempt that does,
    fails only after [maxTryCount] failures, and is CLOSED only if the flag said so. *)
Theorem backoff_schedule attempt keepGoing p limit :
  0 < delay p -> 2 <= increasePerTry p -> 0 < maxTryCount p -> maxDelay p = Some limit ->
  exists st m, exponentialBackOff attempt keepGoing (Z.to_nat (maxTryCount p)) p = Some (st, waits_upto p m) /\
    Z.of_nat m <= maxTryCount p /\
    match st with
    | ConnectionStatus_SUCCESS => (0 < m)%nat /\ attempt (pred m) = ConnectionStatus_SUCCESS /\
        forall j, (j < pred m)%nat -> attempt j <> ConnectionStatus_SUCCESS
    | ConnectionStatus_FAIL => Z.of_nat m = maxTryCount p /\ forall j, (j < m)%nat -> attempt j <> ConnectionStatus_SUCCESS
    | ConnectionStatus_CLOSED => exists i, keepGoing i = false
    end.
Proof.
  intros Hd Hi Ht Hm. unfold exponentialBackOff. rewrite Hm. cbn [mbind option_bind].
  unfold maxDelay, pow_int in Hm. destruct ((0 <=? maxTryCount p) && _); [|done]. cbn in Hm.
  destruct (in_int64 _) eqn:E; [|done]. injection Hm as <-.
  destruct (backoff_loop_spec attempt keepGoing p Hd Hi Ht _ eq_refl E (Z.to_nat (maxTryCount p)) 0 0)
    as (st & waits & Hl & m & _ & Hmt & Hw & Hst); [lia|lia|].
  rewrite Z.pow_0_r, Z.mul_1_r in Hl. replace (waits_upto p 0) with (@nil Z) in Hw by reflexivity. cbn [app] in Hw. subst waits. exists st, m. split_and!; [done|done|].
  destruct st; [|destruct Hst as [? Hj]; split; [done|]; intros j Hj'; apply Hj; lia|done].
  destruct Hst as (? & ? & Hj). split_and!; [done|done|]. intros j Hj'. apply Hj. lia.
Qed.

(** The default policy, exhausted: seven waits, 63.5 s in all, the last of 32 s. *)
Lemma backoff_schedule_witness :
  exists m, exponentialBackOff (fun _ => ConnectionStatus_FAIL) (fun _ => true) 7 default_policy
    = Some (ConnectionStatus_FAIL, waits_upto default_policy m) /\ sum (waits_upto default_policy m) = 63500.
Proof.
  destruct (backoff_schedule (fun _ => ConnectionStatus_FAIL) (fun _ => true) default_policy 64000)
    as (st & m & Hb & _ & Hst); [cbn; lia|cbn; lia|cbn; lia|reflexivity|].
  destruct st.
  - destruct Hst as (_ & Hs & _). discriminate.
  - exists m. split; [exact Hb|]. destruct Hst as [Hm _]. cbn in Hm. replace m with 7%nat by lia. reflexivity.
  - destruct Hst as [i Hi]. discriminate.
Defined.
