(* ===== verification/StreamHolder.v ===== *)
(** * StreamHolder: one REST connection, with reconnects

    Models [class StreamHolder] of [src/core/streams/streamHolder.hpp]. The network is
    the environment [Net]: the outcome of each connection attempt, stage by stage, and
    of each exchange, by their number. The state counts them and remembers
    [connectionStatus]; every public operation runs under the holder's spinlock, so an
    operation is one step. *)

From S2P Require Import Prelude Backoff RequestParameter.

(** What the stages of [establishConnection] report, in order. *)
Record net_attempt := { resolve_ok : bool; connect_ok : bool; sni_ok : bool; handshake_ok : bool }.

(** [exchange]: an error of the write or of the read, or a response. *)
Inductive exchange_result :=
  | WriteError (ec : string)
  | ReadError (ec : string)
  | Response (result_int : Z) (body : string) (keep_alive : bool).

Record Request := {
  method : string;
  target : string;
  headers : list (string * string);
  body : string;
}.

Class Net := {
  connect : nat -> net_attempt;
  transmit : nat -> Request -> exchange_result;
}.

Record Holder := {
  connectionStatus : ConnectionStatus;
  policy : BackoffPolicy;
  attempts : nat;           (** connection attempts so far *)
  exchanges : list Request; (** requests written so far, oldest first *)
}.

Section StreamHolder.
  Context `{Net}.
  Context (host : string).

Definition set_status (h : Holder) (s : ConnectionStatus) : Holder :=
  {| connectionStatus := s; policy := policy h; attempts := attempts h; exchanges := exchanges h |}.

(** Every attempt starts on a fresh stream and stops at the first failing stage. *)
Definition establishConnection (h : Holder) : Holder * ConnectionStatus :=
  let a := connect (attempts h) in
  ({| connectionStatus := connectionStatus h; policy := policy h; attempts := S (attempts h); exchanges := exchanges h |},
   if negb (resolve_ok a) then ConnectionStatus_FAIL
   else if negb (connect_ok a) then ConnectionStatus_FAIL
   else if negb (sni_ok a) then ConnectionStatus_FAIL
   else if negb (handshake_ok a) then ConnectionStatus_FAIL
   else ConnectionStatus_SUCCESS).

(** [connectionStatus = establishConnection(host)]. *)
Definition reconnect (h : Holder) : Holder :=
  let '(h1, s) := establishConnection h in set_status h1 s.

(** The back-off retries [establishConnection]; its attempts are those that follow. *)
Definition backOff (h : Holder) : option (Holder * ConnectionStatus) :=
  '(s, waits) ← exponentialBackOff_simple
     (fun k => (establishConnection {| connectionStatus := connectionStatus h; policy := policy h;
                                       attempts := (attempts h + k)%nat; exchanges := exchanges h |}).2)
     (Z.to_nat (maxTryCount (policy h))) (policy h);
  Some ({| connectionStatus := connectionStatus h; policy := policy h;
           attempts := (attempts h + length waits)%nat; exchanges := exchanges h |}, s).

(** [connectionStatus = establishConnection(host)], then the back-off if it failed: the
    constructor, and [retryConnection(true)]. *)
Definition connect_retrying (h : Holder) : option Holder :=
  let h1 := reconnect h in
  if connected (connectionStatus h1) then Some h1
  else '(h2, s) ← backOff h1; Some (set_status h2 s).

Definition new_holder (p : BackoffPolicy) : option Holder :=
  connect_retrying {| connectionStatus := ConnectionStatus_FAIL; policy := p; attempts := O; exchanges := [] |}.

Definition retryConnection (h : Holder) (isExponentialBackoff : bool) : option (Holder * ConnectionStatus) :=
  if isExponentialBackoff then h1 ← connect_retrying h; Some (h1, connectionStatus h1)
  else let h1 := reconnect h in Some (h1, connectionStatus h1).

(** [exchange]: the error, and the data it filled. *)
Definition exchange (h : Holder) (req : Request) (d : StreamData) : Holder * StreamData * option string :=
  let r := transmit (length (exchanges h)) req in
  let h1 := {| connectionStatus := connectionStatus h; policy := policy h; attempts := attempts h;
               exchanges := exchanges h ++ [req] |} in
  match r with
  | WriteError e => (h1, d, Some e)
  | ReadError e => (h1, d, Some e)
  | Response st b ka =>
      let d' := {| status := status d; string_ := b; httpStatus := st; ec := ec d |} in
      (if ka then h1 else set_status h1 ConnectionStatus_FAIL, d', None)
  end.

Definition with_status (d : StreamData) (s : ConnectionStatus) : StreamData :=
  {| status := s; string_ := string_ d; httpStatus := httpStatus d; ec := ec d |}.
Definition with_ec (d : StreamData) (e : string) : StreamData :=
  {| status := status d; string_ := string_ d; httpStatus := httpStatus d; ec := Some e |}.

(** The message of [net::error::not_connected]. *)
Definition not_connected : string := "Transport endpoint is not connected".

Definition perform (h : Holder) (req : Request) : Holder * StreamData :=
  let h1 := if connected (connectionStatus h) then h else reconnect h in
  let '(h2, d, e, done) :=
    (if connected (connectionStatus h1) then
       let '(h2, d, e) := exchange h1 req StreamData_empty in
       (h2, d, e, bool_decide (e = None))
     else (h1, StreamData_empty, None, false)) in
  if (done : bool) then (h2, with_status d ConnectionStatus_SUCCESS) else
  let h3 := reconnect h2 in
  if negb (connected (connectionStatus h3)) then (h3, with_ec d (default not_connected e)) else
  let '(h4, d', e') := exchange h3 req StreamData_empty in
  match e' with
  | Some e'' => (set_status h4 ConnectionStatus_FAIL, with_ec d' e'')
  | None => (h4, with_status d' ConnectionStatus_SUCCESS)
  end.

Definition base_headers (keepAlive : bool) : list (string * string) :=
  [("Host"%string, host); ("User-Agent"%string, "APIManager/1.0"%string)]
  ++ (if keepAlive then [("Connection"%string, "keep-alive"%string)] else []).

Definition sendRequest (h : Holder) (target_ method_ : string) (keepAlive : bool) : Holder * StreamData :=
  perform h {| method := method_; target := target_; headers := base_headers keepAlive; body := "" |}.

(** The overload with parameters, in the body or as header fields. *)
Definition sendRequest_params (h : Holder) (target_ method_ : string) (keepAlive needBody : bool)
    (ps : list RequestParameter) : Holder * StreamData :=
  perform h
    {| method := method_; target := target_;
       headers := base_headers keepAlive ++ (if needBody then [] else (fun p => (requestField p, request p)) <$> ps);
       body := if needBody then makeRequestFromRequestParameters ps else "" |}.

Definition connectionAlive (h : Holder) : bool := connected (connectionStatus h).

(** ** One exchange, one reconnect *)

Definition answered (k : nat) (req : Request) : Prop := exists st b ka, transmit k req = Response st b ka.

Lemma reconnect_spec h : exchanges (reconnect h) = exchanges h /\ attempts (reconnect h) = S (attempts h) /\
  policy (reconnect h) = policy h.
Proof. done. Qed.

Lemma exchange_spec h req d h' d' e : exchange h req d = (h', d', e) ->
  exchanges h' = exchanges h ++ [req] /\ attempts h' = attempts h /\ policy h' = policy h /\
  match e with
  | Some x => d' = d /\ ~ answered (length (exchanges h)) req
  | None => exists st b ka, transmit (length (exchanges h)) req = Response st b ka /\
      d' = {| status := status d; string_ := b; httpStatus := st; ec := ec d |} /\
      (connectionAlive h = true -> connectionAlive h' = ka)
  end.
Proof.
  unfold exchange. destruct (transmit (length (exchanges h)) req) as [x|x|st b ka] eqn:E; intros [= <- <- <-].
  - split_and!; try done. intros (? & ? & ? & ?). congruence.
  - split_and!; try done. intros (? & ? & ? & ?). congruence.
  - destruct ka; (split_and!; try done; do 3 eexists; split_and!; done).
Qed.

(** What [perform] promises about [n] exchanges ending in [d]. *)
Definition performed (h : Holder) (req : Request) (n : nat) (h' : Holder) (d : StreamData) : Prop :=
  exchanges h' = exchanges h ++ replicate n req /\ (attempts h' <= attempts h + 2)%nat /\ policy h' = policy h /\
  if ok d
  then exists st b ka, (0 < n)%nat /\ transmit (length (exchanges h) + pred n) req = Response st b ka /\
    d = {| status := ConnectionStatus_SUCCESS; string_ := b; httpStatus := st; ec := None |} /\
    connectionAlive h' = ka
  else (exists e, ec d = Some e) /\ connectionAlive h' = false /\
    forall k, (k < n)%nat -> ~ answered (length (exchanges h) + k) req.

(** The second half: reconnect and send once more, after [n] unanswered exchanges. *)
Lemma perform_retry h h2 req n e : exchanges h2 = exchanges h ++ replicate n req ->
  (attempts h2 <= attempts h + 1)%nat -> policy h2 = policy h ->
  (forall k, (k < n)%nat -> ~ answered (length (exchanges h) + k) req) ->
  exists m h' d, (m <= S n)%nat /\
    (let h3 := reconnect h2 in
     if negb (connected (connectionStatus h3)) then (h3, with_ec StreamData_empty (default not_connected e)) else
     let '(h4, d', e') := exchange h3 req StreamData_empty in
     match e' with
     | Some e'' => (set_status h4 ConnectionStatus_FAIL, with_ec d' e'')
     | None => (h4, with_status d' ConnectionStatus_SUCCESS)
     end) = (h', d) /\ performed h req m h' d.
Proof.
  intros He Ha Hp Hn. destruct (reconnect_spec h2) as (He3 & Ha3 & Hp3). cbv zeta.
  generalize dependent (reconnect h2). intros h3 He3 Ha3 Hp3.
  destruct (connected (connectionStatus h3)) eqn:E3; cbn [negb].
  2: { exists n. do 2 eexists. split; [lia|]. split; [done|]. split_and!; [congruence|lia|congruence|].
       cbn. split_and!; [by eexists|exact E3|exact Hn]. }
  destruct (exchange h3 req StreamData_empty) as [[h4 d'] e'] eqn:Ex.
  destruct (exchange_spec _ _ _ _ _ _ Ex) as (He4 & Ha4 & Hp4 & Hres). rewrite He3, He in He4, Hres.
  assert (Hrep : exchanges h4 = exchanges h ++ replicate (S n) req).
  { rewrite He4, <- app_assoc. f_equal. rewrite replicate_S_end. done. }
  rewrite length_app, length_replicate in Hres. exists (S n). destruct e' as [x|].
  - destruct Hres as [-> Hna]. do 2 eexists. split; [lia|]. split; [done|]. split_and!; [done|cbn; lia|cbn; congruence|].
    cbn. split_and!; [by eexists|done|]. intros k Hk. destruct (decide (k = n)) as [->|]; [done|]. apply Hn. lia.
  - destruct Hres as (st & b & ka & Ht & -> & Hal). do 2 eexists. split; [lia|]. split; [done|]. split_and!; [done|lia|congruence|].
    cbn. exists st, b, ka. split_and!; [lia|done|done|by apply Hal].
Qed.

(** [perform] sends the request at most twice, over at most two new connections; it
    reports success exactly when its last exchange was answered, with that answer's
    status and body; a failure carries an error code and leaves the connection marked
    broken; a connection the server will close is marked broken as well. *)
Theorem perform_correct h req : exists n h' d, (n <= 2)%nat /\ perform h req = (h', d) /\ performed h req n h' d.
Proof.
  unfold perform. set (h1 := if connected (connectionStatus h) then h else reconnect h).
  assert (exchanges h1 = exchanges h /\ (attempts h1 <= attempts h + 1)%nat /\ policy h1 = policy h) as (He1 & Ha1 & Hp1).
  { unfold h1. destruct (connected (connectionStatus h)); [split_and!; [done|lia|done]|].
    destruct (reconnect_spec h) as (-> & -> & ->). split_and!; [done|lia|done]. }
  destruct (connected (connectionStatus h1)) eqn:E1.
  2: { destruct (perform_retry h h1 req 0 None) as (m & h' & d & Hm & Hr & Hd);
         [by rewrite app_nil_r|lia|done|lia|]. exists m, h', d. split; [lia|]. split; [exact Hr|done]. }
  destruct (exchange h1 req StreamData_empty) as [[h2 d] e] eqn:Ex.
  destruct (exchange_spec _ _ _ _ _ _ Ex) as (He2 & Ha2 & Hp2 & Hres). rewrite He1 in *. destruct e as [x|].
  - destruct Hres as [-> Hna]. rewrite bool_decide_false by done.
    destruct (perform_retry h h2 req 1 (Some x)) as (m & h' & d & Hm & Hr & Hd); [done|lia|congruence| |].
    { intros k Hk. replace k with O by lia. by rewrite Nat.add_0_r. }
    exists m, h', d. split; [lia|]. split; [exact Hr|done].
  - destruct Hres as (st & b & ka & Ht & -> & Hal). rewrite bool_decide_true by done.
    exists 1%nat, h2, (with_status {| status := status StreamData_empty; string_ := b; httpStatus := st; ec := ec StreamData_empty |} ConnectionStatus_SUCCESS).
    split; [lia|]. split; [done|]. split_and!; [done|lia|congruence|]. cbn. exists st, b, ka. rewrite Nat.add_0_r.
    split_and!; [lia|done|done|by apply Hal].
Qed.
End StreamHolder.
