(* ===== verification/WebsocketStream.v ===== *)
(** * WebsocketStream: the thread that reads a stream

    Models [class WebsocketStreamHolder] of [src/core/streams/websocketStreamHolder.hpp]
    as a transition system. [thread_step] is the next step of the code that owns the
    socket: the thread's [executionLoop] with everything it calls, and the reconnect of
    [reEstablishExecution], which runs only while no thread does. Between its steps
    [step] interleaves the rest of the program: [closeConnection] or the destructor
    (store by store), a restart, and one consumer.

    The network and the parser are the environment, by the number of the call. The ring
    [bufferOut] is the FIFO queue RingBuffer and RingConc prove it to be; an [enqueue] on
    a full ring and a [dequeue] on an empty one are steps that are not enabled. *)

From S2P Require Import Prelude Errors Backoff.

(** What [ws.read(buffer, ec)] and the copy after it do: the bytes it appends to
    [buffer], then the way it ends. *)
Inductive recv_result :=
  | Received (bytes : string)
  | RecvError (bytes : string)                     (** [ec] is set *)
  | RecvSystemError (bytes : string) (closed : bool)
  | RecvException (bytes : string) (what : string).

Class StreamNet (Data : Type) := {
  (** the k-th [setupConnection]: [Some what] if one of its steps throws *)
  stream_setup : nat -> option string;
  stream_recv : nat -> recv_result;
  (** the k-th call of [func] *)
  func : nat -> string -> result Data;
}.

(** Who called [exponentialBackOff]; the loop holds the message it had read. *)
Inductive caller := AtStart | InLoop (json : string) | Reestablish.

Inductive tpc (Data : Type) :=
  | TStart                                  (** [if(!connectionAlive)] *)
  | TSetup (c : caller) (retry : option Z)  (** [setupConnection]; in the back-off, its interval *)
  | TConnect (c : caller) (retry : option Z)
  | TCheck (c : caller) (backoff : Z)       (** [if(!keepGoing())] *)
  | TWait (c : caller) (backoff : Z)
  | TCheck2 (c : caller) (backoff : Z)
  | TLive                                   (** [connectionAlive = true] before the loop *)
  | TLoop                                   (** [while(running)] *)
  | TRead
  | TEmpty (json : string)                  (** [if(json.length() == 0)] *)
  | TAlive (json : string)                  (** [if(!connectionAlive)] *)
  | TParse (json : string)
  | TEnqueue (d : Data)
  | TCount                                  (** [controlVariable.fetch_add] *)
  | TDone.
Arguments TStart {Data}.
Arguments TSetup {Data} _ _.
Arguments TConnect {Data} _ _.
Arguments TCheck {Data} _ _.
Arguments TWait {Data} _ _.
Arguments TCheck2 {Data} _ _.
Arguments TLive {Data}.
Arguments TLoop {Data}.
Arguments TRead {Data}.
Arguments TEmpty {Data} _.
Arguments TAlive {Data} _.
Arguments TParse {Data} _.
Arguments TEnqueue {Data} _.
Arguments TCount {Data}.
Arguments TDone {Data}.

(** The consumer, between [getLatestData]s, about to subtract, about to dequeue. *)
Inductive cpc := CIdle | CSubtract | CDequeue.

Record Holder (Data : Type) := {
  running : bool;
  connectionAlive : bool;
  connecting : bool;
  shutdownSignal : BackoffInterrupt;
  buffer : string;
  lastError : option FetchError;
  controlVariable : Z;
  bufferOut : list Data;
  pc : tpc Data;
  consumer : cpc;
  attempts : nat;                (** calls of [setupConnection] that have ended *)
  reads : nat;                   (** calls of [ws.read] *)
  parsed : list string;          (** the messages given to [func] *)
  queued : list Data;            (** everything ever enqueued *)
  taken : list Data;             (** everything the consumer has dequeued *)
  stopped : bool;                (** [running] was cleared from outside *)
  cut : bool;                    (** [closeConnection] was called *)
}.
Arguments running {Data} _.
Arguments connectionAlive {Data} _.
Arguments connecting {Data} _.
Arguments shutdownSignal {Data} _.
Arguments buffer {Data} _.
Arguments lastError {Data} _.
Arguments controlVariable {Data} _.
Arguments bufferOut {Data} _.
Arguments pc {Data} _.
Arguments consumer {Data} _.
Arguments attempts {Data} _.
Arguments reads {Data} _.
Arguments parsed {Data} _.
Arguments queued {Data} _.
Arguments taken {Data} _.
Arguments stopped {Data} _.
Arguments cut {Data} _.

Section Updates.
  Context {Data : Type} (s : Holder Data).

Definition goto (p : tpc Data) : Holder Data := {| running := running s; connectionAlive := connectionAlive s; connecting := connecting s; shutdownSignal := shutdownSignal s; buffer := buffer s; lastError := lastError s; controlVariable := controlVariable s; bufferOut := bufferOut s; pc := p; consumer := consumer s; attempts := attempts s; reads := reads s; parsed := parsed s; queued := queued s; taken := taken s; stopped := stopped s; cut := cut s |}.
Definition set_flags (r a c : bool) : Holder Data := {| running := r; connectionAlive := a; connecting := c; shutdownSignal := shutdownSignal s; buffer := buffer s; lastError := lastError s; controlVariable := controlVariable s; bufferOut := bufferOut s; pc := pc s; consumer := consumer s; attempts := attempts s; reads := reads s; parsed := parsed s; queued := queued s; taken := taken s; stopped := stopped s; cut := cut s |}.
Definition set_error (e : option FetchError) : Holder Data := {| running := running s; connectionAlive := connectionAlive s; connecting := connecting s; shutdownSignal := shutdownSignal s; buffer := buffer s; lastError := e; controlVariable := controlVariable s; bufferOut := bufferOut s; pc := pc s; consumer := consumer s; attempts := attempts s; reads := reads s; parsed := parsed s; queued := queued s; taken := taken s; stopped := stopped s; cut := cut s |}.
Definition set_attempts (n : nat) : Holder Data := {| running := running s; connectionAlive := connectionAlive s; connecting := connecting s; shutdownSignal := shutdownSignal s; buffer := buffer s; lastError := lastError s; controlVariable := controlVariable s; bufferOut := bufferOut s; pc := pc s; consumer := consumer s; attempts := n; reads := reads s; parsed := parsed s; queued := queued s; taken := taken s; stopped := stopped s; cut := cut s |}.
Definition set_read (b : string) (n : nat) : Holder Data := {| running := running s; connectionAlive := connectionAlive s; connecting := connecting s; shutdownSignal := shutdownSignal s; buffer := b; lastError := lastError s; controlVariable := controlVariable s; bufferOut := bufferOut s; pc := pc s; consumer := consumer s; attempts := attempts s; reads := n; parsed := parsed s; queued := queued s; taken := taken s; stopped := stopped s; cut := cut s |}.
Definition set_parsed (l : list string) : Holder Data := {| running := running s; connectionAlive := connectionAlive s; connecting := connecting s; shutdownSignal := shutdownSignal s; buffer := buffer s; lastError := lastError s; controlVariable := controlVariable s; bufferOut := bufferOut s; pc := pc s; consumer := consumer s; attempts := attempts s; reads := reads s; parsed := l; queued := queued s; taken := taken s; stopped := stopped s; cut := cut s |}.
Definition set_queue (q l t : list Data) : Holder Data := {| running := running s; connectionAlive := connectionAlive s; connecting := connecting s; shutdownSignal := shutdownSignal s; buffer := buffer s; lastError := lastError s; controlVariable := controlVariable s; bufferOut := q; pc := pc s; consumer := consumer s; attempts := attempts s; reads := reads s; parsed := parsed s; queued := l; taken := t; stopped := stopped s; cut := cut s |}.
Definition set_consumer (n : Z) (c : cpc) : Holder Data := {| running := running s; connectionAlive := connectionAlive s; connecting := connecting s; shutdownSignal := shutdownSignal s; buffer := buffer s; lastError := lastError s; controlVariable := n; bufferOut := bufferOut s; pc := pc s; consumer := c; attempts := attempts s; reads := reads s; parsed := parsed s; queued := queued s; taken := taken s; stopped := stopped s; cut := cut s |}.
Definition set_signal (b : BackoffInterrupt) (x : bool) : Holder Data := {| running := running s; connectionAlive := connectionAlive s; connecting := connecting s; shutdownSignal := b; buffer := buffer s; lastError := lastError s; controlVariable := controlVariable s; bufferOut := bufferOut s; pc := pc s; consumer := consumer s; attempts := attempts s; reads := reads s; parsed := parsed s; queued := queued s; taken := taken s; stopped := x; cut := cut s |}.
Definition set_cut (x : bool) : Holder Data := {| running := running s; connectionAlive := connectionAlive s; connecting := connecting s; shutdownSignal := shutdownSignal s; buffer := buffer s; lastError := lastError s; controlVariable := controlVariable s; bufferOut := bufferOut s; pc := pc s; consumer := consumer s; attempts := attempts s; reads := reads s; parsed := parsed s; queued := queued s; taken := taken s; stopped := stopped s; cut := x |}.
End Updates.

Definition set_running {Data} (s : Holder Data) (r : bool) := set_flags s r (connectionAlive s) (connecting s).
Definition set_alive {Data} (s : Holder Data) (a : bool) := set_flags s (running s) a (connecting s).
Definition set_connecting {Data} (s : Holder Data) (c : bool) := set_flags s (running s) (connectionAlive s) c.

Definition RING_CAPACITY : nat := 1024.

Section Thread.
  Context {Data : Type} `{StreamNet Data}.

(** [setupConnection] up to the [try]. *)
Definition setup_begin (s : Holder Data) : Holder Data := set_error (set_connecting s true) None.

(** The rest of it: the new state and the status it returns. *)
Definition setup_end (s : Holder Data) : Holder Data * ConnectionStatus :=
  let s1 := set_attempts s (S (attempts s)) in
  match stream_setup (attempts s) with
  | None => (set_connecting (set_alive s1 true) false, ConnectionStatus_SUCCESS)
  | Some what =>
      (set_connecting (set_error s1 (Some (FetchError_msg APIError_BOOST_ERROR what))) false, ConnectionStatus_FAIL)
  end.

(** [exponentialBackOff] returns to its caller. *)
Definition backoff_return (s : Holder Data) (c : caller) (st : ConnectionStatus) : Holder Data :=
  match c, st with
  | AtStart, ConnectionStatus_SUCCESS => goto s TLive
  | InLoop json, ConnectionStatus_SUCCESS => goto s (TParse json)
  | Reestablish, ConnectionStatus_SUCCESS => goto s TStart
  | _, _ => goto (set_running s false) TDone
  end.

(** [setupConnection] returns, to the back-off or to the code before it. *)
Definition setup_return (s : Holder Data) (c : caller) (retry : option Z) (st : ConnectionStatus) : Holder Data :=
  match st, retry with
  | ConnectionStatus_SUCCESS, _ => backoff_return s c st
  | _, None => goto s (TCheck c (delay default_policy))
  | _, Some backoff =>
      let backoff' := backoff * increasePerTry default_policy in
      if default (2 ^ 63) (maxDelay default_policy) <=? backoff'
      then backoff_return s c ConnectionStatus_FAIL
      else goto s (TCheck c backoff')
  end.

(** [getLatestMessage]. *)
Definition getLatestMessage (s : Holder Data) : Holder Data * string :=
  if negb (connectionAlive s) then (s, ""%string) else
  let n := S (reads s) in
  match stream_recv (reads s) with
  | Received bytes => (set_read s "" n, (buffer s +:+ bytes)%string)
  | RecvError bytes => (set_read s (buffer s +:+ bytes)%string n, ""%string)
  | RecvSystemError bytes closed =>
      let s1 := set_read s (buffer s +:+ bytes)%string n in
      (if closed then set_alive s1 false else s1, ""%string)
  | RecvException bytes what =>
      (set_error (set_read s (buffer s +:+ bytes)%string n) (Some (FetchError_msg APIError_BOOST_ERROR what)), ""%string)
  end.

(** One step; [None] when it can not move: it has ended, or the ring is full. *)
Definition thread_step (s : Holder Data) : option (Holder Data) :=
  match pc s with
  | TStart => Some (goto s (if connectionAlive s then TLive else TSetup AtStart None))
  | TSetup c retry => Some (goto (setup_begin s) (TConnect c retry))
  | TConnect c retry => let '(s1, st) := setup_end s in Some (setup_return s1 c retry st)
  | TCheck c backoff =>
      Some (if running s then goto s (TWait c backoff) else backoff_return s c ConnectionStatus_CLOSED)
  | TWait c backoff => Some (goto s (TCheck2 c backoff))
  | TCheck2 c backoff =>
      Some (if running s then goto s (TSetup c (Some backoff)) else backoff_return s c ConnectionStatus_CLOSED)
  | TLive => Some (goto (set_alive s true) TLoop)
  | TLoop => Some (goto s (if running s then TRead else TDone))
  | TRead => let '(s1, json) := getLatestMessage s in Some (goto s1 (TEmpty json))
  | TEmpty json => Some (goto (if (String.length json =? 0)%nat then set_alive s false else s) (TAlive json))
  | TAlive json => Some (goto s (if connectionAlive s then TParse json else TCheck (InLoop json) (delay default_policy)))
  | TParse json =>
      let s1 := set_parsed s (parsed s ++ [json]) in
      Some (goto s1 (match func (length (parsed s)) json with Ok d => TEnqueue d | Throw _ => TLoop end))
  | TEnqueue d =>
      if (length (bufferOut s) <? RING_CAPACITY)%nat
      then Some (goto (set_queue s (bufferOut s ++ [d]) (queued s ++ [d]) (taken s)) TCount) else None
  | TCount => Some (goto (set_consumer s (controlVariable s + 1) (consumer s)) TLoop)
  | TDone => None
  end.

(** The two ways the sources decide that there is data to take: [controlVariable != 0]
    (user data streams) and [!bufferOut.isEmpty()] (the order book). *)
Inductive discipline := ByControl | ByRing.
Definition ready (m : discipline) (s : Holder Data) : bool :=
  match m with
  | ByControl => negb (controlVariable s =? 0)
  | ByRing => negb (length (bufferOut s) =? 0)%nat
  end.

(** [getLatestData]: the [fetch_sub], then the [dequeue]. *)
Definition consumer_step (m : discipline) (s : Holder Data) : option (Holder Data) :=
  match consumer s with
  | CIdle => if ready m s then Some (set_consumer s (controlVariable s) CSubtract) else None
  | CSubtract => Some (set_consumer s (controlVariable s - 1) CDequeue)
  | CDequeue =>
      match bufferOut s with
      | [] => None
      | d :: q => Some (set_consumer (set_queue s q (queued s) (taken s ++ [d])) (controlVariable s) CIdle)
      end
  end.

(** The stores of [closeConnection] and of the destructor. *)
Definition close_alive (s : Holder Data) : Holder Data := set_cut (set_alive s false) true.
Definition close_running (s : Holder Data) : Holder Data := set_signal (set_running s false) (shutdownSignal s) true.
Definition close_signal (s : Holder Data) : Holder Data := set_signal s (signal (shutdownSignal s)) (stopped s).

(** [reEstablishExecution] once [thread.join()] has returned. *)
Definition restart (s : Holder Data) : option (Holder Data) :=
  match pc s with
  | TDone => Some (goto (set_signal (set_running s true) (reset (shutdownSignal s)) false) (TSetup Reestablish None))
  | _ => None
  end.

Definition new_holder : Holder Data :=
  {| running := true; connectionAlive := false; connecting := true; shutdownSignal := new_interrupt; buffer := "";
     lastError := None; controlVariable := 0; bufferOut := []; pc := TStart; consumer := CIdle; attempts := 0;
     reads := 0; parsed := []; queued := []; taken := []; stopped := false; cut := false |}.

Inductive step (m : discipline) : Holder Data -> Holder Data -> Prop :=
  | step_thread s s' : thread_step s = Some s' -> step m s s'
  | step_consumer s s' : consumer_step m s = Some s' -> step m s s'
  | step_close_alive s : step m s (close_alive s)
  | step_close_running s : step m s (close_running s)
  | step_close_signal s : step m s (close_signal s)
  | step_restart s s' : restart s = Some s' -> step m s s'.

Definition reachable (m : discipline) (s : Holder Data) : Prop := rtc (step m) new_holder s.

(** [getStatus], by the values of its loads: [connecting] is waited for. *)
Definition getStatus (s : Holder Data) : option (ConnectionStatus * option FetchError) :=
  if connecting s then None else
  if negb (running s) then Some (ConnectionStatus_CLOSED, lastError s) else
  if negb (connectionAlive s) then Some (ConnectionStatus_FAIL, lastError s) else
  Some (ConnectionStatus_SUCCESS, None).

Definition isRunning (s : Holder Data) : bool := running s.
End Thread.

(** ** The counter and the ring *)

Section Proofs.
  Context {Data : Type} `{StreamNet Data} (m : discipline).
  Implicit Types s : Holder Data.

Lemma reachable_ind_inv (I : Holder Data -> Prop) : I new_holder -> (forall s s', I s -> step m s s' -> I s') ->
  forall s, reachable m s -> I s.
Proof.
  intros H0 Hs s Hr. unfold reachable in Hr. revert H0. induction Hr as [|x y z Hxy _ IH]; eauto.
Qed.

Definition at_count s : Z := match pc s with TCount => 1 | _ => 0 end.
Definition at_dequeue s : Z := match consumer s with CDequeue => 1 | _ => 0 end.

Record queue_inv s : Prop := {
  q_split : queued s = taken s ++ bufferOut s;
  q_room : (length (bufferOut s) <= RING_CAPACITY)%nat;
  q_control : controlVariable s = Z.of_nat (length (queued s)) - at_count s - Z.of_nat (length (taken s)) - at_dequeue s;
  q_ready : match consumer s with
    | CIdle => True
    | _ => bufferOut s <> [] /\ (m = ByControl -> 1 <= controlVariable s + at_dequeue s)
    end;
  q_sign : m = ByControl -> 0 <= controlVariable s;
}.

(** Every step of the thread that is not in the ring code leaves the queue alone. *)
Definition same_queue s s' : Prop :=
  queued s' = queued s /\ taken s' = taken s /\ bufferOut s' = bufferOut s /\
  controlVariable s' = controlVariable s /\ consumer s' = consumer s.

Lemma same_queue_inv s s' : queue_inv s -> same_queue s s' -> at_count s' = at_count s -> queue_inv s'.
Proof.
  intros [] (E1 & E2 & E3 & E4 & E5) E6. split; unfold at_dequeue in *; rewrite ?E1, ?E2, ?E3, ?E4, ?E5, ?E6; done.
Qed.

Lemma setup_end_queue s : same_queue s (setup_end s).1.
Proof. unfold setup_end. by destruct (stream_setup _). Qed.

Lemma backoff_return_queue s c st : same_queue s (backoff_return s c st) /\ at_count (backoff_return s c st) = 0.
Proof. by destruct c, st. Qed.

Lemma setup_return_queue s c r st : same_queue s (setup_return s c r st) /\ at_count (setup_return s c r st) = 0.
Proof. unfold setup_return. destruct st, r; try case_match; try apply backoff_return_queue; done. Qed.

Lemma getLatestMessage_queue s : same_queue s (getLatestMessage s).1.
Proof. unfold getLatestMessage. destruct (connectionAlive s); [|done]. by destruct (stream_recv _) as [| |? []|]. Qed.

(** Outside the ring code a step of the thread leaves the queue alone. *)
Lemma thread_step_queue_cases s s' : thread_step s = Some s' ->
  (same_queue s s' /\ at_count s = 0 /\ at_count s' = 0) \/
  (exists d, pc s = TEnqueue d /\ (length (bufferOut s) < RING_CAPACITY)%nat /\
     s' = goto (set_queue s (bufferOut s ++ [d]) (queued s ++ [d]) (taken s)) TCount) \/
  (pc s = TCount /\ s' = goto (set_consumer s (controlVariable s + 1) (consumer s)) TLoop).
Proof.
  intros Hs. unfold thread_step in Hs. unfold at_count at 1. destruct (pc s) eqn:Ep; simplify_eq; try by left.
  - left. by destruct (connectionAlive s).
  - left. destruct (setup_end s) as [s1 st] eqn:E; simplify_eq. pose proof (setup_end_queue s) as Hq. rewrite E in Hq.
    destruct (setup_return_queue s1 c retry st) as [Hq' Hc]. split_and!; [|done|done].
    unfold same_queue in *. cbn [fst] in Hq. destruct_and!. split_and!; congruence.
  - left. destruct (running s); [done|]. by destruct (backoff_return_queue s c ConnectionStatus_CLOSED).
  - left. destruct (running s); [done|]. by destruct (backoff_return_queue s c ConnectionStatus_CLOSED).
  - left. by destruct (running s).
  - left. destruct (getLatestMessage s) as [s1 j] eqn:E; simplify_eq. pose proof (getLatestMessage_queue s) as Hq. by rewrite E in Hq.
  - left. by destruct (_ =? 0)%nat.
  - left. by destruct (connectionAlive s).
  - left. by destruct (func _ _).
  - right; left. destruct (Nat.ltb_spec (length (bufferOut s)) RING_CAPACITY); simplify_eq. eauto.
  - by right; right.
Qed.

Lemma thread_step_queue s s' : queue_inv s -> thread_step s = Some s' -> queue_inv s'.
Proof.
  intros Hi [(Hq & E & E')|[(d & Ep & Hr & ->)|[Ep ->]]]%thread_step_queue_cases.
  - apply (same_queue_inv s); [done|done|congruence].
  - destruct Hi as [Hsp Hro Hc Hre Hsg]. unfold at_count, at_dequeue in *. rewrite Ep in Hc.
    split; unfold at_count, at_dequeue; cbn -[RING_CAPACITY].
    + by rewrite Hsp, app_assoc.
    + rewrite length_app. cbn. lia.
    + rewrite length_app. cbn. lia.
    + destruct (consumer s); [done| |]; (split; [by destruct (bufferOut s)|apply Hre]).
    + done.
  - destruct Hi as [Hsp Hro Hc Hre Hsg]. unfold at_count, at_dequeue in *. rewrite Ep in Hc.
    split; unfold at_count, at_dequeue; cbn -[RING_CAPACITY]; try done; try lia.
    + destruct (consumer s); [done| |]; destruct Hre as [? Hre]; (split; [done|]); intros E; specialize (Hre E); lia.
    + intros E. specialize (Hsg E). lia.
Qed.

Lemma consumer_step_queue s s' : queue_inv s -> consumer_step m s = Some s' -> queue_inv s'.
Proof.
  intros [Hsp Hro Hc Hre Hsg] Hs. unfold consumer_step in Hs.
  assert (length (queued s) = (length (taken s) + length (bufferOut s))%nat) as Hl by (by rewrite Hsp, length_app).
  assert (0 <= at_count s) as Ha by (unfold at_count; destruct (pc s); lia).
  unfold at_dequeue in *. destruct (consumer s) eqn:Ec.
  - destruct (ready m s) eqn:Er; simplify_eq. unfold ready in Er.
    split; unfold at_count, at_dequeue in *; cbn -[RING_CAPACITY]; try done.
    destruct m; cbn in Er; zbool.
    + split; [|intros _; specialize (Hsg eq_refl); lia]. intros E. rewrite E in Hl. cbn in Hl. specialize (Hsg eq_refl). lia.
    + split; [by destruct (bufferOut s)|done].
  - simplify_eq. destruct Hre as [Hne Hre].
    split; unfold at_count, at_dequeue in *; cbn -[RING_CAPACITY]; try done; try lia.
    + split; [done|]. intros E. specialize (Hre E). lia.
    + intros E. specialize (Hre E). lia.
  - destruct (bufferOut s) as [|d q] eqn:Eq; simplify_eq. cbn in Hro, Hl.
    split; unfold at_count, at_dequeue in *; cbn -[RING_CAPACITY]; try done; try lia.
    + by rewrite <- app_assoc.
    + rewrite length_app. cbn. lia.
Qed.

Lemma queue_inv_reachable s : reachable m s -> queue_inv s.
Proof.
  apply reachable_ind_inv; [split; unfold at_count, at_dequeue; cbn -[RING_CAPACITY]; (done || lia)|].
  intros s0 s1 Hi Hst. destruct Hst as [s0 s1 Ht|s0 s1 Hc|s0|s0|s0|s0 s1 Hr].
  - by apply (thread_step_queue s0).
  - by apply (consumer_step_queue s0).
  - by apply (same_queue_inv s0).
  - by apply (same_queue_inv s0).
  - by apply (same_queue_inv s0).
  - unfold restart in Hr. destruct (pc s0) eqn:Ep; simplify_eq. apply (same_queue_inv s0); [done|done|].
    unfold at_count. by rewrite Ep.
Qed.

(** ** The messages *)

(** What the reads amount to: the message each one yields (empty for a failed read), and
    the bytes left in [buffer], which a failed read does not consume. *)
Definition json_step (acc : list string * string) (r : recv_result) : list string * string :=
  match r with
  | Received bytes => (acc.1 ++ [(acc.2 +:+ bytes)%string], ""%string)
  | RecvError bytes | RecvSystemError bytes _ | RecvException bytes _ => (acc.1 ++ [""%string], (acc.2 +:+ bytes)%string)
  end.
Definition wire (n : nat) : list string * string := foldl json_step ([], ""%string) (stream_recv <$> seq 0 n).
Definition nonempty (ts : list string) : list string := filter (fun t => t <> ""%string) ts.

(** What [func] makes of a list of messages, from its k-th call on. *)
Fixpoint outputs (k : nat) (ts : list string) : list Data :=
  match ts with
  | [] => []
  | t :: ts' => match func k t with Ok d => d :: outputs (S k) ts' | Throw _ => outputs (S k) ts' end
  end.

Lemma wire_S n : wire (S n) = json_step (wire n) (stream_recv n).
Proof. unfold wire. by rewrite seq_S, fmap_app, foldl_app. Qed.

Lemma outputs_snoc k ts t : outputs k (ts ++ [t]) =
  outputs k ts ++ match func (k + length ts) t with Ok d => [d] | Throw _ => [] end.
Proof.
  revert k. induction ts as [|u ts IH]; intros k; cbn.
  - rewrite Nat.add_0_r. by destruct (func k t).
  - rewrite IH, <- Nat.add_succ_comm. by destruct (func k u).
Qed.

Lemma nonempty_snoc ts t : nonempty (ts ++ [t]) = nonempty ts ++ nonempty [t].
Proof. apply filter_app. Qed.

Definition caller_json (c : caller) : string := match c with InLoop j => j | _ => "" end.
Definition pc_json (p : tpc Data) : string :=
  match p with
  | TEmpty j | TAlive j | TParse j => j
  | TSetup c _ | TConnect c _ | TCheck c _ | TWait c _ | TCheck2 c _ => caller_json c
  | _ => ""
  end.
Definition held (p : tpc Data) : list string := nonempty [pc_json p].
Definition pending (p : tpc Data) : list Data := match p with TEnqueue d => [d] | _ => [] end.

(** Unless [closeConnection] interferes, the flag is set while messages are handled and
    a message that was read is never held over a reconnect. *)
Definition alive_ok (alive : bool) (p : tpc Data) : Prop :=
  match p with
  | TLoop | TRead | TParse _ | TEnqueue _ | TCount => alive = true
  | TEmpty j => j <> ""%string -> alive = true
  | TAlive j => (j <> ""%string <-> alive = true)
  | TSetup c _ | TConnect c _ | TCheck c _ | TWait c _ | TCheck2 c _ => caller_json c = ""%string
  | _ => True
  end.

Record text_inv s : Prop := {
  t_left : buffer s = (wire (reads s)).2;
  t_out : queued s ++ pending (pc s) = outputs 0 (parsed s);
  t_sub : nonempty (parsed s) ++ held (pc s) `sublist_of` nonempty (wire (reads s)).1;
  t_all : cut s = false -> nonempty (parsed s) ++ held (pc s) = nonempty (wire (reads s)).1;
  t_alive : cut s = false -> alive_ok (connectionAlive s) (pc s);
}.

(** Steps that neither read nor parse nor enqueue. *)
Lemma text_inv_same s s' : text_inv s ->
  buffer s' = buffer s -> reads s' = reads s -> parsed s' = parsed s -> queued s' = queued s -> cut s' = cut s ->
  pending (pc s') = pending (pc s) -> (pc_json (pc s') = pc_json (pc s) \/ pc_json (pc s') = ""%string /\ (cut s = false -> pc_json (pc s) = ""%string)) ->
  (cut s = false -> alive_ok (connectionAlive s') (pc s')) -> text_inv s'.
Proof.
  intros [H1 H2 H3 H4 H5] E1 E2 E3 E4 E5 E6 E7 E8. split; rewrite ?E1, ?E2, ?E3, ?E4, ?E5, ?E6; try done.
  - destruct E7 as [E7|[E7 _]]; unfold held in *; rewrite E7; [done|].
    etrans; [|exact H3]. apply sublist_app; [done|]. apply sublist_nil_l.
  - intros Hc. rewrite <- (H4 Hc). f_equal. unfold held. destruct E7 as [->|[-> E7]]; [done|]. by rewrite E7.
Qed.

(** A back-off in progress: nothing pending, and the caller's message held. *)
Definition in_backoff s (c : caller) : Prop :=
  pending (pc s) = [] /\ pc_json (pc s) = caller_json c /\ (cut s = false -> caller_json c = ""%string).

Lemma backoff_return_text s c st : text_inv s -> in_backoff s c ->
  (st = ConnectionStatus_SUCCESS -> connectionAlive s = true) -> text_inv (backoff_return s c st).
Proof.
  intros Hi (Hp & Hj & Hc) Ha. apply (text_inv_same s); try done; destruct c as [|j|], st; cbn in *; try done;
    try (by left); try (right; split; [done|]; by rewrite Hj); try (by rewrite Hp); intros _; auto.
Qed.

Lemma setup_return_text s c r st : text_inv s -> in_backoff s c ->
  (st = ConnectionStatus_SUCCESS -> connectionAlive s = true) -> text_inv (setup_return s c r st).
Proof.
  intros Hi Hb Ha. assert (forall b, text_inv (goto s (TCheck c b))) as Hck.
  { intros b. destruct Hb as (Hp & Hj & Hc). apply (text_inv_same s); try done; cbn; by left. }
  unfold setup_return. destruct st, r; try case_match; try apply Hck; by apply backoff_return_text.
Qed.

Lemma setup_end_facts s s1 st : setup_end s = (s1, st) ->
  pc s1 = pc s /\ cut s1 = cut s /\ running s1 = running s /\ stopped s1 = stopped s /\ attempts s1 = S (attempts s) /\
  match stream_setup (attempts s) with
  | None => st = ConnectionStatus_SUCCESS /\ connectionAlive s1 = true
  | Some what => st = ConnectionStatus_FAIL /\ connectionAlive s1 = connectionAlive s /\
      lastError s1 = Some (FetchError_msg APIError_BOOST_ERROR what)
  end.
Proof. unfold setup_end. destruct (stream_setup _); intros; by simplify_eq. Qed.

Lemma setup_end_text s : text_inv s -> (cut s = false -> alive_ok true (pc s)) -> text_inv (setup_end s).1.
Proof. intros Hi Ha. unfold setup_end. destruct (stream_setup _); apply (text_inv_same s); try done; try (by left); apply Hi. Qed.

Lemma read_text s j s1 : text_inv s -> pc s = TRead -> getLatestMessage s = (s1, j) -> text_inv (goto s1 (TEmpty j)).
Proof.
  intros [H1 H2 H3 H4 H5] Ep E. unfold getLatestMessage in E. rewrite Ep in *. cbn [pending] in *.
  change (held TRead) with (@nil string) in *. rewrite app_nil_r in H3.
  destruct (connectionAlive s) eqn:Ea; cbn [negb] in E.
  - destruct (stream_recv (reads s)) as [bytes|bytes|bytes cl|bytes what] eqn:Er; simplify_eq; [| |destruct cl|];
      (split; cbn -[wire nonempty]; rewrite ?wire_S, ?Er; cbn -[wire nonempty]; rewrite <- ?H1; try done;
       rewrite ?nonempty_snoc; unfold held; cbn -[wire nonempty];
       [by apply sublist_app|intros Hc; specialize (H4 Hc); rewrite app_nil_r in H4; by rewrite H4]).
  - simplify_eq. split; cbn -[wire nonempty]; try done; by rewrite app_nil_r.
Qed.

Lemma nothing_held : held TLoop = [].
Proof. done. Qed.

Lemma parse_text s j : text_inv s -> pc s = TParse j ->
  text_inv (goto (set_parsed s (parsed s ++ [j])) (match func (length (parsed s)) j with Ok d => TEnqueue d | Throw _ => TLoop end)).
Proof.
  intros [H1 H2 H3 H4 H5] Ep. rewrite Ep in *. cbn [pending] in H2. rewrite app_nil_r in H2. unfold held in *. cbn [pc_json] in *.
  split; cbn -[wire nonempty].
  - done.
  - rewrite H2, outputs_snoc. cbn [Nat.add]. by destruct (func _ _).
  - rewrite nonempty_snoc. destruct (func _ _); cbn [pc_json]; by rewrite app_nil_r.
  - intros Hc. rewrite nonempty_snoc. destruct (func _ _); cbn [pc_json]; rewrite app_nil_r; auto.
  - intros Hc. specialize (H5 Hc). by destruct (func _ _).
Qed.

Lemma enqueue_text s d : text_inv s -> pc s = TEnqueue d ->
  text_inv (goto (set_queue s (bufferOut s ++ [d]) (queued s ++ [d]) (taken s)) TCount).
Proof.
  intros [H1 H2 H3 H4 H5] Ep. rewrite Ep in *. split; cbn -[wire nonempty]; try done. by rewrite app_nil_r.
Qed.

Lemma thread_step_text s s' : text_inv s -> thread_step s = Some s' -> text_inv s'.
Proof.
  intros Hi Hs. pose proof (t_alive s Hi) as Ha. unfold thread_step in Hs. destruct (pc s) eqn:Ep; simplify_eq.
  - apply (text_inv_same s); try done; rewrite ?Ep; cbn; destruct (connectionAlive s); try done; by left.
  - apply (text_inv_same s); try done; rewrite ?Ep; try done; by left.
  - destruct (setup_end s) as [s1 st] eqn:E; simplify_eq. pose proof (setup_end_text s Hi) as H1. rewrite Ep, E in H1.
    destruct (setup_end_facts s s1 st E) as (Ep1 & Ec1 & _ & _ & _ & Hst).
    apply setup_return_text; [by apply H1| |].
    + unfold in_backoff. by rewrite Ep1, Ep, Ec1.
    + intros ->. destruct (stream_setup _); by destruct_and!.
  - destruct (running s).
    + apply (text_inv_same s); try done; rewrite ?Ep; try done; by left.
    + apply backoff_return_text; [done| |done]. unfold in_backoff. by rewrite Ep.
  - apply (text_inv_same s); try done; rewrite ?Ep; try done; by left.
  - destruct (running s).
    + apply (text_inv_same s); try done; rewrite ?Ep; try done; by left.
    + apply backoff_return_text; [done| |done]. unfold in_backoff. by rewrite Ep.
  - apply (text_inv_same s); try done; rewrite ?Ep; try done; by left.
  - apply (text_inv_same s); try done; rewrite ?Ep; cbn; destruct (running s); try done; by left.
  - destruct (getLatestMessage s) as [s1 j] eqn:E; simplify_eq. by apply (read_text s).
  - destruct json as [|a json]; cbn [String.length Nat.eqb];
      apply (text_inv_same s); try done; rewrite ?Ep; cbn in *; try done; try (by left).
    intros Hc. specialize (Ha Hc). naive_solver.
  - apply (text_inv_same s); try done; rewrite ?Ep; cbn in *; destruct (connectionAlive s); try done; try (by left).
    intros Hc. specialize (Ha Hc). destruct (decide (json = ""%string)); [done|]. destruct Ha as [Ha _]. by specialize (Ha n).
  - by apply parse_text.
  - destruct (_ <? _)%nat; simplify_eq. by apply enqueue_text.
  - apply (text_inv_same s); try done; rewrite ?Ep; try done; by left.
Qed.

Lemma text_inv_reachable s : reachable m s -> text_inv s.
Proof.
  apply reachable_ind_inv; [by split|].
  intros s0 s1 Hi Hst. destruct Hst as [s0 s1 Ht|s0 s1 Hc|s0|s0|s0|s0 s1 Hr].
  - by apply (thread_step_text s0).
  - destruct Hi. unfold consumer_step in Hc. destruct (consumer s0).
    + destruct (ready m s0); simplify_eq. by split.
    + simplify_eq. by split.
    + destruct (bufferOut s0); simplify_eq. by split.
  - destruct Hi. by split.
  - destruct Hi. by split.
  - destruct Hi. by split.
  - unfold restart in Hr. destruct (pc s0) eqn:Ep; simplify_eq.
    apply (text_inv_same s0); try done; rewrite ?Ep; try done; by left.
Qed.

(** ** Giving up and shutting down *)

(** The last [k] connection attempts failed. *)
Definition failed_last (k : nat) s : Prop :=
  (k <= attempts s)%nat /\ forall i, (attempts s - k <= i < attempts s)%nat -> exists what, stream_setup i = Some what.

Definition backoff_ok s (p : tpc Data) : Prop :=
  match p with
  | TCheck _ b | TWait _ b | TCheck2 _ b | TSetup _ (Some b) | TConnect _ (Some b) =>
      exists j : nat, (j < 7)%nat /\ b = 500 * 2 ^ Z.of_nat j /\ failed_last j s
  | _ => True
  end.

(** All tries of a back-off failed, and [lastError] is the reason of the last one. *)
Definition gave_up s : Prop :=
  failed_last 7 s /\
  exists what, stream_setup (attempts s - 1) = Some what /\ lastError s = Some (FetchError_msg APIError_BOOST_ERROR what).

Record exit_inv s : Prop := {
  e_run : stopped s = false -> pc s <> TDone -> running s = true;
  e_back : backoff_ok s (pc s);
  e_done : pc s = TDone -> running s = false /\ (stopped s = true \/ gave_up s);
}.

Lemma failed_last_0 s : failed_last 0 s.
Proof. split; [lia|]. intros i Hi. lia. Qed.

Lemma failed_last_S s s1 j what : failed_last j s -> stream_setup (attempts s) = Some what -> attempts s1 = S (attempts s) ->
  failed_last (S j) s1.
Proof.
  intros [Hk Hf] Hs Ha. unfold failed_last. rewrite Ha. split; [lia|]. intros i Hi.
  destruct (decide (i = attempts s)) as [->|]; [by exists what|]. apply Hf. lia.
Qed.

Lemma backoff_return_exit s c st : (stopped s = false -> running s = true) ->
  (st = ConnectionStatus_CLOSED -> running s = false) -> (st = ConnectionStatus_FAIL -> gave_up s) ->
  exit_inv (backoff_return s c st).
Proof.
  intros Hr Hc Hf. destruct st.
  - destruct c; (split; cbn; [by auto|done|done]).
  - destruct c; (split; try done; intros _; split; [done|]; right; by apply Hf).
  - assert (stopped s = true) by (destruct (stopped s); [done|]; rewrite Hr in Hc by done; by discriminate Hc).
    destruct c; (split; try done; intros _; split; [done|]; by left).
Qed.

Lemma setup_return_exit s s1 c r st : exit_inv s -> pc s = TConnect c r -> setup_end s = (s1, st) ->
  exit_inv (setup_return s1 c r st).
Proof.
  intros [He Hb _] Ep E. destruct (setup_end_facts s s1 st E) as (_ & _ & Er & Es & Ea & Hst).
  assert (stopped s1 = false -> running s1 = true) as He1 by (rewrite Er, Es; intros; apply He; [done|by rewrite Ep]).
  destruct (stream_setup (attempts s)) as [what|] eqn:Ew; destruct Hst as [-> Hst].
  - rewrite Ep in Hb. destruct r as [b|]; cbn [setup_return].
    + destruct Hb as (j & Hj & -> & Hf). change (default (2 ^ 63) (maxDelay default_policy)) with 64000.
      change (increasePerTry default_policy) with 2. pose proof (failed_last_S s s1 j what Hf Ew Ea) as Hf1.
      destruct (decide (j = 6%nat)) as [->|Hj6].
      * cbn -[backoff_return]. apply backoff_return_exit; [done|done|]. intros _. split; [done|]. exists what.
        rewrite Ea. replace (S (attempts s) - 1)%nat with (attempts s) by lia. by destruct Hst.
      * assert (500 * 2 ^ Z.of_nat j * 2 = 500 * 2 ^ Z.of_nat (S j)) as Hpow by (rewrite Nat2Z.inj_succ, Z.pow_succ_r by lia; lia).
        assert (2 ^ Z.of_nat (S j) <= 2 ^ 6) by (apply Z.pow_le_mono_r; lia). rewrite Hpow.
        destruct (Z.leb_spec 64000 (500 * 2 ^ Z.of_nat (S j))); [lia|].
        split; cbn; [by auto|exists (S j); split_and!; [lia|done|exact Hf1]|done].
    + split; cbn; [by auto|exists 0%nat; split_and!; [lia|done|apply failed_last_0]|done].
  - cbn [setup_return]. by apply backoff_return_exit.
Qed.

Lemma exit_same s s' : (stopped s = false -> running s = true) -> running s' = running s -> stopped s' = stopped s ->
  pc s' <> TDone -> backoff_ok s' (pc s') -> exit_inv s'.
Proof. intros He E1 E2 Hp Hb. split; rewrite ?E1, ?E2; auto; done. Qed.

Lemma thread_step_exit s s' : exit_inv s -> thread_step s = Some s' -> exit_inv s'.
Proof.
  intros Hi Hs. pose proof Hi as [He Hb _].
  assert (pc s <> TDone -> stopped s = false -> running s = true) as He' by auto. clear He.
  assert (forall p, pc s <> TDone -> p <> TDone -> backoff_ok s p -> exit_inv (goto s p)) as Hgo.
  { intros p ? ? ?. apply (exit_same s); [by apply He'|done..]. }
  unfold thread_step in Hs. destruct (pc s) eqn:Ep; simplify_eq; try specialize (He' ltac:(done)); try specialize (fun p => Hgo p ltac:(done)).
  - destruct (connectionAlive s); by apply Hgo.
  - by apply (exit_same s).
  - destruct (setup_end s) as [s1 st] eqn:E; simplify_eq. by apply (setup_return_exit s).
  - destruct (running s) eqn:Er; [by apply Hgo|]. apply backoff_return_exit; [by rewrite Er|done|done].
  - by apply Hgo.
  - destruct (running s) eqn:Er; [by apply Hgo|]. apply backoff_return_exit; [by rewrite Er|done|done].
  - by apply (exit_same s).
  - destruct (running s) eqn:Er; [by apply Hgo|]. split; cbn; [done|done|]. intros _. split; [done|]. left.
    destruct (stopped s); [done|]. by discriminate He'.
  - assert (running (getLatestMessage s).1 = running s /\ stopped (getLatestMessage s).1 = stopped s) as [E1 E2].
    { unfold getLatestMessage. destruct (connectionAlive s); [|done]. by destruct (stream_recv _) as [| |? []|]. }
    destruct (getLatestMessage s) as [s1 j]; simplify_eq. by apply (exit_same s).
  - apply (exit_same s); [done|by destruct (_ =? _)%nat..|done|done].
  - destruct (connectionAlive s); [by apply Hgo|]. apply Hgo; [done|]. exists 0%nat. split_and!; [lia|done|apply failed_last_0].
  - apply (exit_same s); [done|done|done|..]; cbn; by destruct (func _ _).
  - destruct (_ <? _)%nat; simplify_eq. by apply (exit_same s).
  - by apply (exit_same s).
Qed.

Lemma exit_inv_reachable s : reachable m s -> exit_inv s.
Proof.
  apply reachable_ind_inv; [by split|].
  intros s0 s1 Hi Hst. destruct Hst as [s0 s1 Ht|s0 s1 Hc|s0|s0|s0|s0 s1 Hr].
  - by apply (thread_step_exit s0).
  - destruct Hi. unfold consumer_step in Hc. destruct (consumer s0).
    + destruct (ready m s0); simplify_eq. by split.
    + simplify_eq. by split.
    + destruct (bufferOut s0); simplify_eq. by split.
  - destruct Hi. by split.
  - destruct Hi. split; cbn; [done|done|]. intros _. split; [done|by left].
  - destruct Hi. by split.
  - unfold restart in Hr. destruct (pc s0) eqn:Ep; simplify_eq. by split.
Qed.

(** [n] steps of the thread, or as many as it can make. *)
Fixpoint thread_run (n : nat) s : Holder Data :=
  match n with
  | O => s
  | S n' => match thread_step s with Some s' => thread_run n' s' | None => s end
  end.

Definition room s : Prop := (length (bufferOut s) < RING_CAPACITY)%nat.
Definition ends (k : nat) s : Prop := pc (thread_run k s) = TDone.

Lemma ends_step k s s' : thread_step s = Some s' -> ends k s' -> ends (S k) s.
Proof. intros E He. unfold ends in *. cbn [thread_run]. by rewrite E. Qed.

Lemma ends_done k s : pc s = TDone -> ends k s.
Proof. intros E. unfold ends. destruct k; [done|]. cbn [thread_run]. unfold thread_step. by rewrite E. Qed.

Lemma ends_loop k s : pc s = TLoop -> running s = false -> ends (S k) s.
Proof. intros E Er. eapply ends_step; [unfold thread_step; by rewrite E, Er|]. by apply ends_done. Qed.

Lemma ends_enqueue k s d : pc s = TEnqueue d -> running s = false -> room s -> ends (3 + k) s.
Proof.
  intros E Er Hr. eapply ends_step; [unfold thread_step; rewrite E; by rewrite (proj2 (Nat.ltb_lt _ _) Hr)|].
  eapply ends_step; [done|]. by apply ends_loop.
Qed.

Lemma ends_parse k s j : pc s = TParse j -> running s = false -> room s -> ends (4 + k) s.
Proof.
  intros E Er Hr. eapply ends_step; [unfold thread_step; by rewrite E|].
  destruct (func _ j) as [d|]; [by eapply ends_enqueue|by apply (ends_loop (2 + k))].
Qed.

Lemma ends_live k s : pc s = TLive -> running s = false -> ends (2 + k) s.
Proof. intros E Er. eapply ends_step; [unfold thread_step; by rewrite E|]. by apply ends_loop. Qed.

Lemma ends_check k s c b : pc s = TCheck c b -> running s = false -> ends (S k) s.
Proof.
  intros E Er. eapply ends_step; [unfold thread_step; by rewrite E, Er|]. by destruct c; apply ends_done.
Qed.

Lemma ends_start_alive k s : pc s = TStart -> connectionAlive s = true -> running s = false -> ends (3 + k) s.
Proof. intros E Ea Er. eapply ends_step; [unfold thread_step; by rewrite E, Ea|]. by apply ends_live. Qed.

Lemma ends_connect k s c r : pc s = TConnect c r -> running s = false -> room s -> ends (5 + k) s.
Proof.
  intros E Er Hr. pose proof (setup_end_queue s) as (_ & _ & Eb & _).
  destruct (setup_end s) as [s1 st] eqn:Es. destruct (setup_end_facts s s1 st Es) as (_ & _ & Er1 & _ & _ & Hst).
  eapply ends_step; [unfold thread_step; by rewrite E, Es|]. rewrite Er in Er1. cbn [fst] in Eb.
  assert (room s1) as Hr1 by (unfold room; by rewrite Eb). unfold setup_return.
  destruct (stream_setup _) as [w|]; destruct Hst as [-> Hst].
  - destruct r as [b|]; [|by apply (ends_check (3 + k) _ c (delay default_policy))].
    case_match; [by destruct c; apply ends_done|]. by eapply (ends_check (3 + k)).
  - destruct c as [|j|]; cbn [backoff_return]; [by apply (ends_live (2 + k))|by apply (ends_parse k _ j)|].
    by apply (ends_start_alive (1 + k)).
Qed.

Lemma ends_setup k s c r : pc s = TSetup c r -> running s = false -> room s -> ends (6 + k) s.
Proof. intros E Er Hr. eapply ends_step; [unfold thread_step; by rewrite E|]. by eapply ends_connect. Qed.

Lemma ends_alive k s j : pc s = TAlive j -> running s = false -> room s -> ends (5 + k) s.
Proof.
  intros E Er Hr. eapply ends_step; [unfold thread_step; by rewrite E|].
  destruct (connectionAlive s); [by apply (ends_parse k _ j)|by eapply (ends_check (3 + k))].
Qed.

Lemma ends_empty k s j : pc s = TEmpty j -> running s = false -> room s -> ends (6 + k) s.
Proof.
  intros E Er Hr. eapply ends_step; [unfold thread_step; by rewrite E|].
  apply (ends_alive k _ j); [done|by destruct (_ =? _)%nat..].
Qed.

Lemma ends_read k s : pc s = TRead -> running s = false -> room s -> ends (7 + k) s.
Proof.
  intros E Er Hr. assert (running (getLatestMessage s).1 = running s) as Er1.
  { unfold getLatestMessage. destruct (connectionAlive s); [|done]. by destruct (stream_recv _) as [| |? []|]. }
  pose proof (getLatestMessage_queue s) as (_ & _ & Eb & _). destruct (getLatestMessage s) as [s1 j] eqn:Eg.
  eapply ends_step; [unfold thread_step; by rewrite E, Eg|]. cbn [fst] in *.
  apply (ends_empty k _ j); [done|cbn; congruence|]. unfold room. cbn -[RING_CAPACITY]. by rewrite Eb.
Qed.

Lemma ends_all s : running s = false -> room s -> ends 8 s.
Proof.
  intros Er Hr. destruct (pc s) eqn:E.
  - destruct (connectionAlive s) eqn:Ea; [by apply (ends_start_alive 5)|].
    eapply ends_step; [unfold thread_step; by rewrite E, Ea|]. by eapply (ends_setup 1).
  - by eapply (ends_setup 2).
  - by eapply (ends_connect 3).
  - by eapply (ends_check 7).
  - eapply ends_step; [unfold thread_step; by rewrite E|]. eapply ends_step; [unfold thread_step; cbn; by rewrite Er|].
    by destruct c; apply ends_done.
  - eapply ends_step; [unfold thread_step; rewrite E; by rewrite Er|]. by destruct c; apply ends_done.
  - by apply (ends_live 6).
  - by apply (ends_loop 7).
  - by apply (ends_read 1).
  - by eapply (ends_empty 2).
  - by eapply (ends_alive 3).
  - by eapply (ends_parse 4).
  - by eapply (ends_enqueue 5).
  - eapply ends_step; [unfold thread_step; by rewrite E|]. by apply (ends_loop 6).
  - by apply ends_done.
Qed.

(** [connecting] is raised only while an attempt is due or under way. *)
Definition connecting_inv s : Prop :=
  connecting s = true -> match pc s with TStart => connectionAlive s = false | TSetup _ _ | TConnect _ _ => True | _ => False end.

Lemma connecting_return s c r st : connecting s = false -> connecting_inv (setup_return s c r st).
Proof. intros E Hc. unfold setup_return in *. destruct st, r; try case_match; destruct c; cbn in *; congruence. Qed.

Lemma thread_step_connecting s s' : connecting_inv s -> thread_step s = Some s' -> connecting_inv s'.
Proof.
  intros Hi Hs. unfold thread_step in Hs. destruct (pc s) eqn:Ep; unfold connecting_inv in Hi; rewrite Ep in Hi; simplify_eq; try done;
    try (intros Hc; by specialize (Hi Hc)).
  - intros E. cbn in *. by rewrite Hi.
  - assert (connecting (setup_end s).1 = false) as E by (unfold setup_end; by destruct (stream_setup _)).
    destruct (setup_end s) as [s1 st]; simplify_eq. by apply connecting_return.
  - destruct (running s); [done|]. by destruct c.
  - destruct (running s); [done|]. by destruct c.
  - assert (connecting (getLatestMessage s).1 = connecting s) as E.
    { unfold getLatestMessage. destruct (connectionAlive s); [|done]. by destruct (stream_recv _) as [| |? []|]. }
    destruct (getLatestMessage s); simplify_eq. intros Hc. cbn in *. apply Hi. congruence.
  - intros Hc. cbn in Hc. by destruct (_ =? _)%nat.
  - destruct (_ <? _)%nat; by simplify_eq.
Qed.

Lemma connecting_reachable s : reachable m s -> connecting_inv s.
Proof.
  apply reachable_ind_inv; [done|].
  intros s0 s1 Hi Hst. destruct Hst as [s0 s1 Ht|s0 s1 Hc|s0|s0|s0|s0 s1 Hr]; try done.
  - by apply (thread_step_connecting s0).
  - unfold consumer_step in Hc. destruct (consumer s0); [destruct (ready m s0)| |destruct (bufferOut s0)]; by simplify_eq.
  - intros E. specialize (Hi E). cbn. by destruct (pc s0).
  - unfold restart in Hr. destruct (pc s0) eqn:Ep; simplify_eq. by intros _.
Qed.

Lemma thread_run_reachable n s : reachable m s -> reachable m (thread_run n s).
Proof.
  revert s. induction n as [|n IH]; intros s Hr; [done|]. cbn [thread_run].
  destruct (thread_step s) eqn:E; [|done]. apply IH. eapply rtc_r; [done|]. by apply step_thread.
Qed.
End Proofs.

(** ** Properties *)


(** C31 A stream thread that has ended has cleared [running], and [getStatus] answers
    CLOSED at once; if nobody asked it to stop, the last seven connection attempts all
    failed and the reported error is the reason of the last one. *)
Theorem stream_end_reported {Data} `{StreamNet Data} m (s : Holder Data) : reachable m s -> pc s = TDone ->
  getStatus s = Some (ConnectionStatus_CLOSED, lastError s) /\
  (stopped s = false ->
    (7 <= attempts s)%nat /\ (forall i, (attempts s - 7 <= i < attempts s)%nat -> stream_setup i <> None) /\
    exists what, stream_setup (attempts s - 1) = Some what /\ lastError s = Some (FetchError_msg APIError_BOOST_ERROR what)).
Proof.
  intros Hr Hp. destruct (exit_inv_reachable m s Hr) as [_ _ He]. destruct (He Hp) as [Hrun Hend].
  pose proof (connecting_reachable m s Hr) as Hc. unfold connecting_inv in Hc. rewrite Hp in Hc. split.
  - unfold getStatus. rewrite Hrun. by destruct (connecting s); [destruct Hc|].
  - intros Hst. destruct Hend as [|[[Hk Hf] Hw]]; [congruence|]. split_and!; [done| |done].
    intros i Hi. destruct (Hf i Hi) as [w ->]. done.
Qed.


(** ** A concrete stream: two messages around a failed read, then the network is gone. *)
Section Demo.
#[local] Instance demo_net : StreamNet string := {
  stream_setup n := if (n <? 2)%nat then None else Some "refused"%string;
  stream_recv n := match n with O => Received "a" | 1%nat => RecvError "x" | 2%nat => Received "b" | _ => RecvError "" end;
  func n t := if String.eqb t "" then Throw (simdjson_error NO_SUCH_FIELD) else Ok t;
}.

Example demo_stream : let s := thread_run 100 new_holder in
  (bufferOut s, parsed s, lastError s, attempts s, running s) =
  (["a"; "xb"]%string, ["a"; ""; "xb"]%string, Some (FetchError_msg APIError_BOOST_ERROR "refused"), 9%nat, false).
Proof. vm_compute. reflexivity. Qed.


Lemma stream_end_reported_witness : let s := thread_run 100 new_holder in
  getStatus s = Some (ConnectionStatus_CLOSED, lastError s) /\
  (stopped s = false ->
    (7 <= attempts s)%nat /\ (forall i, (attempts s - 7 <= i < attempts s)%nat -> stream_setup i <> None) /\
    exists what, stream_setup (attempts s - 1) = Some what /\ lastError s = Some (FetchError_msg APIError_BOOST_ERROR what)).
Proof.
  intros s. apply (stream_end_reported ByRing s); [apply thread_run_reachable, rtc_refl|]. vm_compute. reflexivity.
Defined.

End Demo.
