(* ===== verification/StreamGroup.v ===== *)
(** * StreamGroup: the streams of one manager share a parser

    Every stream of an [APIManager] is constructed with its [websocketParser]
    ([src/manager/apiManager.hpp]), and [executionLoop] of
    [src/core/streams/websocketStreamHolder.hpp] holds that parser, through a
    [ThreadSafeParserRAII] ([src/core/parsing/threadSafeParser.hpp]), from before [func] to
    the end of the iteration, [bufferOut.enqueue] included. WebsocketStream is one stream with the
    parser to itself; this file is any number of them around the one lock.

    Each stream still is a stream of WebsocketStream ([group_streams]), so what is proved
    there holds of all of them. What is not as it was is waiting: a stream that finds its
    own ring full keeps the parser, and then no stream of the manager decodes anything or
    shuts down ([parser_stall]). The last access of an iteration and the release of the
    parser are one step. *)

From S2P Require Import Prelude Errors Backoff WebsocketStream.

Inductive mover := GThread | GConsumer | GCloseAlive | GCloseRunning | GCloseSignal | GRestart.

#[global] Instance mover_eq_dec : EqDecision mover.
Proof. solve_decision. Defined.

Section Group.
  Context {Data : Type}.
  (** The environment of each stream, and how its consumer decides that there is data. *)
  Context (net : nat -> StreamNet Data) (disc : nat -> discipline).

Record Group := {
  streams : list (Holder Data);
  owner : option nat;            (** the stream whose thread holds the parser *)
}.

Definition set_stream (g : Group) (i : nat) (s : Holder Data) (o : option nat) : Group :=
  {| streams := <[i := s]> (streams g); owner := o |}.

(** The next access of stream [i]'s thread; [None] while it spins on the parser's lock. *)
Definition group_thread (i : nat) (g : Group) : option Group :=
  s ← streams g !! i;
  match pc s, owner g with
  | TParse _, None => Some {| streams := streams g; owner := Some i |}
  | TParse _, Some k =>
      if decide (k = i) then
        s' ← @thread_step Data (net i) s;
        Some (set_stream g i s' (match pc s' with TEnqueue _ => Some i | _ => None end))
      else None
  | TCount, _ => s' ← @thread_step Data (net i) s; Some (set_stream g i s' None)
  | _, o => s' ← @thread_step Data (net i) s; Some (set_stream g i s' o)
  end.

Definition group_step (i : nat) (a : mover) (g : Group) : option Group :=
  match a with
  | GThread => group_thread i g
  | _ =>
      s ← streams g !! i;
      s' ← match a with
           | GThread => None
           | GConsumer => consumer_step (disc i) s
           | GCloseAlive => Some (close_alive s)
           | GCloseRunning => Some (close_running s)
           | GCloseSignal => Some (close_signal s)
           | GRestart => restart s
           end;
      Some (set_stream g i s' (owner g))
  end.

Definition new_group (n : nat) : Group := {| streams := replicate n new_holder; owner := None |}.

Definition group_reachable (n : nat) (g : Group) : Prop :=
  rtc (fun a b => exists i m, group_step i m a = Some b) (new_group n) g.

(** Between [parserAccess] and [returnParser]; at [TParse] it may still be waiting. *)
Definition decoding (p : tpc Data) : bool := match p with TEnqueue _ | TCount => true | _ => false end.
Definition may_decode (p : tpc Data) : bool := match p with TParse _ => true | p => decoding p end.

Record group_inv (g : Group) : Prop := {
  g_stream : forall i s, streams g !! i = Some s -> @reachable Data (net i) (disc i) s;
  g_decoding : forall i s, streams g !! i = Some s -> decoding (pc s) = true -> owner g = Some i;
  g_owner : forall i, owner g = Some i -> exists s, streams g !! i = Some s /\ may_decode (pc s) = true;
}.

Lemma set_stream_lookup g i s o j t : streams (set_stream g i s o) !! j = Some t ->
  (j = i /\ t = s) \/ (j <> i /\ streams g !! j = Some t).
Proof.
  cbn. intros E. destruct (decide (j = i)) as [->|Hn]; [left|right].
  - assert (i < length (streams g))%nat by (apply lookup_lt_Some in E; by rewrite length_insert in E).
    rewrite list_lookup_insert_eq in E by done. by injection E as <-.
  - by rewrite list_lookup_insert_ne in E.
Qed.

(** The thread reaches the decoding part only from [TParse], and [TParse] only from outside. *)
Lemma outside_step (i : nat) (s s' : Holder Data) : may_decode (pc s) = false -> @thread_step Data (net i) s = Some s' ->
  decoding (pc s') = false.
Proof.
  unfold thread_step. intros Hm Hst. destruct (pc s) eqn:Ep; simplify_eq; try done.
  - by destruct (connectionAlive s).
  - unfold setup_end, setup_return in Hst. destruct (@stream_setup Data (net i) (attempts s)); simplify_eq;
      destruct retry, c; cbn; try case_match; done.
  - destruct (running s); [done|]. by destruct c.
  - destruct (running s); [done|]. by destruct c.
  - by destruct (running s).
  - unfold getLatestMessage in Hst. destruct (connectionAlive s); cbn in Hst; [|by simplify_eq].
    by destruct (@stream_recv Data (net i) (reads s)) as [| |? []|]; simplify_eq.
  - by destruct (connectionAlive s).
Qed.

(** Installing a new state of stream [i]. *)
Lemma set_stream_inv g i s s' o : group_inv g -> streams g !! i = Some s -> @reachable Data (net i) (disc i) s' ->
  (decoding (pc s') = true -> o = Some i) ->
  (forall j, j <> i -> owner g = Some j -> o = Some j) ->
  (forall j, o = Some j -> (j = i /\ may_decode (pc s') = true) \/ (j <> i /\ owner g = Some j)) ->
  group_inv (set_stream g i s' o).
Proof.
  intros [Hr Hd Ho] Hi Hr' H1 H2 H3. assert (i < length (streams g))%nat as Hlt by (by eapply lookup_lt_Some). split.
  - intros j t [[-> ->]|[Hn Ht]]%set_stream_lookup; [done|]. by apply Hr.
  - intros j t [[-> ->]|[Hn Ht]]%set_stream_lookup Hdt; [by apply H1|]. apply H2; [done|]. by eapply Hd.
  - intros j Hj. destruct (H3 j Hj) as [[-> Hm]|[Hn Hg]].
    + exists s'. cbn. by rewrite list_lookup_insert_eq.
    + destruct (Ho j Hg) as (t & Ht & Hm). exists t. cbn. by rewrite list_lookup_insert_ne.
Qed.

Lemma group_thread_inv i g g' : group_inv g -> group_thread i g = Some g' -> group_inv g'.
Proof.
  intros Hi Hst. unfold group_thread in Hst. apply bind_Some in Hst as (s & Hs & Hst).
  assert (forall s', @thread_step Data (net i) s = Some s' -> @reachable Data (net i) (disc i) s') as Hr.
  { intros s' Hst'. eapply rtc_r; [by apply (g_stream g Hi)|by apply step_thread]. }
  destruct (may_decode (pc s)) eqn:Em.
  - destruct (pc s) eqn:Ep; try done.
    + destruct (owner g) as [k|] eqn:Eo.
      * destruct (decide (k = i)) as [->|]; [|done]. apply bind_Some in Hst as (s' & Hs' & [= <-]).
        apply (set_stream_inv g i s); auto.
        -- intros Hd. unfold thread_step in Hs'. rewrite Ep in Hs'. simplify_eq. cbn in *. by destruct (func _ _).
        -- intros j Hn Hj. congruence.
        -- intros j Hj. left. destruct (pc s'); try done. by injection Hj.
      * injection Hst as <-. destruct Hi as [Hr0 Hd Ho]. split; [done| |].
        -- intros j t Ht Hdt. specialize (Hd j t Ht Hdt). congruence.
        -- intros j [= <-]. exists s. by rewrite Ep.
    + apply bind_Some in Hst as (s' & Hs' & [= <-]).
      assert (owner g = Some i) as Eo by (apply (g_decoding g Hi i s); [done|by rewrite Ep]).
      unfold thread_step in Hs'. rewrite Ep in Hs'.
      apply (set_stream_inv g i s); auto; [apply Hr; unfold thread_step; by rewrite Ep|].
      intros j Hj. left. rewrite Eo in Hj. injection Hj as <-. split; [done|]. by destruct (_ <? _)%nat; simplify_eq.
    + apply bind_Some in Hst as (s' & Hs' & [= <-]).
      assert (owner g = Some i) as Eo by (apply (g_decoding g Hi i s); [done|by rewrite Ep]).
      apply (set_stream_inv g i s); auto; [|congruence|done].
      unfold thread_step in Hs'. rewrite Ep in Hs'. by simplify_eq.
  - assert (exists s', @thread_step Data (net i) s = Some s' /\ g' = set_stream g i s' (owner g)) as (s' & Hs' & ->).
    { destruct (pc s); try done; apply bind_Some in Hst as (s' & Hs' & [= <-]); by exists s'. }
    pose proof (outside_step i s s' Em Hs') as Hout.
    apply (set_stream_inv g i s); auto; [by rewrite Hout|].
    intros j Hj. right. split; [|done]. intros ->. destruct (g_owner g Hi i Hj) as (t & Ht & Hm). congruence.
Qed.

(** What the other movers leave alone: the thread's place and what it parsed. *)
Lemma mover_frame i m s s' : m <> GThread ->
  match m with
  | GThread => None
  | GConsumer => consumer_step (disc i) s
  | GCloseAlive => Some (close_alive s)
  | GCloseRunning => Some (close_running s)
  | GCloseSignal => Some (close_signal s)
  | GRestart => restart s
  end = Some s' ->
  @step Data (net i) (disc i) s s' /\ parsed s' = parsed s /\ (pc s' = pc s \/ (pc s = TDone /\ pc s' = TSetup Reestablish None)) /\
  (m <> GConsumer -> bufferOut s' = bufferOut s).
Proof.
  intros Hm Hst. destruct m; try done.
  - split; [by apply step_consumer|]. unfold consumer_step in Hst.
    destruct (consumer s); [destruct (ready _ _)| |destruct (bufferOut s)]; simplify_eq; split_and!; try done; by left.
  - simplify_eq. split; [apply step_close_alive|]. split_and!; try done. by left.
  - simplify_eq. split; [apply step_close_running|]. split_and!; try done. by left.
  - simplify_eq. split; [apply step_close_signal|]. split_and!; try done. by left.
  - split; [by apply step_restart|]. unfold restart in Hst. destruct (pc s) eqn:Ep; simplify_eq. split_and!; try done. by right.
Qed.

Lemma group_step_inv i m g g' : group_inv g -> group_step i m g = Some g' -> group_inv g'.
Proof.
  intros Hi Hst. destruct (decide (m = GThread)) as [->|Hm]; [by apply (group_thread_inv i g)|].
  unfold group_step in Hst. destruct m; try done; apply bind_Some in Hst as (s & Hs & Hst); apply bind_Some in Hst as (s' & Hs' & [= <-]);
    pose proof (mover_frame i _ s s' Hm Hs') as (Hstep & _ & Hpc & _).
  all: assert (@reachable Data (net i) (disc i) s') as Hr by (eapply rtc_r; [by apply (g_stream g Hi)|done]).
  all: apply (set_stream_inv g i s); auto.
  all: try (intros Hd; apply (g_decoding g Hi i s); [done|]; destruct Hpc as [<-|[E E']]; [done|by rewrite E' in Hd]).
  all: intros j Hj; destruct (decide (j = i)) as [->|Hn]; [left|by right]; split; [done|].
  all: destruct (g_owner g Hi i Hj) as (t & Ht & Hmd); assert (t = s) as -> by congruence.
  all: destruct Hpc as [->|[E E']]; [done|by rewrite E in Hmd].
Qed.

Lemma group_inv_reachable n g : group_reachable n g -> group_inv g.
Proof.
  revert g. apply rtc_ind_r.
  - split; [|intros i s [-> _]%lookup_replicate_1; done|done]. intros i s [-> _]%lookup_replicate_1. apply rtc_refl.
  - intros g g' _ (i & m & Hst) Hi. by apply (group_step_inv i m g).
Qed.

(** Stream [i] waits for room in its ring with the parser in its hands. *)
Definition stalled (i : nat) (g : Group) : Prop :=
  owner g = Some i /\ exists s d, streams g !! i = Some s /\ pc s = TEnqueue d /\ ~ room s.

(** Everything but the consumer of stream [i]. *)
Definition unattended (i : nat) (g g' : Group) : Prop :=
  exists j m, group_step j m g = Some g' /\ ~ (j = i /\ m = GConsumer).

(** The rest of the group while [i] holds the parser: no stream decodes, and one that
    waits for the parser goes on waiting. *)
Definition frozen (i : nat) (g g' : Group) : Prop :=
  forall j s, j <> i -> streams g !! j = Some s -> exists s', streams g' !! j = Some s' /\ parsed s' = parsed s /\
    (forall json, pc s = TParse json -> pc s' = TParse json).

Lemma frozen_trans i g1 g2 g3 : frozen i g1 g2 -> frozen i g2 g3 -> frozen i g1 g3.
Proof.
  intros H12 H23 j s Hn Hs. destruct (H12 j s Hn Hs) as (s2 & Hs2 & E2 & Hp2). destruct (H23 j s2 Hn Hs2) as (s3 & Hs3 & E3 & Hp3).
  exists s3. split_and!; [done|congruence|]. auto.
Qed.

Lemma frozen_set i j g s s' : streams g !! j = Some s -> (j <> i -> parsed s' = parsed s /\ forall json, pc s = TParse json -> pc s' = TParse json) ->
  frozen i g (set_stream g j s' (owner g)).
Proof.
  intros Hj Hs k t Hn Ht. destruct (decide (k = j)) as [->|Hk].
  - exists s'. cbn. rewrite list_lookup_insert_eq by (by eapply lookup_lt_Some). assert (t = s) as -> by congruence. destruct (Hs Hn). done.
  - exists t. cbn. by rewrite list_lookup_insert_ne.
Qed.

(** Outside the decoding part the thread parses nothing. *)
Lemma outside_parsed (i : nat) (s s' : Holder Data) : may_decode (pc s) = false -> @thread_step Data (net i) s = Some s' ->
  parsed s' = parsed s.
Proof.
  unfold thread_step. intros Hm Hst. destruct (pc s) eqn:Ep; simplify_eq; try done.
  - unfold setup_end, setup_return in Hst. destruct (@stream_setup Data (net i) (attempts s)); simplify_eq;
      destruct retry, c; cbn; try case_match; done.
  - destruct (running s); [done|]. by destruct c.
  - destruct (running s); [done|]. by destruct c.
  - unfold getLatestMessage in Hst. destruct (connectionAlive s); cbn in Hst; [|by simplify_eq].
    by destruct (@stream_recv Data (net i) (reads s)) as [| |? []|]; simplify_eq.
  - by destruct (_ =? 0)%nat.
Qed.

Lemma stalled_step i g g' : group_inv g -> stalled i g -> unattended i g g' -> stalled i g' /\ frozen i g g'.
Proof.
  intros Hi (Ho & s & d & Hs & Hp & Hr) (j & m & Hst & Hne).
  destruct (decide (m = GThread)) as [->|Hm].
  - cbn in Hst. unfold group_thread in Hst. apply bind_Some in Hst as (t & Ht & Hst). destruct (decide (j = i)) as [->|Hn].
    + assert (t = s) as -> by congruence. rewrite Hp in Hst. apply bind_Some in Hst as (s' & Hs' & _). exfalso.
      unfold thread_step in Hs'. rewrite Hp in Hs'. destruct (Nat.ltb_spec (length (bufferOut s)) RING_CAPACITY); [by apply Hr|done].
    + destruct (may_decode (pc t)) eqn:Em.
      * exfalso. rewrite Ho in Hst. destruct (pc t) eqn:Ept; try done; [by rewrite decide_False in Hst by congruence| |];
          pose proof (g_decoding g Hi j t Ht) as Hd; rewrite Ept in Hd; specialize (Hd eq_refl); congruence.
      * assert (exists t', @thread_step Data (net j) t = Some t' /\ g' = set_stream g j t' (owner g)) as (t' & Ht' & ->).
        { destruct (pc t); try done; apply bind_Some in Hst as (t' & Ht' & [= <-]); by exists t'. }
        split; [split; [done|]; exists s, d; cbn; by rewrite list_lookup_insert_ne|].
        apply (frozen_set i j g t); [done|]. intros _. split; [by apply (outside_parsed j)|]. intros json E. by rewrite E in Em.
  - unfold group_step in Hst. destruct m; try done; apply bind_Some in Hst as (t & Ht & Hst); apply bind_Some in Hst as (t' & Ht' & [= <-]);
      pose proof (mover_frame j _ t t' Hm Ht') as (_ & Epa & Hpc & Hb).
    all: split; [split; [done|]|apply (frozen_set i j g t); [done|]; intros _; split; [done|]; intros json E; destruct Hpc as [->|[E' _]]; [done|congruence]].
    all: destruct (decide (j = i)) as [->|Hn]; [|exists s, d; cbn; by rewrite list_lookup_insert_ne].
    all: assert (t = s) as -> by congruence; try (by destruct Hne).
    all: exists t', d; cbn; rewrite list_lookup_insert_eq by (by eapply lookup_lt_Some); split_and!; [done| |].
    all: try (destruct Hpc as [->|[E' _]]; [done|congruence]).
    all: unfold room in *; by rewrite Hb.
Qed.

Lemma stalled_forever i g g' : group_inv g -> stalled i g -> rtc (unattended i) g g' -> stalled i g' /\ frozen i g g'.
Proof.
  intros Hi Hs Hr. revert Hi Hs. induction Hr as [g|g g1 g2 Hst _ IH]; intros Hi Hs.
  - split; [done|]. intros j s _ Hj. by exists s.
  - destruct (stalled_step i g g1 Hi Hs Hst) as [Hs1 Hf1]. destruct Hst as (j & m & Hst & _).
    destruct IH as [Hs2 Hf2]; [by apply (group_step_inv j m g)|done|]. split; [done|]. by eapply frozen_trans.
Qed.

(** An execution of the group. *)
Fixpoint group_run (moves : list (nat * mover)) (g : Group) : option Group :=
  match moves with [] => Some g | (i, m) :: moves' => g' ← group_step i m g; group_run moves' g' end.

Lemma group_run_reachable n moves : forall g g', group_reachable n g -> group_run moves g = Some g' -> group_reachable n g'.
Proof.
  induction moves as [|[i m] moves IH]; intros g g' Hr E; cbn [group_run] in E; [by simplify_eq|].
  destruct (group_step i m g) as [g1|] eqn:E1; [|done]. apply (IH g1); [|done]. eapply rtc_r; [done|]. by exists i, m.
Qed.

(** The owner gives the parser back after at most three of its own accesses. *)
Definition returns (i k : nat) (g : Group) : Prop :=
  exists g', group_run (repeat (i, GThread) k) g = Some g' /\ owner g' = None.

Lemma returns_S i k g g1 : group_thread i g = Some g1 -> returns i k g1 -> returns i (S k) g.
Proof. intros E (g' & Hr & Ho). exists g'. split; [|done]. cbn [repeat group_run group_step]. by rewrite E. Qed.

Lemma returns_O i g : owner g = None -> returns i 0 g.
Proof. by exists g. Qed.

Lemma set_stream_same g i s o t : streams g !! i = Some s -> streams (set_stream g i t o) !! i = Some t.
Proof. intros Hs. cbn. rewrite list_lookup_insert_eq; [done|by eapply lookup_lt_Some]. Qed.

Lemma returns_count i g s : streams g !! i = Some s -> pc s = TCount -> returns i 1 g.
Proof.
  intros Hs Hp. eapply returns_S; [|apply returns_O].
  - unfold group_thread. rewrite Hs. cbn [mbind option_bind]. rewrite Hp. unfold thread_step. rewrite Hp. reflexivity.
  - done.
Qed.

Lemma returns_enqueue i g s d : streams g !! i = Some s -> pc s = TEnqueue d -> room s -> returns i 2 g.
Proof.
  intros Hs Hp Hr. eapply returns_S.
  - unfold group_thread. rewrite Hs. cbn [mbind option_bind]. rewrite Hp. unfold thread_step.
    rewrite Hp, (proj2 (Nat.ltb_lt _ _) Hr). reflexivity.
  - eapply returns_count; [by eapply set_stream_same|done].
Qed.

Lemma owner_returns i g s : group_inv g -> owner g = Some i -> streams g !! i = Some s -> room s ->
  exists k, (k <= 3)%nat /\ returns i k g.
Proof.
  intros Hi Ho Hs Hr. destruct (g_owner g Hi i Ho) as (t & Ht & Hm). assert (t = s) as -> by congruence.
  destruct (pc s) eqn:Ep; try done.
  - destruct (@func Data (net i) (length (parsed s)) json) as [d|x] eqn:Ef; [exists 3%nat|exists 1%nat]; (split; [lia|]).
    all: eapply returns_S; [unfold group_thread; rewrite Hs; cbn [mbind option_bind]; rewrite Ep, Ho, decide_True by done;
      unfold thread_step; rewrite Ep, Ef; reflexivity|].
    + eapply returns_enqueue; [by eapply set_stream_same|done|done].
    + by apply returns_O.
  - exists 2%nat. split; [lia|]. by eapply returns_enqueue.
  - exists 1%nat. split; [lia|]. by eapply returns_count.
Qed.
End Group.

(** ** Properties *)

(** C10 Streams that share the parser are each a stream of their own: in every reachable
    state of the group each of them is in a state it could reach alone, so that what is
    proved of one stream (delivery in order, reported ends) holds of all; at most one is
    between taking the parser and giving it back; and one whose ring has room gives it
    back within three of its own accesses. *)
Theorem group_streams {Data} (net : nat -> StreamNet Data) disc n g : group_reachable net disc n g ->
  (forall i s, streams g !! i = Some s -> @reachable Data (net i) (disc i) s) /\
  (forall i j s t, streams g !! i = Some s -> streams g !! j = Some t -> decoding (pc s) = true -> decoding (pc t) = true -> i = j) /\
  (forall i s, owner g = Some i -> streams g !! i = Some s -> room s -> exists k, (k <= 3)%nat /\ returns net disc i k g).
Proof.
  intros Hr%group_inv_reachable. split_and!.
  - apply (g_stream _ _ _ Hr).
  - intros i j s t Hs Ht Hds Hdt. pose proof (g_decoding _ _ _ Hr i s Hs Hds). pose proof (g_decoding _ _ _ Hr j t Ht Hdt). congruence.
  - intros i s Ho Hs Hroom. by apply (owner_returns net disc i g s).
Qed.

(** C9 A stream whose ring is full stops every stream of the manager: while its consumer
    takes nothing, whatever else happens (reads, consumers of the others, closing,
    destructors clearing [running], restarts), it keeps the parser, no other stream parses
    a message, and a thread that had come to wait for the parser stays there, so that the
    join of its destructor does not return. *)
Theorem parser_stall {Data} (net : nat -> StreamNet Data) disc n i g g' : group_reachable net disc n g ->
  stalled i g -> rtc (unattended net disc i) g g' ->
  stalled i g' /\ forall j s, j <> i -> streams g !! j = Some s -> exists s', streams g' !! j = Some s' /\
    parsed s' = parsed s /\ (forall json, pc s = TParse json -> pc s' = TParse json).
Proof. intros Hr%group_inv_reachable Hs Hst. by apply (stalled_forever net disc). Qed.

(** ** Two streams: nobody reads the first, the second is shut down *)
Section Demo.

Definition flood_net (i : nat) : StreamNet unit := {|
  stream_setup _ := None;
  stream_recv _ := Received "message";
  func _ _ := Ok tt;
|}.
Definition flood_disc (i : nat) : discipline := ByRing.

(** The second stream has read a message; the first connects and reads 1025 messages. *)
Definition flood : list (nat * mover) :=
  repeat (1%nat, GThread) 8 ++ repeat (0%nat, GThread) (Z.to_nat (4 + 8 * 1024 + 6)).

(** Nobody has taken anything from the first, and the second waits for the parser. *)
Lemma flood_run : (fun g => (owner g, (fun s => (pc s, (length (bufferOut s) =? RING_CAPACITY)%nat)) <$> streams g !! 0%nat,
    pc <$> streams g !! 1%nat)) <$> group_run flood_net flood_disc flood (new_group 2) =
  Some (Some 0%nat, Some (TEnqueue tt, true), Some (TParse "message")).
Proof. vm_compute. reflexivity. Qed.

Lemma flooded : exists g s, group_reachable flood_net flood_disc 2 g /\ stalled 0 g /\ streams g !! 1%nat = Some s /\ pc s = TParse "message".
Proof.
  pose proof flood_run as E. apply fmap_Some in E as (g & Hg & [= Ho E0 E1]). symmetry in E0, E1.
  apply fmap_Some in E0 as (s & Hs & [= Hp Hl]). apply fmap_Some in E1 as (t & Ht & Hpt). exists g, t. split_and!.
  - eapply group_run_reachable; [apply rtc_refl|exact Hg].
  - split; [done|]. exists s, tt. split_and!; [done|done|]. unfold room. symmetry in Hl. apply Nat.eqb_eq in Hl. rewrite Hl. apply Nat.lt_irrefl.
  - done.
  - done.
Qed.

(** The stores of the second one's destructor. *)
Definition closing : list (nat * mover) := [(1%nat, GCloseRunning); (1%nat, GCloseSignal)].

Lemma closing_runs (g : @Group unit) s : streams g !! 1%nat = Some s ->
  exists g', group_run flood_net flood_disc closing g = Some g' /\ (running <$> streams g' !! 1%nat) = Some false.
Proof.
  intros Hs. unfold closing. cbn [group_run group_step]. rewrite Hs. cbn [mbind option_bind].
  rewrite (set_stream_same _ _ s) by done. cbn [mbind option_bind].
  eexists. split; [reflexivity|]. erewrite set_stream_same; [reflexivity|]. by eapply set_stream_same.
Qed.

Lemma closing_unattended g g' : group_run flood_net flood_disc closing g = Some g' -> rtc (unattended flood_net flood_disc 0) g g'.
Proof.
  intros E. unfold closing in E. cbn [group_run] in E.
  apply bind_Some in E as (g1 & E1 & E). apply bind_Some in E as (g2 & E2 & [= <-]).
  eapply rtc_l; [exists 1%nat, GCloseRunning; split; [exact E1|intros [? _]; discriminate]|].
  apply rtc_once. exists 1%nat, GCloseSignal. split; [exact E2|intros [? _]; discriminate].
Qed.

Lemma group_streams_witness : exists g s, group_reachable flood_net flood_disc 2 g /\ streams g !! 1%nat = Some s /\
  pc s = TParse "message" /\ @reachable unit (flood_net 1) ByRing s.
Proof.
  destruct flooded as (g & s & Hr & _ & Hs & Hp). exists g, s. split_and!; [exact Hr|exact Hs|exact Hp|].
  exact (proj1 (group_streams flood_net flood_disc 2 g Hr) 1%nat s Hs).
Defined.

Lemma parser_stall_witness : exists g g' s', group_run flood_net flood_disc closing g = Some g' /\ stalled 0 g /\
  stalled 0 g' /\ streams g' !! 1%nat = Some s' /\ running s' = false /\ pc s' = TParse "message".
Proof.
  destruct flooded as (g & s & Hr & Hst & Hs & Hps). destruct (closing_runs g s Hs) as (g' & E & Hrun).
  destruct (parser_stall flood_net flood_disc 2 0 g g' Hr Hst (closing_unattended _ _ E)) as [Hst' Hf].
  destruct (Hf 1%nat s) as (s' & Hs' & _ & Hp); [discriminate|exact Hs|].
  exists g, g', s'. split_and!; [exact E|exact Hst|exact Hst'|exact Hs'| |].
  - rewrite Hs' in Hrun. by injection Hrun.
  - apply Hp. exact Hps.
Defined.
End Demo.
