(* ===== verification/BookStream.v ===== *)
(** * BookStream: the stream thread, the decoder and the book thread together

    The stream holder of [class APIManager::Orderbook]
    ([src/api/orderbook/orderbook.hpp]) is
    [WebsocketStreamHolder<OrderbookArrays,DepthDecoder>]: the stream thread of
    WebsocketStream runs the decoder of BookFeed as its [func], and the book thread is
    its one consumer, which tests [bufferOut.isEmpty()]. This file is the product of the
    two machines: [bs_step] interleaves the stream thread (decoder included), the book
    thread, and closing and restarting.

    The ring's contents are kept once, in the feed; the stream holder's copy holds the
    events' numbers, which is all its own control needs. [paired] says that the two stay
    in step, so that what each machine was proved to do alone holds of their product. *)

From S2P Require Import Prelude Json ArrayHolder DepthDecoder WebsocketStream BookFeed.

Section Stream.
  Context {V : Type} `{Json V}.
  (** What [setupConnection] and [ws.read] do, by the number of the call. *)
  Context (setup : nat -> option string) (recv : nat -> recv_result).

(** [DepthDecoder::operator()] never throws: the [k]-th call returns the [k]-th event. *)
#[global] Instance event_numbers : StreamNet nat := {
  stream_setup := setup;
  stream_recv := recv;
  func k _ := Ok k;
}.

Record BStream := { ws : WebsocketStream.Holder nat; feed : Feed V }.

Definition with_ws (s : BStream) (w : WebsocketStream.Holder nat) : BStream := {| ws := w; feed := feed s |}.
Definition with_feed (s : BStream) (f : Feed V) : BStream := {| ws := ws s; feed := f |}.

Inductive actor := AStream | ABook | ACloseAlive | ACloseRunning | ACloseSignal | ARestart.

(** The next access of the stream thread. *)
Definition stream_step (s : BStream) : option BStream :=
  match pc (ws s) with
  | TParse json =>
      match prod (feed s) with
      | PIdle => with_feed s <$> start (feed s) json
      | PReturn _ => with_ws s <$> thread_step (ws s)
      | _ => with_feed s <$> decode_step (feed s)
      end
  | TEnqueue _ => w ← thread_step (ws s); f ← push (feed s); Some {| ws := w; feed := f |}
  | _ => with_ws s <$> thread_step (ws s)
  end.

(** The next access of the book thread to what it shares with it: [nextUpdate], with the
    [fetch_sub] and the [dequeue] of [getLatestData], then [release]. *)
Definition book_thread_step (s : BStream) : option BStream :=
  match consumer (ws s), book (feed s) with
  | CIdle, BIdle => with_ws s <$> consumer_step ByRing (ws s)
  | CIdle, _ => with_feed s <$> book_step (feed s)
  | CSubtract, _ => with_ws s <$> consumer_step ByRing (ws s)
  | CDequeue, _ => w ← consumer_step ByRing (ws s); f ← take_event (feed s); Some {| ws := w; feed := f |}
  end.

Definition bs_step (a : actor) (s : BStream) : option BStream :=
  match a with
  | AStream => stream_step s
  | ABook => book_thread_step s
  | ACloseAlive => Some (with_ws s (close_alive (ws s)))
  | ACloseRunning => Some (with_ws s (close_running (ws s)))
  | ACloseSignal => Some (with_ws s (close_signal (ws s)))
  | ARestart => with_ws s <$> restart (ws s)
  end.

Definition new_stream (m : Memory) : BStream := {| ws := WebsocketStream.new_holder; feed := new_feed m |}.

Definition stream_reachable (s : BStream) : Prop :=
  exists m, full_memory m /\ rtc (fun a b => exists l, bs_step l a = Some b) (new_stream m) s.

(** ** The two machines stay in step *)

Definition in_step (s : BStream) : Prop :=
  match pc (ws s) with
  | TParse json =>
      (prod (feed s) = PIdle /\ given (feed s) = parsed (ws s)) \/
      (prod (feed s) <> PIdle /\ given (feed s) = parsed (ws s) ++ [json])
  | TEnqueue _ => given (feed s) = parsed (ws s) /\ exists e, prod (feed s) = PReturn e
  | _ => given (feed s) = parsed (ws s) /\ prod (feed s) = PIdle
  end.

Record paired (s : BStream) : Prop := {
  p_ws : WebsocketStream.reachable ByRing (ws s);
  p_feed : BookFeed.reachable (feed s);
  p_step : in_step s;
  p_buffered : length (buffered (feed s)) = length (bufferOut (ws s));
  p_taken : length (seen (feed s)) = length (taken (ws s));
  p_book : consumer (ws s) <> CIdle -> book (feed s) = BIdle;
}.

(** Outside [func] and [enqueue] the stream thread touches nothing of the feed's. *)
Definition quiet (p : tpc nat) : bool := match p with TParse _ | TEnqueue _ => false | _ => true end.

Lemma quiet_step w w' : quiet (pc w) = true -> thread_step w = Some w' ->
  parsed w' = parsed w /\ bufferOut w' = bufferOut w /\ taken w' = taken w /\ consumer w' = consumer w /\
  match pc w' with TEnqueue _ => False | _ => True end.
Proof.
  intros Hq Hst. unfold thread_step in Hst. destruct (pc w) eqn:Ep; simplify_eq; try done.
  - by destruct (connectionAlive w).
  - unfold setup_end, setup_return in Hst. cbn [stream_setup event_numbers] in Hst.
    destruct (setup (attempts w)); simplify_eq; destruct retry, c; cbn; try case_match; done.
  - destruct (running w); [done|]. by destruct c.
  - destruct (running w); [done|]. by destruct c.
  - by destruct (running w).
  - unfold getLatestMessage in Hst. destruct (connectionAlive w); cbn in Hst; [|by simplify_eq].
    by destruct (recv (reads w)) as [| |? []|]; simplify_eq.
  - by destruct (_ =? 0)%nat.
  - by destruct (connectionAlive w).
Qed.

Lemma paired_quiet s w' : paired s -> quiet (pc (ws s)) = true -> thread_step (ws s) = Some w' -> paired (with_ws s w').
Proof.
  intros [] Hq Hst. destruct (quiet_step _ _ Hq Hst) as (E1 & E2 & E3 & E4 & E5).
  assert (given (feed s) = parsed (ws s) /\ prod (feed s) = PIdle) as [Hg Hp].
  { unfold in_step in p_step0. by destruct (pc (ws s)). }
  split; cbn [ws feed with_ws]; rewrite ?E2, ?E3, ?E4; try done.
  - eapply rtc_r; [done|]. by apply step_thread.
  - unfold in_step. cbn [ws feed with_ws]. rewrite E1. destruct (pc w'); try done. by left.
Qed.

(** A step of the decoder inside a message. *)
Lemma decode_frame (f f' : Feed V) : decode_step f = Some f' ->
  given f' = given f /\ seen f' = seen f /\ buffered f' = buffered f /\ book f' = book f /\ prod f' <> PIdle.
Proof.
  unfold decode_step. intros Hst.
  destruct (prod f) as [| | | |x|x obj [|level levels] n|x obj [|level levels] nb n|x obj nb na|x| |e]; simplify_eq; try done.
  - by destruct (freeCnt f =? 0).
  - by destruct (freeRing f); simplify_eq.
  - split_and!; try done. cbn. by destruct (open_message _) as [[]|].
  - split_and!; try done. cbn. by destruct (value _).
  - destruct (_ <=? _); [done|]. by destruct (read_level level) as [[]|].
  - destruct (_ <=? _); [done|]. by destruct (read_level level) as [[]|].
  - split_and!; try done. cbn. by destruct (read_ids obj) as [[[]]|].
Qed.

Lemma paired_decode s json f' : paired s -> pc (ws s) = TParse json -> given f' = parsed (ws s) ++ [json] ->
  prod f' <> PIdle -> BookFeed.reachable f' -> buffered f' = buffered (feed s) -> seen f' = seen (feed s) ->
  book f' = book (feed s) -> paired (with_feed s f').
Proof.
  intros [] Ep Eg Hp Hr E1 E2 E3. split; cbn [ws feed with_feed]; rewrite ?E1, ?E2, ?E3; try done.
  unfold in_step. cbn [ws feed with_feed]. rewrite Ep. by right.
Qed.

Lemma stream_step_busy s json : pc (ws s) = TParse json -> busy (prod (feed s)) = true ->
  stream_step s = with_feed s <$> decode_step (feed s).
Proof. intros Ep Hb. unfold stream_step. rewrite Ep. by destruct (prod (feed s)). Qed.

Lemma paired_parse s json s' : paired s -> pc (ws s) = TParse json -> stream_step s = Some s' -> paired s'.
Proof.
  intros Hi Ep Hst. pose proof (p_step s Hi) as Hs. unfold in_step in Hs. rewrite Ep in Hs.
  destruct (busy (prod (feed s))) eqn:Eb.
  { rewrite (stream_step_busy s json) in Hst by done. apply fmap_Some in Hst as (f' & Hf & ->).
    destruct Hs as [[Hp _]|[_ Hg]]; [by rewrite Hp in Eb|]. destruct (decode_frame _ _ Hf) as (E1 & E2 & E3 & E4 & E5).
    apply (paired_decode s json); try done; [by rewrite E1|]. apply (reachable_step LDecode (feed s)); [apply Hi|done]. }
  unfold stream_step in Hst. rewrite Ep in Hst. destruct (prod (feed s)) eqn:Epr; try done.
  - destruct Hs as [[_ Hg]|[? _]]; [|done]. apply fmap_Some in Hst as (f' & Hf & ->).
    assert (BookFeed.reachable f') as Hr by (apply (reachable_step (LStart json) (feed s)); [apply Hi|done]).
    unfold start in Hf. rewrite Epr in Hf. simplify_eq. apply (paired_decode s json); try done. cbn. by rewrite Hg.
  - destruct Hs as [[? _]|[_ Hg]]; [done|]. apply fmap_Some in Hst as (w' & Hw & ->). destruct Hi as [Hws Hf _ Hb Ht Hbk].
    assert (WebsocketStream.reachable ByRing w') as Hr by (eapply rtc_r; [exact Hws|by apply step_thread]).
    unfold thread_step in Hw. rewrite Ep in Hw. cbn [func event_numbers] in Hw. simplify_eq. split; try done.
    unfold in_step. cbn. by eauto.
Qed.

Lemma paired_enqueue s k s' : paired s -> pc (ws s) = TEnqueue k -> stream_step s = Some s' -> paired s'.
Proof.
  intros [Hws Hf Hs Hb Ht Hbk] Ep Hst. unfold in_step in Hs. rewrite Ep in Hs. destruct Hs as [Hg [e He]].
  unfold stream_step in Hst. rewrite Ep in Hst. apply bind_Some in Hst as (w' & Hw & Hst). apply bind_Some in Hst as (f' & Hf' & [= <-]).
  assert (WebsocketStream.reachable ByRing w') as Hr by (eapply rtc_r; [exact Hws|by apply step_thread]).
  assert (BookFeed.reachable f') as Hr' by (by apply (reachable_step LPush (feed s))).
  unfold push in Hf'. rewrite He in Hf'. unfold thread_step in Hw. rewrite Ep in Hw.
  destruct (_ <? _)%nat; simplify_eq. split; try done. cbn. rewrite !length_app. cbn. by rewrite Hb.
Qed.

Lemma paired_stream s s' : paired s -> stream_step s = Some s' -> paired s'.
Proof.
  intros Hi Hst. destruct (quiet (pc (ws s))) eqn:Hq.
  - unfold stream_step in Hst. assert (with_ws s <$> thread_step (ws s) = Some s') as (w & Hw & ->)%fmap_Some.
    { by destruct (pc (ws s)). }
    by apply paired_quiet.
  - destruct (pc (ws s)) eqn:Ep; try done; [by eapply paired_parse|by eapply paired_enqueue].
Qed.

Lemma paired_book s s' : paired s -> book_thread_step s = Some s' -> paired s'.
Proof.
  intros Hi Hst. pose proof (p_book s Hi) as Hbk. unfold book_thread_step in Hst.
  assert (forall w', consumer_step ByRing (ws s) = Some w' -> WebsocketStream.reachable ByRing w') as Hr.
  { intros w' Hw. eapply rtc_r; [apply Hi|by apply step_consumer]. }
  destruct (consumer (ws s)) eqn:Ec.
  - assert (forall f', book_step (feed s) = Some f' -> paired (with_feed s f')) as Hrel.
    { intros f' Hf. assert (BookFeed.reachable f') as Hr' by (apply (reachable_step LBook (feed s)); [apply Hi|done]).
      destruct Hi as [Hw _ Hs Hb Ht _]. unfold book_step in Hf.
      destruct (book (feed s)) as [|e|]; simplify_eq; [destruct (0 <=? ev_slot e)|]; by split. }
    destruct (book (feed s)) as [|e|] eqn:Eb; apply fmap_Some in Hst as (x & Hx & ->); [|by apply Hrel..].
    specialize (Hr x Hx). unfold consumer_step in Hx. rewrite Ec in Hx. destruct (ready ByRing (ws s)); simplify_eq.
    by destruct Hi; split.
  - apply fmap_Some in Hst as (w & Hw & ->). specialize (Hr w Hw). specialize (Hbk ltac:(done)).
    unfold consumer_step in Hw. rewrite Ec in Hw. simplify_eq. by destruct Hi; split.
  - apply bind_Some in Hst as (w & Hw & Hst). apply bind_Some in Hst as (f & Hf & [= <-]). specialize (Hr w Hw).
    assert (BookFeed.reachable f) as Hr' by (apply (reachable_step LTake (feed s)); [apply Hi|done]).
    destruct Hi as [_ _ Hs Hb Ht _]. unfold consumer_step in Hw. rewrite Ec in Hw. unfold take_event in Hf.
    destruct (book (feed s)); simplify_eq. destruct (bufferOut (ws s)) as [|k q]; simplify_eq.
    destruct (buffered (feed s)) as [|e q']; simplify_eq. cbn in Hb. split; try done; cbn.
    rewrite !length_app. cbn. by rewrite Ht.
Qed.

Lemma paired_close s w' : paired s -> WebsocketStream.step ByRing (ws s) w' -> pc w' = pc (ws s) -> parsed w' = parsed (ws s) ->
  bufferOut w' = bufferOut (ws s) -> taken w' = taken (ws s) -> consumer w' = consumer (ws s) -> paired (with_ws s w').
Proof.
  intros [] Hst E1 E2 E3 E4 E5. split; cbn [ws feed with_ws]; rewrite ?E3, ?E4, ?E5; try done.
  - by eapply rtc_r.
  - unfold in_step. cbn [ws feed with_ws]. by rewrite E1, E2.
Qed.

Lemma paired_step a s s' : paired s -> bs_step a s = Some s' -> paired s'.
Proof.
  intros Hi Hst. destruct a; cbn in Hst; simplify_eq.
  - by apply (paired_stream s).
  - by apply (paired_book s).
  - apply paired_close; try done. apply step_close_alive.
  - apply paired_close; try done. apply step_close_running.
  - apply paired_close; try done. apply step_close_signal.
  - apply fmap_Some in Hst as (w & Hw & ->). destruct Hi as [Hws Hf Hs Hb Ht Hbk].
    assert (WebsocketStream.reachable ByRing w) as Hr by (eapply rtc_r; [exact Hws|by apply step_restart]).
    unfold restart in Hw. unfold in_step in Hs. destruct (pc (ws s)) eqn:Ep; simplify_eq. by split.
Qed.

Lemma paired_reachable s : stream_reachable s -> paired s.
Proof.
  intros (m & Hm & Hr). revert s Hr. apply rtc_ind_r.
  - split; try done; [apply rtc_refl|by apply new_feed_reachable].
  - intros s s' _ [a Ha] Hi. by apply (paired_step a s).
Qed.

(** The messages the decoder was given are those the stream thread parsed. *)
Lemma given_texts s : paired s -> nonempty (given (feed s)) `sublist_of` nonempty (wire (reads (ws s))).1 /\
  (cut (ws s) = false -> exists rest, nonempty (wire (reads (ws s))).1 = nonempty (given (feed s)) ++ rest).
Proof.
  intros Hi. destruct (text_inv_reachable ByRing (ws s) (p_ws s Hi)) as [_ _ Hsub Hall _].
  assert (exists rest, nonempty (parsed (ws s)) ++ held (pc (ws s)) = nonempty (given (feed s)) ++ rest) as [rest Hrest].
  { pose proof (p_step s Hi) as Hs. unfold in_step in Hs.
    destruct (pc (ws s)) as [| | | | | | | | | | |json| | |]; try (destruct Hs as [-> _]; by eexists).
    destruct Hs as [[_ ->]|[_ ->]]; [by eexists|]. exists []. rewrite app_nil_r. unfold nonempty. rewrite filter_app. done. }
  rewrite Hrest in Hsub, Hall. split.
  - etrans; [|exact Hsub]. by apply sublist_inserts_r.
  - intros Hc. exists rest. by rewrite (Hall Hc).
Qed.

(** Where the stream thread may have to wait, and where the book thread may. *)
Lemma stream_enabled s : paired s -> stream_step s = None ->
  pc (ws s) = TDone \/ exists k, pc (ws s) = TEnqueue k /\ length (bufferOut (ws s)) = RING_CAPACITY.
Proof.
  intros [Hw Hf Hs Hb Ht Hbk] Hst. unfold in_step in Hs. pose proof (q_room _ _ (queue_inv_reachable ByRing _ Hw)) as Hroom.
  unfold stream_step in Hst. destruct (pc (ws s)) eqn:Ep; try (by left);
    try (apply fmap_None in Hst; unfold thread_step in Hst; rewrite Ep in Hst; try done;
         first [by destruct (setup_end _)|by destruct (getLatestMessage _)]).
  - destruct (prod (feed s)) eqn:Epr; apply fmap_None in Hst.
    all: try (unfold start in Hst; by rewrite Epr in Hst).
    all: try (unfold thread_step in Hst; by rewrite Ep in Hst).
    all: destruct (decode_step_enabled (feed s) Hf) as (f' & E & _); [by rewrite Epr|congruence].
  - right. destruct Hs as [_ [e He]]. exists d. split; [done|]. unfold thread_step, push in Hst. rewrite Ep, He in Hst.
    destruct (Nat.ltb_spec (length (bufferOut (ws s))) RING_CAPACITY); [done|lia].
Qed.

Lemma book_enabled s : paired s -> book_thread_step s = None ->
  consumer (ws s) = CIdle /\ book (feed s) = BIdle /\ buffered (feed s) = [].
Proof.
  intros [Hw Hf Hs Hb Ht Hbk] Hst. pose proof (q_ready _ _ (queue_inv_reachable ByRing _ Hw)) as Hre.
  unfold book_thread_step in Hst. destruct (consumer (ws s)) eqn:Ec.
  - destruct (book (feed s)) as [|e|] eqn:Eb; apply fmap_None in Hst; [|unfold book_step in Hst; by rewrite Eb in Hst..].
    unfold consumer_step in Hst. rewrite Ec in Hst. unfold ready in Hst. destruct (bufferOut (ws s)); [|done].
    split_and!; [done|done|]. by apply length_zero_iff_nil.
  - apply fmap_None in Hst. unfold consumer_step in Hst. by rewrite Ec in Hst.
  - destruct Hre as [Hne _]. specialize (Hbk ltac:(done)). unfold consumer_step, take_event in Hst. rewrite Ec, Hbk in Hst.
    destruct (bufferOut (ws s)) as [|k q]; [done|]. by destruct (buffered (feed s)) as [|e q'].
Qed.

(** An execution, by the threads that move. *)
Fixpoint stream_run (actors : list actor) (s : BStream) : option BStream :=
  match actors with [] => Some s | a :: actors' => s' ← bs_step a s; stream_run actors' s' end.

Lemma stream_run_reachable actors s s' : stream_reachable s -> stream_run actors s = Some s' -> stream_reachable s'.
Proof.
  revert s. induction actors as [|a actors IH]; intros s Hr E; cbn in E; [by simplify_eq|].
  destruct (bs_step a s) as [s1|] eqn:E1; [|done]. apply (IH s1); [|done]. destruct Hr as (m & Hm & Hr).
  exists m. split; [done|]. eapply rtc_r; [done|]. by exists a.
Qed.

Lemma new_stream_reachable m : full_memory m -> stream_reachable (new_stream m).
Proof. intros Hm. exists m. split; [done|apply rtc_refl]. Qed.
End Stream.

(** ** Properties *)

(** C6 From the socket to the book thread, under every interleaving of the two threads with
    closing and restarting: the decoder is given the messages of the socket, in order
    and none skipped (unless [closeConnection] cuts one off); the [k]-th event the book
    thread takes is live with exactly the ids and levels of the [k]-th of them, or dropped
    because it found no slot or is no depth message within the capacity; and the pointers
    of the event it is looking at still designate that value. *)
Theorem book_events_faithful {V} `{Json V} setup recv (s : BStream) : stream_reachable setup recv s ->
  nonempty (given (feed s)) `sublist_of` nonempty (@wire nat (event_numbers setup recv) (reads (ws s))).1 /\
  (cut (ws s) = false ->
    exists rest, nonempty (@wire nat (event_numbers setup recv) (reads (ws s))).1 = nonempty (given (feed s)) ++ rest) /\
  (forall k v, seen (feed s) !! k = Some v -> exists json, given (feed s) !! k = Some json /\
    if dropped v then v = dropped_event /\ (k ∈ starved (feed s) \/ unreadable json) else carries json v) /\
  (forall e, book (feed s) = BHold e -> last (seen (feed s)) = Some (value_of (mem (feed s)) e)).
Proof.
  intros Hr. pose proof (paired_reachable setup recv s Hr) as Hp. destruct (given_texts setup recv s Hp) as [H1 H2].
  pose proof (p_feed _ _ s Hp) as Hf. split_and!; [done|done| |apply (d_held _ (data_inv_reachable _ Hf))].
  intros k v Hk. apply handed_event; [done|]. by apply lookup_app_l_Some.
Qed.


(** ** One message, from the socket to the book thread *)

Definition one_setup (k : nat) : option string := if (k =? 0)%nat then None else Some "refused"%string.
Definition one_recv (text : string) (k : nat) : recv_result := if (k =? 0)%nat then Received text else RecvError "".
(** The stream thread connects, reads, decodes and buffers; the book thread takes. *)
Definition one_schedule : list actor := repeat AStream 19 ++ repeat ABook 3.

Lemma book_events_faithful_witness : let J := JV_Json [(demo_text, demo_tree)] in
  exists s e v, stream_run one_setup (one_recv demo_text) one_schedule (new_stream demo_arrays) = Some s /\
    book (feed s) = BHold e /\ last (seen (feed s)) = Some (value_of (mem (feed s)) e) /\
    seen (feed s) !! 0%nat = Some v /\ carries demo_text v.
Proof.
  intros J. destruct (stream_run one_setup (one_recv demo_text) one_schedule (new_stream demo_arrays)) as [s|] eqn:E;
    [|vm_compute in E; discriminate E].
  assert (stream_reachable one_setup (one_recv demo_text) s) as Hr
    by (eapply stream_run_reachable; [apply new_stream_reachable, demo_memory|exact E]).
  destruct (book_events_faithful _ _ s Hr) as (_ & _ & Hk & Hh).
  assert (exists e v, book (feed s) = BHold e /\ seen (feed s) !! 0%nat = Some v /\ dropped v = false /\ given (feed s) = [demo_text])
    as (e & v & Hb & Hv & Hd & Hg).
  { vm_compute in E. injection E as <-. eexists _, _. split_and!; reflexivity. }
  exists s, e, v. split_and!; [reflexivity|exact Hb|by apply Hh|exact Hv|].
  destruct (Hk 0%nat v Hv) as (json & Hj & Hc). rewrite Hg in Hj. injection Hj as <-. rewrite Hd in Hc. exact Hc.
Defined.

