(* ===== verification/FuturesRest.v ===== *)
(** * FuturesRest: the REST clients

    Models [class APIManager::Futures::API] of [src/api/futures/api.hpp] and
    [APIManager::Spot::API] of [src/api/spot/api.hpp], over StreamHolder and the abstract
    JSON reader. Each call is split at the response: [X_response] is the part of [X]
    that runs once [sendRequest] has returned. The [try] blocks are computations of the
    monad [SE] over the output parameter, which keeps what was written before an
    exception; [None] is a ring buffer that is full ([enqueue] spins) or undefined
    behaviour. The parser's lock ([ThreadSafeParserRAII]) is held for the whole block,
    so a call is one step. *)

From S2P Require Import Prelude FixedPoint Model Json Errors Snapshot RingBuffer Backoff RequestParameter Manager StreamHolder.

Definition CANDLE_RING : Z := 2048.
Definition INTEREST_RING : Z := 1024.

Section Rest.
  Context {V : Type} `{Json V}.
  Context (error_message : sj_error -> string).

(** [e.what()]. *)
Definition what (x : exn) : string :=
  match x with
  | simdjson_error ec => error_message ec
  | invalid_argument w => w
  | runtime_error w => w
  end.

Definition bad_field (x : exn) : FetchError :=
  FetchError_msg APIError_BAD_FIELD ("Failed to parse a field. error: " +:+ what x)%string.

(** [if(!data) return ...; if(FetchError err = iterateResponse(...)) return err;] *)
Definition accept (d : StreamData) : FetchError + V :=
  if negb (ok d) then inl (FetchError_msg APIError_BOOST_ERROR (default "" (ec d))%string) else
  let '(err, doc) := iterateResponse error_message (string_ d) (httpStatus d) in
  if getError err then inl err else
  match doc with Some v => inr v | None => inl err end.

(** ** Candles *)

Definition set_candle (c : Candle) (i : Z) (n : Z) : Candle :=
  match i with
  | 0 => {| timestampOpen := n; open := open c; high := high c; close := close c; low := low c; candleVolume := candleVolume c; timestampClose := timestampClose c; quoteVolume := quoteVolume c |}
  | 1 => {| timestampOpen := timestampOpen c; open := n; high := high c; close := close c; low := low c; candleVolume := candleVolume c; timestampClose := timestampClose c; quoteVolume := quoteVolume c |}
  | 2 => {| timestampOpen := timestampOpen c; open := open c; high := n; close := close c; low := low c; candleVolume := candleVolume c; timestampClose := timestampClose c; quoteVolume := quoteVolume c |}
  | 3 => {| timestampOpen := timestampOpen c; open := open c; high := high c; close := close c; low := n; candleVolume := candleVolume c; timestampClose := timestampClose c; quoteVolume := quoteVolume c |}
  | 4 => {| timestampOpen := timestampOpen c; open := open c; high := high c; close := n; low := low c; candleVolume := candleVolume c; timestampClose := timestampClose c; quoteVolume := quoteVolume c |}
  | 5 => {| timestampOpen := timestampOpen c; open := open c; high := high c; close := close c; low := low c; candleVolume := n; timestampClose := timestampClose c; quoteVolume := quoteVolume c |}
  | 6 => {| timestampOpen := timestampOpen c; open := open c; high := high c; close := close c; low := low c; candleVolume := candleVolume c; timestampClose := n; quoteVolume := quoteVolume c |}
  | 7 => {| timestampOpen := timestampOpen c; open := open c; high := high c; close := close c; low := low c; candleVolume := candleVolume c; timestampClose := timestampClose c; quoteVolume := n |}
  | _ => c
  end.

(** The [switch(index)]. *)
Definition candle_field (i : Z) (f : sj V) (c : Candle) : result Candle :=
  match i with
  | 0 | 6 => v ← value f; n ← value (get_int64 v); mret (set_candle c i n)
  | 1 | 2 | 3 | 4 => v ← value f; n ← readFixed (Val v); mret (set_candle c i n)
  | 5 | 7 => v ← value f; n ← readFixed128 (Val v); mret (set_candle c i n)
  | _ => mret c
  end.

Fixpoint candle_fields (fs : list (sj V)) (i : Z) (c : Candle) : result Candle :=
  match fs with
  | [] => mret c
  | f :: fs' => c' ← candle_field i f c; candle_fields fs' (i + 1) c'
  end.

(** [outputBuff.enqueue(x)]. *)
Definition push {A} (SIZE : Z) (a : A) : SE (RingBuffer A) unit := fun r =>
  r' ← enqueue SIZE r a; Some (Ok tt, r').

(** The loop over the rows; [outCandle] is one variable for all of them. *)
Fixpoint candle_rows (rows : list (sj V)) (c : Candle) : SE (RingBuffer Candle) unit :=
  match rows with
  | [] => mret tt
  | row :: rows' =>
      r ← lift (value row); fs ← lift (value (get_array r));
      c' ← lift (candle_fields fs 0 c);
      _ ← push CANDLE_RING c';
      candle_rows rows' c'
  end.

(** [catch(std::exception& e)]: the buffer is cleared. *)
Definition clear_on_error {A} (x : exn) : SE (RingBuffer A) FetchError :=
  _ ← modify clearBuffer; mret (bad_field x).

(** [c0] is [outCandle] before anything is assigned: indeterminate. *)
Definition candles_response (c0 : Candle) (d : StreamData) : SE (RingBuffer Candle) FetchError :=
  match accept d with
  | inl err => mret err
  | inr doc => try_catch (_ ← candle_rows (elements (Val doc)) c0; mret (FetchError_of APIError_SUCCESS)) clear_on_error
  end.

(** ** Open interest *)

Definition interest_frame (f : sj V) : result OpenInterest :=
  ti ← readFixed128 (f ≫= fun v => field v "sumOpenInterest");
  tv ← readFixed128 (f ≫= fun v => field v "sumOpenInterestValue");
  ci ← readFixed128 (f ≫= fun v => field v "CMCCirculatingSupply");
  ts ← value (f ≫= fun v => field v "timestamp" ≫= get_int64);
  mret {| oiTimestamp := ts; totalInterest := ti; totalInterestValue := tv; circulation := ci |}.

Fixpoint interest_frames (fs : list (sj V)) : SE (RingBuffer OpenInterest) unit :=
  match fs with
  | [] => mret tt
  | f :: fs' => x ← lift (interest_frame f); _ ← push INTEREST_RING x; interest_frames fs'
  end.

Definition interest_response (d : StreamData) : SE (RingBuffer OpenInterest) FetchError :=
  match accept d with
  | inl err => mret err
  | inr doc => try_catch (_ ← interest_frames (elements (Val doc)); mret (FetchError_of APIError_SUCCESS)) clear_on_error
  end.

Definition keep_on_error {S} (x : exn) : SE S FetchError := mret (bad_field x).

Definition current_response (d : StreamData) : SE CurrentOpenInterest FetchError :=
  match accept d with
  | inl err => mret err
  | inr doc =>
      try_catch
        (oi ← lift (readFixed128 (field doc "openInterest"));
         _ ← modify (fun r => {| coiTimestamp := coiTimestamp r; openInterest := oi |});
         t ← lift (v ← value (field doc "time"); value (get_int64 v));
         _ ← modify (fun r => {| coiTimestamp := t; openInterest := openInterest r |});
         mret (FetchError_of APIError_SUCCESS))
        keep_on_error
  end.

(** ** Exchange information *)

Definition set_pair (p : PairInfo) (k : string) (n : Z) : PairInfo :=
  let at_ s := String.eqb k s in
  {| minNotional := if at_ "notional"%string then n else minNotional p;
     maxPrice := if at_ "maxPrice"%string then n else maxPrice p;
     minPrice := if at_ "minPrice"%string then n else minPrice p;
     pairTickSize := if at_ "tickSize"%string then n else pairTickSize p;
     maxQuantity := if at_ "maxQty"%string then n else maxQuantity p;
     minQuantity := if at_ "minQty"%string then n else minQuantity p;
     stepsize := if at_ "stepSize"%string then n else stepsize p |}.

(** [out.x = readFixed(field["k"])], one after the other. *)
Fixpoint read_into (f : sj V) (ks : list string) : SE PairInfo unit :=
  match ks with
  | [] => mret tt
  | k :: ks' =>
      n ← lift (readFixed (f ≫= fun v => field v k));
      _ ← modify (fun p => set_pair p k n);
      read_into f ks'
  end.

Definition price_keys : list string := ["maxPrice"; "minPrice"; "tickSize"]%string.
Definition lot_keys : list string := ["maxQty"; "minQty"; "stepSize"]%string.

(** The loop over the filters; [field_] is one variable for all of them,
    empty at first: the function returns after the one symbol whose filters it reads. *)
Fixpoint filters_loop (fs : list (sj V)) (field_ : string) : SE PairInfo string :=
  match fs with
  | [] => mret field_
  | f :: fs' =>
      let field_' := assign_string (f ≫= fun v => field v "filterType") field_ in
      _ ← (if String.eqb field_' "PRICE_FILTER" then read_into f price_keys else mret tt);
      _ ← (if String.eqb field_' "LOT_SIZE" then read_into f lot_keys else mret tt);
      _ ← (if String.eqb field_' "MIN_NOTIONAL" then read_into f ["notional"%string] else mret tt);
      filters_loop fs' field_'
  end.

(** The loop over the symbols: true when it returned from inside. *)
Fixpoint symbols_loop (pair : string) (syms : list (sj V)) (pair_ : string) : SE PairInfo bool :=
  match syms with
  | [] => mret false
  | s :: syms' =>
      obj ← lift (value (s ≫= get_object));
      let pair_' := assign_string (field obj "symbol") pair_ in
      if String.eqb pair_' pair then _ ← filters_loop (elements (field obj "filters")) ""; mret true
      else symbols_loop pair syms' pair_'
  end.

Definition exchange_response (pair : string) (d : StreamData) : SE PairInfo FetchError :=
  match accept d with
  | inl err => mret err
  | inr doc =>
      try_catch
        (found ← symbols_loop pair (elements (field doc "symbols")) "";
         mret (if (found : bool) then FetchError_of APIError_SUCCESS
               else FetchError_msg APIError_BAD_SYMBOL ("Pair not found in exchange info: " +:+ pair)%string))
        keep_on_error
  end.

(** ** The depth snapshot *)

(** The loop over a level's values: the first non-zero one is the price. *)
Fixpoint level_values (vs : list (sj V)) (price volume : Fixed) : result (Fixed * Fixed) :=
  match vs with
  | [] => mret (price, volume)
  | v :: vs' =>
      x ← value v; n ← readFixed (Val x);
      if negb (price =? 0) then level_values vs' price n else level_values vs' n volume
  end.

(** [v0]: [volume] before it is assigned is indeterminate. *)
Fixpoint side_loop (isBid : bool) (v0 : Fixed) (levels : list (sj V)) : SE Snapshot unit :=
  match levels with
  | [] => mret tt
  | l :: levels' =>
      x ← lift (value l);
      '(p, v) ← lift (level_values (elements (Val x)) 0 v0);
      _ ← (fun s => s' ← registerEntry s p v isBid; Some (Ok tt, s'));
      side_loop isBid v0 levels'
  end.

Definition snapshot_body (v0 : Fixed) (doc : V) : SE Snapshot FetchError :=
  id ← lift (value (field doc "lastUpdateId" ≫= get_int64));
  _ ← modify (fun s => set_updateId s id);
  _ ← side_loop true v0 (elements (field doc "bids"));
  _ ← side_loop false v0 (elements (field doc "asks"));
  mret (FetchError_of APIError_SUCCESS).

Definition reset_on_error (x : exn) : SE Snapshot FetchError := _ ← modify Snapshot.reset; mret (bad_field x).

(** The buffer is reset before the request is sent. *)
Definition snapshot_response (v0 : Fixed) (d : StreamData) : SE Snapshot FetchError :=
  _ ← modify Snapshot.reset;
  match accept d with
  | inl err => mret err
  | inr doc => try_catch (snapshot_body v0 doc) reset_on_error
  end.

Definition raw_response (d : StreamData) (body : string) (status_ : Z) : FetchError * string * Z :=
  if negb (ok d) then (FetchError_msg APIError_BOOST_ERROR (default "" (ec d))%string, body, status_)
  else (FetchError_of APIError_SUCCESS, string_ d, httpStatus d).

(** ** The calls *)

  Context `{Net}.

Definition GET : string := "GET".

(** [futures.sendRequest(target)], then the rest of the call. *)
Definition call {S A} (host : string) (h : Holder) (target : string) (k : StreamData -> SE S A) (s : S)
    : Holder * option (result A * S) :=
  let '(h', d) := sendRequest host h target GET true in (h', k d s).

Definition fetchCandles (h : Holder) (c0 : Candle) (outputBuff : RingBuffer Candle) (pair timeframe : string) :=
  call hostFutures h ("/fapi/v1/klines?symbol=" +:+ pair +:+ "&interval=" +:+ timeframe)%string (candles_response c0) outputBuff.

Definition Spot_fetchCandles (h : Holder) (c0 : Candle) (outputBuff : RingBuffer Candle) (pair timeframe : string) :=
  call hostSpot h ("/api/v3/klines?symbol=" +:+ pair +:+ "&interval=" +:+ timeframe)%string (candles_response c0) outputBuff.

Definition fetchOpenInterestHist (h : Holder) (outputBuff : RingBuffer OpenInterest) (pair timeframe : string) :=
  call hostFutures h ("/futures/data/openInterestHist?symbol=" +:+ pair +:+ "&period=" +:+ timeframe)%string interest_response outputBuff.

Definition fetchOpenInterestCurrent (h : Holder) (ref : CurrentOpenInterest) (pair : string) :=
  call hostFutures h ("/fapi/v1/openInterest?symbol=" +:+ pair)%string current_response ref.

Definition fetchExchangeInfoForPair (h : Holder) (pair : string) (out : PairInfo) :=
  call hostFutures h "/fapi/v1/exchangeInfo" (exchange_response pair) out.

Definition fetchOrderbookSnapshot (h : Holder) (v0 : Fixed) (pair : string) (out : Snapshot) :=
  call hostFutures h ("/fapi/v1/depth?symbol=" +:+ pair +:+ "&limit=1000")%string (snapshot_response v0) out.

Definition fetchRaw (h : Holder) (target body : string) (status_ : Z) : Holder * (FetchError * string * Z) :=
  let '(h', d) := sendRequest hostFutures h target GET true in (h', raw_response d body status_).
End Rest.
