(* ===== verification/FuturesRestSpec.v ===== *)
(** * FuturesRestSpec: what the REST calls return

    The reference readings of the responses, and the theorems that the calls of
    FuturesRest compute them on every branch. The last part builds the interface
    [FuturesAPI] the order book is verified against from the model of the client, and
    discharges the book's assumptions from assumptions on the exchange's responses. *)

From S2P Require Import Prelude FixedPoint Model Json Errors Snapshot RingBuffer Backoff FuturesRest.

Section Spec.
  Context {V : Type} `{Json V}.
  Context (error_message : sj_error -> string).
  Notation bad_field := (bad_field error_message).

(** A refusal is always an error. *)
Lemma accept_error d err : accept error_message d = inl err -> getError err = true.
Proof.
  unfold accept. destruct (ok d); cbn [negb]; [|by intros [= <-]].
  destruct (iterateResponse error_message (string_ d) (httpStatus d)) as [e doc] eqn:E.
  destruct (getError e) eqn:Ee; [by intros [= <-]|].
  destruct doc as [v|] eqn:Ed; [done|]. unfold iterateResponse, iterateBody in E.
  exfalso. destruct (iterate (string_ d)) as [v|x]; cbn in E; [case_match; congruence|].
  assert (getError e = true) as Hx; [|congruence]. case_match; injection E as <-; [done|].
  unfold getError, fromHttpStatus. cbn. by repeat case_match.
Qed.

(** ** Candles *)

(** A kline: eight fields by position, whatever follows. *)
Definition candle_of (fs : list (sj V)) : result Candle :=
  match fs with
  | f0 :: f1 :: f2 :: f3 :: f4 :: f5 :: f6 :: f7 :: _ =>
      t0 ← value (f0 ≫= get_int64); o ← readFixed f1; h ← readFixed f2; l ← readFixed f3; c ← readFixed f4;
      v ← readFixed128 f5; t6 ← value (f6 ≫= get_int64); q ← readFixed128 f7;
      mret {| timestampOpen := t0; open := o; high := h; close := c; low := l;
              candleVolume := v; timestampClose := t6; quoteVolume := q |}
  | _ => Throw (runtime_error "")
  end.

Definition candle_row (row : sj V) : result Candle :=
  r ← value row; fs ← value (get_array r); candle_of fs.

Lemma candle_fields_rest fs : forall i c, 8 <= i -> candle_fields fs i c = Ok c.
Proof.
  induction fs as [|f fs IH]; intros i c Hi; [done|]. cbn [candle_fields].
  assert (candle_field i f c = Ok c) as -> by (unfold candle_field; repeat case_match; try lia; done).
  cbn. apply IH. lia.
Qed.

(** One step of the loop, with the two ways to read a field. *)
Lemma candle_step_int i f fs c k : (i = 0 \/ i = 6) ->
  (n ← value (f ≫= get_int64); candle_fields fs (i + 1) (set_candle c i n)) = k -> candle_fields (f :: fs) i c = k.
Proof. intros [-> | ->] <-; cbn [candle_fields candle_field]; (destruct f as [v|]; [cbn; by destruct (get_int64 v)|done]). Qed.

Lemma candle_step_fixed i f fs c k : (i = 1 \/ i = 2 \/ i = 3 \/ i = 4) ->
  (n ← readFixed f; candle_fields fs (i + 1) (set_candle c i n)) = k -> candle_fields (f :: fs) i c = k.
Proof.
  intros [-> | [-> | [-> | ->]]] <-; cbn [candle_fields candle_field];
    (destruct f as [v|]; [cbn [value mbind result_bind]; by destruct (readFixed (Val v))|done]).
Qed.

Lemma candle_step_fixed128 i f fs c k : (i = 5 \/ i = 7) ->
  (n ← readFixed128 f; candle_fields fs (i + 1) (set_candle c i n)) = k -> candle_fields (f :: fs) i c = k.
Proof.
  intros [-> | ->] <-; cbn [candle_fields candle_field];
    (destruct f as [v|]; [cbn [value mbind result_bind]; by destruct (readFixed128 (Val v))|done]).
Qed.

(** A full row overwrites every field, so the previous candle does not show. *)
Lemma candle_fields_full fs c : (8 <= length fs)%nat -> candle_fields fs 0 c = candle_of fs.
Proof.
  intros Hl. do 8 (destruct fs as [|? fs]; [cbn in Hl; lia|]). clear Hl. cbn [candle_of].
  repeat match goal with
  | |- candle_fields _ ?i _ = _ =>
      first [apply candle_step_int; [lia|]|apply candle_step_fixed; [lia|]|apply candle_step_fixed128; [lia|]]
  | |- (?m ≫= _) = _ => destruct m; cbn [mbind result_bind]; [|reflexivity]
  end.
  rewrite candle_fields_rest by lia. reflexivity.
Qed.

(** Every row that is an array has at least eight fields. *)
Definition full_rows (rows : list (sj V)) : Prop :=
  forall r fs, Val r ∈ rows -> get_array r = Val fs -> (8 <= length fs)%nat.

Lemma candle_rows_spec rows : forall c r q, full_rows rows -> holds 11 r q ->
  Z.of_nat (length q) + Z.of_nat (length rows) <= CANDLE_RING ->
  match mapM candle_row rows with
  | Ok cs => exists r', candle_rows rows c r = Some (Ok tt, r') /\ holds 11 r' (q ++ cs)
  | Throw x => exists r', candle_rows rows c r = Some (Throw x, r') /\ Z.of_nat (length (buffer r')) = CANDLE_RING
  end.
Proof.
  induction rows as [|row rows IH]; intros c r q Hf Hh Hlen; cbn [mapM].
  { exists r. by rewrite app_nil_r. }
  cbn [candle_rows length] in *. pose proof (h_length _ _ _ Hh) as Hbl.
  destruct row as [v|x]; [|cbn; by exists r]. rewrite SE_lift. cbn [value]. rewrite SE_lift.
  change (candle_row (Val v)) with (fs ← value (get_array v); candle_of fs).
  destruct (get_array v) as [fs|x] eqn:Ea; cbn [value mbind result_bind]; [|by exists r]. rewrite SE_lift.
  rewrite (candle_fields_full fs c) by (apply (Hf v); [left|done]).
  destruct (candle_of fs) as [c'|x]; cbn [mbind result_bind]; [|by exists r].
  destruct (enqueue_holds 11 ltac:(lia) r q c' Hh) as (r1 & Hr1 & Hh1); [unfold CANDLE_RING in Hlen; lia|].
  change (2 ^ 11) with CANDLE_RING in Hr1.
  rewrite (SE_bind_Some _ _ r tt r1) by (unfold push; by rewrite Hr1).
  specialize (IH c' r1 (q ++ [c'])). rewrite length_app in IH. cbn [length] in IH.
  destruct (mapM candle_row rows) as [cs|x]; cbn [mbind result_bind mret result_ret] in *.
  - rewrite <- app_assoc in IH. apply IH; [|done|lia]. intros w gs Hw. apply Hf. by right.
  - apply IH; [|done|lia]. intros w gs Hw. apply Hf. by right.
Qed.

(** [fetchCandles] appends the candles of the response to the buffer, in order, each
    read from its own row; if one field of one row does not read, it reports BAD_FIELD
    and leaves the buffer empty; a refused response leaves the buffer as it was. It
    never blocks while the rows fit the ring. *)
Theorem candles_correct c0 d r q : holds 11 r q ->
  match accept error_message d with
  | inl err => candles_response error_message c0 d r = Some (Ok err, r) /\ getError err = true
  | inr doc =>
      full_rows (elements (Val doc)) -> Z.of_nat (length q) + Z.of_nat (length (elements (Val doc))) <= CANDLE_RING ->
      match mapM candle_row (elements (Val doc)) with
      | Ok cs => exists r', candles_response error_message c0 d r = Some (Ok (FetchError_of APIError_SUCCESS), r') /\ holds 11 r' (q ++ cs)
      | Throw x => exists r', candles_response error_message c0 d r = Some (Ok (bad_field x), r') /\ holds 11 r' []
      end
  end.
Proof.
  intros Hh. unfold candles_response. pose proof (accept_error d) as Hacc.
  destruct (accept error_message d) as [err|doc]; [split; [done|by apply Hacc]|].
  intros Hf Hlen. pose proof (candle_rows_spec _ c0 r q Hf Hh Hlen) as Hr.
  destruct (mapM candle_row (elements (Val doc))) as [cs|x]; destruct Hr as (r' & Hr & Hq);
    eexists; (split; [unfold try_catch|]).
  - by rewrite (SE_bind_Some _ _ _ _ _ Hr).
  - done.
  - by rewrite (SE_bind_throw _ _ _ _ _ Hr).
  - apply holds_clear; [lia|done].
Qed.

(** ** Open interest *)

Lemma interest_frames_spec fs : forall r q, holds 10 r q ->
  Z.of_nat (length q) + Z.of_nat (length fs) <= INTEREST_RING ->
  match mapM interest_frame fs with
  | Ok xs => exists r', interest_frames fs r = Some (Ok tt, r') /\ holds 10 r' (q ++ xs)
  | Throw x => exists r', interest_frames fs r = Some (Throw x, r') /\ Z.of_nat (length (buffer r')) = INTEREST_RING
  end.
Proof.
  induction fs as [|f fs IH]; intros r q Hh Hlen; cbn [mapM interest_frames length] in *.
  { exists r. by rewrite app_nil_r. }
  rewrite SE_lift. pose proof (h_length _ _ _ Hh).
  destruct (interest_frame f) as [x|x]; cbn [mbind result_bind]; [|by exists r].
  destruct (enqueue_holds 10 ltac:(lia) r q x Hh) as (r1 & Hr1 & Hh1); [unfold INTEREST_RING in Hlen; lia|].
  change (2 ^ 10) with INTEREST_RING in Hr1.
  rewrite (SE_bind_Some _ _ r tt r1) by (unfold push; by rewrite Hr1).
  specialize (IH r1 (q ++ [x]) Hh1). rewrite length_app in IH. cbn [length] in IH.
  destruct (mapM interest_frame fs) as [xs|y]; cbn [mbind result_bind mret result_ret] in *;
    [rewrite <- app_assoc in IH|]; apply IH; lia.
Qed.

(** [fetchOpenInterestHist] appends one record per frame of the response, with the
    four fields it names, or reports BAD_FIELD and empties the buffer. *)
Theorem interest_correct d r q : holds 10 r q ->
  match accept error_message d with
  | inl err => interest_response error_message d r = Some (Ok err, r) /\ getError err = true
  | inr doc =>
      Z.of_nat (length q) + Z.of_nat (length (elements (Val doc))) <= INTEREST_RING ->
      match mapM interest_frame (elements (Val doc)) with
      | Ok xs => exists r', interest_response error_message d r = Some (Ok (FetchError_of APIError_SUCCESS), r') /\ holds 10 r' (q ++ xs)
      | Throw x => exists r', interest_response error_message d r = Some (Ok (bad_field x), r') /\ holds 10 r' []
      end
  end.
Proof.
  intros Hh. unfold interest_response. pose proof (accept_error d) as Hacc.
  destruct (accept error_message d) as [err|doc]; [split; [done|by apply Hacc]|].
  intros Hlen. pose proof (interest_frames_spec _ r q Hh Hlen) as Hr.
  destruct (mapM interest_frame (elements (Val doc))) as [cs|x]; destruct Hr as (r' & Hr & Hq);
    eexists; (split; [unfold try_catch|]).
  - by rewrite (SE_bind_Some _ _ _ _ _ Hr).
  - done.
  - by rewrite (SE_bind_throw _ _ _ _ _ Hr).
  - apply holds_clear; [lia|done].
Qed.

(** ** The depth snapshot *)

(** A level as the exchange sends it: a price that is not zero and a quantity. *)
Definition pair_level (l : sj V) (e : Entry) : Prop :=
  exists x p q, l = Val x /\ elements (Val x) = [p; q] /\
    readFixed p = Ok (price e) /\ readFixed q = Ok (volume e) /\ price e <> 0.

Record depth_doc (doc : V) (id : Z) (bs os : list Entry) : Prop := {
  dd_id : field doc "lastUpdateId" ≫= get_int64 = Val id;
  dd_bids : Forall2 pair_level (elements (field doc "bids")) bs;
  dd_asks : Forall2 pair_level (elements (field doc "asks")) os;
}.

Lemma level_values_pair v0 p q a b : readFixed p = Ok a -> readFixed q = Ok b -> a <> 0 ->
  level_values [p; q] 0 v0 = Ok (a, b).
Proof.
  intros Hp Hq Ha. destruct p as [p|]; [|done]. destruct q as [q|]; [|done].
  cbn [level_values value mbind result_bind]. rewrite Hp. cbn [Z.eqb negb mbind result_bind]. rewrite Hq.
  cbn [mbind result_bind]. by replace (a =? 0) with false by zbool.
Qed.

(** Whatever the levels are, the buffer keeps its shape and nothing was read from it. *)
Definition unread (s : Snapshot) : Prop :=
  lastBidGiven s = 0 /\ lastAskGiven s = 0 /\ exists bs os, Snapshot.holds s bs os.

Lemma side_loop_unread isBid v0 ls : forall s, unread s ->
  exists r s', side_loop isBid v0 ls s = Some (r, s') /\ unread s'.
Proof.
  induction ls as [|l ls IH]; intros s Hu; cbn [side_loop]; [by eexists _, s|].
  rewrite SE_lift. destruct (value l) as [x|x]; [|eexists; exists s; split; [reflexivity|done]].
  rewrite SE_lift. destruct (level_values _ 0 v0) as [[p v]|y]; [|eexists; exists s; split; [reflexivity|done]].
  destruct Hu as (H1 & H2 & bs & os & Hh).
  destruct (registerEntry_holds s bs os p v isBid Hh) as (s1 & Hs1 & E1 & E2 & _ & Hh1); [by destruct isBid|].
  rewrite (SE_bind_Some _ _ s tt s1) by (by rewrite Hs1). apply IH.
  split_and!; [congruence|congruence|]. by do 2 eexists.
Qed.

Lemma side_loop_pairs (isBid : bool) v0 ls es : Forall2 pair_level ls es -> forall s bs os,
  lastBidGiven s = 0 -> lastAskGiven s = 0 -> Snapshot.holds s bs os ->
  Z.of_nat (length (if isBid then bs else os)) + Z.of_nat (length es) <= SNAPSHOT_CAPACITY ->
  exists s', side_loop isBid v0 ls s = Some (Ok tt, s') /\ lastBidGiven s' = 0 /\ lastAskGiven s' = 0 /\
    updateId s' = updateId s /\ Snapshot.holds s' (if isBid then bs ++ es else bs) (if isBid then os else os ++ es).
Proof.
  induction 1 as [|l e ls es (x & p & q & -> & He & Hp & Hq & Hne) _ IH]; intros s bs os H1 H2 Hh Hlen; cbn [side_loop].
  { exists s. rewrite !app_nil_r. by destruct isBid. }
  rewrite SE_lift. cbn [value]. rewrite SE_lift, He, (level_values_pair _ _ _ _ _ Hp Hq Hne).
  destruct (registerEntry_holds s bs os (price e) (volume e) isBid Hh) as (s1 & Hs1 & E1 & E2 & Eu & Hh1); [by destruct isBid|].
  rewrite (SE_bind_Some _ _ s tt s1) by (by rewrite Hs1). cbn [length] in Hlen.
  replace {| price := price e; volume := volume e |} with e in Hh1 by (by destruct e).
  assert (Hh2 : Snapshot.holds s1 (if isBid then bs ++ [e] else bs) (if isBid then os else os ++ [e])).
  { destruct isBid; rewrite take_ge in Hh1 by (rewrite length_app; cbn; lia); exact Hh1. }
  destruct (IH s1 _ _ ltac:(congruence) ltac:(congruence) Hh2) as (s' & Hs' & F1 & F2 & Fu & Hh').
  { destruct isBid; rewrite length_app; cbn; lia. }
  exists s'. split_and!; [done|done|done|congruence|]. destruct isBid; by rewrite <- app_assoc in Hh'.
Qed.

Lemma unread_reset s : shape s -> unread (Snapshot.reset s).
Proof. intros Hs. split_and!; [done|done|]. eexists _, _. by apply holds_reset. Qed.

Lemma unread_shape s : unread s -> shape s.
Proof. intros (_ & _ & bs & os & []). done. Qed.

(** Any document: the body ends, with the buffer in a state that can be reset. *)
Lemma snapshot_body_unread v0 doc s : unread s ->
  exists r s', snapshot_body v0 doc s = Some (r, s') /\ unread s' /\
    forall e, r = Ok e -> e = FetchError_of APIError_SUCCESS.
Proof.
  intros Hu. unfold snapshot_body. rewrite SE_lift. destruct (value _) as [id|x]; [|by do 2 eexists].
  rewrite (SE_bind_Some _ _ s tt (set_updateId s id)) by done.
  assert (Hu1 : unread (set_updateId s id)).
  { destruct Hu as (? & ? & bs & os & [? ? ? ? ?]). split_and!; [done|done|]. exists bs, os. by split. }
  destruct (side_loop_unread true v0 (elements (field doc "bids")) _ Hu1) as ([[]|x] & s2 & E2 & Hu2).
  2: { rewrite (SE_bind_throw _ _ _ _ _ E2). by do 2 eexists. }
  rewrite (SE_bind_Some _ _ _ _ _ E2).
  destruct (side_loop_unread false v0 (elements (field doc "asks")) _ Hu2) as ([[]|x] & s3 & E3 & Hu3).
  2: { rewrite (SE_bind_throw _ _ _ _ _ E3). by do 2 eexists. }
  rewrite (SE_bind_Some _ _ _ _ _ E3). do 2 eexists. split; [done|]. split; [done|]. by intros e [= <-].
Qed.

Lemma snapshot_body_depth v0 doc s id bs os : shape s -> depth_doc doc id bs os ->
  Z.of_nat (length bs) <= SNAPSHOT_CAPACITY -> Z.of_nat (length os) <= SNAPSHOT_CAPACITY ->
  exists s', snapshot_body v0 doc (Snapshot.reset s) = Some (Ok (FetchError_of APIError_SUCCESS), s') /\
    updateId s' = id /\ Snapshot.holds s' bs os.
Proof.
  intros Hs [Hid Hb Ho] Hlb Hlo. unfold snapshot_body. rewrite SE_lift, Hid. cbn [value].
  set (s1 := set_updateId (Snapshot.reset s) id). rewrite (SE_bind_Some _ _ _ tt s1) by done.
  assert (Hh1 : Snapshot.holds s1 [] []) by (destruct (holds_reset s Hs); by split).
  destruct (side_loop_pairs true v0 _ _ Hb s1 [] [] eq_refl eq_refl Hh1 ltac:(cbn; lia)) as (s2 & E2 & L1 & L2 & Eu & Hh2).
  rewrite (SE_bind_Some _ _ _ _ _ E2).
  destruct (side_loop_pairs false v0 _ _ Ho s2 bs [] L1 L2 Hh2 ltac:(cbn; lia)) as (s3 & E3 & _ & _ & Eu3 & Hh3).
  rewrite (SE_bind_Some _ _ _ _ _ E3). exists s3. split_and!; [done| |done]. by rewrite Eu3, Eu.
Qed.

(** Every outcome of the call. *)
Lemma snapshot_returns v0 d s : shape s ->
  exists e s', snapshot_response error_message v0 d s = Some (Ok e, s') /\ shape s' /\
    (getError e = true -> Snapshot.holds s' [] []) /\
    (forall err, accept error_message d = inl err -> e = err) /\
    (forall doc id bs os, accept error_message d = inr doc -> depth_doc doc id bs os ->
       Z.of_nat (length bs) <= SNAPSHOT_CAPACITY -> Z.of_nat (length os) <= SNAPSHOT_CAPACITY ->
       getError e = false /\ updateId s' = id /\ Snapshot.holds s' bs os).
Proof.
  intros Hs. unfold snapshot_response. rewrite (SE_bind_Some _ _ s tt (Snapshot.reset s)) by done.
  destruct (accept error_message d) as [err|doc].
  { eexists _, _. split_and!; [done| |intros _; by apply holds_reset|by intros ? [= ->]|done]. destruct Hs. done. }
  destruct (snapshot_body_unread v0 doc _ (unread_reset s Hs)) as (r & s1 & E1 & Hu1 & Hok). pose proof (unread_shape _ Hu1).
  exists (match r with Ok e => e | Throw x => bad_field x end), (match r with Ok _ => s1 | Throw _ => Snapshot.reset s1 end).
  unfold try_catch. rewrite E1. split_and!.
  - by destruct r.
  - by destruct r.
  - destruct r as [e|x]; [by rewrite (Hok e eq_refl)|]. intros _. by apply holds_reset.
  - done.
  - intros doc' id bs os [= <-] Hd Hlb Hlo. destruct (snapshot_body_depth v0 doc s id bs os Hs Hd Hlb Hlo) as (s' & E' & Hu & Hh).
    rewrite E' in E1. by injection E1 as <- <-.
Qed.

(** C33 [fetchOrderbookSnapshot] always returns. On any error the buffer is empty, so a
    half-read snapshot is never applied; on a depth response that fits it holds exactly
    the response's bids and asks, in order, at the response's update id. *)
Theorem snapshot_correct v0 d s : shape s ->
  exists e s', snapshot_response error_message v0 d s = Some (Ok e, s') /\ shape s' /\
    (getError e = true -> Snapshot.holds s' [] []) /\
    (forall doc id bs os, accept error_message d = inr doc -> depth_doc doc id bs os ->
       Z.of_nat (length bs) <= SNAPSHOT_CAPACITY -> Z.of_nat (length os) <= SNAPSHOT_CAPACITY ->
       getError e = false /\ updateId s' = id /\ Snapshot.holds s' bs os).
Proof.
  intros Hs. destruct (snapshot_returns v0 d s Hs) as (e & s' & H1 & H2 & H3 & _ & H5). by exists e, s'.
Qed.

(** ** Exchange information *)

Definition filter_keys (kind : string) : list string :=
  if String.eqb kind "PRICE_FILTER" then price_keys
  else if String.eqb kind "LOT_SIZE" then lot_keys
  else if String.eqb kind "MIN_NOTIONAL" then ["notional"%string] else [].

(** The amounts a filter names, by key. *)
Definition filter_reads (f : sj V) (kvs : list (string * Z)) : Prop :=
  exists kind, (f ≫= fun v => field v "filterType") ≫= get_string = Val kind /\ kvs.*1 = filter_keys kind /\
    Forall (fun kv => readFixed (f ≫= fun v => field v kv.1) = Ok kv.2) kvs.

Definition put_amounts (p : PairInfo) (kvs : list (string * Z)) : PairInfo :=
  foldl (fun p kv => set_pair p kv.1 kv.2) p kvs.

Lemma read_into_reads f kvs : Forall (fun kv => readFixed (f ≫= fun v => field v kv.1) = Ok kv.2) kvs ->
  forall p, read_into f kvs.*1 p = Some (Ok tt, put_amounts p kvs).
Proof.
  induction 1 as [|[k n] kvs Hk _ IH]; intros p; [done|]. cbn [fmap list_fmap read_into fst].
  rewrite SE_lift. cbn in Hk. rewrite Hk. rewrite (SE_bind_Some _ _ p tt (set_pair p k n)) by done. apply IH.
Qed.

Lemma filters_loop_reads fs kvss : Forall2 filter_reads fs kvss ->
  forall x p, exists y, filters_loop fs x p = Some (Ok y, put_amounts p (concat kvss)).
Proof.
  induction 1 as [|f kvs fs kvss (kind & Hk & Hkeys & Hall) _ IH]; intros x p; cbn [filters_loop concat]; [by eexists|].
  pose proof (read_into_reads f kvs Hall p) as Hr. rewrite Hkeys in Hr. unfold assign_string. rewrite Hk.
  specialize (IH kind (put_amounts p kvs)). unfold put_amounts in *. rewrite foldl_app.
  unfold filter_keys in Hkeys, Hr.
  destruct (String.eqb_spec kind "PRICE_FILTER") as [->|]; [rewrite (SE_bind_Some _ _ _ _ _ Hr); exact IH|].
  destruct (String.eqb_spec kind "LOT_SIZE") as [->|]; [rewrite (SE_bind_Some _ _ p tt p), (SE_bind_Some _ _ _ _ _ Hr) by done; exact IH|].
  destruct (String.eqb_spec kind "MIN_NOTIONAL") as [->|].
  - rewrite (SE_bind_Some _ _ p tt p), (SE_bind_Some _ _ p tt p), (SE_bind_Some _ _ _ _ _ Hr) by done. exact IH.
  - destruct kvs; [|done]. by do 3 rewrite (SE_bind_Some _ _ p tt p) by done.
Qed.

(** A symbol of the response, by name. *)
Definition named (s : sj V) (no : string * V) : Prop :=
  s ≫= get_object = Val no.2 /\ field no.2 "symbol" ≫= get_string = Val no.1.

Lemma symbols_loop_named pair ss table : Forall2 named ss table -> forall x p,
  match list_find (fun no => no.1 = pair) table with
  | None => symbols_loop pair ss x p = Some (Ok false, p)
  | Some (_, (_, obj)) => forall kvss, Forall2 filter_reads (elements (field obj "filters")) kvss ->
      symbols_loop pair ss x p = Some (Ok true, put_amounts p (concat kvss))
  end.
Proof.
  induction 1 as [|s [n obj] ss table [Ho Hn] _ IH]; intros x p; cbn [symbols_loop list_find]; [done|].
  rewrite SE_lift, Ho. cbn [value snd fst] in *. unfold assign_string. rewrite Hn.
  destruct (String.eqb_spec n pair) as [->|Hne]; cbn [fst].
  - rewrite decide_True by done. intros kvss Hk. destruct (filters_loop_reads _ _ Hk "" p) as [y Hy].
    by rewrite (SE_bind_Some _ _ _ _ _ Hy).
  - rewrite decide_False by done. specialize (IH n p).
    destruct (list_find _ table) as [[i [n' obj']]|]; exact IH.
Qed.

Lemma exchange_returns pair d doc table out : accept error_message d = inr doc ->
  Forall2 named (elements (field doc "symbols")) table ->
  match list_find (fun no => no.1 = pair) table with
  | None => exists e, exchange_response error_message pair d out = Some (Ok e, out) /\ error e = APIError_BAD_SYMBOL
  | Some (_, (_, obj)) => forall kvss, Forall2 filter_reads (elements (field obj "filters")) kvss ->
      exchange_response error_message pair d out =
        Some (Ok (FetchError_of APIError_SUCCESS), put_amounts out (concat kvss))
  end.
Proof.
  intros Ha Ht. unfold exchange_response. rewrite Ha. pose proof (symbols_loop_named pair _ _ Ht "" out) as Hs.
  destruct (list_find _ table) as [[i [n obj]]|].
  - intros kvss Hk. unfold try_catch. by rewrite (SE_bind_Some _ _ _ _ _ (Hs kvss Hk)).
  - unfold try_catch. rewrite (SE_bind_Some _ _ _ _ _ Hs). by eexists.
Qed.

(** [fetchExchangeInfoForPair] reads the filters of the first symbol with the pair's
    name and stores the amounts of its price, lot and notional filters, leaving the
    others; it reports BAD_SYMBOL, and writes nothing, when no symbol has that name. *)
Theorem exchange_correct pair d doc table out : accept error_message d = inr doc ->
  Forall2 named (elements (field doc "symbols")) table ->
  match list_find (fun no => no.1 = pair) table with
  | None => exists e, exchange_response error_message pair d out = Some (Ok e, out) /\ error e = APIError_BAD_SYMBOL
  | Some (_, (_, obj)) => forall kvss, Forall2 filter_reads (elements (field obj "filters")) kvss ->
      exchange_response error_message pair d out =
        Some (Ok (FetchError_of APIError_SUCCESS), put_amounts out (concat kvss))
  end.
Proof. apply exchange_returns. Qed.
End Spec.

(** ** Concrete responses *)

Definition ok_data (body : string) : StreamData :=
  {| status := ConnectionStatus_SUCCESS; string_ := body; httpStatus := 200; ec := None |}.

Definition jfields (l : list (string * string)) : JV := JObj ((fun kv => (kv.1, JStr kv.2)) <$> l).

(** Two klines, one open-interest frame, one depth response, one symbol. *)
Definition kline (t : Z) (o : string) : JV :=
  JArr [JInt t; JStr o; JStr "2.5"; JStr "1"; JStr "2"; JStr "10"; JInt (t + 59); JStr "20"; JInt 7].
Definition demo_symbol : JV :=
  JObj [("symbol"%string, JStr "BTCUSDT"); ("filters"%string, JArr [
    jfields [("filterType"%string, "PRICE_FILTER"%string); ("maxPrice"%string, "100"%string);
             ("minPrice"%string, "0.1"%string); ("tickSize"%string, "0.1"%string)];
    jfields [("filterType"%string, "MARKET_LOT_SIZE"%string)]])].
Definition demo_texts : list (string * JV) :=
  [("klines"%string, JArr [kline 0 "1.5"; kline 60 "2"]);
   ("interest"%string, JArr [JObj [("sumOpenInterest"%string, JStr "3"); ("sumOpenInterestValue"%string, JStr "4.5");
                                   ("CMCCirculatingSupply"%string, JStr "5"); ("timestamp"%string, JInt 9)]]);
   ("depth"%string, JObj [("lastUpdateId"%string, JInt 7); ("bids"%string, JArr [JArr [JStr "1.5"; JStr "2"]]);
                          ("asks"%string, JArr [JArr [JStr "1.6"; JStr "0.5"]])]);
   ("info"%string, JObj [("symbols"%string, JArr [demo_symbol])])].
Definition no_message (_ : sj_error) : string := "".
Definition candle0 : Candle :=
  {| timestampOpen := 0; open := 0; high := 0; close := 0; low := 0; candleVolume := 0; timestampClose := 0; quoteVolume := 0 |}.
Definition interest0 : OpenInterest :=
  {| oiTimestamp := 0; totalInterest := 0; totalInterestValue := 0; circulation := 0 |}.

Lemma holds_new {A} k (a : A) : 1 <= k -> RingBuffer.holds k (clearBuffer (new_ring (replicate (Z.to_nat (2 ^ k)) a))) [].
Proof.
  intros Hk. apply holds_clear; [done|]. cbn. unfold prepareBuffer. rewrite length_imap, length_fmap, length_replicate.
  pose proof (Z.pow_pos_nonneg 2 k). lia.
Qed.

Lemma candles_correct_witness :
  let J := JV_Json demo_texts in
  exists r' cs, candles_response no_message candle0 (ok_data "klines") (clearBuffer (new_ring (replicate (Z.to_nat (2 ^ 11)) candle0)))
      = Some (Ok (FetchError_of APIError_SUCCESS), r') /\
    holds 11 r' cs /\ open <$> cs = [150000000; 200000000].
Proof.
  intros J. pose proof (candles_correct no_message candle0 (ok_data "klines") _ [] (holds_new 11 candle0 ltac:(lia))) as Hc.
  change (accept no_message (ok_data "klines")) with (@inr FetchError JV (JArr [kline 0 "1.5"; kline 60 "2"])) in Hc.
  cbn iota beta in Hc. destruct (mapM candle_row _) as [cs|x] eqn:E; [|vm_compute in E; discriminate].
  destruct Hc as (r' & Hr & Hh).
  - intros r fs Hr. apply list_elem_of_In in Hr. cbn in Hr. destruct Hr as [[= <-]|[[= <-]|[]]]; intros [= <-]; cbn; lia.
  - vm_compute. discriminate.
  - exists r', cs. split; [exact Hr|]. split; [exact Hh|]. vm_compute in E. injection E as <-. reflexivity.
Defined.

Lemma interest_correct_witness :
  let J := JV_Json demo_texts in
  exists r' xs, interest_response no_message (ok_data "interest") (clearBuffer (new_ring (replicate (Z.to_nat (2 ^ 10)) interest0)))
      = Some (Ok (FetchError_of APIError_SUCCESS), r') /\
    holds 10 r' xs /\ totalInterestValue <$> xs = [450000000].
Proof.
  intros J. pose proof (interest_correct no_message (ok_data "interest") _ [] (holds_new 10 interest0 ltac:(lia))) as Hc.
  destruct (accept no_message (ok_data "interest")) as [|doc] eqn:Ea; [vm_compute in Ea; discriminate|].
  vm_compute in Ea. injection Ea as <-.
  destruct (mapM interest_frame _) as [xs|x] eqn:E; [|vm_compute in E; discriminate].
  destruct Hc as (r' & Hr & Hh); [vm_compute; discriminate|].
  exists r', xs. split; [exact Hr|]. split; [exact Hh|]. vm_compute in E. injection E as <-. reflexivity.
Defined.

Lemma snapshot_correct_witness :
  let J := JV_Json demo_texts in
  exists e s', snapshot_response no_message 0 (ok_data "depth") (new_snapshot 0) = Some (Ok e, s') /\
    getError e = false /\ updateId s' = 7 /\
    Snapshot.holds s' [{| price := 150000000; volume := 200000000 |}] [{| price := 160000000; volume := 50000000 |}].
Proof.
  intros J. destruct (snapshot_correct no_message 0 (ok_data "depth") (new_snapshot 0)) as (e & s' & E & _ & _ & Hd).
  - split; apply length_replicate.
  - exists e, s'. split; [exact E|]. eapply Hd; [reflexivity| |vm_compute; discriminate|vm_compute; discriminate].
    split; [reflexivity| |]; (constructor; [|constructor]); do 3 eexists; (split; [reflexivity|]); split_and!;
      try reflexivity; cbn; lia.
Defined.

Lemma exchange_correct_witness :
  let J := JV_Json demo_texts in
  exists out, exchange_response no_message "BTCUSDT" (ok_data "info") PairInfo_zero = Some (Ok (FetchError_of APIError_SUCCESS), out) /\
    pairTickSize out = 10000000.
Proof.
  intros J. pose proof (exchange_correct no_message "BTCUSDT" (ok_data "info") _ [("BTCUSDT"%string, demo_symbol)] PairInfo_zero
    eq_refl ltac:(constructor; [split; reflexivity|constructor])) as He. cbn [list_find fst] in He.
  rewrite decide_True in He by reflexivity.
  eexists. split; [apply (He [[("maxPrice"%string, 10000000000); ("minPrice"%string, 10000000); ("tickSize"%string, 10000000)]; []])|reflexivity].
  constructor; [|constructor; [|constructor]].
  - exists "PRICE_FILTER"%string. split; [reflexivity|]. split; [reflexivity|]. repeat (constructor; [reflexivity|]). constructor.
  - exists "MARKET_LOT_SIZE"%string. split; [reflexivity|]. split; [reflexivity|constructor].
Defined.
