(* ===== verification/RestContract.v ===== *)
(** * RestContract: the REST client meets the order book's interface

    Orderbook is verified against the interface [FuturesAPI] and the assumptions
    [snapshots_ok] and [tickSize_ok]. Here the interface is implemented with the model of
    the client, and the assumptions follow from what the exchange documents about its
    responses: an accepted depth response is a book of at most 1000 levels a side with
    prices on the tick grid, and the exchange info names the pair's tick size. *)

From S2P Require Import Prelude FixedPoint Model Json Errors SortedBook SortedBookSpec SortedBookWalk SortedBookThms Snapshot Backoff FuturesRest FuturesRestSpec ArrayHolder Orderbook OrderbookSpec.

Section Contract.
  Context {V : Type} `{Json V}.
  Context (error_message : sj_error -> string) (v0 : Fixed).
  (** What [sendRequest] returned to the k-th depth request, and to the exchange info. *)
  Context (depth : nat -> StreamData) (info : StreamData).

(** [exchange_response] handles every exception, so the last case is not reached. *)
#[global] Instance rest_api : FuturesAPI := {
  fetchOrderbookSnapshot _ k s :=
    match snapshot_response error_message v0 (depth k) s with Some (Ok e, s') => Some (e, s') | _ => None end;
  fetchExchangeInfoForPair symbol p :=
    match exchange_response error_message symbol info p with
    | Some (Ok e, p') => (e, p')
    | _ => (FetchError_of APIError_BAD_FIELD, p)
    end;
}.

  Context (pair : string) (ts : Z) (X : Z -> gmap Z Entry * gmap Z Entry).

(** The exchange's side of the contract. *)
Definition depth_responses_ok : Prop := forall k doc, accept error_message (depth k) = inr doc ->
  exists id bs os, depth_doc doc id bs os /\ (length bs <= 1000)%nat /\ (length os <= 1000)%nat /\
    Forall (has_tick ts) bs /\ Forall (has_tick ts) os /\
    X id = (foldl (put ts) ∅ bs, foldl (put ts) ∅ os).

Definition info_response_ok : Prop := exists doc table i obj kvss,
  accept error_message info = inr doc /\ Forall2 named (elements (field doc "symbols")) table /\
  list_find (fun no => no.1 = toupper pair) table = Some (i, (toupper pair, obj)) /\
  Forall2 filter_reads (elements (field obj "filters")) kvss /\
  pairTickSize (put_amounts PairInfo_zero (concat kvss)) = ts /\ 0 < ts.

Lemma depth_doc_prices doc id bs os : depth_doc doc id bs os ->
  Forall (fun e => price e <> 0) bs /\ Forall (fun e => price e <> 0) os.
Proof.
  intros [_ Hb Ho]. assert (forall ls es, Forall2 (@pair_level V _) ls es -> Forall (fun e => price e <> 0) es) as Hp.
  { induction 1 as [|l e ls es (? & ? & ? & _ & _ & _ & _ & Hne) _ IH]; by constructor. }
  split; by eapply Hp.
Qed.

Lemma rest_snapshots_ok : depth_responses_ok -> snapshots_ok pair ts X.
Proof.
  intros Hd k s Hs. destruct (snapshot_returns error_message v0 (depth k) s Hs) as (e & s' & Hr & Hsh & _ & Href & Hdoc).
  exists e, s'. cbn [fetchOrderbookSnapshot rest_api]. rewrite Hr. split_and!; [done|done|].
  intros He. destruct (accept error_message (depth k)) as [err|doc] eqn:Ea.
  { pose proof (accept_error _ _ _ Ea). rewrite (Href err) in He by done. congruence. }
  destruct (Hd k doc Ea) as (id & bs & os & Hdd & Hlb & Hlo & Htb & Hto & HX).
  destruct (Hdoc doc id bs os eq_refl Hdd) as (_ & Hu & Hh); [unfold SNAPSHOT_CAPACITY; lia|unfold SNAPSHOT_CAPACITY; lia|].
  destruct (depth_doc_prices _ _ _ _ Hdd) as [Hpb Hpo]. exists bs, os. rewrite Hu.
  split_and!; [done|done|done| | |done]; apply Forall_and; done.
Qed.

Lemma rest_tickSize_ok : info_response_ok -> tickSize_ok pair ts.
Proof.
  intros (doc & table & i & obj & kvss & Ha & Ht & Hf & Hk & Hts & Hpos).
  pose proof (exchange_returns error_message (toupper pair) info doc table PairInfo_zero Ha Ht) as He. rewrite Hf in He.
  eexists _, _. cbn [fetchExchangeInfoForPair rest_api]. rewrite (He kvss Hk). done.
Qed.

(** The client and the order book together: if the exchange's depth responses
    describe the history [X], and its exchange info names the pair's tick size, then the
    book thread running on the real client's code publishes, whenever [synced], exactly
    the exchange's best levels; responses that are refused or malformed only delay it. *)
Theorem rest_orderbook_correct streamEnd i h evs n :
  depth_responses_ok -> info_response_ok -> Forall (event_ok ts X) evs ->
  exists o, executionLoop pair streamEnd (new_orderbook i h evs n) = Some o /\ running o = false /\
    forall v, Published v ∈ trace o -> v_synced v = true -> forall k,
      top true (v_bids v) k = Some (take k (best_first true (X (v_updateID v)).1)) /\
      top false (v_asks v) k = Some (take k (best_first false (X (v_updateID v)).2)).
Proof.
  intros Hd Hi Hevs.
  destruct (executionLoop_spec pair streamEnd ts X i h evs n (rest_snapshots_ok Hd) Hevs (rest_tickSize_ok Hi)) as (o & Ho & Hinv & Hr).
  exists o. split_and!; [done|done|]. intros v Hv Hs k.
  destruct (inv_trace _ _ _ _ Hinv v Hv Hs) as [[Hb _] [Hao _]]. split; by apply top_repr.
Qed.
End Contract.

(** ** The demo exchange, as JSON *)

Definition contract_symbol : JV :=
  JObj [("symbol"%string, JStr "BTCUSDT"); ("filters"%string, JArr [
    jfields [("filterType"%string, "PRICE_FILTER"%string); ("maxPrice"%string, "100"%string);
             ("minPrice"%string, "0.1"%string); ("tickSize"%string, "0.0000001"%string)]])].
Definition contract_texts : list (string * JV) :=
  [("depth"%string, JObj [("lastUpdateId"%string, JInt 10); ("bids"%string, JArr [JArr [JStr "0.00001"; JStr "0.00000005"]]);
                          ("asks"%string, JArr [JArr [JStr "0.0000101"; JStr "0.00000007"]])]);
   ("info"%string, JObj [("symbols"%string, JArr [contract_symbol])])].

Lemma contract_depth extra : let J := JV_Json (contract_texts ++ extra) in
  depth_responses_ok no_message (fun _ => ok_data "depth") 10 demo_X.
Proof.
  intros J k doc Ha. vm_compute in Ha. injection Ha as <-. exists 10, [demo_bid], [demo_ask].
  split_and!; [|cbn; lia|cbn; lia| | |reflexivity].
  - split; [reflexivity| |]; (constructor; [|constructor]); do 3 eexists; (split; [reflexivity|]); split_and!;
      try reflexivity; cbn; lia.
  - constructor; [|constructor]. by exists 100.
  - constructor; [|constructor]. by exists 101.
Qed.

Lemma contract_info extra : let J := JV_Json (contract_texts ++ extra) in
  info_response_ok no_message (ok_data "info") "btcusdt" 10.
Proof.
  intros J. eexists _, [("BTCUSDT"%string, contract_symbol)], 0%nat, contract_symbol,
    [[("maxPrice"%string, 10000000000); ("minPrice"%string, 10000000); ("tickSize"%string, 10)]].
  split; [reflexivity|]. split_and!; [constructor; [split; reflexivity|constructor]|vm_compute; reflexivity| |reflexivity|lia].
  constructor; [|constructor]. exists "PRICE_FILTER"%string. split; [reflexivity|]. split; [reflexivity|].
  repeat (constructor; [reflexivity|]). constructor.
Qed.

Lemma rest_orderbook_correct_witness : let J := JV_Json contract_texts in
  exists o, @executionLoop (rest_api no_message 0 (fun _ => ok_data "depth") (ok_data "info")) "btcusdt" None
      (new_orderbook 0 new_holder [demo_event] 3) = Some o /\ running o = false /\
    forall v, Published v ∈ trace o -> v_synced v = true -> forall k,
      top true (v_bids v) k = Some (take k (best_first true (demo_X (v_updateID v)).1)) /\
      top false (v_asks v) k = Some (take k (best_first false (demo_X (v_updateID v)).2)).
Proof.
  intros J. apply (rest_orderbook_correct no_message 0 (fun _ => ok_data "depth") (ok_data "info") "btcusdt" 10 demo_X).
  - exact (contract_depth []).
  - exact (contract_info []).
  - constructor; [exact demo_event_ok|constructor].
Defined.
