(* ===== verification/BookEndToEnd.v ===== *)
(** * BookEndToEnd: from the wire to the published book

    The pieces put together: the stream and the decoder (BookStream), the REST client
    (RestContract) and the book thread (OrderbookSpec). What remains assumed is the
    exchange's own contract: its depth messages and its REST responses describe one
    history [X] of the book. The conclusion is about what a reader of the book sees. *)

From S2P Require Import Prelude FixedPoint Model Json Errors WebsocketStream BookFeed BookStream SortedBook SortedBookSpec SortedBookWalk SortedBookThms Snapshot FuturesRestSpec ArrayHolder DepthDecoder Orderbook OrderbookSpec RestContract.

Section EndToEnd.
  Context {V : Type} `{Json V}.
  Context (ts : Z) (X : Z -> gmap Z Entry * gmap Z Entry).

(** The exchange's contract for one text of the stream: if it is a depth message within
    the capacity, its prices are on the tick grid and it holds the final value of every
    level that changed between any book in [U..u], or its predecessor's, and the one at [u]. *)
Definition depth_text_ok (text : string) : Prop :=
  forall bs as_ u U pu bids asks, message text bs as_ u U pu -> levels_ok bs -> levels_ok as_ ->
  Forall2 level_spec bs bids -> Forall2 level_spec as_ asks ->
  Forall (has_tick ts) bids /\ Forall (has_tick ts) asks /\
  forall j, wrapS 64 U <= j <= wrapS 64 u \/ j = wrapS 64 pu ->
    (foldl (put ts) (X j).1 bids, foldl (put ts) (X j).2 asks) = X (wrapS 64 u).

Lemma counted_length (arr : list Entry) {A} (ls : list A) n (P : A -> Entry -> Prop) : n = Z.of_nat (length ls) ->
  Forall2 P ls (take (Z.to_nat n) arr) -> (Z.to_nat n <= length arr)%nat.
Proof. intros -> Hf%Forall2_length. rewrite length_take, Nat2Z.id in Hf. lia. Qed.

Lemma carries_event_ok json ev : depth_text_ok json -> carries json ev -> event_ok ts X ev.
Proof.
  intros Ht (bs & as_ & u' & U' & pu' & bids & asks & Hm & Hb & Ha & Eu & EU & Epu & Eb & Ea & Enb & Ena & Hlb & Hla).
  destruct (Ht bs as_ u' U' pu' _ _ Hm Hb Ha Hlb Hla) as (Htb & Hta & Hf).
  split; unfold levels, deref; rewrite ?Eb, ?Ea; cbn [default]; [split; by eapply counted_length|done| |].
  - intros _ j Hj. rewrite Eu. rewrite EU, Eu, Epu in Hj. by apply Hf.
  - intros Hd. unfold dropped in Hd. by rewrite Eb in Hd.
Qed.

Lemma dropped_event_ok : event_ok ts X dropped_event.
Proof. split; [done|split; constructor|done|done]. Qed.

Context (setup : nat -> option string) (recv : nat -> recv_result).

Lemma seen_events_ok s : stream_reachable setup recv s -> depth_text_ok "" ->
  Forall depth_text_ok (@wire nat (event_numbers setup recv) (reads (ws s))).1 ->
  Forall (event_ok ts X) (seen (feed s)).
Proof.
  intros Hr H0 Hw. pose proof (paired_reachable setup recv s Hr) as Hp. destruct (given_texts setup recv s Hp) as [Hsub _].
  apply Forall_lookup. intros k v Hk.
  destruct (handed_event (feed s) k v) as (json & Hj & Hv); [apply Hp|by apply lookup_app_l_Some|].
  destruct (dropped v); [destruct Hv as [-> _]; apply dropped_event_ok|]. apply (carries_event_ok json); [|done].
  destruct (decide (json = ""%string)) as [->|Hne]; [done|]. rewrite Forall_forall in Hw. apply Hw.
  assert (json ∈ nonempty (given (feed s))) as Hin.
  { unfold nonempty. apply list_elem_of_filter. split; [done|]. by eapply list_elem_of_lookup_2. }
  eapply elem_of_sublist in Hin; [|exact Hsub]. unfold nonempty in Hin. apply list_elem_of_filter in Hin. tauto.
Qed.
End EndToEnd.

(** ** Properties *)


(** ** The demo exchange again, with its diff on the wire *)

Definition diff_tree : JV :=
  JObj [("data"%string, JObj [("b"%string, JArr [JArr [JStr "0.00001"; JStr "0"]]); ("a"%string, JArr []);
                              ("u"%string, JInt 11); ("U"%string, JInt 9); ("pu"%string, JInt 8)])].
Definition world : list (string * JV) := contract_texts ++ [("diff"%string, diff_tree)].

Lemma empty_text_ok : let J := JV_Json world in depth_text_ok 10 demo_X "".
Proof. intros J bs as_ u U pu bids asks Hm. destruct Hm as [doc obj Hi]. vm_compute in Hi. discriminate Hi. Qed.

Lemma diff_text_ok : let J := JV_Json world in depth_text_ok 10 demo_X "diff".
Proof.
  intros J bs as_ u U pu bids asks [doc obj H1 H2 H3 H4 H5 H6 H7] _ _ Hb Ha.
  vm_compute in H1. injection H1 as <-. vm_compute in H2. injection H2 as <-. vm_compute in H3. injection H3 as <-.
  vm_compute in H4. injection H4 as <-. vm_compute in H5. injection H5 as <-. vm_compute in H6. injection H6 as <-.
  vm_compute in H7. injection H7 as <-. inversion Ha. inversion Hb as [|l e ls es He Hes]. inversion Hes. subst.
  destruct He as (l & p & q & rest & E1 & E2 & E3 & E4). injection E1 as <-. injection E2 as <- <- <-.
  vm_compute in E3, E4. destruct e as [pr vo]. cbn in E3, E4. injection E3 as <-. injection E4 as <-.
  destruct (demo_event_ok) as [_ [Ht _] Hf _]. split_and!; [exact Ht|constructor|]. exact (Hf eq_refl).
Qed.

