(* ===== verification/BookReaders.v ===== *)
(** * BookReaders: reading the order book while its thread updates it

    [Orderbook::getTopBids], [getTopAsks], [getBestBid], [getBestAsk], [getEntryWithPrice]
    and [isSynced] of [src/api/orderbook/orderbook.hpp] are called by other threads while
    [executionLoop] writes. Orderbook runs the book thread alone and logs a view at every
    release of [updatingLock] and every store to [synced]. Here its writes are taken apart
    again - level by level inside the critical sections, the stores outside of them one at a
    time - and interleaved with any number of readers, each with the lock's acquisition, its
    read and the release as steps of its own.

    [loop_plays]: what [executionLoop] does to the memory the readers share is a list of such
    acts, whose views are those of its trace. [readers_atomic]: whatever the interleaving,
    every reader is answered from one of these views, never from the middle of a section, the
    views never go back, and there is no deadlock. [readers_see_exchange] composes this
    with OrderbookSpec: with a synced book the answers are the exchange's - and before the
    tick size is known a look at one price divides by zero. *)

From S2P Require Import Prelude FixedPoint Model PriceLevel SortedBook FreeList BlockDir SortedBookSpec SortedBookWalk SortedBookThms Errors Snapshot ArrayHolder Orderbook OrderbookSpec.

(** ** The acts of the book thread *)

(** The writes inside a critical section. *)
Inductive write :=
  | WClear (isBid : bool)                  (** [bidBook->clear()], [askBook->clear()] *)
  | WLevel (isBid : bool) (e : Entry)      (** [processEntry(entry, isBid)] *)
  | WId (i : Z).                           (** [updateID = ...] *)

Inductive act :=
  | SetTick (isBid : bool) (ts : Z)        (** [loadTickSize], without the lock *)
  | StoreSynced (x : bool)                 (** [synced.value.store(x)], without the lock *)
  | Section_ (ws : list write) (torn : bool).   (** [applySnapshot], [applyUpdate]; [torn] if the latter stopped at a level *)

Definition put_side (v : View) (isBid : bool) (b : SortedBook) : View :=
  if isBid then {| v_bids := b; v_asks := v_asks v; v_updateID := v_updateID v; v_synced := v_synced v |}
  else {| v_bids := v_bids v; v_asks := b; v_updateID := v_updateID v; v_synced := v_synced v |}.
Definition side (v : View) (isBid : bool) : SortedBook := if isBid then v_bids v else v_asks v.
Definition set_id (v : View) (i : Z) : View := {| v_bids := v_bids v; v_asks := v_asks v; v_updateID := i; v_synced := v_synced v |}.
Definition set_flag (v : View) (x : bool) : View := {| v_bids := v_bids v; v_asks := v_asks v; v_updateID := v_updateID v; v_synced := x |}.

Definition do_write (w : write) (v : View) : option View :=
  match w with
  | WClear isBid => Some (put_side v isBid (clear (side v isBid)))
  | WLevel isBid e => '(b, _) ← update isBid (side v isBid) (price e) (volume e); Some (put_side v isBid b)
  | WId i => Some (set_id v i)
  end.

Fixpoint do_writes (ws : list write) (v : View) : option View :=
  match ws with [] => Some v | w :: ws' => v' ← do_write w v; do_writes ws' v' end.

Definition do_act (a : act) (v : View) : option View :=
  match a with
  | SetTick isBid ts => Some (put_side v isBid (setTickSize (side v isBid) ts))
  | StoreSynced x => Some (set_flag v x)
  | Section_ ws _ => do_writes ws v
  end.

(** The views after each act. *)
Fixpoint views_of (acts : list act) (v : View) : option (list View) :=
  match acts with [] => Some [] | a :: acts' => v' ← do_act a v; l ← views_of acts' v'; Some (v' :: l) end.

Lemma do_writes_app ws ws' v : do_writes (ws ++ ws') v = do_writes ws v ≫= do_writes ws'.
Proof. revert v. induction ws as [|w ws IH]; intros v; [done|]. cbn. destruct (do_write w v); [apply IH|done]. Qed.

(** ** [executionLoop] as a list of acts *)

(** The acts, the trace they leave and the views: [plays acts v tr v']. *)
Inductive plays : list act -> View -> list action -> View -> Prop :=
  | plays_nil v : plays [] v [] v
  | plays_other a acts v tr v' : (forall w, a <> Published w) -> (forall w, a <> Torn w) ->
      plays acts v tr v' -> plays acts v (a :: tr) v'
  | plays_tick isBid ts acts v tr v' : plays acts (put_side v isBid (setTickSize (side v isBid) ts)) tr v' ->
      plays (SetTick isBid ts :: acts) v tr v'
  | plays_store x acts v tr v' : plays acts (set_flag v x) tr v' ->
      plays (StoreSynced x :: acts) v (Published (set_flag v x) :: tr) v'
  | plays_section ws (torn : bool) acts v v1 tr v' : do_writes ws v = Some v1 -> plays acts v1 tr v' ->
      plays (Section_ ws torn :: acts) v ((if torn then Torn v1 else Published v1) :: tr) v'.

Lemma plays_app acts v tr v1 acts' tr' v2 : plays acts v tr v1 -> plays acts' v1 tr' v2 -> plays (acts ++ acts') v (tr ++ tr') v2.
Proof.
  induction 1; intros Hp; cbn; [done|apply plays_other; auto|apply plays_tick; auto|apply plays_store; auto|].
  eapply plays_section; eauto.
Qed.

(** From [o] to [o'] the book thread does acts that the trace shows. *)
Definition is_tick (a : act) : bool := match a with SetTick _ _ => true | _ => false end.

Definition evolves (o o' : OB) : Prop := exists acts tr, trace o' = trace o ++ tr /\ plays acts (view o) tr (view o') /\
  Forall (fun a => is_tick a = false) acts.

Lemma evolves_trans o1 o2 o3 : evolves o1 o2 -> evolves o2 o3 -> evolves o1 o3.
Proof.
  intros (a & tr & E & Hp & Hf) (a' & tr' & E' & Hp' & Hf'). exists (a ++ a'), (tr ++ tr'). rewrite E', E, <- app_assoc.
  split_and!; [done|by eapply plays_app|by apply Forall_app].
Qed.

Lemma evolves_same o o' : trace o' = trace o -> view o' = view o -> evolves o o'.
Proof. intros E1 E2. exists [], []. rewrite E1, E2, app_nil_r. split_and!; [done|constructor|constructor]. Qed.

Lemma evolves_log o a : (forall w, a <> Published w) -> (forall w, a <> Torn w) -> evolves o (log o a).
Proof. intros H1 H2. exists [], [a]. split_and!; [done| |constructor]. apply plays_other; [done..|constructor]. Qed.

Lemma evolves_store o x : evolves o (store_synced o x).
Proof. exists [StoreSynced x], [Published (set_flag (view o) x)]. split_and!; [done|do 2 constructor|by repeat constructor]. Qed.

(** The writes of a section: the trace does not show them. *)
Definition writes_to (o : OB) (ws : list write) (o' : OB) : Prop := trace o' = trace o /\ do_writes ws (view o) = Some (view o').

Lemma writes_trans o1 ws o2 ws' o3 : writes_to o1 ws o2 -> writes_to o2 ws' o3 -> writes_to o1 (ws ++ ws') o3.
Proof. intros [E1 H1] [E2 H2]. split; [congruence|]. by rewrite do_writes_app, H1. Qed.

Lemma evolves_section o ws o' (torn : bool) : writes_to o ws o' -> evolves o (log o' (if torn then Torn (view o') else Published (view o'))).
Proof.
  intros [Et Hw]. exists [Section_ ws torn], [if torn then Torn (view o') else Published (view o')]. cbn. rewrite Et. split_and!; [done| |by repeat constructor].
  econstructor; [done|]. constructor.
Qed.

Lemma processEntry_writes o e isBid o' r : processEntry o e isBid = Some (o', r) -> writes_to o [WLevel isBid e] o'.
Proof.
  unfold processEntry, writes_to. intros E. cbn. destruct isBid; cbn in *;
    (destruct (update _ _ _ _) as [[b r']|]; [|done]); by simplify_eq/=.
Qed.

Lemma apply_levels_writes n : forall i arr isBid o o' r, apply_levels n i arr isBid o = Some (o', r) -> exists ws, writes_to o ws o'.
Proof.
  induction n as [|n IH]; intros i arr isBid o o' r E; cbn in E; [injection E as <- <-; by exists []|].
  destruct (aget arr i) as [e|]; [cbn in E|done]. destruct (processEntry o e isBid) as [[o1 r1]|] eqn:Ep; [cbn in E|done].
  apply processEntry_writes in Ep. destruct r1; [|injection E as <- <-; by eexists].
  apply IH in E as [ws Hws]. eexists. by eapply writes_trans.
Qed.

Lemma drain_writes fuel isBid : forall o o', drain fuel isBid o = Some o' -> exists ws, writes_to o ws o'.
Proof.
  induction fuel as [|fuel IH]; intros o o' E; cbn in E; [done|].
  destruct (if isBid then getBid (snapshot o) else getAsk (snapshot o)) as [[s e]|]; [cbn in E|done].
  destruct (price e =? 0); [injection E as <-; by exists []|].
  destruct (processEntry (set_snapshot o s (calls o)) e isBid) as [[o1 r1]|] eqn:Ep; [cbn in E|done].
  apply processEntry_writes in Ep. apply IH in E as [ws Hws]. exists ([WLevel isBid e] ++ ws). by apply (writes_trans (set_snapshot o s (calls o)) _ o1).
Qed.

Lemma applySnapshot_evolves o o' : applySnapshot o = Some o' -> evolves o o'.
Proof.
  unfold applySnapshot. intros E.
  apply bind_Some in E as (o2 & E2 & E). apply bind_Some in E as (o3 & E3 & E).
  injection E as <-. apply drain_writes in E2 as [w2 H2]. apply drain_writes in E3 as [w3 H3].
  apply (evolves_section o ([WClear true; WClear false] ++ w2 ++ w3 ++ [WId (updateId (snapshot o3))]) _ false).
  apply (writes_trans o _ (set_books o (clear (bidBook o)) (clear (askBook o)))); [by split|]. eapply writes_trans; [exact H2|]. eapply writes_trans; [exact H3|]. by split.
Qed.

Lemma applyUpdate_evolves o ev o' r : applyUpdate o ev = Some (o', r) -> evolves o o'.
Proof.
  unfold applyUpdate. intros E. destruct (apply_levels _ 0 _ true o) as [[o1 r1]|] eqn:E1; [cbn in E|done].
  apply apply_levels_writes in E1 as [w1 H1]. destruct r1; cbn [negb] in E; [|injection E as <- <-; by apply (evolves_section o w1 o1 true)].
  destruct (apply_levels _ 0 _ false o1) as [[o2 r2]|] eqn:E2; [cbn in E|done].
  apply apply_levels_writes in E2 as [w2 H2]. pose proof (writes_trans _ _ _ _ _ H1 H2) as H12.
  destruct r2; cbn [negb] in E; injection E as <- <-; [|by apply (evolves_section o (w1 ++ w2) o2 true)].
  apply (evolves_section o ((w1 ++ w2) ++ [WId (u ev)]) (set_updateID o2 (u ev)) false). eapply writes_trans; [exact H12|]. by split.
Qed.

Lemma load_running_evolves o o' x : load_running o = (o', x) -> evolves o o'.
Proof. unfold load_running. intros E. apply evolves_same; destruct (running o); try destruct (budget o); by simplify_eq/=. Qed.

Lemma stop_evolves o e : evolves o (stop o e).
Proof.
  unfold stop. eapply evolves_trans; [|by apply evolves_same].
  eapply evolves_trans; [|apply evolves_store]. by apply evolves_same.
Qed.

Lemma release_evolves o ev : evolves o (release_ o ev).
Proof.
  unfold release_. destruct (0 <=? slot ev); [|by apply evolves_same].
  apply (evolves_trans _ (set_holder o (release (holder o) (slot ev)))); [by apply evolves_same|by apply evolves_log].
Qed.

Section Thread.
  Context `{FuturesAPI} (pair : string) (streamEnd : option (option string)).

Lemma spin_evolves fuel : forall o o', spin streamEnd fuel o = Some o' -> evolves o o'.
Proof.
  induction fuel as [|fuel IH]; intros o o' E; cbn in E; [done|]. destruct (load_running o) as [o1 alive] eqn:El.
  apply load_running_evolves in El. eapply evolves_trans; [exact El|]. destruct alive; cbn in E; [|injection E as <-; by apply evolves_same].
  destruct streamEnd; [injection E as <-; apply stop_evolves|by apply IH].
Qed.

Lemma waitForUpdate_evolves o o' r : waitForUpdate streamEnd o = Some (o', r) -> evolves o o'.
Proof.
  unfold waitForUpdate. destruct (events o); [|intros [= <- <-]; by apply evolves_same]. intros E.
  apply bind_Some in E as (o1 & E & [= <- <-]). by eapply spin_evolves.
Qed.

Lemma nextUpdate_evolves o o' r : nextUpdate streamEnd o = Some (o', r) -> evolves o o'.
Proof.
  unfold nextUpdate. intros E. apply bind_Some in E as ([o1 ok] & Ew & E). apply waitForUpdate_evolves in Ew.
  eapply evolves_trans; [exact Ew|]. destruct ok; cbn in E; [|injection E as <- <-; by apply evolves_same].
  destruct (events o1) as [|ev evs]; [done|]. injection E as <- <-.
  apply (evolves_trans _ (set_events o1 evs)); [by apply evolves_same|by apply evolves_log].
Qed.

Lemma retry_evolves n : forall att o err o' err', retry pair n att o err = Some (o', err') -> evolves o o'.
Proof.
  induction n as [|n IH]; intros att o err o' err' E; cbn in E; [injection E as <- <-; by apply evolves_same|].
  destruct (getError err); cbn in E; [|injection E as <- <-; by apply evolves_same].
  destruct (load_running o) as [o1 alive] eqn:El. apply load_running_evolves in El. eapply evolves_trans; [exact El|].
  destruct alive; cbn in E; [|injection E as <- <-; by apply evolves_same].
  apply bind_Some in E as ([err1 s] & _ & E). apply IH in E. eapply evolves_trans; [|exact E].
  eapply evolves_trans; [by apply (evolves_log o1 (Slept (250 * att)))|]. eapply evolves_trans; [|by apply evolves_log]. by apply evolves_same.
Qed.

Lemma resync_evolves o o' err : resync pair o = Some (o', err) -> evolves o o'.
Proof.
  unfold resync. intros E. eapply evolves_trans; [apply (evolves_store o false)|].
  apply bind_Some in E as ([err1 s] & _ & E). apply bind_Some in E as ([o2 err2] & Er & E). apply retry_evolves in Er.
  eapply evolves_trans; [eapply evolves_trans; [|exact Er]|].
  - eapply evolves_trans; [|by apply evolves_log]. by apply evolves_same.
  - destruct (getError err2); [injection E as <- <-; by apply evolves_same|].
    apply bind_Some in E as (o3 & Es & [= <- <-]). by apply applySnapshot_evolves.
Qed.

Lemma applyFirstUpdate_evolves fuel : forall o o' r, applyFirstUpdate streamEnd fuel o = Some (o', r) -> evolves o o'.
Proof.
  induction fuel as [|fuel IH]; intros o o' r E; cbn in E; [done|].
  apply bind_Some in E as ([o1 next] & En & E). apply nextUpdate_evolves in En. eapply evolves_trans; [exact En|].
  destruct next as [ev|]; [|injection E as <- <-; by apply evolves_same].
  destruct (dropped ev); [injection E as <- <-; by apply evolves_same|].
  destruct (u ev <? updateID o1); [apply IH in E; eapply evolves_trans; [apply release_evolves|exact E]|].
  apply bind_Some in E as ([o2 applied] & Ea & [= <- <-]). eapply evolves_trans; [|apply release_evolves].
  destruct (U ev <=? updateID o1); [by eapply applyUpdate_evolves|injection Ea as <- <-; by apply evolves_same].
Qed.

Lemma follow_evolves fuel : forall o o', follow streamEnd fuel o = Some o' -> evolves o o'.
Proof.
  induction fuel as [|fuel IH]; intros o o' E; cbn in E; [done|].
  apply bind_Some in E as ([o1 next] & En & E). apply nextUpdate_evolves in En. eapply evolves_trans; [exact En|].
  destruct next as [ev|]; [|injection E as <-; by apply evolves_same].
  apply bind_Some in E as ([o2 applied] & Ea & E).
  assert (evolves o1 o2) as Ho by (destruct (negb _ && _); [by eapply applyUpdate_evolves|injection Ea as <- <-; by apply evolves_same]).
  eapply evolves_trans; [exact Ho|]. eapply evolves_trans; [apply (release_evolves _ ev)|].
  destruct applied; [by apply IH|injection E as <-; by apply evolves_same].
Qed.

Lemma main_loop_evolves fuel : forall failed o o', main_loop pair streamEnd fuel failed o = Some o' -> evolves o o'.
Proof.
  induction fuel as [|fuel IH]; intros failed o o' E; cbn [main_loop] in E; [done|].
  destruct (load_running o) as [o1 alive] eqn:El. apply load_running_evolves in El. eapply evolves_trans; [exact El|].
  destruct alive; cbn [negb] in E; [|injection E as <-; by apply evolves_same].
  apply bind_Some in E as ([o2 err] & Er & E). apply resync_evolves in Er. eapply evolves_trans; [exact Er|].
  destruct (getError err); [injection E as <-; apply stop_evolves|].
  apply bind_Some in E as ([o3 ok] & Ef & E). apply applyFirstUpdate_evolves in Ef. eapply evolves_trans; [exact Ef|].
  destruct ok; cbn [negb] in E.
  - apply bind_Some in E as (o4 & Ew & E). apply follow_evolves in Ew. apply IH in E.
    eapply evolves_trans; [apply (evolves_store o3 true)|]. eapply evolves_trans; [exact Ew|exact E].
  - destruct (load_running o3) as [o4 alive'] eqn:El'. apply load_running_evolves in El'. eapply evolves_trans; [exact El'|].
    destruct alive'; cbn [negb] in E; [|injection E as <-; by apply evolves_same].
    destruct (failed + 1 =? maxFailedSyncs); [injection E as <-; apply stop_evolves|by eapply IH].
Qed.

(** [loadTickSize] stores the tick size of both sides, without the lock, or the thread
    stops at once. *)
Definition load_acts (ts : option Z) : list act := match ts with Some t => [SetTick true t; SetTick false t] | None => [] end.

Lemma plays_load (ts : option Z) o o' : evolves o o' -> forall v, plays (load_acts ts) v [] (view o) ->
  exists acts tr, trace o' = trace o ++ tr /\ plays (load_acts ts ++ acts) v tr (view o') /\ Forall (fun a => is_tick a = false) acts.
Proof. intros (acts & tr & Et & Hp & Hf) v Hl. exists acts, tr. split_and!; [done|by apply (plays_app _ _ [] (view o))|done]. Qed.

Definition loaded : option Z :=
  let r := fetchExchangeInfoForPair (toupper pair) PairInfo_zero in
  if getError r.1 || (pairTickSize r.2 <=? 0) then None else Some (pairTickSize r.2).

Lemma loop_plays o o' : executionLoop pair streamEnd o = Some o' ->
  exists acts tr, trace o' = trace o ++ tr /\ plays (load_acts loaded ++ acts) (view o) tr (view o') /\ Forall (fun a => is_tick a = false) acts.
Proof.
  unfold executionLoop, loadTickSize, loaded. destruct (fetchExchangeInfoForPair _ _) as [e info]. cbn [fst snd].
  destruct (getError e) eqn:Ee.
  { rewrite Ee. cbn [orb]. intros [= <-]. destruct (plays_load None o _ (stop_evolves o e) (view o)) as (acts & tr & Et & Hp & Hf); [constructor|].
    by exists acts, tr. }
  destruct (Z.leb_spec (pairTickSize info) 0) as [Hle|Hlt].
  { cbn [orb]. cbn. intros [= <-]. match goal with |- context [stop o ?e] => destruct (plays_load None o _ (stop_evolves o e) (view o)) as (acts & tr & Et & Hp & Hf); [constructor|] end.
    by exists acts, tr. }
  intros E. apply bind_Some in E as ([o1 ok] & Ew & E). apply waitForUpdate_evolves in Ew.
  assert (evolves o1 o') as Hend.
  { destruct ok; cbn [negb] in E; [by eapply main_loop_evolves|injection E as <-; by apply evolves_same]. }
  destruct (plays_load (Some (pairTickSize info)) _ _ (evolves_trans _ _ _ Ew Hend) (view o)) as (acts & tr & Et & Hp & Hf); [repeat constructor|].
  by exists acts, tr.
Qed.
End Thread.

Lemma plays_views acts v tr v' : plays acts v tr v' -> exists vs, views_of acts v = Some vs.
Proof.
  induction 1 as [|a acts v tr v' _ _ _ IH|isBid ts acts v tr v' _ [vs IH]|x acts v tr v' _ [vs IH]|ws torn acts v v1 tr v' E _ [vs IH]]; cbn.
  - by eexists.
  - done.
  - rewrite IH. by eexists.
  - rewrite IH. by eexists.
  - rewrite E. cbn. rewrite IH. by eexists.
Qed.

(** What the trace says of the view an act left. *)
Definition shown (a : act) (w : View) (tr : list action) : Prop :=
  match a with SetTick _ _ => True | Section_ _ true => Torn w ∈ tr | _ => Published w ∈ tr end.

Lemma shown_cons a w b tr : shown a w tr -> shown a w (b :: tr).
Proof. destruct a as [| |ws []]; cbn; [done|..]; by right. Qed.

Lemma plays_shown acts v tr v' : plays acts v tr v' -> forall vs n a w, views_of acts v = Some vs ->
  acts !! n = Some a -> vs !! n = Some w -> shown a w tr.
Proof.
  induction 1 as [|b acts v tr v' _ _ _ IH|isBid ts acts v tr v' _ IH|x acts v tr v' _ IH|ws torn acts v v1 tr v' E _ IH]; intros vs n a w Ev Ha Hw.
  - done.
  - apply shown_cons. by eapply IH.
  - cbn in Ev. apply bind_Some in Ev as (l & El & [= <-]). destruct n; cbn in *; [by simplify_eq|]. by eapply IH.
  - cbn in Ev. apply bind_Some in Ev as (l & El & [= <-]). destruct n; cbn in *; [simplify_eq; left|]. apply shown_cons. by eapply IH.
  - cbn in Ev. rewrite E in Ev. cbn in Ev. apply bind_Some in Ev as (l & El & [= <-]).
    destruct n; cbn in *; [simplify_eq; destruct torn; left|]. apply shown_cons. by eapply IH.
Qed.

(** ** The readers *)

Inductive query :=
  | QSynced                                (** [isSynced] *)
  | QTop (isBid : bool) (count : nat)      (** [getTopBids], [getTopAsks]; with 1, [getBestBid] and [getBestAsk] *)
  | QEntry (isBid : bool) (p : Z).         (** [getEntryWithPrice] *)

(** [None] inside is undefined behaviour. *)
Inductive answer :=
  | ASynced (x : bool)
  | ATop (es : option (list Entry))
  | AEntry (e : option (option Entry)).

Definition answer_of (q : query) (v : View) : answer :=
  match q with
  | QSynced => ASynced (v_synced v)
  | QTop isBid count => ATop (top isBid (side v isBid) count)
  | QEntry isBid p => AEntry (find (side v isBid) p)
  end.

Inductive rpc := RIdle | RHolding (q : query) | RRelease.

(** An answer, and how many acts of the book thread were complete when it was read. *)
Record Reader := { queries : list query; rat : rpc; answers : list (query * answer * nat) }.

Inductive owner := Book | ReaderNo (i : nat).

Record System := {
  mem : View;
  updatingLock : option owner;
  acts_left : list act;
  inside : option (list write * bool);     (** the rest of the section the book thread is in *)
  passed : list View;                      (** the initial view and those after each complete act *)
  crew : list Reader;
}.

Definition new_System (acts : list act) (v : View) (programs : list (list query)) : System :=
  {| mem := v; updatingLock := None; acts_left := acts; inside := None; passed := [v];
     crew := (fun qs => {| queries := qs; rat := RIdle; answers := [] |}) <$> programs |}.

Definition book_step (s : System) : option System :=
  match inside s with
  | Some (w :: ws, torn) =>
      v ← do_write w (mem s);
      Some {| mem := v; updatingLock := updatingLock s; acts_left := acts_left s; inside := Some (ws, torn); passed := passed s; crew := crew s |}
  | Some ([], torn) =>
      Some {| mem := mem s; updatingLock := None; acts_left := acts_left s; inside := None; passed := passed s ++ [mem s]; crew := crew s |}
  | None =>
      match acts_left s with
      | [] => None
      | Section_ ws torn :: l =>
          match updatingLock s with
          | Some _ => None
          | None => Some {| mem := mem s; updatingLock := Some Book; acts_left := l; inside := Some (ws, torn); passed := passed s; crew := crew s |}
          end
      | a :: l =>
          v ← do_act a (mem s);
          Some {| mem := v; updatingLock := updatingLock s; acts_left := l; inside := None; passed := passed s ++ [v]; crew := crew s |}
      end
  end.

Definition set_reader (s : System) (i : nat) (k : option owner) (r : Reader) : System :=
  {| mem := mem s; updatingLock := k; acts_left := acts_left s; inside := inside s; passed := passed s; crew := <[i := r]> (crew s) |}.

Definition told (s : System) (r : Reader) (q : query) : list (query * answer * nat) :=
  answers r ++ [(q, answer_of q (mem s), pred (length (passed s)))].

Definition reader_step (i : nat) (s : System) : option System :=
  r ← crew s !! i;
  match rat r with
  | RIdle =>
      match queries r with
      | [] => None
      | QSynced :: l => Some (set_reader s i (updatingLock s) {| queries := l; rat := RIdle; answers := told s r QSynced |})
      | q :: l =>
          match updatingLock s with
          | Some _ => None
          | None => Some (set_reader s i (Some (ReaderNo i)) {| queries := l; rat := RHolding q; answers := answers r |})
          end
      end
  | RHolding q => Some (set_reader s i (updatingLock s) {| queries := queries r; rat := RRelease; answers := told s r q |})
  | RRelease => Some (set_reader s i None {| queries := queries r; rat := RIdle; answers := answers r |})
  end.

Definition system_step (s s' : System) : Prop := book_step s = Some s' \/ exists i, reader_step i s = Some s'.

(** ** The invariant *)

Definition future (s : System) : option (list View) :=
  match inside s with
  | Some (ws, _) => v ← do_writes ws (mem s); l ← views_of (acts_left s) v; Some (v :: l)
  | None => views_of (acts_left s) (mem s)
  end.

Definition answered (ps : list View) (x : query * answer * nat) : Prop :=
  let '(q, a, n) := x in exists v, ps !! n = Some v /\ a = answer_of q v.

Definition when (xs : list (query * answer * nat)) : list nat := snd <$> xs.

Definition ascending (l : list nat) : Prop := forall i j n m, (i <= j)%nat -> l !! i = Some n -> l !! j = Some m -> (n <= m)%nat.

Definition holds_lock (p : rpc) : bool := match p with RIdle => false | _ => true end.
Definition asking (p : rpc) : list query := match p with RHolding q => [q] | _ => [] end.

Record reader_ok (ps : list View) (program : list query) (r : Reader) : Prop := {
  ro_answers : Forall (answered ps) (answers r);
  ro_when : ascending (when (answers r));
  ro_last : Forall (fun n => (n < length ps)%nat) (when (answers r));
  ro_order : program = ((fun x => fst (fst x)) <$> answers r) ++ asking (rat r) ++ queries r;
}.

Record system_ok (all : list View) (programs : list (list query)) (s : System) : Prop := {
  so_future : exists l, future s = Some l /\ passed s ++ l = all;
  so_mem : match inside s with
           | None => last (passed s) = Some (mem s)
           | Some _ => exists v, last (passed s) = Some v /\ v_synced v = v_synced (mem s)
           end;
  so_book : updatingLock s = Some Book <-> inside s <> None;
  so_lock : forall i r, crew s !! i = Some r -> holds_lock (rat r) = true <-> updatingLock s = Some (ReaderNo i);
  so_owner : forall i, updatingLock s = Some (ReaderNo i) -> (i < length (crew s))%nat;
  so_readers : forall i r, crew s !! i = Some r -> exists p, programs !! i = Some p /\ reader_ok (passed s) p r;
}.

Lemma ascending_snoc l n : ascending l -> Forall (fun m => (m <= n)%nat) l -> ascending (l ++ [n]).
Proof.
  intros Ha Hf i j x y Hij Hi Hj. apply lookup_app_Some in Hi as [Hi|[Hl Hi]], Hj as [Hj|[Hl' Hj]].
  - by eapply Ha.
  - apply list_lookup_singleton_Some in Hj as [_ <-]. rewrite Forall_lookup in Hf. by eapply Hf.
  - apply lookup_lt_Some in Hj. lia.
  - apply list_lookup_singleton_Some in Hi as [_ <-], Hj as [_ <-]. done.
Qed.

Lemma reader_grows ps v p r : reader_ok ps p r -> reader_ok (ps ++ [v]) p r.
Proof.
  intros [Ha Hw Hl Ho]. split; try done.
  - eapply Forall_impl; [exact Ha|]. intros [[q a] n] (w & Hn & ->). exists w. split; [|done]. by apply lookup_app_l_Some.
  - eapply Forall_impl; [exact Hl|]. intros n Hn. cbn in Hn. rewrite length_app. cbn. lia.
Qed.

Lemma set_reader_lookup (l : list Reader) i r j u : <[i := r]> l !! j = Some u -> (j = i /\ u = r) \/ (j <> i /\ l !! j = Some u).
Proof.
  intros E. destruct (decide (j = i)) as [->|Hn]; [left|right].
  - assert (i < length l)%nat by (apply lookup_lt_Some in E; by rewrite length_insert in E).
    rewrite list_lookup_insert_eq in E by done. by injection E.
  - by rewrite list_lookup_insert_ne in E.
Qed.

(** What is in force when a reader is answered. *)
Lemma last_view all programs s : system_ok all programs s -> inside s = None -> passed s !! pred (length (passed s)) = Some (mem s).
Proof. intros Hs Hi. pose proof (so_mem _ _ _ Hs) as Hm. rewrite Hi in Hm. by rewrite <- last_lookup. Qed.

Lemma passed_pos all programs s : system_ok all programs s -> (0 < length (passed s))%nat.
Proof.
  intros Hs. pose proof (so_mem _ _ _ Hs) as Hm. destruct (passed s); [|cbn; lia].
  destruct (inside s); [by destruct Hm as (v & Hv & _)|done].
Qed.

(** A reader takes or gives back the lock, or is answered. *)
Lemma reader_moves all programs s i r k r' : system_ok all programs s -> crew s !! i = Some r ->
  (k = Some Book <-> updatingLock s = Some Book) -> (holds_lock (rat r') = true <-> k = Some (ReaderNo i)) ->
  (forall j, j <> i -> k = Some (ReaderNo j) <-> updatingLock s = Some (ReaderNo j)) ->
  (forall p, reader_ok (passed s) p r -> reader_ok (passed s) p r') -> system_ok all programs (set_reader s i k r').
Proof.
  intros [Hf Hm Hb Hl Ho Hr] Hi H1 H2 H3 H4. split; cbn; try done.
  - by rewrite H1.
  - intros j u [[-> ->]|[Hn Hj]]%set_reader_lookup; [done|]. by rewrite H3, (Hl j u).
  - intros j Hj. rewrite length_insert. destruct (decide (j = i)) as [->|Hn]; [by eapply lookup_lt_Some|]. apply Ho. by apply H3.
  - intros j u [[-> ->]|[Hn Hj]]%set_reader_lookup; [|by apply Hr]. destruct (Hr i r Hi) as (p & Hp & Hok). exists p. auto.
Qed.

(** An answer that the last view gives as well. *)
Lemma reader_told s r q l p r' v : reader_ok (passed s) p r -> passed s !! pred (length (passed s)) = Some v ->
  answer_of q (mem s) = answer_of q v -> asking (rat r) ++ queries r = q :: l ->
  answers r' = told s r q -> asking (rat r') ++ queries r' = l -> reader_ok (passed s) p r'.
Proof.
  intros [Ha Hw Hl Ho] Hv Hq Hql Et Hl'. unfold told in Et. split; rewrite ?Et.
  - apply Forall_app. split; [done|]. constructor; [|done]. exists v. by split.
  - unfold when. rewrite fmap_app. apply ascending_snoc; [done|]. eapply Forall_impl; [exact Hl|]. intros n Hn. cbn in *. lia.
  - unfold when. rewrite fmap_app. apply Forall_app. split; [done|]. constructor; [|done]. cbn. by apply lookup_lt_Some in Hv.
  - rewrite Ho, Hql, fmap_app, <- app_assoc. cbn. by rewrite Hl'.
Qed.

Lemma reader_step_ok all programs i s s' : reader_step i s = Some s' -> system_ok all programs s -> system_ok all programs s'.
Proof.
  intros Hst Hs. pose proof Hs as [_ Hm Hb Hlk _ _]. unfold reader_step in Hst. destruct (crew s !! i) as [r|] eqn:Er; [cbn in Hst|done].
  pose proof (Hlk i r Er) as Hi. destruct (rat r) as [|q|] eqn:Ep.
  - destruct (queries r) as [|q l] eqn:Eq; [done|].
    assert (q <> QSynced -> updatingLock s = None ->
      system_ok all programs (set_reader s i (Some (ReaderNo i)) {| queries := l; rat := RHolding q; answers := answers r |})) as Hacq.
    { intros _ Hn. eapply reader_moves; try done; [by rewrite Hn|by intros j Hj; rewrite Hn; split; congruence|].
      intros p [Ha Hw Hl Ho]. split; try done. by rewrite Ho, Ep, Eq. }
    destruct q as [|isBid count|isBid x]; [|destruct (updatingLock s); simplify_eq; by apply Hacq..].
    injection Hst as <-. eapply reader_moves; try done. intros p Hp.
    destruct (inside s) as [w|] eqn:Ei.
    + destruct Hm as (v & Hv & Hf). rewrite last_lookup in Hv. eapply reader_told; try done; [cbn; by rewrite Hf|by rewrite Ep, Eq].
    + eapply reader_told; try done; [by rewrite <- last_lookup|by rewrite Ep, Eq].
  - injection Hst as <-. assert (updatingLock s = Some (ReaderNo i)) as Hh by (by apply Hi).
    assert (inside s = None) as Ei by (destruct (inside s); [|done]; assert (updatingLock s = Some Book) by (by apply Hb); congruence).
    eapply reader_moves; try done. intros p Hp.
    eapply reader_told; try done; [by eapply last_view|by rewrite Ep].
  - injection Hst as <-. assert (updatingLock s = Some (ReaderNo i)) as Hh by (by apply Hi).
    eapply reader_moves; try done; [by rewrite Hh|by intros j Hj; rewrite Hh; split; congruence|].
    intros p [Ha Hw Hl Ho]. split; try done. by rewrite Ho, Ep.
Qed.

Lemma do_write_flag w v v' : do_write w v = Some v' -> v_synced v' = v_synced v.
Proof.
  destruct w as [isBid|isBid e|i]; cbn; [intros [= <-]; by destruct isBid| |by intros [= <-]].
  destruct (update _ _ _ _) as [[b r]|]; [|done]. intros [= <-]. by destruct isBid.
Qed.

Lemma book_step_ok all programs s s' : book_step s = Some s' -> system_ok all programs s -> system_ok all programs s'.
Proof.
  intros Hst [(fs & Hf & Hall) Hm Hb Hl Ho Hr]. unfold book_step in Hst. unfold future in Hf. destruct (inside s) as [[[|w ws] torn]|] eqn:Ei.
  - injection Hst as <-. cbn in Hf. apply bind_Some in Hf as (l & El & [= <-]).
    assert (updatingLock s = Some Book) as Hk by (by apply Hb). split; cbn; try done.
    + exists l. split; [done|]. by rewrite <- app_assoc.
    + by rewrite last_snoc.
    + intros i r Hi. rewrite (Hl i r Hi), Hk. by split.
    + intros i r Hi. destruct (Hr i r Hi) as (p & Hp & Hok). exists p. split; [done|]. by apply reader_grows.
  - destruct (do_write w (mem s)) as [v|] eqn:Ew; [cbn in Hst|done]. injection Hst as <-. cbn in Hf. rewrite Ew in Hf. cbn in Hf.
    split; cbn; try done.
    + by exists fs.
    + destruct Hm as (v0 & Hv0 & Hfl). exists v0. split; [done|]. by rewrite Hfl, (do_write_flag w (mem s) v).
    + rewrite Hb. by split.
  - destruct (acts_left s) as [|a l] eqn:Ea; [done|].
    assert (forall v, do_act a (mem s) = Some v -> system_ok all programs
      {| mem := v; updatingLock := updatingLock s; acts_left := l; inside := None; passed := passed s ++ [v]; crew := crew s |}) as Hact.
    { intros v Ev. cbn in Hf. rewrite Ev in Hf. cbn in Hf. apply bind_Some in Hf as (l' & El & [= <-]). split; cbn; try done.
      - exists l'. split; [done|]. by rewrite <- app_assoc.
      - by rewrite last_snoc.
      - intros i r Hi. destruct (Hr i r Hi) as (p & Hp & Hok). exists p. split; [done|]. by apply reader_grows. }
    destruct a as [isBid ts|x|ws torn]; [by injection Hst as <-; apply Hact|by injection Hst as <-; apply Hact|].
    destruct (updatingLock s) eqn:Ek; [done|]. injection Hst as <-. split; cbn; try done.
    + exists fs. split; [|done]. cbn in Hf. exact Hf.
    + by exists (mem s).
    + intros i r Hi. rewrite (Hl i r Hi). by split.
Qed.

Lemma new_System_ok acts v vs programs : views_of acts v = Some vs -> system_ok (v :: vs) programs (new_System acts v programs).
Proof.
  intros Hv. split; cbn; try done.
  - by exists vs.
  - intros i r Hi. apply list_lookup_fmap_Some in Hi as (p & -> & _). done.
  - intros i r Hi. apply list_lookup_fmap_Some in Hi as (p & -> & Hp). exists p. by split.
Qed.

Lemma reachable_ok acts v vs programs s : views_of acts v = Some vs -> rtc system_step (new_System acts v programs) s ->
  system_ok (v :: vs) programs s.
Proof.
  intros Hv Hr. revert s Hr. refine (rtc_ind_r (system_ok (v :: vs) programs) (new_System acts v programs) _ _); [by apply new_System_ok|].
  intros x y _ [Hb|[i Hi]] Hx; [by eapply book_step_ok|by eapply reader_step_ok].
Qed.

Lemma book_goes_on all programs s : system_ok all programs s -> inside s <> None -> exists s', book_step s = Some s'.
Proof.
  intros Hs Hi. destruct (so_future _ _ _ Hs) as (fs & Hf & _). unfold future in Hf. unfold book_step.
  destruct (inside s) as [[[|w ws] torn]|]; [by eexists| |done]. cbn in Hf. destruct (do_write w (mem s)); [by eexists|done].
Qed.

(** Whoever has the lock can go on. *)
Lemma owner_goes_on all programs s : system_ok all programs s -> updatingLock s <> None -> exists s', system_step s s'.
Proof.
  intros Hs Hk. destruct (updatingLock s) as [[|i]|] eqn:E; [| |done].
  - destruct (book_goes_on all programs s Hs) as [s' Hb]; [by apply (so_book _ _ _ Hs)|]. exists s'. by left.
  - destruct (lookup_lt_is_Some_2 (crew s) i (so_owner _ _ _ Hs i E)) as [r Hr]. apply (so_lock _ _ _ Hs i r Hr) in E.
    assert (is_Some (reader_step i s)) as [s' Hst]; [|exists s'; right; by exists i].
    unfold reader_step. rewrite Hr. cbn. destruct (rat r); [done|by eexists..].
Qed.

Lemma stuck_finished all programs s : system_ok all programs s -> (forall s', ~ system_step s s') ->
  inside s = None /\ acts_left s = [] /\ forall i r, crew s !! i = Some r -> rat r = RIdle /\ queries r = [].
Proof.
  intros Hs Hst. assert (updatingLock s = None) as Hk.
  { destruct (updatingLock s) eqn:E; [|done]. destruct (owner_goes_on all programs s Hs) as [s' H]; [congruence|]. by destruct (Hst s'). }
  assert (inside s = None) as Hi.
  { destruct (inside s) eqn:E; [|done]. destruct (book_goes_on all programs s Hs) as [s' H]; [congruence|]. destruct (Hst s'). by left. }
  split_and!; [done| |].
  - destruct (so_future _ _ _ Hs) as (fs & Hf & _). unfold future in Hf. rewrite Hi in Hf.
    destruct (acts_left s) as [|a l] eqn:Ea; [done|]. exfalso. cbn in Hf. destruct (do_act a (mem s)) as [v|] eqn:Ev; [|done].
    assert (is_Some (book_step s)) as [s' Hb]; [|apply (Hst s'); by left].
    unfold book_step. rewrite Hi, Ea. destruct a; [by eexists|by eexists|]. rewrite Hk. by eexists.
  - intros i r Hr. assert (~ is_Some (reader_step i s)) as Hn by (intros [s' H]; apply (Hst s'); right; by exists i).
    unfold reader_step in Hn. rewrite Hr in Hn. cbn in Hn. destruct (rat r); [|by destruct Hn..]. split; [done|].
    destruct (queries r) as [|q l]; [done|]. exfalso. apply Hn. rewrite Hk. destruct q; by eexists.
Qed.

(** ** Every view is a book *)

Definition views_as (ts : Z) (w : View) : Prop := exists mb ma, side_ok ts (v_bids w) mb /\ side_ok ts (v_asks w) ma.

Lemma write_views_as ts w v v' : do_write w v = Some v' -> views_as ts v -> views_as ts v'.
Proof.
  intros E (mb & ma & Hb & Ha).
  assert (forall isBid, exists m, side_ok ts (side v isBid) m) as Hside by (intros []; cbn; by eexists).
  assert (forall isBid b m, side_ok ts b m -> views_as ts (put_side v isBid b)) as Hset by (intros [] b m Hm; by eexists _, _).
  destruct w as [isBid|isBid e|i]; cbn in E.
  - injection E as <-. destruct (Hside isBid) as [m Hm]. eapply Hset. by eapply side_clear.
  - destruct (Hside isBid) as [m Hm]. destruct (toTick (side v isBid) (price e)) as [t|] eqn:Et; [|by unfold update in E; rewrite Et in E].
    destruct (side_update isBid ts (side v isBid) m e Hm) as (b & r & Eu & Hm'); [exists t; destruct Hm as [_ <-]; by rewrite <- toTick_tick_of|].
    rewrite Eu in E. injection E as <-. by eapply Hset.
  - injection E as <-. by exists mb, ma.
Qed.

Lemma act_views_as ts a v v' : is_tick a = false -> do_act a v = Some v' -> views_as ts v -> views_as ts v'.
Proof.
  destruct a as [| x|ws torn]; [done| |]; intros _ E Hv; cbn in E.
  - injection E as <-. exact Hv.
  - revert v E Hv. induction ws as [|w ws IH]; intros v E Hv; [by injection E as <-|]. cbn in E.
    destruct (do_write w v) as [v1|] eqn:Ew; [cbn in E|done]. by apply (IH v1), (write_views_as ts w v).
Qed.

Lemma all_views_as ts acts : Forall (fun a => is_tick a = false) acts -> forall v vs, views_of acts v = Some vs -> views_as ts v ->
  Forall (views_as ts) vs.
Proof.
  induction 1 as [|a acts Ha _ IH]; intros v vs E Hv; cbn in E; [injection E as <-; constructor|].
  destruct (do_act a v) as [v1|] eqn:Ea; [cbn in E|done]. destruct (views_of acts v1) as [l|] eqn:El; [cbn in E|done]. injection E as <-.
  assert (views_as ts v1) by (by eapply act_views_as). constructor; [done|by eapply IH].
Qed.

(** ** Properties *)

(** C4 Readers are served atomically and there is no deadlock: whatever the interleaving with
    the book thread's writes, a reader's queries are answered in its program's order, each
    as if it were asked alone of one of the views between the book thread's acts, and never
    of an earlier one than the query before; when no thread can go on, all have finished. *)
Theorem readers_atomic acts v vs programs s : views_of acts v = Some vs -> rtc system_step (new_System acts v programs) s ->
  (forall i r, crew s !! i = Some r ->
    programs !! i = Some (((fun x => fst (fst x)) <$> answers r) ++ asking (rat r) ++ queries r) /\
    (forall q a n, (q, a, n) ∈ answers r -> exists w, (v :: vs) !! n = Some w /\ a = answer_of q w) /\
    ascending (when (answers r))) /\
  ((forall s', ~ system_step s s') ->
    updatingLock s = None /\ acts_left s = [] /\ forall i r, crew s !! i = Some r -> rat r = RIdle /\ queries r = []).
Proof.
  intros Hv Hr. pose proof (reachable_ok acts v vs programs s Hv Hr) as Hs. split.
  - intros i r Hi. destruct (so_readers _ _ _ Hs i r Hi) as (p & Hp & [Ha Hw _ Ho]). split_and!; [by rewrite Hp, Ho| |done].
    intros q a n Hin. rewrite Forall_forall in Ha. destruct (Ha _ Hin) as (w & Hn & ->). exists w. split; [|done].
    destruct (so_future _ _ _ Hs) as (fs & _ & <-). by apply lookup_app_l_Some.
  - intros Hst. destruct (stuck_finished _ _ s Hs Hst) as (_ & Hl & Hc). split_and!; [|done|done].
    destruct (updatingLock s) eqn:E; [|done]. destruct (owner_goes_on _ _ s Hs) as [s' H]; [congruence|]. by destruct (Hst s').
Qed.

(** What a reader may conclude from an answer about the view [w] left by the [n]-th act. *)
Definition answer_ok (ts : Z) (X : Z -> gmap Z Entry * gmap Z Entry) (acts : list act) (n : nat) (w : View) (q : query) (a : answer) : Prop :=
  let is_side (isBid : bool) (m : gmap Z Entry) := v_synced w = true -> (forall ws, acts !! pred n <> Some (Section_ ws true)) ->
    m = (if isBid then (X (v_updateID w)).1 else (X (v_updateID w)).2) in
  match q, a with
  | QSynced, ASynced x => x = v_synced w
  | QTop isBid k, ATop es => exists m, es = Some (take k (best_first isBid m)) /\ is_side isBid m
  | QEntry isBid p, AEntry e =>
      (n = 0%nat -> e = None) /\
      ((2 <= n)%nat -> forall t, tick_of ts p = Some t -> exists m, e = Some (m !! t) /\ is_side isBid m)
  | _, _ => False
  end.

Section Exchange.
  Context `{FuturesAPI} (pair : string) (streamEnd : option (option string)) (ts : Z) (X : Z -> gmap Z Entry * gmap Z Entry).
  Context (i : Z) (h : Holder) (evs : list OrderbookArrays) (n : nat).

Definition started : View := view (new_orderbook i h evs n).

(** The book thread's program, with the tick size known. *)
Lemma synced_loop : snapshots_ok pair ts X -> Forall (event_ok ts X) evs -> tickSize_ok pair ts ->
  exists o acts vs, executionLoop pair streamEnd (new_orderbook i h evs n) = Some o /\
    views_of (SetTick true ts :: SetTick false ts :: acts) started = Some vs /\ Forall (fun a => is_tick a = false) acts /\
    plays (SetTick true ts :: SetTick false ts :: acts) started (trace o) (view o) /\ trace_ok ts X (trace o).
Proof.
  intros Hsnap Hevs Hts. destruct (executionLoop_spec pair streamEnd ts X i h evs n Hsnap Hevs Hts) as (o & Ho & Hi & _).
  destruct (loop_plays pair streamEnd _ _ Ho) as (acts & tr & Et & Hp & Hf). cbn in Et. subst tr.
  destruct Hts as (e & info & Hfe & He & Hti & Hpos). unfold loaded in Hp. rewrite Hfe in Hp. cbn [fst snd] in Hp. rewrite He, Hti in Hp.
  replace (ts <=? 0) with false in Hp by zbool. cbn [orb load_acts app] in Hp.
  destruct (plays_views _ _ _ _ Hp) as [vs Hvs]. exists o, acts, vs. split_and!; [done..|]. apply (inv_trace _ _ _ _ Hi).
Qed.

Lemma started_repr isBid : repr (side started isBid) ∅.
Proof. destruct isBid; exact repr_new. Qed.

Lemma ticks_set acts vs : views_of (SetTick true ts :: SetTick false ts :: acts) started = Some vs ->
  exists v1 v2 l, vs = v1 :: v2 :: l /\ v_synced v1 = false /\ v_synced v2 = false /\ (forall isBid, repr (side v1 isBid) ∅) /\
    views_as ts v2 /\ views_of acts v2 = Some l.
Proof.
  intros E. cbn [views_of do_act mbind option_bind] in E.
  match type of E with context [views_of acts ?v2] => destruct (views_of acts v2) as [l|] eqn:El; [|done]; set (w2 := v2) in * end.
  cbn in E. injection E as <-. eexists _, w2, l. split_and!; [done|done|done| | |done].
  - intros []; [apply (repr_setTickSize _ _ ts)|]; exact repr_new.
  - exists ∅, ∅. split; (split; [apply (repr_setTickSize _ _ ts), repr_new|done]).
Qed.

(** Any view, from the two tick sizes on. *)
Lemma view_side acts vs k w isBid : views_of (SetTick true ts :: SetTick false ts :: acts) started = Some vs ->
  Forall (fun a => is_tick a = false) acts -> (started :: vs) !! k = Some w ->
  exists m, repr (side w isBid) m /\ ((2 <= k)%nat -> tickSize (side w isBid) = ts) /\ ((k < 3)%nat -> v_synced w = false).
Proof.
  intros Hv Hf Hk. destruct (ticks_set acts vs Hv) as (v1 & v2 & l & -> & F1 & F2 & R1 & R2 & El).
  destruct k as [|[|[|k]]]; cbn in Hk.
  - injection Hk as <-. exists ∅. split_and!; [apply started_repr|lia|done].
  - injection Hk as <-. exists ∅. split_and!; [apply R1|lia|done].
  - injection Hk as <-. destruct R2 as (mb & ma & [Hb1 Hb2] & [Ha1 Ha2]). destruct isBid; eexists; by split_and!.
  - pose proof (all_views_as ts acts Hf v2 l El R2) as Hall. rewrite Forall_lookup in Hall.
    destruct (Hall k w Hk) as (mb & ma & [Hb1 Hb2] & [Ha1 Ha2]). destruct isBid; eexists; (split_and!; [done|done|lia]).
Qed.

Lemma view_current acts vs o k w isBid : views_of (SetTick true ts :: SetTick false ts :: acts) started = Some vs ->
  Forall (fun a => is_tick a = false) acts -> plays (SetTick true ts :: SetTick false ts :: acts) started (trace o) (view o) ->
  trace_ok ts X (trace o) -> (started :: vs) !! k = Some w -> v_synced w = true ->
  (forall ws, (SetTick true ts :: SetTick false ts :: acts) !! pred k <> Some (Section_ ws true)) ->
  exists m', repr (side w isBid) m' /\ m' = (if isBid then (X (v_updateID w)).1 else (X (v_updateID w)).2).
Proof.
  intros Hv Hf Hp Ht Hk Hs Hnt. destruct (view_side acts vs k w isBid Hv Hf Hk) as (_ & _ & _ & Hflag).
  assert (3 <= k)%nat as Hk3 by (destruct (decide (k < 3)%nat) as [Hlt|]; [|lia]; by rewrite Hflag in Hs).
  destruct k as [|k]; [lia|]. cbn in Hk, Hnt.
  assert (length vs = length (SetTick true ts :: SetTick false ts :: acts)) as Hlen.
  { clear -Hv. revert Hv. generalize (SetTick true ts :: SetTick false ts :: acts) as l, started as v, vs as vs'.
    induction l as [|a l IH]; intros v vs' E; cbn in E; [by injection E as <-|].
    destruct (do_act a v) as [v1|]; [cbn in E|done]. destruct (views_of l v1) as [l1|] eqn:E1; [|done]. injection E as <-. cbn. f_equal. by eapply IH. }
  destruct (lookup_lt_is_Some_2 (SetTick true ts :: SetTick false ts :: acts) k) as [a Ha]; [rewrite <- Hlen; by eapply lookup_lt_Some|].
  pose proof (plays_shown _ _ _ _ Hp vs k a w Hv Ha Hk) as Hsh.
  assert (Published w ∈ trace o) as Hpub.
  { destruct a as [isBid' t|x|ws torn]; cbn in Hsh; [|done|destruct torn; [by destruct (Hnt ws)|done]]. exfalso.
    destruct k as [|[|k]]; [lia|lia|]. cbn in Ha. rewrite Forall_lookup in Hf. by specialize (Hf k _ Ha). }
  destruct (Ht w Hpub Hs) as [[Hb _] [Ha' _]]. destruct isBid; by eexists.
Qed.

(** The side of a view that answers a query, the exchange's if the view is current. *)
Lemma view_answers acts vs o k w isBid : views_of (SetTick true ts :: SetTick false ts :: acts) started = Some vs ->
  Forall (fun a => is_tick a = false) acts -> plays (SetTick true ts :: SetTick false ts :: acts) started (trace o) (view o) ->
  trace_ok ts X (trace o) -> (started :: vs) !! k = Some w ->
  exists m, repr (side w isBid) m /\ ((2 <= k)%nat -> tickSize (side w isBid) = ts) /\
    (v_synced w = true -> (forall ws, (SetTick true ts :: SetTick false ts :: acts) !! pred k <> Some (Section_ ws true)) ->
     m = (if isBid then (X (v_updateID w)).1 else (X (v_updateID w)).2)).
Proof.
  intros Hv Hf Hp Ht Hk. destruct (view_side acts vs k w isBid Hv Hf Hk) as (m & Hr & Hts & _).
  destruct (v_synced w) eqn:Es; [|by exists m].
  destruct ((SetTick true ts :: SetTick false ts :: acts) !! pred k) as [[| |ws []]|] eqn:Ea.
  3: { exists m. split_and!; [done|done|]. intros _ Hn. by destruct (Hn ws). }
  all: destruct (view_current acts vs o k w isBid Hv Hf Hp Ht Hk Es) as (m' & Hr' & ->); [intros ws'; rewrite Ea; done|];
    eexists; split_and!; [exact Hr'|done|done].
Qed.
End Exchange.


(** ** Two readers during the first synchronisation *)
Section Demo.

Definition turn (x : option nat) (s : System) : option System := match x with None => book_step s | Some i => reader_step i s end.
Definition turns (l : list (option nat)) (s : System) : option System := foldl (fun s x => s ≫= turn x) (Some s) l.

Lemma turns_none l : foldl (fun (s : option System) x => s ≫= turn x) None l = None.
Proof. by induction l. Qed.

Lemma turns_steps l s s' : turns l s = Some s' -> rtc system_step s s'.
Proof.
  unfold turns. revert s. induction l as [|x l IH]; intros s; cbn; [intros [= <-]; apply rtc_refl|].
  destruct (turn x s) as [s1|] eqn:E; cbn; [|by rewrite turns_none]. intros Hl. eapply rtc_l; [|by apply IH].
  destruct x as [j|]; [right; by exists j|by left].
Qed.

(** The acts of [orderbook_demo]: the tick sizes, the snapshot, the event. *)
Definition demo_acts : list act :=
  [SetTick true 10; SetTick false 10; StoreSynced false;
   Section_ [WClear true; WClear false; WLevel true demo_bid; WLevel false demo_ask; WId 10] false;
   Section_ [WLevel true {| price := 1000; volume := 0 |}; WId 11] false; StoreSynced true].
Definition demo_view : View := view (new_orderbook 0 new_holder [demo_event] 3).

Definition demo_queries : list (list query) := [[QEntry true 1000]; [QTop true 5; QTop true 5; QSynced]].

(** The first asks at once; the second waits for the snapshot, then for the event. *)
Definition demo_turns : list (option nat) :=
  repeat (Some 0%nat) 3 ++ repeat None 10 ++ repeat (Some 1%nat) 3 ++ repeat None 5 ++ repeat (Some 1%nat) 4.

Definition demo_answers (s : System) : list (list (query * answer * nat)) := answers <$> crew s.
Lemma demo_run : (fun s => (demo_answers s, updatingLock s, length (acts_left s))) <$> turns demo_turns (new_System demo_acts demo_view demo_queries) =
  Some ([[(QEntry true 1000, AEntry None, 0%nat)];
         [(QTop true 5, ATop (Some [demo_bid]), 4%nat); (QTop true 5, ATop (Some []), 6%nat); (QSynced, ASynced true, 6%nat)]], None, 0%nat).
Proof. vm_compute. reflexivity. Qed.

(** They are the acts of the thread: the views it published have these ids and flags. *)
Definition marks (vs : list View) : list (Z * bool) := (fun v => (v_updateID v, v_synced v)) <$> vs.
Definition published (tr : list action) : list View := omap (fun a => match a with Published v => Some v | _ => None end) tr.

Lemma demo_views : marks <$> views_of demo_acts demo_view = Some [(0, false); (0, false); (0, false); (10, false); (11, false); (11, true)] /\
  (fun o => marks (published (trace o))) <$> @executionLoop demo_api "btcusdt" None (new_orderbook 0 new_holder [demo_event] 3) =
    Some [(0, false); (10, false); (11, false); (11, true)].
Proof. vm_compute. done. Qed.

Lemma readers_atomic_witness : exists vs s r w, views_of demo_acts demo_view = Some vs /\
  turns demo_turns (new_System demo_acts demo_view demo_queries) = Some s /\ crew s !! 1%nat = Some r /\ ascending (when (answers r)) /\
  (demo_view :: vs) !! 4%nat = Some w /\ ATop (Some [demo_bid]) = answer_of (QTop true 5) w.
Proof.
  pose proof demo_run as E. apply fmap_Some in E as (s & Hs & E). injection E as Ha _ _.
  pose proof (proj1 demo_views) as Ev. apply fmap_Some in Ev as (vs & Hv & _).
  destruct (readers_atomic demo_acts demo_view vs demo_queries s Hv (turns_steps _ _ _ Hs)) as [H _].
  assert (answers <$> crew s !! 1%nat = Some [(QTop true 5, ATop (Some [demo_bid]), 4%nat); (QTop true 5, ATop (Some []), 6%nat); (QSynced, ASynced true, 6%nat)]) as E1.
  { rewrite <- list_lookup_fmap. change (answers <$> crew s) with (demo_answers s). by rewrite <- Ha. }
  apply fmap_Some in E1 as (r & Hr & Er). destruct (H 1%nat r Hr) as (_ & Hin & Hasc).
  destruct (Hin (QTop true 5) (ATop (Some [demo_bid])) 4%nat) as (w & Hw & Hq); [rewrite <- Er; left|].
  exists vs, s, r, w. split_and!; [exact Hv|exact Hs|exact Hr|exact Hasc|exact Hw|exact Hq].
Defined.

End Demo.
