(* ===== verification/OrderRecords.v ===== *)
(** * OrderRecords: what the exchange answers about an order

    The classes of [src/api/futures/order/orderResponseEvents.hpp] as records, with one
    update per member. Members carry the initial of their class ([n_] for a new or
    modified order, [c_] cancelled, [q_] queried, [a_] account), as several classes share
    names. [OrderModifyResponse] declares the same members as [OrderNewResponse]. The
    [priceRate]s are [double]s, whose type is a parameter. *)

From S2P Require Import Prelude FixedPoint Enums RingBuffer.

Record RateLimit := {
  rl_type : RateLimitType;
  rl_interval : IntervalRateLimit;
  rl_intervalNum : Z;
  rl_limit : Z;
  rl_count : Z;
}.

(** [limitCount] starts at zero; the buffer holds eight limits. *)
Record RateLimitHolder := { rateLimitBuffer : RingBuffer RateLimit; limitCount : Z }.

Definition RATE_RING : Z := 8.

Definition new_rateLimits (datas : list RateLimit) : RateLimitHolder :=
  {| rateLimitBuffer := new_ring datas; limitCount := 0 |}.

(** The constructors from values; the first leaves [type] and [interval] of [r0] as they are. *)
Definition RateLimit_counts (r0 : RateLimit) (intervalNum_ limit_ count_ : Z) : RateLimit :=
  {| rl_type := rl_type r0; rl_interval := rl_interval r0; rl_intervalNum := intervalNum_; rl_limit := limit_; rl_count := count_ |}.
Definition RateLimit_values (type_ : RateLimitType) (interval_ : IntervalRateLimit) (intervalNum_ limit_ count_ : Z) : RateLimit :=
  {| rl_type := type_; rl_interval := interval_; rl_intervalNum := intervalNum_; rl_limit := limit_; rl_count := count_ |}.

(** The constructor from the wire names. *)
Definition RateLimit_of (type_ interval_ : string) (intervalNum_ limit_ count_ : Z) : RateLimit :=
  {| rl_type := returnRateLimitType type_; rl_interval := returnIntervalRateLimit interval_;
     rl_intervalNum := intervalNum_; rl_limit := limit_; rl_count := count_ |}.

(** The counter is bumped before the buffer is waited for; it wraps as an [int]. *)
Definition addRateLimit (h : RateLimitHolder) (type_ interval_ : string) (intervalNum_ limit_ count_ : Z) : option RateLimitHolder :=
  r ← emplaceEnqueue RATE_RING (rateLimitBuffer h) (RateLimit_of type_ interval_ intervalNum_ limit_ count_);
  Some {| rateLimitBuffer := r; limitCount := wrapS 32 (limitCount h + 1) |}.

Definition getRateLimit (h : RateLimitHolder) : option (RateLimitHolder * RateLimit) :=
  '(r, l) ← dequeue RATE_RING (rateLimitBuffer h);
  Some ({| rateLimitBuffer := r; limitCount := limitCount h |}, l).

(** ** [OrderNewResponse], [OrderModifyResponse] *)

Record OrderNewResponse := {
  n_id : string;
  n_status : Z;
  n_orderId : Z;
  n_symbol : string;
  n_orderStatus : OrderStatus;
  n_clientOrderId : string;
  n_price : Fixed;
  n_avgPrice : Fixed;
  n_origQty : Fixed;
  n_executedQty : Fixed;
  n_cumQty : Fixed;
  n_cumQuote : Fixed;
  n_timeInForce : TimeInForce;
  n_type : OrderType;
  n_reduceOnly : bool;
  n_closePosition : bool;
  n_side : OrderSide;
  n_positionSide : PositionSide;
  n_stopPrice : Fixed;
  n_workingType : WorkingType;
  n_priceProtect : bool;
  n_origType : OrderType;
  n_priceMatch : PriceMatchMode;
  n_selfTradePreventionMode : STPMode;
  n_goodTillDate : Z;
  n_updateTime : Z;
  n_rateLimits : RateLimitHolder;
}.

Definition set_n_id (r : OrderNewResponse) (v : string) : OrderNewResponse :=
  let '(Build_OrderNewResponse _ a1 a2 a3 a4 a5 a6 a7 a8 a9 a10 a11 a12 a13 a14 a15 a16 a17 a18 a19 a20 a21 a22 a23 a24 a25 a26) := r in
  Build_OrderNewResponse v a1 a2 a3 a4 a5 a6 a7 a8 a9 a10 a11 a12 a13 a14 a15 a16 a17 a18 a19 a20 a21 a22 a23 a24 a25 a26.
Definition set_n_status (r : OrderNewResponse) (v : Z) : OrderNewResponse :=
  let '(Build_OrderNewResponse a0 _ a2 a3 a4 a5 a6 a7 a8 a9 a10 a11 a12 a13 a14 a15 a16 a17 a18 a19 a20 a21 a22 a23 a24 a25 a26) := r in
  Build_OrderNewResponse a0 v a2 a3 a4 a5 a6 a7 a8 a9 a10 a11 a12 a13 a14 a15 a16 a17 a18 a19 a20 a21 a22 a23 a24 a25 a26.
Definition set_n_orderId (r : OrderNewResponse) (v : Z) : OrderNewResponse :=
  let '(Build_OrderNewResponse a0 a1 _ a3 a4 a5 a6 a7 a8 a9 a10 a11 a12 a13 a14 a15 a16 a17 a18 a19 a20 a21 a22 a23 a24 a25 a26) := r in
  Build_OrderNewResponse a0 a1 v a3 a4 a5 a6 a7 a8 a9 a10 a11 a12 a13 a14 a15 a16 a17 a18 a19 a20 a21 a22 a23 a24 a25 a26.
Definition set_n_symbol (r : OrderNewResponse) (v : string) : OrderNewResponse :=
  let '(Build_OrderNewResponse a0 a1 a2 _ a4 a5 a6 a7 a8 a9 a10 a11 a12 a13 a14 a15 a16 a17 a18 a19 a20 a21 a22 a23 a24 a25 a26) := r in
  Build_OrderNewResponse a0 a1 a2 v a4 a5 a6 a7 a8 a9 a10 a11 a12 a13 a14 a15 a16 a17 a18 a19 a20 a21 a22 a23 a24 a25 a26.
Definition set_n_orderStatus (r : OrderNewResponse) (v : OrderStatus) : OrderNewResponse :=
  let '(Build_OrderNewResponse a0 a1 a2 a3 _ a5 a6 a7 a8 a9 a10 a11 a12 a13 a14 a15 a16 a17 a18 a19 a20 a21 a22 a23 a24 a25 a26) := r in
  Build_OrderNewResponse a0 a1 a2 a3 v a5 a6 a7 a8 a9 a10 a11 a12 a13 a14 a15 a16 a17 a18 a19 a20 a21 a22 a23 a24 a25 a26.
Definition set_n_clientOrderId (r : OrderNewResponse) (v : string) : OrderNewResponse :=
  let '(Build_OrderNewResponse a0 a1 a2 a3 a4 _ a6 a7 a8 a9 a10 a11 a12 a13 a14 a15 a16 a17 a18 a19 a20 a21 a22 a23 a24 a25 a26) := r in
  Build_OrderNewResponse a0 a1 a2 a3 a4 v a6 a7 a8 a9 a10 a11 a12 a13 a14 a15 a16 a17 a18 a19 a20 a21 a22 a23 a24 a25 a26.
Definition set_n_price (r : OrderNewResponse) (v : Fixed) : OrderNewResponse :=
  let '(Build_OrderNewResponse a0 a1 a2 a3 a4 a5 _ a7 a8 a9 a10 a11 a12 a13 a14 a15 a16 a17 a18 a19 a20 a21 a22 a23 a24 a25 a26) := r in
  Build_OrderNewResponse a0 a1 a2 a3 a4 a5 v a7 a8 a9 a10 a11 a12 a13 a14 a15 a16 a17 a18 a19 a20 a21 a22 a23 a24 a25 a26.
Definition set_n_avgPrice (r : OrderNewResponse) (v : Fixed) : OrderNewResponse :=
  let '(Build_OrderNewResponse a0 a1 a2 a3 a4 a5 a6 _ a8 a9 a10 a11 a12 a13 a14 a15 a16 a17 a18 a19 a20 a21 a22 a23 a24 a25 a26) := r in
  Build_OrderNewResponse a0 a1 a2 a3 a4 a5 a6 v a8 a9 a10 a11 a12 a13 a14 a15 a16 a17 a18 a19 a20 a21 a22 a23 a24 a25 a26.
Definition set_n_origQty (r : OrderNewResponse) (v : Fixed) : OrderNewResponse :=
  let '(Build_OrderNewResponse a0 a1 a2 a3 a4 a5 a6 a7 _ a9 a10 a11 a12 a13 a14 a15 a16 a17 a18 a19 a20 a21 a22 a23 a24 a25 a26) := r in
  Build_OrderNewResponse a0 a1 a2 a3 a4 a5 a6 a7 v a9 a10 a11 a12 a13 a14 a15 a16 a17 a18 a19 a20 a21 a22 a23 a24 a25 a26.
Definition set_n_executedQty (r : OrderNewResponse) (v : Fixed) : OrderNewResponse :=
  let '(Build_OrderNewResponse a0 a1 a2 a3 a4 a5 a6 a7 a8 _ a10 a11 a12 a13 a14 a15 a16 a17 a18 a19 a20 a21 a22 a23 a24 a25 a26) := r in
  Build_OrderNewResponse a0 a1 a2 a3 a4 a5 a6 a7 a8 v a10 a11 a12 a13 a14 a15 a16 a17 a18 a19 a20 a21 a22 a23 a24 a25 a26.
Definition set_n_cumQty (r : OrderNewResponse) (v : Fixed) : OrderNewResponse :=
  let '(Build_OrderNewResponse a0 a1 a2 a3 a4 a5 a6 a7 a8 a9 _ a11 a12 a13 a14 a15 a16 a17 a18 a19 a20 a21 a22 a23 a24 a25 a26) := r in
  Build_OrderNewResponse a0 a1 a2 a3 a4 a5 a6 a7 a8 a9 v a11 a12 a13 a14 a15 a16 a17 a18 a19 a20 a21 a22 a23 a24 a25 a26.
Definition set_n_cumQuote (r : OrderNewResponse) (v : Fixed) : OrderNewResponse :=
  let '(Build_OrderNewResponse a0 a1 a2 a3 a4 a5 a6 a7 a8 a9 a10 _ a12 a13 a14 a15 a16 a17 a18 a19 a20 a21 a22 a23 a24 a25 a26) := r in
  Build_OrderNewResponse a0 a1 a2 a3 a4 a5 a6 a7 a8 a9 a10 v a12 a13 a14 a15 a16 a17 a18 a19 a20 a21 a22 a23 a24 a25 a26.
Definition set_n_timeInForce (r : OrderNewResponse) (v : TimeInForce) : OrderNewResponse :=
  let '(Build_OrderNewResponse a0 a1 a2 a3 a4 a5 a6 a7 a8 a9 a10 a11 _ a13 a14 a15 a16 a17 a18 a19 a20 a21 a22 a23 a24 a25 a26) := r in
  Build_OrderNewResponse a0 a1 a2 a3 a4 a5 a6 a7 a8 a9 a10 a11 v a13 a14 a15 a16 a17 a18 a19 a20 a21 a22 a23 a24 a25 a26.
Definition set_n_type (r : OrderNewResponse) (v : OrderType) : OrderNewResponse :=
  let '(Build_OrderNewResponse a0 a1 a2 a3 a4 a5 a6 a7 a8 a9 a10 a11 a12 _ a14 a15 a16 a17 a18 a19 a20 a21 a22 a23 a24 a25 a26) := r in
  Build_OrderNewResponse a0 a1 a2 a3 a4 a5 a6 a7 a8 a9 a10 a11 a12 v a14 a15 a16 a17 a18 a19 a20 a21 a22 a23 a24 a25 a26.
Definition set_n_reduceOnly (r : OrderNewResponse) (v : bool) : OrderNewResponse :=
  let '(Build_OrderNewResponse a0 a1 a2 a3 a4 a5 a6 a7 a8 a9 a10 a11 a12 a13 _ a15 a16 a17 a18 a19 a20 a21 a22 a23 a24 a25 a26) := r in
  Build_OrderNewResponse a0 a1 a2 a3 a4 a5 a6 a7 a8 a9 a10 a11 a12 a13 v a15 a16 a17 a18 a19 a20 a21 a22 a23 a24 a25 a26.
Definition set_n_closePosition (r : OrderNewResponse) (v : bool) : OrderNewResponse :=
  let '(Build_OrderNewResponse a0 a1 a2 a3 a4 a5 a6 a7 a8 a9 a10 a11 a12 a13 a14 _ a16 a17 a18 a19 a20 a21 a22 a23 a24 a25 a26) := r in
  Build_OrderNewResponse a0 a1 a2 a3 a4 a5 a6 a7 a8 a9 a10 a11 a12 a13 a14 v a16 a17 a18 a19 a20 a21 a22 a23 a24 a25 a26.
Definition set_n_side (r : OrderNewResponse) (v : OrderSide) : OrderNewResponse :=
  let '(Build_OrderNewResponse a0 a1 a2 a3 a4 a5 a6 a7 a8 a9 a10 a11 a12 a13 a14 a15 _ a17 a18 a19 a20 a21 a22 a23 a24 a25 a26) := r in
  Build_OrderNewResponse a0 a1 a2 a3 a4 a5 a6 a7 a8 a9 a10 a11 a12 a13 a14 a15 v a17 a18 a19 a20 a21 a22 a23 a24 a25 a26.
Definition set_n_positionSide (r : OrderNewResponse) (v : PositionSide) : OrderNewResponse :=
  let '(Build_OrderNewResponse a0 a1 a2 a3 a4 a5 a6 a7 a8 a9 a10 a11 a12 a13 a14 a15 a16 _ a18 a19 a20 a21 a22 a23 a24 a25 a26) := r in
  Build_OrderNewResponse a0 a1 a2 a3 a4 a5 a6 a7 a8 a9 a10 a11 a12 a13 a14 a15 a16 v a18 a19 a20 a21 a22 a23 a24 a25 a26.
Definition set_n_stopPrice (r : OrderNewResponse) (v : Fixed) : OrderNewResponse :=
  let '(Build_OrderNewResponse a0 a1 a2 a3 a4 a5 a6 a7 a8 a9 a10 a11 a12 a13 a14 a15 a16 a17 _ a19 a20 a21 a22 a23 a24 a25 a26) := r in
  Build_OrderNewResponse a0 a1 a2 a3 a4 a5 a6 a7 a8 a9 a10 a11 a12 a13 a14 a15 a16 a17 v a19 a20 a21 a22 a23 a24 a25 a26.
Definition set_n_workingType (r : OrderNewResponse) (v : WorkingType) : OrderNewResponse :=
  let '(Build_OrderNewResponse a0 a1 a2 a3 a4 a5 a6 a7 a8 a9 a10 a11 a12 a13 a14 a15 a16 a17 a18 _ a20 a21 a22 a23 a24 a25 a26) := r in
  Build_OrderNewResponse a0 a1 a2 a3 a4 a5 a6 a7 a8 a9 a10 a11 a12 a13 a14 a15 a16 a17 a18 v a20 a21 a22 a23 a24 a25 a26.
Definition set_n_priceProtect (r : OrderNewResponse) (v : bool) : OrderNewResponse :=
  let '(Build_OrderNewResponse a0 a1 a2 a3 a4 a5 a6 a7 a8 a9 a10 a11 a12 a13 a14 a15 a16 a17 a18 a19 _ a21 a22 a23 a24 a25 a26) := r in
  Build_OrderNewResponse a0 a1 a2 a3 a4 a5 a6 a7 a8 a9 a10 a11 a12 a13 a14 a15 a16 a17 a18 a19 v a21 a22 a23 a24 a25 a26.
Definition set_n_origType (r : OrderNewResponse) (v : OrderType) : OrderNewResponse :=
  let '(Build_OrderNewResponse a0 a1 a2 a3 a4 a5 a6 a7 a8 a9 a10 a11 a12 a13 a14 a15 a16 a17 a18 a19 a20 _ a22 a23 a24 a25 a26) := r in
  Build_OrderNewResponse a0 a1 a2 a3 a4 a5 a6 a7 a8 a9 a10 a11 a12 a13 a14 a15 a16 a17 a18 a19 a20 v a22 a23 a24 a25 a26.
Definition set_n_priceMatch (r : OrderNewResponse) (v : PriceMatchMode) : OrderNewResponse :=
  let '(Build_OrderNewResponse a0 a1 a2 a3 a4 a5 a6 a7 a8 a9 a10 a11 a12 a13 a14 a15 a16 a17 a18 a19 a20 a21 _ a23 a24 a25 a26) := r in
  Build_OrderNewResponse a0 a1 a2 a3 a4 a5 a6 a7 a8 a9 a10 a11 a12 a13 a14 a15 a16 a17 a18 a19 a20 a21 v a23 a24 a25 a26.
Definition set_n_selfTradePreventionMode (r : OrderNewResponse) (v : STPMode) : OrderNewResponse :=
  let '(Build_OrderNewResponse a0 a1 a2 a3 a4 a5 a6 a7 a8 a9 a10 a11 a12 a13 a14 a15 a16 a17 a18 a19 a20 a21 a22 _ a24 a25 a26) := r in
  Build_OrderNewResponse a0 a1 a2 a3 a4 a5 a6 a7 a8 a9 a10 a11 a12 a13 a14 a15 a16 a17 a18 a19 a20 a21 a22 v a24 a25 a26.
Definition set_n_goodTillDate (r : OrderNewResponse) (v : Z) : OrderNewResponse :=
  let '(Build_OrderNewResponse a0 a1 a2 a3 a4 a5 a6 a7 a8 a9 a10 a11 a12 a13 a14 a15 a16 a17 a18 a19 a20 a21 a22 a23 _ a25 a26) := r in
  Build_OrderNewResponse a0 a1 a2 a3 a4 a5 a6 a7 a8 a9 a10 a11 a12 a13 a14 a15 a16 a17 a18 a19 a20 a21 a22 a23 v a25 a26.
Definition set_n_updateTime (r : OrderNewResponse) (v : Z) : OrderNewResponse :=
  let '(Build_OrderNewResponse a0 a1 a2 a3 a4 a5 a6 a7 a8 a9 a10 a11 a12 a13 a14 a15 a16 a17 a18 a19 a20 a21 a22 a23 a24 _ a26) := r in
  Build_OrderNewResponse a0 a1 a2 a3 a4 a5 a6 a7 a8 a9 a10 a11 a12 a13 a14 a15 a16 a17 a18 a19 a20 a21 a22 a23 a24 v a26.
Definition set_n_rateLimits (r : OrderNewResponse) (v : RateLimitHolder) : OrderNewResponse :=
  let '(Build_OrderNewResponse a0 a1 a2 a3 a4 a5 a6 a7 a8 a9 a10 a11 a12 a13 a14 a15 a16 a17 a18 a19 a20 a21 a22 a23 a24 a25 _) := r in
  Build_OrderNewResponse a0 a1 a2 a3 a4 a5 a6 a7 a8 a9 a10 a11 a12 a13 a14 a15 a16 a17 a18 a19 a20 a21 a22 a23 a24 a25 v.

Section Double.
Context {double : Type}.

(** ** [OrderCancelResponse] *)

Record OrderCancelResponse := {
  c_id : string;
  c_status : Z;
  c_clientOrderId : string;
  c_cumQty : Fixed;
  c_cumQuote : Fixed;
  c_executedQty : Fixed;
  c_orderId : Z;
  c_origQty : Fixed;
  c_origType : OrderType;
  c_price : Fixed;
  c_reduceOnly : bool;
  c_side : OrderSide;
  c_positionSide : PositionSide;
  c_orderStatus : OrderStatus;
  c_stopPrice : Fixed;
  c_closePosition : bool;
  c_symbol : string;
  c_timeInForce : TimeInForce;
  c_type : OrderType;
  c_activatePrice : Fixed;
  c_priceRate : double;
  c_updateTime : Z;
  c_workingType : WorkingType;
  c_priceProtect : bool;
  c_priceMatch : PriceMatchMode;
  c_selfTradePreventionMode : STPMode;
  c_goodTillDate : Z;
  c_rateLimits : RateLimitHolder;
}.

Definition set_c_id (r : OrderCancelResponse) (v : string) : OrderCancelResponse :=
  let '(Build_OrderCancelResponse _ a1 a2 a3 a4 a5 a6 a7 a8 a9 a10 a11 a12 a13 a14 a15 a16 a17 a18 a19 a20 a21 a22 a23 a24 a25 a26 a27) := r in
  Build_OrderCancelResponse v a1 a2 a3 a4 a5 a6 a7 a8 a9 a10 a11 a12 a13 a14 a15 a16 a17 a18 a19 a20 a21 a22 a23 a24 a25 a26 a27.
Definition set_c_status (r : OrderCancelResponse) (v : Z) : OrderCancelResponse :=
  let '(Build_OrderCancelResponse a0 _ a2 a3 a4 a5 a6 a7 a8 a9 a10 a11 a12 a13 a14 a15 a16 a17 a18 a19 a20 a21 a22 a23 a24 a25 a26 a27) := r in
  Build_OrderCancelResponse a0 v a2 a3 a4 a5 a6 a7 a8 a9 a10 a11 a12 a13 a14 a15 a16 a17 a18 a19 a20 a21 a22 a23 a24 a25 a26 a27.
Definition set_c_clientOrderId (r : OrderCancelResponse) (v : string) : OrderCancelResponse :=
  let '(Build_OrderCancelResponse a0 a1 _ a3 a4 a5 a6 a7 a8 a9 a10 a11 a12 a13 a14 a15 a16 a17 a18 a19 a20 a21 a22 a23 a24 a25 a26 a27) := r in
  Build_OrderCancelResponse a0 a1 v a3 a4 a5 a6 a7 a8 a9 a10 a11 a12 a13 a14 a15 a16 a17 a18 a19 a20 a21 a22 a23 a24 a25 a26 a27.
Definition set_c_cumQty (r : OrderCancelResponse) (v : Fixed) : OrderCancelResponse :=
  let '(Build_OrderCancelResponse a0 a1 a2 _ a4 a5 a6 a7 a8 a9 a10 a11 a12 a13 a14 a15 a16 a17 a18 a19 a20 a21 a22 a23 a24 a25 a26 a27) := r in
  Build_OrderCancelResponse a0 a1 a2 v a4 a5 a6 a7 a8 a9 a10 a11 a12 a13 a14 a15 a16 a17 a18 a19 a20 a21 a22 a23 a24 a25 a26 a27.
Definition set_c_cumQuote (r : OrderCancelResponse) (v : Fixed) : OrderCancelResponse :=
  let '(Build_OrderCancelResponse a0 a1 a2 a3 _ a5 a6 a7 a8 a9 a10 a11 a12 a13 a14 a15 a16 a17 a18 a19 a20 a21 a22 a23 a24 a25 a26 a27) := r in
  Build_OrderCancelResponse a0 a1 a2 a3 v a5 a6 a7 a8 a9 a10 a11 a12 a13 a14 a15 a16 a17 a18 a19 a20 a21 a22 a23 a24 a25 a26 a27.
Definition set_c_executedQty (r : OrderCancelResponse) (v : Fixed) : OrderCancelResponse :=
  let '(Build_OrderCancelResponse a0 a1 a2 a3 a4 _ a6 a7 a8 a9 a10 a11 a12 a13 a14 a15 a16 a17 a18 a19 a20 a21 a22 a23 a24 a25 a26 a27) := r in
  Build_OrderCancelResponse a0 a1 a2 a3 a4 v a6 a7 a8 a9 a10 a11 a12 a13 a14 a15 a16 a17 a18 a19 a20 a21 a22 a23 a24 a25 a26 a27.
Definition set_c_orderId (r : OrderCancelResponse) (v : Z) : OrderCancelResponse :=
  let '(Build_OrderCancelResponse a0 a1 a2 a3 a4 a5 _ a7 a8 a9 a10 a11 a12 a13 a14 a15 a16 a17 a18 a19 a20 a21 a22 a23 a24 a25 a26 a27) := r in
  Build_OrderCancelResponse a0 a1 a2 a3 a4 a5 v a7 a8 a9 a10 a11 a12 a13 a14 a15 a16 a17 a18 a19 a20 a21 a22 a23 a24 a25 a26 a27.
Definition set_c_origQty (r : OrderCancelResponse) (v : Fixed) : OrderCancelResponse :=
  let '(Build_OrderCancelResponse a0 a1 a2 a3 a4 a5 a6 _ a8 a9 a10 a11 a12 a13 a14 a15 a16 a17 a18 a19 a20 a21 a22 a23 a24 a25 a26 a27) := r in
  Build_OrderCancelResponse a0 a1 a2 a3 a4 a5 a6 v a8 a9 a10 a11 a12 a13 a14 a15 a16 a17 a18 a19 a20 a21 a22 a23 a24 a25 a26 a27.
Definition set_c_origType (r : OrderCancelResponse) (v : OrderType) : OrderCancelResponse :=
  let '(Build_OrderCancelResponse a0 a1 a2 a3 a4 a5 a6 a7 _ a9 a10 a11 a12 a13 a14 a15 a16 a17 a18 a19 a20 a21 a22 a23 a24 a25 a26 a27) := r in
  Build_OrderCancelResponse a0 a1 a2 a3 a4 a5 a6 a7 v a9 a10 a11 a12 a13 a14 a15 a16 a17 a18 a19 a20 a21 a22 a23 a24 a25 a26 a27.
Definition set_c_price (r : OrderCancelResponse) (v : Fixed) : OrderCancelResponse :=
  let '(Build_OrderCancelResponse a0 a1 a2 a3 a4 a5 a6 a7 a8 _ a10 a11 a12 a13 a14 a15 a16 a17 a18 a19 a20 a21 a22 a23 a24 a25 a26 a27) := r in
  Build_OrderCancelResponse a0 a1 a2 a3 a4 a5 a6 a7 a8 v a10 a11 a12 a13 a14 a15 a16 a17 a18 a19 a20 a21 a22 a23 a24 a25 a26 a27.
Definition set_c_reduceOnly (r : OrderCancelResponse) (v : bool) : OrderCancelResponse :=
  let '(Build_OrderCancelResponse a0 a1 a2 a3 a4 a5 a6 a7 a8 a9 _ a11 a12 a13 a14 a15 a16 a17 a18 a19 a20 a21 a22 a23 a24 a25 a26 a27) := r in
  Build_OrderCancelResponse a0 a1 a2 a3 a4 a5 a6 a7 a8 a9 v a11 a12 a13 a14 a15 a16 a17 a18 a19 a20 a21 a22 a23 a24 a25 a26 a27.
Definition set_c_side (r : OrderCancelResponse) (v : OrderSide) : OrderCancelResponse :=
  let '(Build_OrderCancelResponse a0 a1 a2 a3 a4 a5 a6 a7 a8 a9 a10 _ a12 a13 a14 a15 a16 a17 a18 a19 a20 a21 a22 a23 a24 a25 a26 a27) := r in
  Build_OrderCancelResponse a0 a1 a2 a3 a4 a5 a6 a7 a8 a9 a10 v a12 a13 a14 a15 a16 a17 a18 a19 a20 a21 a22 a23 a24 a25 a26 a27.
Definition set_c_positionSide (r : OrderCancelResponse) (v : PositionSide) : OrderCancelResponse :=
  let '(Build_OrderCancelResponse a0 a1 a2 a3 a4 a5 a6 a7 a8 a9 a10 a11 _ a13 a14 a15 a16 a17 a18 a19 a20 a21 a22 a23 a24 a25 a26 a27) := r in
  Build_OrderCancelResponse a0 a1 a2 a3 a4 a5 a6 a7 a8 a9 a10 a11 v a13 a14 a15 a16 a17 a18 a19 a20 a21 a22 a23 a24 a25 a26 a27.
Definition set_c_orderStatus (r : OrderCancelResponse) (v : OrderStatus) : OrderCancelResponse :=
  let '(Build_OrderCancelResponse a0 a1 a2 a3 a4 a5 a6 a7 a8 a9 a10 a11 a12 _ a14 a15 a16 a17 a18 a19 a20 a21 a22 a23 a24 a25 a26 a27) := r in
  Build_OrderCancelResponse a0 a1 a2 a3 a4 a5 a6 a7 a8 a9 a10 a11 a12 v a14 a15 a16 a17 a18 a19 a20 a21 a22 a23 a24 a25 a26 a27.
Definition set_c_stopPrice (r : OrderCancelResponse) (v : Fixed) : OrderCancelResponse :=
  let '(Build_OrderCancelResponse a0 a1 a2 a3 a4 a5 a6 a7 a8 a9 a10 a11 a12 a13 _ a15 a16 a17 a18 a19 a20 a21 a22 a23 a24 a25 a26 a27) := r in
  Build_OrderCancelResponse a0 a1 a2 a3 a4 a5 a6 a7 a8 a9 a10 a11 a12 a13 v a15 a16 a17 a18 a19 a20 a21 a22 a23 a24 a25 a26 a27.
Definition set_c_closePosition (r : OrderCancelResponse) (v : bool) : OrderCancelResponse :=
  let '(Build_OrderCancelResponse a0 a1 a2 a3 a4 a5 a6 a7 a8 a9 a10 a11 a12 a13 a14 _ a16 a17 a18 a19 a20 a21 a22 a23 a24 a25 a26 a27) := r in
  Build_OrderCancelResponse a0 a1 a2 a3 a4 a5 a6 a7 a8 a9 a10 a11 a12 a13 a14 v a16 a17 a18 a19 a20 a21 a22 a23 a24 a25 a26 a27.
Definition set_c_symbol (r : OrderCancelResponse) (v : string) : OrderCancelResponse :=
  let '(Build_OrderCancelResponse a0 a1 a2 a3 a4 a5 a6 a7 a8 a9 a10 a11 a12 a13 a14 a15 _ a17 a18 a19 a20 a21 a22 a23 a24 a25 a26 a27) := r in
  Build_OrderCancelResponse a0 a1 a2 a3 a4 a5 a6 a7 a8 a9 a10 a11 a12 a13 a14 a15 v a17 a18 a19 a20 a21 a22 a23 a24 a25 a26 a27.
Definition set_c_timeInForce (r : OrderCancelResponse) (v : TimeInForce) : OrderCancelResponse :=
  let '(Build_OrderCancelResponse a0 a1 a2 a3 a4 a5 a6 a7 a8 a9 a10 a11 a12 a13 a14 a15 a16 _ a18 a19 a20 a21 a22 a23 a24 a25 a26 a27) := r in
  Build_OrderCancelResponse a0 a1 a2 a3 a4 a5 a6 a7 a8 a9 a10 a11 a12 a13 a14 a15 a16 v a18 a19 a20 a21 a22 a23 a24 a25 a26 a27.
Definition set_c_type (r : OrderCancelResponse) (v : OrderType) : OrderCancelResponse :=
  let '(Build_OrderCancelResponse a0 a1 a2 a3 a4 a5 a6 a7 a8 a9 a10 a11 a12 a13 a14 a15 a16 a17 _ a19 a20 a21 a22 a23 a24 a25 a26 a27) := r in
  Build_OrderCancelResponse a0 a1 a2 a3 a4 a5 a6 a7 a8 a9 a10 a11 a12 a13 a14 a15 a16 a17 v a19 a20 a21 a22 a23 a24 a25 a26 a27.
Definition set_c_activatePrice (r : OrderCancelResponse) (v : Fixed) : OrderCancelResponse :=
  let '(Build_OrderCancelResponse a0 a1 a2 a3 a4 a5 a6 a7 a8 a9 a10 a11 a12 a13 a14 a15 a16 a17 a18 _ a20 a21 a22 a23 a24 a25 a26 a27) := r in
  Build_OrderCancelResponse a0 a1 a2 a3 a4 a5 a6 a7 a8 a9 a10 a11 a12 a13 a14 a15 a16 a17 a18 v a20 a21 a22 a23 a24 a25 a26 a27.
Definition set_c_priceRate (r : OrderCancelResponse) (v : double) : OrderCancelResponse :=
  let '(Build_OrderCancelResponse a0 a1 a2 a3 a4 a5 a6 a7 a8 a9 a10 a11 a12 a13 a14 a15 a16 a17 a18 a19 _ a21 a22 a23 a24 a25 a26 a27) := r in
  Build_OrderCancelResponse a0 a1 a2 a3 a4 a5 a6 a7 a8 a9 a10 a11 a12 a13 a14 a15 a16 a17 a18 a19 v a21 a22 a23 a24 a25 a26 a27.
Definition set_c_updateTime (r : OrderCancelResponse) (v : Z) : OrderCancelResponse :=
  let '(Build_OrderCancelResponse a0 a1 a2 a3 a4 a5 a6 a7 a8 a9 a10 a11 a12 a13 a14 a15 a16 a17 a18 a19 a20 _ a22 a23 a24 a25 a26 a27) := r in
  Build_OrderCancelResponse a0 a1 a2 a3 a4 a5 a6 a7 a8 a9 a10 a11 a12 a13 a14 a15 a16 a17 a18 a19 a20 v a22 a23 a24 a25 a26 a27.
Definition set_c_workingType (r : OrderCancelResponse) (v : WorkingType) : OrderCancelResponse :=
  let '(Build_OrderCancelResponse a0 a1 a2 a3 a4 a5 a6 a7 a8 a9 a10 a11 a12 a13 a14 a15 a16 a17 a18 a19 a20 a21 _ a23 a24 a25 a26 a27) := r in
  Build_OrderCancelResponse a0 a1 a2 a3 a4 a5 a6 a7 a8 a9 a10 a11 a12 a13 a14 a15 a16 a17 a18 a19 a20 a21 v a23 a24 a25 a26 a27.
Definition set_c_priceProtect (r : OrderCancelResponse) (v : bool) : OrderCancelResponse :=
  let '(Build_OrderCancelResponse a0 a1 a2 a3 a4 a5 a6 a7 a8 a9 a10 a11 a12 a13 a14 a15 a16 a17 a18 a19 a20 a21 a22 _ a24 a25 a26 a27) := r in
  Build_OrderCancelResponse a0 a1 a2 a3 a4 a5 a6 a7 a8 a9 a10 a11 a12 a13 a14 a15 a16 a17 a18 a19 a20 a21 a22 v a24 a25 a26 a27.
Definition set_c_priceMatch (r : OrderCancelResponse) (v : PriceMatchMode) : OrderCancelResponse :=
  let '(Build_OrderCancelResponse a0 a1 a2 a3 a4 a5 a6 a7 a8 a9 a10 a11 a12 a13 a14 a15 a16 a17 a18 a19 a20 a21 a22 a23 _ a25 a26 a27) := r in
  Build_OrderCancelResponse a0 a1 a2 a3 a4 a5 a6 a7 a8 a9 a10 a11 a12 a13 a14 a15 a16 a17 a18 a19 a20 a21 a22 a23 v a25 a26 a27.
Definition set_c_selfTradePreventionMode (r : OrderCancelResponse) (v : STPMode) : OrderCancelResponse :=
  let '(Build_OrderCancelResponse a0 a1 a2 a3 a4 a5 a6 a7 a8 a9 a10 a11 a12 a13 a14 a15 a16 a17 a18 a19 a20 a21 a22 a23 a24 _ a26 a27) := r in
  Build_OrderCancelResponse a0 a1 a2 a3 a4 a5 a6 a7 a8 a9 a10 a11 a12 a13 a14 a15 a16 a17 a18 a19 a20 a21 a22 a23 a24 v a26 a27.
Definition set_c_goodTillDate (r : OrderCancelResponse) (v : Z) : OrderCancelResponse :=
  let '(Build_OrderCancelResponse a0 a1 a2 a3 a4 a5 a6 a7 a8 a9 a10 a11 a12 a13 a14 a15 a16 a17 a18 a19 a20 a21 a22 a23 a24 a25 _ a27) := r in
  Build_OrderCancelResponse a0 a1 a2 a3 a4 a5 a6 a7 a8 a9 a10 a11 a12 a13 a14 a15 a16 a17 a18 a19 a20 a21 a22 a23 a24 a25 v a27.
Definition set_c_rateLimits (r : OrderCancelResponse) (v : RateLimitHolder) : OrderCancelResponse :=
  let '(Build_OrderCancelResponse a0 a1 a2 a3 a4 a5 a6 a7 a8 a9 a10 a11 a12 a13 a14 a15 a16 a17 a18 a19 a20 a21 a22 a23 a24 a25 a26 _) := r in
  Build_OrderCancelResponse a0 a1 a2 a3 a4 a5 a6 a7 a8 a9 a10 a11 a12 a13 a14 a15 a16 a17 a18 a19 a20 a21 a22 a23 a24 a25 a26 v.

(** ** [QueryOrderResponse] *)

Record QueryOrderResponse := {
  q_orderId : Z;
  q_clientOrderId : string;
  q_symbol : string;
  q_side : OrderSide;
  q_positionSide : PositionSide;
  q_status : OrderStatus;
  q_timeInForce : TimeInForce;
  q_type : OrderType;
  q_workingType : WorkingType;
  q_avgPrice : Fixed;
  q_cumQuote : Fixed;
  q_executedQty : Fixed;
  q_origQty : Fixed;
  q_price : Fixed;
  q_stopPrice : Fixed;
  q_activatePrice : Fixed;
  q_priceRate : double;
  q_reduceOnly : bool;
  q_closePosition : bool;
  q_priceProtect : bool;
  q_time : Z;
  q_updateTime : Z;
  q_rateLimits : RateLimitHolder;
}.

Definition set_q_orderId (r : QueryOrderResponse) (v : Z) : QueryOrderResponse :=
  let '(Build_QueryOrderResponse _ a1 a2 a3 a4 a5 a6 a7 a8 a9 a10 a11 a12 a13 a14 a15 a16 a17 a18 a19 a20 a21 a22) := r in
  Build_QueryOrderResponse v a1 a2 a3 a4 a5 a6 a7 a8 a9 a10 a11 a12 a13 a14 a15 a16 a17 a18 a19 a20 a21 a22.
Definition set_q_clientOrderId (r : QueryOrderResponse) (v : string) : QueryOrderResponse :=
  let '(Build_QueryOrderResponse a0 _ a2 a3 a4 a5 a6 a7 a8 a9 a10 a11 a12 a13 a14 a15 a16 a17 a18 a19 a20 a21 a22) := r in
  Build_QueryOrderResponse a0 v a2 a3 a4 a5 a6 a7 a8 a9 a10 a11 a12 a13 a14 a15 a16 a17 a18 a19 a20 a21 a22.
Definition set_q_symbol (r : QueryOrderResponse) (v : string) : QueryOrderResponse :=
  let '(Build_QueryOrderResponse a0 a1 _ a3 a4 a5 a6 a7 a8 a9 a10 a11 a12 a13 a14 a15 a16 a17 a18 a19 a20 a21 a22) := r in
  Build_QueryOrderResponse a0 a1 v a3 a4 a5 a6 a7 a8 a9 a10 a11 a12 a13 a14 a15 a16 a17 a18 a19 a20 a21 a22.
Definition set_q_side (r : QueryOrderResponse) (v : OrderSide) : QueryOrderResponse :=
  let '(Build_QueryOrderResponse a0 a1 a2 _ a4 a5 a6 a7 a8 a9 a10 a11 a12 a13 a14 a15 a16 a17 a18 a19 a20 a21 a22) := r in
  Build_QueryOrderResponse a0 a1 a2 v a4 a5 a6 a7 a8 a9 a10 a11 a12 a13 a14 a15 a16 a17 a18 a19 a20 a21 a22.
Definition set_q_positionSide (r : QueryOrderResponse) (v : PositionSide) : QueryOrderResponse :=
  let '(Build_QueryOrderResponse a0 a1 a2 a3 _ a5 a6 a7 a8 a9 a10 a11 a12 a13 a14 a15 a16 a17 a18 a19 a20 a21 a22) := r in
  Build_QueryOrderResponse a0 a1 a2 a3 v a5 a6 a7 a8 a9 a10 a11 a12 a13 a14 a15 a16 a17 a18 a19 a20 a21 a22.
Definition set_q_status (r : QueryOrderResponse) (v : OrderStatus) : QueryOrderResponse :=
  let '(Build_QueryOrderResponse a0 a1 a2 a3 a4 _ a6 a7 a8 a9 a10 a11 a12 a13 a14 a15 a16 a17 a18 a19 a20 a21 a22) := r in
  Build_QueryOrderResponse a0 a1 a2 a3 a4 v a6 a7 a8 a9 a10 a11 a12 a13 a14 a15 a16 a17 a18 a19 a20 a21 a22.
Definition set_q_timeInForce (r : QueryOrderResponse) (v : TimeInForce) : QueryOrderResponse :=
  let '(Build_QueryOrderResponse a0 a1 a2 a3 a4 a5 _ a7 a8 a9 a10 a11 a12 a13 a14 a15 a16 a17 a18 a19 a20 a21 a22) := r in
  Build_QueryOrderResponse a0 a1 a2 a3 a4 a5 v a7 a8 a9 a10 a11 a12 a13 a14 a15 a16 a17 a18 a19 a20 a21 a22.
Definition set_q_type (r : QueryOrderResponse) (v : OrderType) : QueryOrderResponse :=
  let '(Build_QueryOrderResponse a0 a1 a2 a3 a4 a5 a6 _ a8 a9 a10 a11 a12 a13 a14 a15 a16 a17 a18 a19 a20 a21 a22) := r in
  Build_QueryOrderResponse a0 a1 a2 a3 a4 a5 a6 v a8 a9 a10 a11 a12 a13 a14 a15 a16 a17 a18 a19 a20 a21 a22.
Definition set_q_workingType (r : QueryOrderResponse) (v : WorkingType) : QueryOrderResponse :=
  let '(Build_QueryOrderResponse a0 a1 a2 a3 a4 a5 a6 a7 _ a9 a10 a11 a12 a13 a14 a15 a16 a17 a18 a19 a20 a21 a22) := r in
  Build_QueryOrderResponse a0 a1 a2 a3 a4 a5 a6 a7 v a9 a10 a11 a12 a13 a14 a15 a16 a17 a18 a19 a20 a21 a22.
Definition set_q_avgPrice (r : QueryOrderResponse) (v : Fixed) : QueryOrderResponse :=
  let '(Build_QueryOrderResponse a0 a1 a2 a3 a4 a5 a6 a7 a8 _ a10 a11 a12 a13 a14 a15 a16 a17 a18 a19 a20 a21 a22) := r in
  Build_QueryOrderResponse a0 a1 a2 a3 a4 a5 a6 a7 a8 v a10 a11 a12 a13 a14 a15 a16 a17 a18 a19 a20 a21 a22.
Definition set_q_cumQuote (r : QueryOrderResponse) (v : Fixed) : QueryOrderResponse :=
  let '(Build_QueryOrderResponse a0 a1 a2 a3 a4 a5 a6 a7 a8 a9 _ a11 a12 a13 a14 a15 a16 a17 a18 a19 a20 a21 a22) := r in
  Build_QueryOrderResponse a0 a1 a2 a3 a4 a5 a6 a7 a8 a9 v a11 a12 a13 a14 a15 a16 a17 a18 a19 a20 a21 a22.
Definition set_q_executedQty (r : QueryOrderResponse) (v : Fixed) : QueryOrderResponse :=
  let '(Build_QueryOrderResponse a0 a1 a2 a3 a4 a5 a6 a7 a8 a9 a10 _ a12 a13 a14 a15 a16 a17 a18 a19 a20 a21 a22) := r in
  Build_QueryOrderResponse a0 a1 a2 a3 a4 a5 a6 a7 a8 a9 a10 v a12 a13 a14 a15 a16 a17 a18 a19 a20 a21 a22.
Definition set_q_origQty (r : QueryOrderResponse) (v : Fixed) : QueryOrderResponse :=
  let '(Build_QueryOrderResponse a0 a1 a2 a3 a4 a5 a6 a7 a8 a9 a10 a11 _ a13 a14 a15 a16 a17 a18 a19 a20 a21 a22) := r in
  Build_QueryOrderResponse a0 a1 a2 a3 a4 a5 a6 a7 a8 a9 a10 a11 v a13 a14 a15 a16 a17 a18 a19 a20 a21 a22.
Definition set_q_price (r : QueryOrderResponse) (v : Fixed) : QueryOrderResponse :=
  let '(Build_QueryOrderResponse a0 a1 a2 a3 a4 a5 a6 a7 a8 a9 a10 a11 a12 _ a14 a15 a16 a17 a18 a19 a20 a21 a22) := r in
  Build_QueryOrderResponse a0 a1 a2 a3 a4 a5 a6 a7 a8 a9 a10 a11 a12 v a14 a15 a16 a17 a18 a19 a20 a21 a22.
Definition set_q_stopPrice (r : QueryOrderResponse) (v : Fixed) : QueryOrderResponse :=
  let '(Build_QueryOrderResponse a0 a1 a2 a3 a4 a5 a6 a7 a8 a9 a10 a11 a12 a13 _ a15 a16 a17 a18 a19 a20 a21 a22) := r in
  Build_QueryOrderResponse a0 a1 a2 a3 a4 a5 a6 a7 a8 a9 a10 a11 a12 a13 v a15 a16 a17 a18 a19 a20 a21 a22.
Definition set_q_activatePrice (r : QueryOrderResponse) (v : Fixed) : QueryOrderResponse :=
  let '(Build_QueryOrderResponse a0 a1 a2 a3 a4 a5 a6 a7 a8 a9 a10 a11 a12 a13 a14 _ a16 a17 a18 a19 a20 a21 a22) := r in
  Build_QueryOrderResponse a0 a1 a2 a3 a4 a5 a6 a7 a8 a9 a10 a11 a12 a13 a14 v a16 a17 a18 a19 a20 a21 a22.
Definition set_q_priceRate (r : QueryOrderResponse) (v : double) : QueryOrderResponse :=
  let '(Build_QueryOrderResponse a0 a1 a2 a3 a4 a5 a6 a7 a8 a9 a10 a11 a12 a13 a14 a15 _ a17 a18 a19 a20 a21 a22) := r in
  Build_QueryOrderResponse a0 a1 a2 a3 a4 a5 a6 a7 a8 a9 a10 a11 a12 a13 a14 a15 v a17 a18 a19 a20 a21 a22.
Definition set_q_reduceOnly (r : QueryOrderResponse) (v : bool) : QueryOrderResponse :=
  let '(Build_QueryOrderResponse a0 a1 a2 a3 a4 a5 a6 a7 a8 a9 a10 a11 a12 a13 a14 a15 a16 _ a18 a19 a20 a21 a22) := r in
  Build_QueryOrderResponse a0 a1 a2 a3 a4 a5 a6 a7 a8 a9 a10 a11 a12 a13 a14 a15 a16 v a18 a19 a20 a21 a22.
Definition set_q_closePosition (r : QueryOrderResponse) (v : bool) : QueryOrderResponse :=
  let '(Build_QueryOrderResponse a0 a1 a2 a3 a4 a5 a6 a7 a8 a9 a10 a11 a12 a13 a14 a15 a16 a17 _ a19 a20 a21 a22) := r in
  Build_QueryOrderResponse a0 a1 a2 a3 a4 a5 a6 a7 a8 a9 a10 a11 a12 a13 a14 a15 a16 a17 v a19 a20 a21 a22.
Definition set_q_priceProtect (r : QueryOrderResponse) (v : bool) : QueryOrderResponse :=
  let '(Build_QueryOrderResponse a0 a1 a2 a3 a4 a5 a6 a7 a8 a9 a10 a11 a12 a13 a14 a15 a16 a17 a18 _ a20 a21 a22) := r in
  Build_QueryOrderResponse a0 a1 a2 a3 a4 a5 a6 a7 a8 a9 a10 a11 a12 a13 a14 a15 a16 a17 a18 v a20 a21 a22.
Definition set_q_time (r : QueryOrderResponse) (v : Z) : QueryOrderResponse :=
  let '(Build_QueryOrderResponse a0 a1 a2 a3 a4 a5 a6 a7 a8 a9 a10 a11 a12 a13 a14 a15 a16 a17 a18 a19 _ a21 a22) := r in
  Build_QueryOrderResponse a0 a1 a2 a3 a4 a5 a6 a7 a8 a9 a10 a11 a12 a13 a14 a15 a16 a17 a18 a19 v a21 a22.
Definition set_q_updateTime (r : QueryOrderResponse) (v : Z) : QueryOrderResponse :=
  let '(Build_QueryOrderResponse a0 a1 a2 a3 a4 a5 a6 a7 a8 a9 a10 a11 a12 a13 a14 a15 a16 a17 a18 a19 a20 _ a22) := r in
  Build_QueryOrderResponse a0 a1 a2 a3 a4 a5 a6 a7 a8 a9 a10 a11 a12 a13 a14 a15 a16 a17 a18 a19 a20 v a22.
Definition set_q_rateLimits (r : QueryOrderResponse) (v : RateLimitHolder) : QueryOrderResponse :=
  let '(Build_QueryOrderResponse a0 a1 a2 a3 a4 a5 a6 a7 a8 a9 a10 a11 a12 a13 a14 a15 a16 a17 a18 a19 a20 a21 _) := r in
  Build_QueryOrderResponse a0 a1 a2 a3 a4 a5 a6 a7 a8 a9 a10 a11 a12 a13 a14 a15 a16 a17 a18 a19 a20 a21 v.
End Double.
Arguments OrderCancelResponse double : clear implicits.
Arguments QueryOrderResponse double : clear implicits.

(** ** [AccountInfoResponse] *)

Record AccountInfoResponse := {
  a_id : string;
  a_status : Z;
  a_accountAlias : string;
  a_asset : string;
  a_balance : Fixed;
  a_crossWalletBalance : Fixed;
  a_crossUnPnl : Fixed;
  a_availableBalance : Fixed;
  a_maxWithdrawAmount : Fixed;
  a_marginAvailable : bool;
  a_updateTime : Z;
  a_rateLimits : RateLimitHolder;
}.

Definition set_a_id (r : AccountInfoResponse) (v : string) : AccountInfoResponse :=
  let '(Build_AccountInfoResponse _ a1 a2 a3 a4 a5 a6 a7 a8 a9 a10 a11) := r in
  Build_AccountInfoResponse v a1 a2 a3 a4 a5 a6 a7 a8 a9 a10 a11.
Definition set_a_status (r : AccountInfoResponse) (v : Z) : AccountInfoResponse :=
  let '(Build_AccountInfoResponse a0 _ a2 a3 a4 a5 a6 a7 a8 a9 a10 a11) := r in
  Build_AccountInfoResponse a0 v a2 a3 a4 a5 a6 a7 a8 a9 a10 a11.
Definition set_a_accountAlias (r : AccountInfoResponse) (v : string) : AccountInfoResponse :=
  let '(Build_AccountInfoResponse a0 a1 _ a3 a4 a5 a6 a7 a8 a9 a10 a11) := r in
  Build_AccountInfoResponse a0 a1 v a3 a4 a5 a6 a7 a8 a9 a10 a11.
Definition set_a_asset (r : AccountInfoResponse) (v : string) : AccountInfoResponse :=
  let '(Build_AccountInfoResponse a0 a1 a2 _ a4 a5 a6 a7 a8 a9 a10 a11) := r in
  Build_AccountInfoResponse a0 a1 a2 v a4 a5 a6 a7 a8 a9 a10 a11.
Definition set_a_balance (r : AccountInfoResponse) (v : Fixed) : AccountInfoResponse :=
  let '(Build_AccountInfoResponse a0 a1 a2 a3 _ a5 a6 a7 a8 a9 a10 a11) := r in
  Build_AccountInfoResponse a0 a1 a2 a3 v a5 a6 a7 a8 a9 a10 a11.
Definition set_a_crossWalletBalance (r : AccountInfoResponse) (v : Fixed) : AccountInfoResponse :=
  let '(Build_AccountInfoResponse a0 a1 a2 a3 a4 _ a6 a7 a8 a9 a10 a11) := r in
  Build_AccountInfoResponse a0 a1 a2 a3 a4 v a6 a7 a8 a9 a10 a11.
Definition set_a_crossUnPnl (r : AccountInfoResponse) (v : Fixed) : AccountInfoResponse :=
  let '(Build_AccountInfoResponse a0 a1 a2 a3 a4 a5 _ a7 a8 a9 a10 a11) := r in
  Build_AccountInfoResponse a0 a1 a2 a3 a4 a5 v a7 a8 a9 a10 a11.
Definition set_a_availableBalance (r : AccountInfoResponse) (v : Fixed) : AccountInfoResponse :=
  let '(Build_AccountInfoResponse a0 a1 a2 a3 a4 a5 a6 _ a8 a9 a10 a11) := r in
  Build_AccountInfoResponse a0 a1 a2 a3 a4 a5 a6 v a8 a9 a10 a11.
Definition set_a_maxWithdrawAmount (r : AccountInfoResponse) (v : Fixed) : AccountInfoResponse :=
  let '(Build_AccountInfoResponse a0 a1 a2 a3 a4 a5 a6 a7 _ a9 a10 a11) := r in
  Build_AccountInfoResponse a0 a1 a2 a3 a4 a5 a6 a7 v a9 a10 a11.
Definition set_a_marginAvailable (r : AccountInfoResponse) (v : bool) : AccountInfoResponse :=
  let '(Build_AccountInfoResponse a0 a1 a2 a3 a4 a5 a6 a7 a8 _ a10 a11) := r in
  Build_AccountInfoResponse a0 a1 a2 a3 a4 a5 a6 a7 a8 v a10 a11.
Definition set_a_updateTime (r : AccountInfoResponse) (v : Z) : AccountInfoResponse :=
  let '(Build_AccountInfoResponse a0 a1 a2 a3 a4 a5 a6 a7 a8 a9 _ a11) := r in
  Build_AccountInfoResponse a0 a1 a2 a3 a4 a5 a6 a7 a8 a9 v a11.
Definition set_a_rateLimits (r : AccountInfoResponse) (v : RateLimitHolder) : AccountInfoResponse :=
  let '(Build_AccountInfoResponse a0 a1 a2 a3 a4 a5 a6 a7 a8 a9 a10 _) := r in
  Build_AccountInfoResponse a0 a1 a2 a3 a4 a5 a6 a7 a8 a9 a10 v.
