(* ===== verification/OrderResponses.v ===== *)
(** * OrderResponses: reading the exchange's answers about orders

    Models the [parseFields] members of [src/api/futures/order/orderResponseEvents.hpp]
    and [OrderResponsePtrWrapper]. A parser is a computation of [SE] over the object it
    fills and the local string its enum members go through; that string keeps its last
    value when a field is missing, as [get_string(receiver)] leaves its receiver.
    [OrderNewResponse] and [AccountInfoResponse] swallow what their parser throws and
    keep the members assigned so far; the other constructors let it out, so no object
    exists then. A member before its first assignment is indeterminate: the initial
    object is an argument. *)

From S2P Require Import Prelude FixedPoint Model Enums Json RingBuffer OrderRecords.

(** [get_double_in_string], as a [double] is not modelled. *)
Class JsonDouble (V double : Type) := { get_double_in_string : V -> sj double; double_zero : double }.

(** ** The steps of a parser *)

Section Steps.
  Context {V : Type} `{Json V} {R : Type}.

Definition upd (f : R -> R) : SE (R * string) unit := modify (fun s => (f s.1, s.2)).

(** [f.get_string(member)]. *)
Definition get_str (f : sj V) (g : R -> string) (set : R -> string -> R) : SE (R * string) unit :=
  upd (fun r => set r (assign_string f (g r))).
(** [member = readFixed(f)]. *)
Definition get_fixed (f : sj V) (set : R -> Fixed -> R) : SE (R * string) unit :=
  n ← lift (readFixed f); upd (fun r => set r n).
(** [member = f.get_int64().value()]. *)
Definition get_int (f : sj V) (set : R -> Z -> R) : SE (R * string) unit :=
  n ← lift (value (f ≫= get_int64)); upd (fun r => set r n).
(** [member = f.get_bool().value()]. *)
Definition get_flag (f : sj V) (set : R -> bool -> R) : SE (R * string) unit :=
  b ← lift (value (f ≫= get_bool)); upd (fun r => set r b).
(** [f.get_string(intermediateString); member = returnE(intermediateString)]. *)
Definition get_enum {E} (f : sj V) (ret : string -> result E) (set : R -> E -> R) : SE (R * string) unit :=
  _ ← modify (fun s => (s.1, assign_string f s.2));
  s ← get_state;
  e ← lift (ret s.2);
  upd (fun r => set r e).

(** The loop over ["rateLimits"], with its two local strings. *)
Fixpoint rate_loop (rates : list (sj V)) (ty iv : string) : SE RateLimitHolder unit :=
  match rates with
  | [] => mret tt
  | rate :: rates' =>
      obj ← lift (value (rate ≫= get_object));
      let ty' := assign_string (field obj "rateLimitType") ty in
      let iv' := assign_string (field obj "interval") iv in
      intervalNum ← lift (value (field obj "intervalNum" ≫= get_int64));
      limit ← lift (value (field obj "limit" ≫= get_int64));
      count ← lift (value (field obj "count" ≫= get_int64));
      _ ← (fun h => h' ← addRateLimit h ty' iv' intervalNum limit count; Some (Ok tt, h'));
      rate_loop rates' ty' iv'
  end.

(** Runs code on one member of the object. *)
Definition zoom {M} (g : R -> M) (set : R -> M -> R) (m : SE M unit) : SE (R * string) unit := fun s =>
  '(x, h) ← m (g s.1); Some (x, (set s.1 h, s.2)).

Definition get_rates (doc : V) (g : R -> RateLimitHolder) (set : R -> RateLimitHolder -> R) : SE (R * string) unit :=
  rates ← lift (value (field doc "rateLimits" ≫= get_array));
  zoom g set (rate_loop rates "" "").

(** Runs a parser with a fresh [intermediateString]. *)
Definition parse_into (m : SE (R * string) unit) (r : R) : option (result unit * R) :=
  '(x, (r', _)) ← m (r, ""%string); Some (x, r').

(** A constructor that lets exceptions out, and one that swallows them. *)
Definition construct (m : SE (R * string) unit) (r : R) : option (result R) :=
  '(x, r') ← parse_into m r; Some (match x with Ok _ => Ok r' | Throw e => Throw e end).
Definition construct_quiet (m : SE (R * string) unit) (r : R) : option (result R) :=
  '(_, r') ← parse_into m r; Some (Ok r').
End Steps.

Section Parsers.
  Context {V : Type} `{Json V} {double : Type} `{JsonDouble V double}.

(** [OrderNewResponse::parseFields] inside its [try], and [OrderModifyResponse::parseFields];
    neither assigns [closePosition]. *)
Definition parse_order (doc : V) : SE (OrderNewResponse * string) unit :=
  _ ← get_str (field doc "id") n_id set_n_id;
  _ ← get_int (field doc "status") (fun r n => set_n_status r (wrapS 32 n));
  obj ← lift (value (field doc "result" ≫= get_object));
  _ ← get_int (field obj "orderId") set_n_orderId;
  _ ← get_str (field obj "symbol") n_symbol set_n_symbol;
  _ ← get_enum (field obj "status") returnOrderStatus set_n_orderStatus;
  _ ← get_str (field obj "clientOrderId") n_clientOrderId set_n_clientOrderId;
  _ ← get_fixed (field obj "price") set_n_price;
  _ ← get_fixed (field obj "avgPrice") set_n_avgPrice;
  _ ← get_fixed (field obj "origQty") set_n_origQty;
  _ ← get_fixed (field obj "executedQty") set_n_executedQty;
  _ ← get_fixed (field obj "cumQty") set_n_cumQty;
  _ ← get_fixed (field obj "cumQuote") set_n_cumQuote;
  _ ← get_enum (field obj "timeInForce") (fun s => Ok (returnTimeInForce s)) set_n_timeInForce;
  _ ← get_enum (field obj "type") returnOrderType set_n_type;
  _ ← get_flag (field obj "reduceOnly") set_n_reduceOnly;
  _ ← get_enum (field obj "side") returnOrderSide set_n_side;
  _ ← get_enum (field obj "positionSide") returnPositionSide set_n_positionSide;
  _ ← get_fixed (field obj "stopPrice") set_n_stopPrice;
  _ ← get_enum (field obj "workingType") returnWorkingType set_n_workingType;
  _ ← get_flag (field obj "priceProtect") set_n_priceProtect;
  _ ← get_enum (field obj "origType") returnOrderType set_n_origType;
  _ ← get_enum (field obj "priceMatch") returnPriceMatchMode set_n_priceMatch;
  _ ← get_enum (field obj "selfTradePreventionMode") returnSTPMode set_n_selfTradePreventionMode;
  _ ← get_int (field obj "goodTillDate") set_n_goodTillDate;
  _ ← get_int (field obj "updateTime") set_n_updateTime;
  get_rates doc n_rateLimits set_n_rateLimits.

Definition OrderNewResponse_of (r0 : OrderNewResponse) (doc : V) : option (result OrderNewResponse) :=
  construct_quiet (parse_order doc) r0.
Definition OrderModifyResponse_of (r0 : OrderNewResponse) (doc : V) : option (result OrderNewResponse) :=
  construct (parse_order doc) r0.

(** The members only trailing stops have. *)
Definition get_trailing {R} (obj : sj V) (type_ : R -> OrderType) (setA : R -> Fixed -> R) (setP : R -> double -> R)
    : SE (R * string) unit :=
  s ← get_state;
  match type_ s.1 with
  | OrderType_TRAILING_STOP_MARKET =>
      _ ← get_fixed (obj ≫= fun o => field o "activatePrice") setA;
      d ← lift (value (obj ≫= fun o => field o "priceRate" ≫= get_double_in_string));
      upd (fun r => setP r d)
  | _ => mret tt
  end.

Definition parse_cancel (doc : V) : SE (OrderCancelResponse double * string) unit :=
  _ ← get_str (field doc "id") c_id set_c_id;
  _ ← get_int (field doc "status") (fun r n => set_c_status r (wrapS 32 n));
  obj ← lift (value (field doc "result" ≫= get_object));
  _ ← get_str (field obj "clientOrderId") c_clientOrderId set_c_clientOrderId;
  _ ← get_fixed (field obj "cumQty") set_c_cumQty;
  _ ← get_fixed (field obj "cumQuote") set_c_cumQuote;
  _ ← get_fixed (field obj "executedQty") set_c_executedQty;
  _ ← get_int (field obj "orderId") set_c_orderId;
  _ ← get_fixed (field obj "origQty") set_c_origQty;
  _ ← get_enum (field obj "origType") returnOrderType set_c_origType;
  _ ← get_fixed (field obj "price") set_c_price;
  _ ← get_flag (field obj "reduceOnly") set_c_reduceOnly;
  _ ← get_enum (field obj "side") returnOrderSide set_c_side;
  _ ← get_enum (field obj "positionSide") returnPositionSide set_c_positionSide;
  _ ← get_enum (field obj "status") returnOrderStatus set_c_orderStatus;
  _ ← get_fixed (field obj "stopPrice") set_c_stopPrice;
  _ ← get_flag (field obj "closePosition") set_c_closePosition;
  _ ← get_str (field obj "symbol") c_symbol set_c_symbol;
  _ ← get_enum (field obj "timeInForce") (fun s => Ok (returnTimeInForce s)) set_c_timeInForce;
  _ ← get_enum (field obj "type") returnOrderType set_c_type;
  _ ← get_trailing (Val obj) c_type set_c_activatePrice set_c_priceRate;
  _ ← get_int (field obj "updateTime") set_c_updateTime;
  _ ← get_enum (field obj "workingType") returnWorkingType set_c_workingType;
  _ ← get_flag (field obj "priceProtect") set_c_priceProtect;
  _ ← get_enum (field obj "priceMatch") returnPriceMatchMode set_c_priceMatch;
  _ ← get_enum (field obj "selfTradePreventionMode") returnSTPMode set_c_selfTradePreventionMode;
  _ ← get_int (field obj "goodTillDate") set_c_goodTillDate;
  get_rates doc c_rateLimits set_c_rateLimits.

(** [activatePrice] and [priceRate] have initializers. *)
Definition OrderCancelResponse_of (r0 : OrderCancelResponse double) (doc : V) : option (result (OrderCancelResponse double)) :=
  construct (parse_cancel doc) (set_c_priceRate (set_c_activatePrice r0 0) double_zero).

(** Here ["result"] is not checked to be an object: its errors surface at each field. *)
Definition parse_query (doc : V) : SE (QueryOrderResponse double * string) unit :=
  let result_ k := field doc "result" ≫= fun o => field o k in
  _ ← get_int (result_ "orderId"%string) set_q_orderId;
  _ ← get_str (result_ "clientOrderId"%string) q_clientOrderId set_q_clientOrderId;
  _ ← get_str (result_ "symbol"%string) q_symbol set_q_symbol;
  _ ← get_fixed (result_ "avgPrice"%string) set_q_avgPrice;
  _ ← get_fixed (result_ "cumQuote"%string) set_q_cumQuote;
  _ ← get_fixed (result_ "executedQty"%string) set_q_executedQty;
  _ ← get_fixed (result_ "origQty"%string) set_q_origQty;
  _ ← get_fixed (result_ "price"%string) set_q_price;
  _ ← get_fixed (result_ "stopPrice"%string) set_q_stopPrice;
  _ ← get_flag (result_ "reduceOnly"%string) set_q_reduceOnly;
  _ ← get_flag (result_ "closePosition"%string) set_q_closePosition;
  _ ← get_flag (result_ "priceProtect"%string) set_q_priceProtect;
  _ ← get_enum (result_ "side"%string) returnOrderSide set_q_side;
  _ ← get_enum (result_ "positionSide"%string) returnPositionSide set_q_positionSide;
  _ ← get_enum (result_ "status"%string) returnOrderStatus set_q_status;
  _ ← get_enum (result_ "timeInForce"%string) (fun s => Ok (returnTimeInForce s)) set_q_timeInForce;
  _ ← get_enum (result_ "type"%string) returnOrderType set_q_type;
  _ ← get_trailing (field doc "result") q_type set_q_activatePrice set_q_priceRate;
  _ ← get_enum (result_ "workingType"%string) returnWorkingType set_q_workingType;
  _ ← get_int (result_ "time"%string) set_q_time;
  _ ← get_int (result_ "updateTime"%string) set_q_updateTime;
  get_rates doc q_rateLimits set_q_rateLimits.

Definition QueryOrderResponse_of (r0 : QueryOrderResponse double) (doc : V) : option (result (QueryOrderResponse double)) :=
  construct (parse_query doc) (set_q_priceRate (set_q_activatePrice r0 0) double_zero).

(** The loop over the assets: it stops after the first one named USDT. [asset] itself
    is assigned for every one on the way. *)
Fixpoint asset_loop (elems : list (sj V)) : SE (AccountInfoResponse * string) unit :=
  match elems with
  | [] => mret tt
  | elem :: elems' =>
      obj ← lift (value (elem ≫= get_object));
      _ ← get_str (field obj "accountAlias") a_accountAlias set_a_accountAlias;
      _ ← get_str (field obj "asset") a_asset set_a_asset;
      s ← get_state;
      if negb (String.eqb (a_asset s.1) "USDT") then asset_loop elems' else
      _ ← get_fixed (field obj "balance") set_a_balance;
      _ ← get_fixed (field obj "crossWalletBalance") set_a_crossWalletBalance;
      _ ← get_fixed (field obj "crossUnPnl") set_a_crossUnPnl;
      _ ← get_fixed (field obj "availableBalance") set_a_availableBalance;
      _ ← get_fixed (field obj "maxWithdrawAmount") set_a_maxWithdrawAmount;
      _ ← get_flag (field obj "marginAvailable") set_a_marginAvailable;
      get_int (field obj "updateTime") set_a_updateTime
  end.

Definition parse_account (doc : V) : SE (AccountInfoResponse * string) unit :=
  _ ← get_str (field doc "id") a_id set_a_id;
  _ ← get_int (field doc "status") (fun r n => set_a_status r (wrapS 32 n));
  elems ← lift (value (field doc "result" ≫= get_array));
  _ ← asset_loop elems;
  get_rates doc a_rateLimits set_a_rateLimits.

Definition AccountInfoResponse_of (r0 : AccountInfoResponse) (doc : V) : option (result AccountInfoResponse) :=
  construct_quiet (parse_account doc) r0.

(** ** [OrderResponsePtrWrapper] *)

Record OrderResponsePtrWrapper := {
  newOrder : option OrderNewResponse;
  cancelOrder : option (OrderCancelResponse double);
  modifyOrder : option OrderNewResponse;
  queryOrder : option (QueryOrderResponse double);
  accountInfo : option AccountInfoResponse;
  w_error : option Error;
}.

Definition null_wrapper : OrderResponsePtrWrapper :=
  {| newOrder := None; cancelOrder := None; modifyOrder := None; queryOrder := None; accountInfo := None; w_error := None |}.

(** The indeterminate objects the constructors start from. *)
Record garbage := {
  g_new : OrderNewResponse;
  g_cancel : OrderCancelResponse double;
  g_query : QueryOrderResponse double;
  g_account : AccountInfoResponse;
}.

Definition wrap {A} (x : option (result A)) (k : A -> OrderResponsePtrWrapper) : option (result OrderResponsePtrWrapper) :=
  r ← x; Some (match r with Ok a => Ok (k a) | Throw e => Throw e end).

(** The constructor. *)
Definition OrderResponsePtrWrapper_of (g : garbage) (type_ : OrderTypeSent) (doc : V) : option (result OrderResponsePtrWrapper) :=
  match value (field doc "status" ≫= get_int64) with
  | Throw e => Some (Throw e)
  | Ok st =>
      if st =? 200 then
        match type_ with
        | OrderTypeSent_NEW => wrap (OrderNewResponse_of (g_new g) doc) (fun r =>
            {| newOrder := Some r; cancelOrder := None; modifyOrder := None; queryOrder := None; accountInfo := None; w_error := None |})
        | OrderTypeSent_CANCEL => wrap (OrderCancelResponse_of (g_cancel g) doc) (fun r =>
            {| newOrder := None; cancelOrder := Some r; modifyOrder := None; queryOrder := None; accountInfo := None; w_error := None |})
        | OrderTypeSent_MODIFY => wrap (OrderModifyResponse_of (g_new g) doc) (fun r =>
            {| newOrder := None; cancelOrder := None; modifyOrder := Some r; queryOrder := None; accountInfo := None; w_error := None |})
        | OrderTypeSent_QUERY => wrap (QueryOrderResponse_of (g_query g) doc) (fun r =>
            {| newOrder := None; cancelOrder := None; modifyOrder := None; queryOrder := Some r; accountInfo := None; w_error := None |})
        | OrderTypeSent_ACCOUNT_INFO => wrap (AccountInfoResponse_of (g_account g) doc) (fun r =>
            {| newOrder := None; cancelOrder := None; modifyOrder := None; queryOrder := None; accountInfo := Some r; w_error := None |})
        | OrderTypeSent_NONE => Some (Ok null_wrapper)
        end
      else
        Some (obj ← value (field doc "error" ≫= get_object);
              code ← value (field obj "code" ≫= get_int64);
              mret {| newOrder := None; cancelOrder := None; modifyOrder := None; queryOrder := None; accountInfo := None;
                      w_error := Some {| errorCode := code; message := assign_string (field obj "msg") "" |} |})
  end.
End Parsers.
Arguments OrderResponsePtrWrapper double : clear implicits.
Arguments garbage double : clear implicits.

#[global] Instance OrderTypeSent_eq_dec : EqDecision OrderTypeSent.
Proof. solve_decision. Defined.

(** ** The getters

    Each is a [switch(event)] whose cases test a pointer and fall through when it is
    null. [fall_from started cs d]: execution is inside the switch. *)
Fixpoint fall {A} (ev : OrderTypeSent) (started : bool) (cs : list (OrderTypeSent * option A)) (d : A) : A :=
  match cs with
  | [] => d
  | (label, x) :: cs' =>
      if started || bool_decide (label = ev)
      then match x with Some a => a | None => fall ev true cs' d end
      else fall ev false cs' d
  end.

Section Getters.
  Context {double : Type} (w : OrderResponsePtrWrapper double) (ev : OrderTypeSent).

Definition switch4 {A} (n : OrderNewResponse -> A) (c : OrderCancelResponse double -> A) (m : OrderNewResponse -> A)
    (q : QueryOrderResponse double -> A) (d : A) : A :=
  fall ev false [(OrderTypeSent_NEW, n <$> newOrder w); (OrderTypeSent_CANCEL, c <$> cancelOrder w);
                 (OrderTypeSent_MODIFY, m <$> modifyOrder w); (OrderTypeSent_QUERY, q <$> queryOrder w)] d.
Definition switch3 {A} (n : OrderNewResponse -> A) (c : OrderCancelResponse double -> A) (m : OrderNewResponse -> A) (d : A) : A :=
  fall ev false [(OrderTypeSent_NEW, n <$> newOrder w); (OrderTypeSent_CANCEL, c <$> cancelOrder w);
                 (OrderTypeSent_MODIFY, m <$> modifyOrder w)] d.

(** [returnPtr]: a pointer is the object it points to; null is [None]. *)
Inductive ResponsePtr :=
  | PNew (r : OrderNewResponse)
  | PCancel (r : OrderCancelResponse double)
  | PModify (r : OrderNewResponse)
  | PQuery (r : QueryOrderResponse double)
  | PAccount (r : AccountInfoResponse).

Definition responsePtr : option ResponsePtr :=
  match ev with
  | OrderTypeSent_NEW => PNew <$> newOrder w
  | OrderTypeSent_CANCEL => PCancel <$> cancelOrder w
  | OrderTypeSent_MODIFY => PModify <$> modifyOrder w
  | OrderTypeSent_QUERY => PQuery <$> queryOrder w
  | OrderTypeSent_ACCOUNT_INFO => PAccount <$> accountInfo w
  | _ => None
  end.

Definition getOrderId : Z := switch4 n_orderId c_orderId n_orderId q_orderId (-1).
Definition getSymbol : string := switch4 n_symbol c_symbol n_symbol q_symbol "".
Definition getPrice : Fixed := switch4 n_price c_price n_price q_price 0.
Definition getOrigQty : Fixed := switch4 n_origQty c_origQty n_origQty q_origQty 0.
Definition getExecutedQty : Fixed := switch4 n_executedQty c_executedQty n_executedQty q_executedQty 0.
Definition getCumQty : Fixed := switch4 n_cumQty c_cumQty n_cumQty q_executedQty 0.
Definition getCumQuote : Fixed := switch4 n_cumQuote c_cumQuote n_cumQuote q_cumQuote 0.
Definition getAvgPrice : Fixed :=
  fall ev false [(OrderTypeSent_NEW, n_avgPrice <$> newOrder w); (OrderTypeSent_MODIFY, n_avgPrice <$> modifyOrder w);
                 (OrderTypeSent_QUERY, q_avgPrice <$> queryOrder w)] 0.
Definition getOrderStatus : OrderStatus := switch4 n_orderStatus c_orderStatus n_orderStatus q_status OrderStatus_NONE.
Definition getTimeInForce : TimeInForce := switch4 n_timeInForce c_timeInForce n_timeInForce q_timeInForce TimeInForce_NONE.
Definition getOrderSide : OrderSide := switch4 n_side c_side n_side q_side OrderSide_NONE.
Definition getPositionSide : PositionSide := switch4 n_positionSide c_positionSide n_positionSide q_positionSide PositionSide_NONE.
Definition getWorkingType : WorkingType := switch4 n_workingType c_workingType n_workingType q_workingType WorkingType_NONE.
Definition getOrigType : OrderType := switch4 n_origType c_origType n_origType q_type OrderType_NONE.
Definition getPriceMatchMode : PriceMatchMode := switch3 n_priceMatch c_priceMatch n_priceMatch PriceMatchMode_NONE.
Definition getSelfTradePreventionMode : STPMode :=
  switch3 n_selfTradePreventionMode c_selfTradePreventionMode n_selfTradePreventionMode STPMode_NONE.
Definition getGoodTillDate : Z := switch3 n_goodTillDate c_goodTillDate n_goodTillDate 0.
Definition getReduceOnly : bool := switch4 n_reduceOnly c_reduceOnly n_reduceOnly q_reduceOnly false.
Definition getClosePosition : bool := switch4 n_closePosition c_closePosition n_closePosition q_closePosition false.
Definition getPriceProtect : bool := switch4 n_priceProtect c_priceProtect n_priceProtect q_priceProtect false.
Definition getUpdateTime : Z := switch4 n_updateTime c_updateTime n_updateTime q_updateTime 0.

Definition account {A} (g : AccountInfoResponse -> A) (d : A) : A := match accountInfo w with Some a => g a | None => d end.
Definition getAccountAlias : string := account a_accountAlias "".
Definition getAsset : string := account a_asset "".
Definition getBalance : Fixed := account a_balance 0.
Definition getCrossWalletBalance : Fixed := account a_crossWalletBalance 0.
Definition getCrossUnPnl : Fixed := account a_crossUnPnl 0.
Definition getAvailableBalance : Fixed := account a_availableBalance 0.
Definition getMaxWithdrawAmount : Fixed := account a_maxWithdrawAmount 0.
Definition getMarginAvailable : bool := account a_marginAvailable false.
Definition getUpdateTimeAccount : Z := account a_updateTime 0.
End Getters.
