(* ===== verification/OrderResponseSpec.v ===== *)
(** * OrderResponseSpec: round trips of the order responses

    The documents the exchange sends for an order, built from the records, and the
    theorems that the parsers of OrderResponses read back the same records; then what
    the getters of the wrapper return. *)

From S2P Require Import Prelude FixedPoint Model Enums WireNames Json RingBuffer OrderRecords OrderResponses.

Section Steps.
  Context (texts : list (string * JV)) {R : Type}.
  Notation J := (JV_Json texts).
  Implicit Types (fs : list (string * JV)) (k : string).

Lemma get_str_ok fs k g set t {B} (K : unit -> SE (R * string) B) (s : R * string) : lookup_field fs k = Val (JStr t) ->
  (@get_str _ J R (@field _ J (JObj fs) k) g set ≫= K) s = K tt (set s.1 t, s.2).
Proof. intros E. unfold get_str, upd. cbn. unfold assign_string. cbn. by rewrite E. Qed.

Lemma get_int_ok fs k set n {B} (K : unit -> SE (R * string) B) (s : R * string) : lookup_field fs k = Val (JInt n) -> in_int64 n = true ->
  (@get_int _ J R (@field _ J (JObj fs) k) set ≫= K) s = K tt (set s.1 n, s.2).
Proof. intros E Hn. unfold get_int, upd. cbn. rewrite E. cbn. by rewrite Hn. Qed.

Lemma get_flag_ok fs k set b {B} (K : unit -> SE (R * string) B) (s : R * string) : lookup_field fs k = Val (JBool b) ->
  (@get_flag _ J R (@field _ J (JObj fs) k) set ≫= K) s = K tt (set s.1 b, s.2).
Proof. intros E. unfold get_flag, upd. cbn. by rewrite E. Qed.

Lemma int64_range n : in_int64 n = true -> int_range 64 n.
Proof. unfold in_int64, int_range. intros [?%Z.leb_le ?%Z.ltb_lt]%andb_prop. lia. Qed.

Lemma get_fixed_ok fs k set n {B} (K : unit -> SE (R * string) B) (s : R * string) :
  lookup_field fs k = Val (JStr (formatFixed 64 n)) -> in_int64 n = true ->
  (@get_fixed _ J R (@field _ J (JObj fs) k) set ≫= K) s = K tt (set s.1 n, s.2).
Proof.
  intros E Hn. unfold get_fixed.
  assert (@readFixed _ J (@field _ J (JObj fs) k) = Ok n) as ->; [|done].
  apply readFixedAs_ok. exists (formatFixed 64 n). cbn [field JV_Json]. rewrite E. split; [done|].
  apply parse_format; [lia|by apply int64_range].
Qed.

Lemma get_object_ok fs k gs {S B} (K : JV -> SE S B) s : lookup_field fs k = Val (JObj gs) ->
  (lift (value (@field _ J (JObj fs) k ≫= @get_object _ J)) ≫= K) s = K (JObj gs) s.
Proof. intros E. rewrite SE_lift. cbn. by rewrite E. Qed.

Lemma get_enum_ok {E} fs k ret set t (e : E) {B} (K : unit -> SE (R * string) B) (s : R * string) :
  lookup_field fs k = Val (JStr t) -> ret t = Ok e ->
  (@get_enum _ J R E (@field _ J (JObj fs) k) ret set ≫= K) s = K tt (set s.1 e, t).
Proof.
  intros El Hr. assert (@assign_string _ J (@field _ J (JObj fs) k) s.2 = t) as Ht by (unfold assign_string; cbn; by rewrite El).
  unfold get_enum, upd, mbind, SE_bind, modify, get_state, lift. cbn -[assign_string field]. by rewrite Ht, Hr.
Qed.
End Steps.

Lemma get_rates_ok texts {R} fs g set vs h' (s : R * string) : lookup_field fs "rateLimits" = Val (JArr vs) ->
  @rate_loop _ (JV_Json texts) (Val <$> vs) "" "" (g s.1) = Some (Ok tt, h') ->
  @get_rates _ (JV_Json texts) R (JObj fs) g set s = Some (Ok tt, (set s.1 h', s.2)).
Proof.
  intros El Hl. unfold get_rates. rewrite SE_lift. cbn [field JV_Json]. rewrite El. cbn [mbind sj_bind get_array JV_Json value].
  unfold zoom. by rewrite Hl.
Qed.

(** ** Rate limits *)

Definition rate_json (l : RateLimit) : JV :=
  JObj [("rateLimitType"%string, JStr (wire_RateLimitType (rl_type l))); ("interval"%string, JStr (wire_Interval (rl_interval l)));
        ("intervalNum"%string, JInt (rl_intervalNum l)); ("limit"%string, JInt (rl_limit l)); ("count"%string, JInt (rl_count l))].

Definition rate_ok (l : RateLimit) : Prop :=
  in_int64 (rl_intervalNum l) = true /\ in_int64 (rl_limit l) = true /\ in_int64 (rl_count l) = true.

Lemma rate_loop_ok texts ls : Forall rate_ok ls -> forall ty iv h q, holds 3 (rateLimitBuffer h) q ->
  Z.of_nat (length q) + Z.of_nat (length ls) <= RATE_RING ->
  exists h', @rate_loop _ (JV_Json texts) (Val <$> (rate_json <$> ls)) ty iv h = Some (Ok tt, h') /\
    holds 3 (rateLimitBuffer h') (q ++ ls).
Proof.
  induction 1 as [|l ls (H1 & H2 & H3) _ IH]; intros ty iv h q Hh Hlen; [exists h; by rewrite app_nil_r|].
  cbn [fmap list_fmap rate_loop length] in *. rewrite SE_lift. cbn [value mbind sj_bind get_object JV_Json rate_json].
  unfold assign_string. cbn -[addRateLimit]. rewrite H1. cbn -[addRateLimit]. rewrite H2. cbn -[addRateLimit]. rewrite H3. cbn -[addRateLimit].
  do 3 (rewrite SE_lift; cbv beta iota).
  destruct (enqueue_holds 3 ltac:(lia) (rateLimitBuffer h) q l Hh) as (r1 & Hr1 & Hh1); [unfold RATE_RING in Hlen; lia|].
  rewrite (SE_bind_Some _ _ h tt {| rateLimitBuffer := r1; limitCount := wrapS 32 (limitCount h + 1) |}).
  2: { unfold addRateLimit, RateLimit_of. rewrite return_RateLimitType, return_Interval.
       replace {| rl_type := rl_type l; rl_interval := rl_interval l; rl_intervalNum := rl_intervalNum l;
                  rl_limit := rl_limit l; rl_count := rl_count l |} with l by (by destruct l).
       change (emplaceEnqueue RATE_RING (rateLimitBuffer h) l) with (enqueue (2 ^ 3) (rateLimitBuffer h) l). by rewrite Hr1. }
  destruct (IH (wire_RateLimitType (rl_type l)) (wire_Interval (rl_interval l)) {| rateLimitBuffer := r1; limitCount := wrapS 32 (limitCount h + 1) |} (q ++ [l]) Hh1)
    as (h' & Hr & Hq); [rewrite length_app; cbn; lia|].
  exists h'. rewrite <- app_assoc in Hq. split; [exact Hr|exact Hq].
Qed.

(** ** New and modified orders *)

Definition order_result (r : OrderNewResponse) : list (string * JV) :=
  [("orderId"%string, JInt (n_orderId r)); ("symbol"%string, JStr (n_symbol r));
   ("status"%string, JStr (wire_OrderStatus (n_orderStatus r))); ("clientOrderId"%string, JStr (n_clientOrderId r));
   ("price"%string, JStr (formatFixed 64 (n_price r))); ("avgPrice"%string, JStr (formatFixed 64 (n_avgPrice r)));
   ("origQty"%string, JStr (formatFixed 64 (n_origQty r))); ("executedQty"%string, JStr (formatFixed 64 (n_executedQty r)));
   ("cumQty"%string, JStr (formatFixed 64 (n_cumQty r))); ("cumQuote"%string, JStr (formatFixed 64 (n_cumQuote r)));
   ("timeInForce"%string, JStr (wire_TimeInForce (n_timeInForce r))); ("type"%string, JStr (wire_OrderType (n_type r)));
   ("reduceOnly"%string, JBool (n_reduceOnly r)); ("closePosition"%string, JBool (n_closePosition r));
   ("side"%string, JStr (wire_OrderSide (n_side r))); ("positionSide"%string, JStr (wire_PositionSide (n_positionSide r)));
   ("stopPrice"%string, JStr (formatFixed 64 (n_stopPrice r))); ("workingType"%string, JStr (wire_WorkingType (n_workingType r)));
   ("priceProtect"%string, JBool (n_priceProtect r)); ("origType"%string, JStr (wire_OrderType (n_origType r)));
   ("priceMatch"%string, JStr (wire_PriceMatchMode (n_priceMatch r)));
   ("selfTradePreventionMode"%string, JStr (wire_STPMode (n_selfTradePreventionMode r)));
   ("goodTillDate"%string, JInt (n_goodTillDate r)); ("updateTime"%string, JInt (n_updateTime r))].

Definition order_doc (r : OrderNewResponse) (rates : list RateLimit) : JV :=
  JObj [("id"%string, JStr (n_id r)); ("status"%string, JInt (n_status r)); ("result"%string, JObj (order_result r));
        ("rateLimits"%string, JArr (rate_json <$> rates))].

(** Members within their C++ types, enumerators the exchange has a name for. *)
Record order_ok (r : OrderNewResponse) : Prop := {
  ok_status : - 2 ^ 31 <= n_status r < 2 ^ 31;
  ok_ints : in_int64 (n_orderId r) = true /\ in_int64 (n_goodTillDate r) = true /\ in_int64 (n_updateTime r) = true;
  ok_fixed : in_int64 (n_price r) = true /\ in_int64 (n_avgPrice r) = true /\ in_int64 (n_origQty r) = true /\
    in_int64 (n_executedQty r) = true /\ in_int64 (n_cumQty r) = true /\ in_int64 (n_cumQuote r) = true /\
    in_int64 (n_stopPrice r) = true;
  ok_enums : named (n_orderStatus r) = true /\ named (n_timeInForce r) = true /\ named (n_type r) = true /\
    named (n_side r) = true /\ named (n_positionSide r) = true /\ named (n_workingType r) = true /\ named (n_origType r) = true;
}.

(** One step of a parser on a concrete object. *)
Ltac parse_step :=
  first
    [ erewrite get_str_ok; [|reflexivity]
    | erewrite get_int_ok; [|reflexivity|eassumption]
    | erewrite get_fixed_ok; [|reflexivity|eassumption]
    | erewrite get_flag_ok; [|reflexivity]
    | erewrite get_enum_ok; [|reflexivity|cbv beta; solve [eauto with astra]] ];
  cbv beta; cbn [fst snd].

Lemma parse_order_ok texts r rates r0 : order_ok r -> Forall rate_ok rates ->
  holds 3 (rateLimitBuffer (n_rateLimits r0)) [] -> Z.of_nat (length rates) <= RATE_RING ->
  exists h t, @parse_order _ (JV_Json texts) (order_doc r rates) (r0, ""%string) =
      Some (Ok tt, (set_n_rateLimits (set_n_closePosition r (n_closePosition r0)) h, t)) /\
    holds 3 (rateLimitBuffer h) rates.
Proof.
  intros [Hst (? & ? & ?) (? & ? & ? & ? & ? & ? & ?) (? & ? & ? & ? & ? & ? & ?)] Hr Hh Hlen.
  assert (in_int64 (n_status r) = true) by (unfold in_int64; zbool).
  unfold parse_order, order_doc. do 2 parse_step. erewrite get_object_ok; [|reflexivity]. cbv beta.
  unfold order_result. do 23 parse_step.
  destruct (rate_loop_ok texts rates Hr "" "" (n_rateLimits r0) [] Hh) as (h & Hl & Hq); [cbn; lia|].
  exists h, (wire_STPMode (n_selfTradePreventionMode r)). split; [|exact Hq].
  erewrite get_rates_ok; [|reflexivity|destruct r0; exact Hl]. destruct r, r0. cbn in *.
  by rewrite wrapS_small, return_TimeInForce by (done || unfold int_range; lia).
Qed.

(** C35 Reading back: from the document the exchange sends for a placed or modified order,
    [OrderNewResponse] and [OrderModifyResponse] hold every member it states, and the
    rate limits in order; except [closePosition], which neither parser reads, so it keeps
    its indeterminate value. *)
Theorem order_roundtrip texts r rates r0 : order_ok r -> Forall rate_ok rates ->
  holds 3 (rateLimitBuffer (n_rateLimits r0)) [] -> Z.of_nat (length rates) <= RATE_RING ->
  exists h, holds 3 (rateLimitBuffer h) rates /\
    let r' := set_n_rateLimits (set_n_closePosition r (n_closePosition r0)) h in
    @OrderNewResponse_of _ (JV_Json texts) r0 (order_doc r rates) = Some (Ok r') /\
    @OrderModifyResponse_of _ (JV_Json texts) r0 (order_doc r rates) = Some (Ok r').
Proof.
  intros Hok Hr Hh Hlen. destruct (parse_order_ok texts r rates r0 Hok Hr Hh Hlen) as (h & t & Hp & Hq).
  exists h. split; [done|]. unfold OrderNewResponse_of, OrderModifyResponse_of, construct, construct_quiet, parse_into.
  rewrite Hp. by cbn.
Qed.

(** ** Cancelled and queried orders

    A [double] is kept as its text here. *)
#[global] Instance JV_double : JsonDouble JV string := {|
  get_double_in_string v := match v with JStr s => Val s | _ => Err INCORRECT_TYPE end;
  double_zero := "0"%string;
|}.

Definition cancel_result (r : OrderCancelResponse string) : list (string * JV) :=
  [("clientOrderId"%string, JStr (c_clientOrderId r)); ("cumQty"%string, JStr (formatFixed 64 (c_cumQty r)));
   ("cumQuote"%string, JStr (formatFixed 64 (c_cumQuote r))); ("executedQty"%string, JStr (formatFixed 64 (c_executedQty r)));
   ("orderId"%string, JInt (c_orderId r)); ("origQty"%string, JStr (formatFixed 64 (c_origQty r)));
   ("origType"%string, JStr (wire_OrderType (c_origType r))); ("price"%string, JStr (formatFixed 64 (c_price r)));
   ("reduceOnly"%string, JBool (c_reduceOnly r)); ("side"%string, JStr (wire_OrderSide (c_side r)));
   ("positionSide"%string, JStr (wire_PositionSide (c_positionSide r))); ("status"%string, JStr (wire_OrderStatus (c_orderStatus r)));
   ("stopPrice"%string, JStr (formatFixed 64 (c_stopPrice r))); ("closePosition"%string, JBool (c_closePosition r));
   ("symbol"%string, JStr (c_symbol r)); ("timeInForce"%string, JStr (wire_TimeInForce (c_timeInForce r)));
   ("type"%string, JStr (wire_OrderType (c_type r))); ("activatePrice"%string, JStr (formatFixed 64 (c_activatePrice r)));
   ("priceRate"%string, JStr (c_priceRate r)); ("updateTime"%string, JInt (c_updateTime r));
   ("workingType"%string, JStr (wire_WorkingType (c_workingType r))); ("priceProtect"%string, JBool (c_priceProtect r));
   ("priceMatch"%string, JStr (wire_PriceMatchMode (c_priceMatch r)));
   ("selfTradePreventionMode"%string, JStr (wire_STPMode (c_selfTradePreventionMode r)));
   ("goodTillDate"%string, JInt (c_goodTillDate r))].

Definition cancel_doc (r : OrderCancelResponse string) (rates : list RateLimit) : JV :=
  JObj [("id"%string, JStr (c_id r)); ("status"%string, JInt (c_status r)); ("result"%string, JObj (cancel_result r));
        ("rateLimits"%string, JArr (rate_json <$> rates))].

(** The members only trailing stops have are at their initializers for the others. *)
Definition trailing_ok (t : OrderType) (activatePrice : Fixed) (priceRate : string) : Prop :=
  t = OrderType_TRAILING_STOP_MARKET \/ (activatePrice = 0 /\ priceRate = "0"%string).

Record cancel_ok (r : OrderCancelResponse string) : Prop := {
  okc_status : - 2 ^ 31 <= c_status r < 2 ^ 31;
  okc_ints : in_int64 (c_orderId r) = true /\ in_int64 (c_goodTillDate r) = true /\ in_int64 (c_updateTime r) = true;
  okc_fixed : in_int64 (c_price r) = true /\ in_int64 (c_origQty r) = true /\ in_int64 (c_executedQty r) = true /\
    in_int64 (c_cumQty r) = true /\ in_int64 (c_cumQuote r) = true /\ in_int64 (c_stopPrice r) = true /\
    in_int64 (c_activatePrice r) = true;
  okc_enums : named (c_orderStatus r) = true /\ named (c_timeInForce r) = true /\ named (c_type r) = true /\
    named (c_side r) = true /\ named (c_positionSide r) = true /\ named (c_workingType r) = true /\ named (c_origType r) = true;
  okc_trailing : trailing_ok (c_type r) (c_activatePrice r) (c_priceRate r);
}.

Lemma get_trailing_ok texts {R} fs type_ setA setP a p {B} (K : unit -> SE (R * string) B) (s : R * string) :
  lookup_field fs "activatePrice" = Val (JStr (formatFixed 64 a)) -> lookup_field fs "priceRate" = Val (JStr p) ->
  in_int64 a = true ->
  (@get_trailing _ (JV_Json texts) _ _ R (Val (JObj fs)) type_ setA setP ≫= K) s =
  K tt (match type_ s.1 with OrderType_TRAILING_STOP_MARKET => setP (setA s.1 a) p | _ => s.1 end, s.2).
Proof.
  intros Ea Ep Ha. unfold get_trailing. unfold mbind at 1, SE_bind. unfold mbind at 1. unfold get_state.
  destruct s as [r t]. cbn [fst snd]. destruct (type_ r); try done.
  cbn [mbind sj_bind]. rewrite (get_fixed_ok texts fs "activatePrice" setA a _ (r, t) Ea Ha).
  by assert (value (@field _ (JV_Json texts) (JObj fs) "priceRate" ≫= get_double_in_string) = Ok p) as -> by (cbn; by rewrite Ep).
Qed.

Lemma parse_cancel_ok texts r rates r0 : cancel_ok r -> Forall rate_ok rates ->
  holds 3 (rateLimitBuffer (c_rateLimits r0)) [] -> Z.of_nat (length rates) <= RATE_RING ->
  c_activatePrice r0 = 0 -> c_priceRate r0 = "0"%string ->
  exists h t, @parse_cancel _ (JV_Json texts) _ _ (cancel_doc r rates) (r0, ""%string) =
      Some (Ok tt, (set_c_rateLimits r h, t)) /\
    holds 3 (rateLimitBuffer h) rates.
Proof.
  intros [Hst (? & ? & ?) (? & ? & ? & ? & ? & ? & ?) (? & ? & ? & ? & ? & ? & ?) Htr] Hr Hh Hlen Ha0 Hp0.
  assert (in_int64 (c_status r) = true) by (unfold in_int64; zbool).
  unfold parse_cancel, cancel_doc. do 2 parse_step. erewrite get_object_ok; [|reflexivity]. cbv beta.
  unfold cancel_result. do 17 parse_step. erewrite get_trailing_ok; [|reflexivity|reflexivity|done]. cbv beta.
  do 6 parse_step. destruct (rate_loop_ok texts rates Hr "" "" (c_rateLimits r0) [] Hh) as (h & Hl & Hq); [cbn; lia|].
  exists h, (wire_STPMode (c_selfTradePreventionMode r)). split; [|exact Hq].
  erewrite get_rates_ok; [|reflexivity|]; destruct r, r0; cbn in *.
  - rewrite wrapS_small, return_TimeInForce by (done || unfold int_range; lia).
    destruct Htr as [->|[-> ->]]; [done|]. by subst; destruct c_type.
  - destruct c_type; exact Hl.
Qed.

Definition query_result (r : QueryOrderResponse string) : list (string * JV) :=
  [("orderId"%string, JInt (q_orderId r)); ("clientOrderId"%string, JStr (q_clientOrderId r)); ("symbol"%string, JStr (q_symbol r));
   ("side"%string, JStr (wire_OrderSide (q_side r))); ("positionSide"%string, JStr (wire_PositionSide (q_positionSide r)));
   ("status"%string, JStr (wire_OrderStatus (q_status r))); ("timeInForce"%string, JStr (wire_TimeInForce (q_timeInForce r)));
   ("type"%string, JStr (wire_OrderType (q_type r))); ("workingType"%string, JStr (wire_WorkingType (q_workingType r)));
   ("avgPrice"%string, JStr (formatFixed 64 (q_avgPrice r))); ("cumQuote"%string, JStr (formatFixed 64 (q_cumQuote r)));
   ("executedQty"%string, JStr (formatFixed 64 (q_executedQty r))); ("origQty"%string, JStr (formatFixed 64 (q_origQty r)));
   ("price"%string, JStr (formatFixed 64 (q_price r))); ("stopPrice"%string, JStr (formatFixed 64 (q_stopPrice r)));
   ("activatePrice"%string, JStr (formatFixed 64 (q_activatePrice r))); ("priceRate"%string, JStr (q_priceRate r));
   ("reduceOnly"%string, JBool (q_reduceOnly r)); ("closePosition"%string, JBool (q_closePosition r));
   ("priceProtect"%string, JBool (q_priceProtect r)); ("time"%string, JInt (q_time r)); ("updateTime"%string, JInt (q_updateTime r))].

Definition query_doc (r : QueryOrderResponse string) (rates : list RateLimit) : JV :=
  JObj [("status"%string, JInt 200); ("result"%string, JObj (query_result r)); ("rateLimits"%string, JArr (rate_json <$> rates))].

Record query_ok (r : QueryOrderResponse string) : Prop := {
  okq_ints : in_int64 (q_orderId r) = true /\ in_int64 (q_time r) = true /\ in_int64 (q_updateTime r) = true;
  okq_fixed : in_int64 (q_price r) = true /\ in_int64 (q_avgPrice r) = true /\ in_int64 (q_origQty r) = true /\
    in_int64 (q_executedQty r) = true /\ in_int64 (q_cumQuote r) = true /\ in_int64 (q_stopPrice r) = true /\
    in_int64 (q_activatePrice r) = true;
  okq_enums : named (q_status r) = true /\ named (q_timeInForce r) = true /\ named (q_type r) = true /\
    named (q_side r) = true /\ named (q_positionSide r) = true /\ named (q_workingType r) = true;
  okq_trailing : trailing_ok (q_type r) (q_activatePrice r) (q_priceRate r);
}.

Lemma parse_query_ok texts r rates r0 : query_ok r -> Forall rate_ok rates ->
  holds 3 (rateLimitBuffer (q_rateLimits r0)) [] -> Z.of_nat (length rates) <= RATE_RING ->
  q_activatePrice r0 = 0 -> q_priceRate r0 = "0"%string ->
  exists h t, @parse_query _ (JV_Json texts) _ _ (query_doc r rates) (r0, ""%string) =
      Some (Ok tt, (set_q_rateLimits r h, t)) /\
    holds 3 (rateLimitBuffer h) rates.
Proof.
  intros [(? & ? & ?) (? & ? & ? & ? & ? & ? & ?) (? & ? & ? & ? & ? & ?) Htr] Hr Hh Hlen Ha0 Hp0.
  unfold parse_query. cbv zeta.
  change (@field _ (JV_Json texts) (query_doc r rates) "result") with (@Val JV (JObj (query_result r))).
  assert (Hk : forall k, (@Val JV (JObj (query_result r)) ≫= fun o => @field _ (JV_Json texts) o k) =
    @field _ (JV_Json texts) (JObj (query_result r)) k) by done.
  rewrite !Hk. unfold query_result, query_doc. do 17 parse_step.
  erewrite get_trailing_ok; [|reflexivity|reflexivity|done]. cbv beta. do 3 parse_step.
  destruct (rate_loop_ok texts rates Hr "" "" (q_rateLimits r0) [] Hh) as (h & Hl & Hq); [cbn; lia|].
  exists h, (wire_WorkingType (q_workingType r)). split; [|exact Hq].
  erewrite get_rates_ok; [|reflexivity|]; destruct r, r0; cbn in *.
  - rewrite return_TimeInForce by done. destruct Htr as [->|[-> ->]]; [done|]. by subst; destruct q_type.
  - destruct q_type; exact Hl.
Qed.

(** Reading back a cancelled or a queried order: every member the document states,
    the trailing-stop members of trailing stops and their initializers otherwise. *)
Theorem cancel_query_roundtrip texts rc rq rates c0 q0 : cancel_ok rc -> query_ok rq -> Forall rate_ok rates ->
  holds 3 (rateLimitBuffer (c_rateLimits c0)) [] -> holds 3 (rateLimitBuffer (q_rateLimits q0)) [] ->
  Z.of_nat (length rates) <= RATE_RING ->
  (exists h, @OrderCancelResponse_of _ (JV_Json texts) _ _ c0 (cancel_doc rc rates) = Some (Ok (set_c_rateLimits rc h)) /\
     holds 3 (rateLimitBuffer h) rates) /\
  (exists h, @QueryOrderResponse_of _ (JV_Json texts) _ _ q0 (query_doc rq rates) = Some (Ok (set_q_rateLimits rq h)) /\
     holds 3 (rateLimitBuffer h) rates).
Proof.
  intros Hc Hq Hr Hhc Hhq Hlen. unfold OrderCancelResponse_of, QueryOrderResponse_of, construct, parse_into. split.
  - destruct (parse_cancel_ok texts rc rates (set_c_priceRate (set_c_activatePrice c0 0) "0") Hc Hr) as (h & t & Hp & Hh);
      [by destruct c0|done|by destruct c0|by destruct c0|]. exists h. cbn [double_zero JV_double]. rewrite Hp. by cbn.
  - destruct (parse_query_ok texts rq rates (set_q_priceRate (set_q_activatePrice q0 0) "0") Hq Hr) as (h & t & Hp & Hh);
      [by destruct q0|done|by destruct q0|by destruct q0|]. exists h. cbn [double_zero JV_double]. rewrite Hp. by cbn.
Qed.

(** ** The getters *)

(** Of an accepted response the getters return the member of the object that was
    built for the request's type (for the members that type has), of an error response
    their default; the switch's fall-through never reaches another type's object. *)
Theorem getters_of_response {V} `{Json V} {double} `{JsonDouble V double} g type_ doc w :
  OrderResponsePtrWrapper_of g type_ doc = Some (Ok w) ->
  match type_, w_error w with
  | _, Some _ => getOrderId w type_ = -1 /\ getSymbol w type_ = ""%string /\ getExecutedQty w type_ = 0 /\
      getOrderStatus w type_ = OrderStatus_NONE
  | OrderTypeSent_NEW, None => exists r, OrderNewResponse_of (g_new g) doc = Some (Ok r) /\ getOrderId w type_ = n_orderId r /\
      getSymbol w type_ = n_symbol r /\ getExecutedQty w type_ = n_executedQty r /\ getOrderStatus w type_ = n_orderStatus r
  | OrderTypeSent_MODIFY, None => exists r, OrderModifyResponse_of (g_new g) doc = Some (Ok r) /\ getOrderId w type_ = n_orderId r /\
      getSymbol w type_ = n_symbol r /\ getExecutedQty w type_ = n_executedQty r /\ getOrderStatus w type_ = n_orderStatus r
  | OrderTypeSent_CANCEL, None => exists r, OrderCancelResponse_of (g_cancel g) doc = Some (Ok r) /\ getOrderId w type_ = c_orderId r /\
      getSymbol w type_ = c_symbol r /\ getExecutedQty w type_ = c_executedQty r /\ getOrderStatus w type_ = c_orderStatus r
  | OrderTypeSent_QUERY, None => exists r, QueryOrderResponse_of (g_query g) doc = Some (Ok r) /\ getOrderId w type_ = q_orderId r /\
      getSymbol w type_ = q_symbol r /\ getExecutedQty w type_ = q_executedQty r /\ getOrderStatus w type_ = q_status r
  | OrderTypeSent_ACCOUNT_INFO, None => exists r, AccountInfoResponse_of (g_account g) doc = Some (Ok r) /\
      getBalance w = a_balance r /\ getAsset w = a_asset r
  | OrderTypeSent_NONE, None => w = null_wrapper
  end.
Proof.
  unfold OrderResponsePtrWrapper_of. destruct (value (field doc "status" ≫= get_int64)) as [st|]; [|done].
  destruct (st =? 200).
  - destruct type_; unfold wrap;
      try (destruct (OrderNewResponse_of _ _) as [[r|]|]); try (destruct (OrderModifyResponse_of _ _) as [[r|]|]);
      try (destruct (OrderCancelResponse_of _ _) as [[r|]|]); try (destruct (QueryOrderResponse_of _ _) as [[r|]|]);
      try (destruct (AccountInfoResponse_of _ _) as [[r|]|]); try done; intros [= <-]; cbn; try (by exists r). done.
  - intros [= Hw]. apply result_bind_ok in Hw as (obj & _ & Hw). apply result_bind_ok in Hw as (code & _ & [= <-]).
    by destruct type_.
Qed.

(** ** Examples *)

Definition demo_rate : RateLimit :=
  {| rl_type := RateLimitType_ORDER; rl_interval := IntervalRateLimit_MINUTE; rl_intervalNum := 1; rl_limit := 1200; rl_count := 3 |}.
Definition demo_limits : RateLimitHolder := new_rateLimits (replicate 8 demo_rate).

Definition demo_order : OrderNewResponse :=
  {| n_id := "a1"; n_status := 200; n_orderId := 325078477; n_symbol := "BTCUSDT"; n_orderStatus := OrderStatus_NEW;
     n_clientOrderId := "c1"; n_price := 4318700000000; n_avgPrice := 0; n_origQty := 10000000; n_executedQty := 0;
     n_cumQty := 0; n_cumQuote := 0; n_timeInForce := TimeInForce_GTC; n_type := OrderType_LIMIT; n_reduceOnly := false;
     n_closePosition := false; n_side := OrderSide_BUY; n_positionSide := PositionSide_BOTH; n_stopPrice := 0;
     n_workingType := WorkingType_CONTRACT_PRICE; n_priceProtect := false; n_origType := OrderType_LIMIT;
     n_priceMatch := PriceMatchMode_NONE; n_selfTradePreventionMode := STPMode_NONE; n_goodTillDate := 0;
     n_updateTime := 1702555534435; n_rateLimits := demo_limits |}.

Definition demo_cancel : OrderCancelResponse string :=
  {| c_id := "a2"; c_status := 200; c_clientOrderId := "c1"; c_cumQty := 0; c_cumQuote := 0; c_executedQty := 0;
     c_orderId := 283194212; c_origQty := 1100000000; c_origType := OrderType_TRAILING_STOP_MARKET; c_price := 0;
     c_reduceOnly := false; c_side := OrderSide_BUY; c_positionSide := PositionSide_SHORT; c_orderStatus := OrderStatus_CANCELED;
     c_stopPrice := 930000000000; c_closePosition := true; c_symbol := "BTCUSDT"; c_timeInForce := TimeInForce_GTC;
     c_type := OrderType_TRAILING_STOP_MARKET; c_activatePrice := 902000000000; c_priceRate := "0.3"; c_updateTime := 1571110484038;
     c_workingType := WorkingType_CONTRACT_PRICE; c_priceProtect := false; c_priceMatch := PriceMatchMode_NONE;
     c_selfTradePreventionMode := STPMode_NONE; c_goodTillDate := 0; c_rateLimits := demo_limits |}.

Definition demo_query : QueryOrderResponse string :=
  {| q_orderId := 328971409; q_clientOrderId := "c1"; q_symbol := "BTCUSDT"; q_side := OrderSide_SELL; q_positionSide := PositionSide_LONG;
     q_status := OrderStatus_FILLED; q_timeInForce := TimeInForce_IOC; q_type := OrderType_MARKET; q_workingType := WorkingType_MARK_PRICE;
     q_avgPrice := 1; q_cumQuote := 2; q_executedQty := 3; q_origQty := 4; q_price := 5; q_stopPrice := 0; q_activatePrice := 0;
     q_priceRate := "0"; q_reduceOnly := false; q_closePosition := false; q_priceProtect := true; q_time := 1; q_updateTime := 2;
     q_rateLimits := demo_limits |}.

Lemma demo_limits_empty : holds 3 (rateLimitBuffer demo_limits) [].
Proof. apply holds_new_ring; [lia|done]. Qed.

Lemma demo_rates_ok : Forall rate_ok [demo_rate].
Proof. constructor; [done|constructor]. Qed.

Lemma order_roundtrip_witness :
  exists h, holds 3 (rateLimitBuffer h) [demo_rate] /\
    let r' := set_n_rateLimits (set_n_closePosition demo_order (n_closePosition demo_order)) h in
    @OrderNewResponse_of _ (JV_Json []) demo_order (order_doc demo_order [demo_rate]) = Some (Ok r') /\
    @OrderModifyResponse_of _ (JV_Json []) demo_order (order_doc demo_order [demo_rate]) = Some (Ok r').
Proof.
  apply (order_roundtrip [] demo_order [demo_rate] demo_order).
  - split; [cbn; lia|done|done|done].
  - exact demo_rates_ok.
  - exact demo_limits_empty.
  - vm_compute. discriminate.
Defined.

Lemma cancel_query_roundtrip_witness :
  (exists h, @OrderCancelResponse_of _ (JV_Json []) _ _ demo_cancel (cancel_doc demo_cancel [demo_rate]) = Some (Ok (set_c_rateLimits demo_cancel h)) /\
     holds 3 (rateLimitBuffer h) [demo_rate]) /\
  (exists h, @QueryOrderResponse_of _ (JV_Json []) _ _ demo_query (query_doc demo_query [demo_rate]) = Some (Ok (set_q_rateLimits demo_query h)) /\
     holds 3 (rateLimitBuffer h) [demo_rate]).
Proof.
  apply (cancel_query_roundtrip [] demo_cancel demo_query [demo_rate] demo_cancel demo_query).
  - split; [cbn; lia|done|done|done|by left].
  - split; [done|done|done|by right].
  - exact demo_rates_ok.
  - exact demo_limits_empty.
  - exact demo_limits_empty.
  - vm_compute. discriminate.
Defined.

Definition demo_account : AccountInfoResponse :=
  {| a_id := ""; a_status := 0; a_accountAlias := ""; a_asset := ""; a_balance := 0; a_crossWalletBalance := 0; a_crossUnPnl := 0;
     a_availableBalance := 0; a_maxWithdrawAmount := 0; a_marginAvailable := false; a_updateTime := 0; a_rateLimits := demo_limits |}.
Definition demo_garbage : garbage string :=
  {| g_new := demo_order; g_cancel := demo_cancel; g_query := demo_query; g_account := demo_account |}.
Definition demo_error : JV :=
  JObj [("status"%string, JInt 400); ("error"%string, JObj [("code"%string, JInt (-1121)); ("msg"%string, JStr "Invalid symbol.")])].

Lemma getters_of_response_witness : exists w,
  @OrderResponsePtrWrapper_of _ (JV_Json []) _ _ demo_garbage OrderTypeSent_NEW demo_error = Some (Ok w) /\
  getOrderId w OrderTypeSent_NEW = -1.
Proof.
  destruct (@OrderResponsePtrWrapper_of _ (JV_Json []) _ _ demo_garbage OrderTypeSent_NEW demo_error) as [[w|]|] eqn:E;
    [|vm_compute in E; discriminate|vm_compute in E; discriminate].
  exists w. split; [reflexivity|].
  pose proof (@getters_of_response _ (JV_Json []) _ _ demo_garbage OrderTypeSent_NEW demo_error w E) as Hg.
  vm_compute in E. injection E as <-. apply Hg.
Defined.
