(* ===== verification/OrderTracker.v ===== *)
(** * OrderTracker: the orders this client has sent

    Models [orderClass.hpp], [orderSentEvents.hpp] and [orderTracker.hpp] of
    [src/api/futures/order/]: [Order], [OrderTracker] and the [OrderInfo] views. The
    tracker's methods run under its lock, an access to an order under the order's, so a
    call is one step; the pool of access indices and the queue of active orders are the
    ring buffers of RingBuffer, and [None] is a spin on them or a null pointer. *)

From S2P Require Import Prelude FixedPoint Model Enums Json RingBuffer OrderRecords OrderResponses OrderResponseSpec.

(** [orderSentEvents.hpp] *)
Record OrderSent := {
  s_timestamp : Z;
  s_price : Fixed;
  s_quantity : Fixed;
  s_pair : string;
  s_timeInForce : TimeInForce;
  s_side : OrderSide;
  s_positionSide : PositionSide;
  s_type : OrderType;
}.

Section Tracker.
  Context {V : Type} `{Json V} {double : Type} `{JsonDouble V double}.
  (** Members that no constructor assigns. *)
  Context (g : garbage double) (sent0 : OrderSent) (type0 : OrderTypeSent) (status0 : Z).

(** ** [class Order]; [wrapper] is [None] when null. *)
Record Order := {
  o_id : string;
  o_type : OrderTypeSent;
  wrapper : option (OrderResponsePtrWrapper double);
  sent : OrderSent;
  o_status : Z;
}.

(** The constructor of an order known only by its response. *)
Definition Order_of (id_ : string) (type_ : OrderTypeSent) (doc : V) : option (result Order) :=
  w ← OrderResponsePtrWrapper_of g type_ doc;
  Some (w' ← w; st ← value (field doc "status" ≫= get_int64);
        mret {| o_id := id_; o_type := type_; wrapper := Some w'; sent := sent0; o_status := st |}).

(** The constructor of an order about to be answered. *)
Definition Order_sent (timestamp_ : Z) (posSide : PositionSide) (orderSide : OrderSide) (tif : TimeInForce)
    (orderType : OrderType) (pair : string) (px qty : Fixed) : Order :=
  {| o_id := ""; o_type := type0; wrapper := None; o_status := status0;
     sent := {| s_timestamp := timestamp_; s_price := px; s_quantity := qty; s_pair := pair; s_timeInForce := tif;
                s_side := orderSide; s_positionSide := posSide; s_type := orderType |} |}.

(** [Order::returnPtr]: only of the types that place, cancel or modify. *)
Definition Order_returnPtr (o : Order) : option (ResponsePtr (double := double)) :=
  w ← wrapper o;
  match o_type o with
  | OrderTypeSent_NEW | OrderTypeSent_CANCEL | OrderTypeSent_MODIFY => responsePtr w (o_type o)
  | _ => None
  end.

Definition registerResponse (id_ : string) (type_ : OrderTypeSent) (doc : V) : SE Order unit :=
  _ ← modify (fun o => {| o_id := id_; o_type := type_; wrapper := wrapper o; sent := sent o; o_status := o_status o |});
  st ← lift (value (field doc "status" ≫= get_int64));
  _ ← modify (fun o => {| o_id := o_id o; o_type := o_type o; wrapper := wrapper o; sent := sent o; o_status := st |});
  w ← lift_opt (OrderResponsePtrWrapper_of g type_ doc);
  modify (fun o => {| o_id := o_id o; o_type := o_type o; wrapper := Some w; sent := sent o; o_status := o_status o |}).

(** ** [class OrderTracker] *)
Record OrderTracker := {
  orders : gmap string Order;
  pool : RingBuffer Z;
  activeOrders : RingBuffer Z;
}.

Definition POOL : Z := 1024.
Definition ACTIVE : Z := 256.

Definition set_orders (t : OrderTracker) (m : gmap string Order) : OrderTracker :=
  {| orders := m; pool := pool t; activeOrders := activeOrders t |}.

(** Runs code on the order [id], which must be there. *)
Definition on_order {A} (id : string) (m : SE Order A) : SE OrderTracker A := fun t =>
  o ← orders t !! id;
  '(x, o') ← m o;
  Some (x, set_orders t (<[id := o']> (orders t))).

(** [registerOrderResponse] with a fresh order. *)
Definition registerOrderResponse (id : string) (type_ : OrderTypeSent) (doc : V) : SE OrderTracker unit := fun t =>
  r ← Order_of id type_ doc;
  Some (match r with
        | Ok o => (Ok tt, set_orders t (<[id := o]> (orders t)))
        | Throw e => (Throw e, t)
        end).

Definition registerOrderSent (id : string) (timestamp : Z) (price quantity : Fixed) (sym : string) (tif : TimeInForce)
    (s : OrderSide) (pos : PositionSide) (type_ : OrderType) (doc : V) : SE OrderTracker unit :=
  _ ← modify (fun t => set_orders t (<[id := Order_sent timestamp pos s tif type_ sym price quantity]> (orders t)));
  on_order id (registerResponse id OrderTypeSent_NEW doc).

(** [getAccess] takes an index of the pool, the handle's destructor returns it, also
    when an exception leaves the block. *)
Definition with_access {A} (id : string) (m : SE Order A) : SE OrderTracker A := fun t =>
  '(p, i) ← dequeue POOL (pool t);
  '(x, t') ← on_order id m {| orders := orders t; pool := p; activeOrders := activeOrders t |};
  p' ← enqueue POOL (pool t') i;
  Some (x, {| orders := orders t'; pool := p'; activeOrders := activeOrders t' |}).

Definition updateOrderResponse (id : string) (type_ : OrderTypeSent) (doc : V) : SE OrderTracker unit :=
  t ← get_state;
  _ ← (match orders t !! id with Some _ => mret tt | None => registerOrderResponse id type_ doc end);
  with_access id (registerResponse id type_ doc).

Definition removeOrderResponse (id : string) (t : OrderTracker) : OrderTracker := set_orders t (delete id (orders t)).

Definition getOrderTypeStatus (id : string) (t : OrderTracker) : OrderTypeSent :=
  match orders t !! id with Some o => o_type o | None => OrderTypeSent_NONE end.
Definition getOrderStatusint (id : string) (t : OrderTracker) : Z :=
  match orders t !! id with Some o => o_status o | None => 0 end.

(** [getLock]: the lock of the order, named by its id; of an id that is not tracked it
    would be the lock of a null pointer. *)
Definition getLock (id : string) (t : OrderTracker) : option string := _ ← orders t !! id; Some id.

(** [getActiveOrderId] and [queueActiveOrderId]. *)
Definition getActiveOrderId (t : OrderTracker) : option (OrderTracker * Z) :=
  '(r, i) ← dequeue ACTIVE (activeOrders t); Some ({| orders := orders t; pool := pool t; activeOrders := r |}, i).
Definition queueActiveOrderId (i : Z) : SE OrderTracker unit := fun t =>
  r ← enqueue ACTIVE (activeOrders t) i; Some (Ok tt, {| orders := orders t; pool := pool t; activeOrders := r |}).

(** ** [OrderInfo]: reading an order through an access *)

Definition info {A} (f : Order -> A) (id : string) : SE OrderTracker A := with_access id (fun o => Some (Ok (f o), o)).

(** [getOrderStatusCode], which needs no access. *)
Definition getOrderStatusCode := getOrderStatusint.

(** Of the request *)
Definition info_timestamp := info (fun o => s_timestamp (sent o)).
Definition info_sent_price := info (fun o => s_price (sent o)).
Definition info_quantity := info (fun o => s_quantity (sent o)).
Definition info_pair := info (fun o => s_pair (sent o)).
Definition info_sent_timeInForce := info (fun o => s_timeInForce (sent o)).
Definition info_sent_side := info (fun o => s_side (sent o)).
Definition info_sent_positionSide := info (fun o => s_positionSide (sent o)).
Definition info_orderType := info (fun o => s_type (sent o)).

(** Of the response: [Order]'s getters, which answer a default without a wrapper. *)
Definition of_wrapper {A} (f : OrderResponsePtrWrapper double -> OrderTypeSent -> A) (d : A) (o : Order) : A :=
  match wrapper o with Some w => f w (o_type o) | None => d end.

Definition order_getOrderId := of_wrapper getOrderId (-1).
Definition order_getSymbol := of_wrapper getSymbol ""%string.
Definition order_getPrice := of_wrapper getPrice 0.
Definition order_getOrigQty := of_wrapper getOrigQty 0.
Definition order_getExecutedQty := of_wrapper getExecutedQty 0.
Definition order_getOrderStatus := of_wrapper getOrderStatus OrderStatus_NONE.
Definition order_getTimeInForce := of_wrapper getTimeInForce TimeInForce_NONE.
Definition order_getOrderSide := of_wrapper getOrderSide OrderSide_NONE.
Definition order_getPositionSide := of_wrapper getPositionSide PositionSide_NONE.
Definition order_getAvgPrice := of_wrapper getAvgPrice 0.
Definition order_getCumQty := of_wrapper getCumQty 0.
Definition order_getCumQuote := of_wrapper getCumQuote 0.
Definition order_getReduceOnly := of_wrapper getReduceOnly false.
Definition order_getClosePosition := of_wrapper getClosePosition false.
Definition order_getWorkingType := of_wrapper getWorkingType WorkingType_NONE.
Definition order_getPriceProtect := of_wrapper getPriceProtect false.
Definition order_getOrigType := of_wrapper getOrigType OrderType_NONE.
Definition order_getPriceMatchMode := of_wrapper getPriceMatchMode PriceMatchMode_NONE.
Definition order_getSelfTradePreventionMode := of_wrapper getSelfTradePreventionMode STPMode_NONE.
Definition order_getGoodTillDate := of_wrapper getGoodTillDate 0.
Definition order_getUpdateTime := of_wrapper getUpdateTime 0.

Definition info_orderStatus := info order_getOrderStatus.
Definition info_orderId := info order_getOrderId.
Definition info_symbol := info order_getSymbol.
Definition info_price := info order_getPrice.
Definition info_origQty := info order_getOrigQty.
Definition info_executedQty := info order_getExecutedQty.
Definition info_cumQty := info order_getCumQty.
Definition info_cumQuote := info order_getCumQuote.
Definition info_timeInForce := info order_getTimeInForce.
Definition info_orderSide := info order_getOrderSide.
Definition info_positionSide := info order_getPositionSide.
Definition info_workingType := info order_getWorkingType.
Definition info_priceProtect := info order_getPriceProtect.
Definition info_origType := info order_getOrigType.
Definition info_priceMatchMode := info order_getPriceMatchMode.
Definition info_selfTradePreventionMode := info order_getSelfTradePreventionMode.
Definition info_goodTillDate := info order_getGoodTillDate.
Definition info_updateTime := info order_getUpdateTime.

(** [AccountInfo::getAccountInfo]: an order without a wrapper is a null pointer here. *)
Definition getAccountInfo (id : string) : SE OrderTracker AccountInfoLite :=
  with_access id (fun o =>
    w ← wrapper o;
    Some (Ok {| aiAsset := getAsset w; aiBalance := getBalance w; aiCrossWalletBalance := getCrossWalletBalance w;
                aiAvailableBalance := getAvailableBalance w; aiUpdateTime := getUpdateTimeAccount w |}, o)).
End Tracker.
Arguments Order double : clear implicits.
Arguments OrderTracker double : clear implicits.

(** ** Properties *)

Section Spec.
  Context {V : Type} `{Json V} {double : Type} `{JsonDouble V double}.
  Context (g : garbage double) (sent0 : OrderSent) (type0 : OrderTypeSent) (status0 : Z).
  Implicit Types (t : OrderTracker double) (o : Order double) (id : string).

Lemma dequeue_holds {A} k (Hk : 1 <= k) (r : RingBuffer A) a q : holds k r (a :: q) ->
  exists r', dequeue (2 ^ k) r = Some (r', a) /\ holds k r' q.
Proof.
  intros Hh. destruct (holds_head k Hk r (a :: q) Hh) as (s & Hs & ->). unfold dequeue, await. rewrite Hs. cbn [mbind option_bind seq].
  rewrite Z.eqb_refl. cbn [mbind option_bind data]. destruct (holds_pop k Hk r q a Hh) as (bf & -> & Hh'). by eexists.
Qed.

(** Every access takes the oldest index of the pool and gives it back. *)
Lemma with_access_spec {A} id (m : SE (Order double) A) t o x o' i q : holds 10 (pool t) (i :: q) ->
  orders t !! id = Some o -> m o = Some (x, o') ->
  exists p, with_access id m t = Some (x, {| orders := <[id := o']> (orders t); pool := p; activeOrders := activeOrders t |}) /\
    holds 10 p (q ++ [i]).
Proof.
  intros Hh Ho Hm. destruct (dequeue_holds 10 ltac:(lia) _ _ _ Hh) as (p & Hp & Hh1).
  destruct (enqueue_holds 10 ltac:(lia) p q i Hh1) as (p' & Hp' & Hh').
  { pose proof (h_cap _ _ _ Hh) as Hc. cbn in *. lia. }
  unfold with_access. change POOL with (2 ^ 10). rewrite Hp. cbn [mbind option_bind].
  unfold on_order. cbn [orders]. rewrite Ho. cbn [mbind option_bind]. rewrite Hm. cbn [mbind option_bind set_orders pool orders activeOrders].
  rewrite Hp'. cbn. by exists p'.
Qed.

(** Reading an order: the view returns what the order holds, and leaves every order,
    the queue and the set of free access indices as they were. *)
Theorem tracker_access {A} (f : Order double -> A) id t o i q : holds 10 (pool t) (i :: q) -> orders t !! id = Some o ->
  exists p, info f id t = Some (Ok (f o), {| orders := orders t; pool := p; activeOrders := activeOrders t |}) /\
    holds 10 p (q ++ [i]).
Proof.
  intros Hh Ho. destruct (with_access_spec id (fun o => Some (Ok (f o), o)) t o (Ok (f o)) o i q Hh Ho eq_refl) as (p & Hp & Hq).
  exists p. split; [|done]. unfold info. rewrite Hp. by rewrite insert_id.
Qed.

Lemma registerResponse_spec id type_ doc o w :
  OrderResponsePtrWrapper_of g type_ doc = Some w ->
  registerResponse g id type_ doc o =
    match value (field doc "status" ≫= get_int64) with
    | Throw e => Some (Throw e, {| o_id := id; o_type := type_; wrapper := wrapper o; sent := sent o; o_status := o_status o |})
    | Ok st =>
        Some (match w with Ok _ => Ok tt | Throw e => Throw e end,
              {| o_id := id; o_type := type_; wrapper := match w with Ok w' => Some w' | Throw _ => wrapper o end;
                 sent := sent o; o_status := st |})
    end.
Proof.
  intros Hw. unfold registerResponse. erewrite SE_bind_Some; [|reflexivity]. rewrite SE_lift.
  destruct (value _) as [st|e]; [|done]. erewrite SE_bind_Some; [|reflexivity]. rewrite SE_lift_opt, Hw. by destruct w.
Qed.

(** A later response for a known order. *)
Lemma update_existing id type_ doc w t o i q : OrderResponsePtrWrapper_of g type_ doc = Some (Ok w) ->
  orders t !! id = Some o -> holds 10 (pool t) (i :: q) ->
  exists t2 o2, updateOrderResponse g sent0 id type_ doc t = Some (Ok tt, t2) /\
    orders t2 = <[id := o2]> (orders t) /\ sent o2 = sent o /\ o_type o2 = type_ /\ wrapper o2 = Some w.
Proof.
  intros Hw Ho Hh. unfold updateOrderResponse. rewrite (SE_bind_Some _ _ t t t) by done. rewrite Ho.
  rewrite (SE_bind_Some _ _ t tt t) by done.
  pose proof Hw as Hv. unfold OrderResponsePtrWrapper_of in Hv.
  destruct (value (field doc "status" ≫= get_int64)) as [st|] eqn:Es; [clear Hv|done].
  edestruct (with_access_spec id (registerResponse g id type_ doc) t) as (p & -> & _);
    [exact Hh|exact Ho|rewrite (registerResponse_spec _ _ _ _ _ Hw), Es; reflexivity|].
  do 2 eexists. split; [reflexivity|]. cbn. split; [reflexivity|]. done.
Qed.

(** Registering what was sent: the tracker gets exactly one entry, under the new id,
    with the request's fields; the response fills its status and its wrapper, or, if it
    does not read, its exception is passed on and the entry keeps no wrapper. A later
    response under the same id replaces the response part and keeps the request part. *)
Theorem tracker_register id ts px qty sym tif s pos ty doc w t :
  OrderResponsePtrWrapper_of g OrderTypeSent_NEW doc = Some w ->
  exists x o t', registerOrderSent g type0 status0 id ts px qty sym tif s pos ty doc t = Some (x, t') /\
    orders t' = <[id := o]> (orders t) /\ pool t' = pool t /\ activeOrders t' = activeOrders t /\
    o_id o = id /\ o_type o = OrderTypeSent_NEW /\
    sent o = {| s_timestamp := ts; s_price := px; s_quantity := qty; s_pair := sym; s_timeInForce := tif;
                s_side := s; s_positionSide := pos; s_type := ty |} /\
    (forall st, field doc "status" ≫= get_int64 = Val st -> getOrderStatusint id t' = st) /\
    match w with
    | Ok w' => x = Ok tt /\ wrapper o = Some w'
    | Throw e => x = Throw e /\ wrapper o = None
    end /\
    (forall type_ doc2 w2 i q, OrderResponsePtrWrapper_of g type_ doc2 = Some (Ok w2) -> holds 10 (pool t) (i :: q) ->
       exists t2, updateOrderResponse g sent0 id type_ doc2 t' = Some (Ok tt, t2) /\
         exists o2, orders t2 = <[id := o2]> (orders t') /\ sent o2 = sent o /\ o_type o2 = type_ /\ wrapper o2 = Some w2).
Proof.
  intros Hw. unfold registerOrderSent. erewrite SE_bind_Some; [|reflexivity]. unfold on_order. cbn [set_orders orders].
  rewrite lookup_insert. rewrite decide_True by done. cbn [mbind option_bind]. rewrite (registerResponse_spec _ _ _ _ w Hw).
  assert (Hst : forall e, value (field doc "status" ≫= get_int64) = Throw e -> w = Throw e).
  { intros e He. unfold OrderResponsePtrWrapper_of in Hw. rewrite He in Hw. by injection Hw. }
  assert (Hup : forall (t' : OrderTracker double) o, pool t' = pool t -> orders t' !! id = Some o ->
    forall type_ doc2 w2 i q, OrderResponsePtrWrapper_of g type_ doc2 = Some (Ok w2) -> holds 10 (pool t) (i :: q) ->
       exists t2, updateOrderResponse g sent0 id type_ doc2 t' = Some (Ok tt, t2) /\
         exists o2, orders t2 = <[id := o2]> (orders t') /\ sent o2 = sent o /\ o_type o2 = type_ /\ wrapper o2 = Some w2).
  { intros t' o Hp Ho type_ doc2 w2 i q Hw2 Hh. rewrite <- Hp in Hh.
    destruct (update_existing id type_ doc2 w2 t' o i q Hw2 Ho Hh) as (t2 & o2 & Hu & Ht2). exists t2. split; [done|]. by exists o2. }
  destruct (value (field doc "status" ≫= get_int64)) as [st|e] eqn:Est.
  - cbn [mbind option_bind]. eexists _, _, _. split; [reflexivity|]. cbn [set_orders orders pool activeOrders].
    rewrite insert_insert, decide_True by done. split; [reflexivity|]. split_and!; try done.
    + intros st' E. rewrite E in Est. injection Est as <-. unfold getOrderStatusint. cbn. by rewrite lookup_insert, decide_True.
    + by destruct w.
    + apply Hup; [done|]. cbn. by rewrite lookup_insert, decide_True.
  - pose proof (Hst e eq_refl) as ->. cbn [mbind option_bind]. eexists _, _, _. split; [reflexivity|]. cbn [set_orders orders pool activeOrders].
    rewrite insert_insert, decide_True by done. split; [reflexivity|]. split_and!; try done.
    + intros st' E. by rewrite E in Est.
    + apply Hup; [done|]. cbn. by rewrite lookup_insert, decide_True.
Qed.
End Spec.

(** ** An order, answered with an error, then queried *)

Definition demo_sent : OrderSent :=
  {| s_timestamp := 0; s_price := 0; s_quantity := 0; s_pair := ""; s_timeInForce := TimeInForce_NONE; s_side := OrderSide_NONE;
     s_positionSide := PositionSide_NONE; s_type := OrderType_NONE |}.
Definition demo_placed : Order string := Order_sent OrderTypeSent_NONE 0 1 PositionSide_BOTH OrderSide_BUY TimeInForce_GTC OrderType_LIMIT "BTCUSDT" 5 6.

(** A pool with its first three indices left. *)
Definition demo_pool : RingBuffer Z := new_ring (replicate (Z.to_nat POOL) 0).
Definition demo_tracker (p : RingBuffer Z) : OrderTracker string :=
  {| orders := {["a1"%string := demo_placed]}; pool := p; activeOrders := new_ring (replicate (Z.to_nat ACTIVE) 0) |}.

Lemma demo_pool_holds : exists p, enqueue POOL demo_pool 7 = Some p /\ holds 10 p [7].
Proof.
  destruct (enqueue_holds 10 ltac:(lia) demo_pool [] 7) as (p & Hp & Hh).
  - apply holds_new_ring; [lia|]. by rewrite length_replicate.
  - cbn. lia.
  - by exists p.
Qed.

Lemma tracker_access_witness : exists p p',
  info (fun o => s_price (sent o)) "a1" (demo_tracker p) =
    Some (Ok 5, {| orders := orders (demo_tracker p); pool := p'; activeOrders := activeOrders (demo_tracker p) |}).
Proof.
  destruct demo_pool_holds as (p & _ & Hh).
  destruct (tracker_access (fun o => s_price (sent o)) "a1" (demo_tracker p) demo_placed 7 [] Hh) as (p' & Hp & _).
  - reflexivity.
  - exists p, p'. exact Hp.
Defined.

Lemma tracker_register_witness : let J := JV_Json [] in
  exists x t', registerOrderSent demo_garbage OrderTypeSent_NONE 0 "a2" 1 5 6 "BTCUSDT" TimeInForce_GTC OrderSide_BUY
    PositionSide_BOTH OrderType_LIMIT demo_error (demo_tracker demo_pool) = Some (x, t') /\ getOrderStatusint "a2" t' = 400.
Proof.
  intros J. destruct (@tracker_register _ J _ _ demo_garbage demo_sent OrderTypeSent_NONE 0 "a2" 1 5 6 "BTCUSDT" TimeInForce_GTC OrderSide_BUY
    PositionSide_BOTH OrderType_LIMIT demo_error _ (demo_tracker demo_pool) eq_refl) as (x & o & t' & Hr & _ & _ & _ & _ & _ & _ & Hst & _).
  exists x, t'. split; [exact Hr|]. apply Hst. reflexivity.
Defined.
