(* ===== verification/TrackerConc.v ===== *)
(** * TrackerConc: the order tracker and its two kinds of locks

    [class OrderTracker] of [src/api/futures/order/orderTracker.hpp] is used from several
    threads: the methods hold the tracker's lock, and an access to one order
    ([OrderAccessRAII], [OrderAccessHolder] of [orderClass.hpp]) holds the order's lock
    and an index of a pool of 1024, taken while the tracker's lock is held and kept after it
    is released. OrderTracker models the methods as single steps; here any number of threads
    run them lock by lock, with the orders as objects in memory.

    [tracker_linear] justifies the single steps; [tracker_returns] says that every method
    returns, whatever the number of threads. Both hold until undefined behaviour: an access to an
    id that is not tracked dereferences a null pointer, and removing or registering anew an
    id while another thread looks at its order destroys the order under its lock
    ([tracker_use_after_free]). A look that lasts stops everybody ([tracker_stall]). *)

From S2P Require Import Prelude FixedPoint Model Enums Json RingBuffer OrderRecords OrderResponses OrderResponseSpec OrderTracker.

Definition INDICES : nat := 1024.

Section Tracker.
  (** What an order holds besides its lock. *)
  Context {D : Type}.

Inductive op :=
  | OSent (id : string) (d : D) (f : D -> D)     (** [registerOrderSent] *)
  | OResponse (id : string) (d : D)              (** [registerOrderResponse] *)
  | OUpdate (id : string) (d : D) (f : D -> D)   (** [updateOrderResponse] *)
  | ORemove (id : string)                        (** [removeOrderResponse] *)
  | OStatus (id : string)                        (** [getOrderTypeStatus], [getOrderStatusint] *)
  | ORead (id : string).                         (** an [OrderAccess] *)

(** Where a thread is; [a] is an order's address. *)
Inductive pc :=
  | Idle
  | Lock (o : op)                                 (** [SpinlockGuard mapGuard(lock)] *)
  | In (o : op)
  | Fill (id : string) (a : nat) (f : D -> D)     (** [map[id]->registerResponse] *)
  | Take (id : string) (a : nat) (u : option (D -> D))   (** [pool.getIndex()] *)
  | Spin (id : string) (a : nat) (u : option (D -> D))   (** [guard(order_->lock)] *)
  | Got (id : string) (a : nat) (u : option (D -> D)) (v : D)
  | Access (a : nat) (v : D)                      (** the tracker's lock is released *)
  | Put (a : nat) (inner : bool)                  (** [pool.returnIndex(index)] *)
  | Unlock (a : nat) (inner : bool)               (** the guard's destructor *)
  | Leave                                         (** [mapGuard]'s destructor *)
  | Crashed.

Record Cell := { content : D; olock : option nat }.
Record Thread := { todo : list op; at_ : pc }.

(** A call that took effect: the thread, the method and what it returned of an order. *)
Definition event : Type := nat * op * option D.

Record TSys := {
  map : gmap string nat;
  heap : gmap nat Cell;
  next : nat;
  indices : nat;              (** free indices of the pool *)
  mlock : option nat;         (** the thread that holds the tracker's lock *)
  crew : list Thread;
  trace : list event;
  ub : bool;
}.

Definition new_TSys (programs : list (list op)) : TSys :=
  {| map := ∅; heap := ∅; next := 0; indices := INDICES; mlock := None;
     crew := (fun l => {| todo := l; at_ := Idle |}) <$> programs; trace := []; ub := false |}.

Section Setters.
  Context (s : TSys).
Definition set_crew (i : nat) (l : list op) (p : pc) : TSys :=
  {| map := map s; heap := heap s; next := next s; indices := indices s; mlock := mlock s;
     crew := <[i := {| todo := l; at_ := p |}]> (crew s); trace := trace s; ub := ub s |}.
Definition set_mlock (m : option nat) : TSys :=
  {| map := map s; heap := heap s; next := next s; indices := indices s; mlock := m; crew := crew s; trace := trace s; ub := ub s |}.
Definition set_heap (h : gmap nat Cell) : TSys :=
  {| map := map s; heap := h; next := next s; indices := indices s; mlock := mlock s; crew := crew s; trace := trace s; ub := ub s |}.
Definition set_indices (n : nat) : TSys :=
  {| map := map s; heap := heap s; next := next s; indices := n; mlock := mlock s; crew := crew s; trace := trace s; ub := ub s |}.
Definition emit (e : event) : TSys :=
  {| map := map s; heap := heap s; next := next s; indices := indices s; mlock := mlock s; crew := crew s; trace := trace s ++ [e]; ub := ub s |}.
Definition crash : TSys :=
  {| map := map s; heap := heap s; next := next s; indices := indices s; mlock := mlock s; crew := crew s; trace := trace s; ub := true |}.

(** [map.erase(id)], or the old value of an assignment: the order is destroyed; somebody
    who holds its lock is left with a dangling reference. *)
Definition destroy (id : string) : TSys :=
  match map s !! id with
  | None => s
  | Some a =>
      {| map := delete id (map s); heap := delete a (heap s); next := next s; indices := indices s; mlock := mlock s;
         crew := crew s; trace := trace s;
         ub := ub s || match heap s !! a with Some c => bool_decide (olock c <> None) | None => false end |}
  end.

(** [map[id] = std::make_unique<Order>(...)] on an id that is not there. *)
Definition create (id : string) (d : D) : TSys :=
  {| map := <[id := next s]> (map s); heap := <[next s := {| content := d; olock := None |}]> (heap s); next := S (next s);
     indices := indices s; mlock := mlock s; crew := crew s; trace := trace s; ub := ub s |}.
End Setters.

Definition contents (s : TSys) (id : string) : option D := a ← map s !! id; content <$> heap s !! a.

(** A method's body under the tracker's lock, up to the access. *)
Definition body_step (s : TSys) (i : nat) (l : list op) (o : op) : TSys :=
  match o with
  | OSent id d f => let s1 := destroy s id in set_crew (create s1 id d) i l (Fill id (next s1) f)
  | OResponse id d => set_crew (create (destroy s id) id d) i l Leave
  | OUpdate id d f =>
      match map s !! id with
      | Some a => set_crew s i l (Take id a (Some f))
      | None => set_crew (create s id d) i l (Take id (next s) (Some f))
      end
  | ORemove id => set_crew (destroy s id) i l Leave
  | OStatus id => set_crew s i l Leave
  | ORead id =>
      match map s !! id with
      | Some a => set_crew s i l (Take id a None)
      | None => set_crew (crash s) i l Crashed
      end
  end.

Definition announce (s : TSys) (i : nat) (o : op) : TSys :=
  match o with ORead _ => s | OStatus id => emit s (i, o, contents s id) | _ => emit s (i, o, None) end.

Definition write (h : gmap nat Cell) (a : nat) (d : D) (k : option nat) : gmap nat Cell := <[a := {| content := d; olock := k |}]> h.

(** The next access of thread [i]; [None] while it waits for a lock or an index, has nothing
    to do, or is broken. *)
Definition tracker_step (i : nat) (s : TSys) : option TSys :=
  t ← crew s !! i;
  let l := todo t in
  match at_ t with
  | Idle => match l with o :: l' => Some (set_crew s i l' (Lock o)) | [] => None end
  | Lock o => match mlock s with None => Some (set_crew (set_mlock s (Some i)) i l (In o)) | Some _ => None end
  | In o => Some (body_step (announce s i o) i l o)
  | Fill id a f =>
      c ← heap s !! a;
      Some (set_crew (set_heap s (write (heap s) a (f (content c)) (olock c))) i l Leave)
  | Take id a u =>
      match indices s with O => None | S n => Some (set_crew (set_indices s n) i l (Spin id a u)) end
  | Spin id a u =>
      c ← heap s !! a;
      match olock c with
      | Some _ => None
      | None =>
          let s1 := set_heap s (write (heap s) a (content c) (Some i)) in
          Some (set_crew (match u with None => emit s1 (i, ORead id, Some (content c)) | Some _ => s1 end) i l (Got id a u (content c)))
      end
  | Got id a u v =>
      Some (match u with
            | None => set_crew (set_mlock s None) i l (Access a v)
            | Some f => set_crew (set_heap s (write (heap s) a (f v) (Some i))) i l (Put a true)
            end)
  | Access a v => Some (set_crew s i l (Put a false))
  | Put a inner => Some (set_crew (set_indices s (S (indices s))) i l (Unlock a inner))
  | Unlock a inner =>
      c ← heap s !! a;
      Some (set_crew (set_heap s (write (heap s) a (content c) None)) i l (if inner then Leave else Idle))
  | Leave => Some (set_crew (set_mlock s None) i l Idle)
  | Crashed => None
  end.

Definition tracker_reachable (programs : list (list op)) (s : TSys) : Prop :=
  rtc (fun a b => exists i, tracker_step i a = Some b) (new_TSys programs) s.

(** ** What each place in the code means *)

Definition in_map (p : pc) : bool :=
  match p with
  | In _ | Fill _ _ _ | Take _ _ _ | Spin _ _ _ | Got _ _ _ _ | Leave => true
  | Put _ inner | Unlock _ inner => inner
  | Idle | Lock _ | Access _ _ | Crashed => false
  end.
Definition order_of (p : pc) : option nat :=
  match p with Got _ a _ _ | Access a _ | Put a _ | Unlock a _ => Some a | _ => None end.
Definition has_index (p : pc) : bool :=
  match p with Spin _ _ _ | Got _ _ _ _ | Access _ _ | Put _ _ => true | _ => false end.

Definition locked (s : TSys) (a i : nat) : Prop := exists c, heap s !! a = Some c /\ olock c = Some i.

Record locks_ok (s : TSys) : Prop := {
  l_thread : forall i t, crew s !! i = Some t ->
    (in_map (at_ t) = true <-> mlock s = Some i) /\ (forall a, order_of (at_ t) = Some a <-> locked s a i);
  l_mlock : forall i, mlock s = Some i -> (i < length (crew s))%nat;
  l_olock : forall a i, locked s a i -> (i < length (crew s))%nat;
}.

(** What a thread knows of the store where it is. *)
Definition knows (s : TSys) (p : pc) : Prop :=
  match p with
  | Fill id a _ => map s !! id = Some a /\ olock <$> heap s !! a = Some None
  | Take id a _ | Spin id a _ => map s !! id = Some a
  | Got id a _ v => map s !! id = Some a /\ content <$> heap s !! a = Some v
  | Access a v => content <$> heap s !! a = Some v
  | Crashed => False
  | _ => True
  end.

Record store_ok (s : TSys) : Prop := {
  st_thread : forall i t, crew s !! i = Some t -> knows s (at_ t);
  st_heap : forall id a, map s !! id = Some a -> is_Some (heap s !! a);
  st_inj : forall id id' a, map s !! id = Some a -> map s !! id' = Some a -> id = id';
  st_next : forall a, is_Some (heap s !! a) -> (a < next s)%nat;
}.

(** The tracker that does one method at a time: its orders after, and what is returned. *)
Definition method (o : op) (m : gmap string D) : gmap string D * option D :=
  match o with
  | OSent id d f => (<[id := f d]> m, None)
  | OResponse id d => (<[id := d]> m, None)
  | OUpdate id d f => (<[id := f (default d (m !! id))]> m, None)
  | ORemove id => (delete id m, None)
  | OStatus id => (m, m !! id)
  | ORead id => (m, m !! id)
  end.

Inductive runs : list event -> gmap string D -> Prop :=
  | runs_nil : runs [] ∅
  | runs_snoc tr i o m : runs tr m -> runs (tr ++ [(i, o, snd (method o m))]) (fst (method o m)).

(** A method takes effect at its first access to the orders, a reader when it has the order's
    lock: what a method under way has still to write. *)
Definition pending (p : pc) : option (string * (D -> D)) :=
  match p with
  | Fill id _ f | Take id _ (Some f) | Spin id _ (Some f) | Got id _ (Some f) _ => Some (id, f)
  | _ => None
  end.

Definition after (s : TSys) (p : option (string * (D -> D))) (id : string) : option D :=
  match p with Some (id', f) => if decide (id = id') then f <$> contents s id else contents s id | None => contents s id end.

Definition view (s : TSys) (id : string) : option D :=
  after s (i ← mlock s; t ← crew s !! i; pending (at_ t)) id.

Definition trace_ok (s : TSys) : Prop := exists m, runs (trace s) m /\ forall id, m !! id = view s id.

(** The methods of a thread that took effect, and the one that has still to. *)
Definition called (i : nat) (tr : list event) : list op :=
  flat_map (fun e => match e with (j, o, _) => if decide (j = i) then [o] else [] end) tr.

Definition current (p : pc) : list op :=
  match p with Lock o | In o => [o] | Take id _ None | Spin id _ None => [ORead id] | _ => [] end.

Definition order_ok (programs : list (list op)) (s : TSys) : Prop :=
  forall i t, crew s !! i = Some t -> programs !! i = Some (called i (trace s) ++ current (at_ t) ++ todo t).

Definition indices_ok (s : TSys) : Prop :=
  (indices s + length (filter (fun t => has_index (at_ t) = true) (crew s)))%nat = INDICES.

(** ** Moving one thread *)

Lemma set_crew_lookup (l : list Thread) i t j u : <[i := t]> l !! j = Some u -> (j = i /\ u = t) \/ (j <> i /\ l !! j = Some u).
Proof.
  intros E. destruct (decide (j = i)) as [->|Hn]; [left|right].
  - assert (i < length l)%nat by (apply lookup_lt_Some in E; by rewrite length_insert in E).
    rewrite list_lookup_insert_eq in E by done. by injection E.
  - by rewrite list_lookup_insert_ne in E.
Qed.

Lemma locks_update s s' i t l p : locks_ok s -> crew s !! i = Some t -> crew s' = <[i := {| todo := l; at_ := p |}]> (crew s) ->
  (in_map p = true <-> mlock s' = Some i) -> (forall j, j <> i -> mlock s' = Some j <-> mlock s = Some j) ->
  (forall a, order_of p = Some a <-> locked s' a i) -> (forall a j, j <> i -> locked s' a j <-> locked s a j) -> locks_ok s'.
Proof.
  intros [Ht Hm Ho] Hi Hc H1 H2 H3 H4. assert (i < length (crew s))%nat as Hlt by (by eapply lookup_lt_Some).
  split; rewrite ?Hc, ?length_insert.
  - intros j u [[-> ->]|[Hn Hj]]%set_crew_lookup; [done|]. destruct (Ht j u Hj) as [Ha Hb].
    split; [by rewrite Ha, H2|]. intros a. by rewrite Hb, H4.
  - intros j Hj. destruct (decide (j = i)) as [->|Hn]; [done|]. apply Hm. by apply H2.
  - intros a j Hj. destruct (decide (j = i)) as [->|Hn]; [done|]. apply (Ho a). by apply H4.
Qed.

Lemma indices_update s s' i t l p : indices_ok s -> crew s !! i = Some t -> crew s' = <[i := {| todo := l; at_ := p |}]> (crew s) ->
  (indices s' + (if has_index p then 1 else 0) = indices s + (if has_index (at_ t) then 1 else 0))%nat -> indices_ok s'.
Proof.
  unfold indices_ok. intros Hi Ht -> He. rewrite <- Hi. clear Hi. revert i Ht. induction (crew s) as [|u us IH]; intros i Ht; [done|].
  destruct i as [|i]; cbn in Ht.
  - injection Ht as ->. cbn [insert list_insert]. rewrite !filter_cons. cbn [at_].
    destruct (has_index p), (has_index (at_ t)); cbn [decide]; repeat case_decide; cbn [length]; try done; lia.
  - cbn [insert list_insert]. rewrite !filter_cons. specialize (IH i Ht).
    destruct (decide (has_index (at_ u) = true)); cbn [length]; unfold insert in *; lia.
Qed.

(** ** Locks *)

Lemma locked_write s h a d k b j : (forall c, h !! c = heap s !! c \/ c = a) ->
  locked (set_heap s (write h a d k)) b j <-> (b = a /\ k = Some j) \/ (b <> a /\ locked s b j).
Proof.
  intros Hh. unfold locked, write. cbn. destruct (decide (b = a)) as [->|Hn].
  - rewrite lookup_insert_eq. split; [intros (c & [= <-] & E); by left|intros [[_ ->]|[? _]]; [by eexists|done]].
  - rewrite lookup_insert_ne by done. destruct (Hh b) as [->|]; [|done]. split; [by right|intros [[-> _]|[_ ?]]; done].
Qed.

Lemma destroy_locked s id a j : ub (destroy s id) = false -> locked (destroy s id) a j <-> locked s a j.
Proof.
  unfold destroy, locked. destruct (map s !! id) as [b|] eqn:E; [|done]. cbn. intros [_ Hu]%orb_false_iff.
  destruct (decide (a = b)) as [->|Hn]; [|by rewrite lookup_delete_ne by done].
  rewrite lookup_delete_eq. split; [by intros (c & ? & _)|]. intros (c & Hc & Hj). rewrite Hc in Hu.
  apply bool_decide_eq_false in Hu. rewrite Hj in Hu. exfalso. by apply Hu.
Qed.

Definition fresh (s : TSys) : Prop := heap s !! next s = None.

Lemma store_fresh s : store_ok s -> fresh s.
Proof.
  intros Hs. unfold fresh. destruct (heap s !! next s) eqn:E; [|done].
  assert (next s < next s)%nat by (apply (st_next s Hs); by rewrite E). lia.
Qed.

Lemma destroy_fresh s id : fresh s -> fresh (destroy s id).
Proof. unfold fresh, destroy. destruct (map s !! id); [|done]. cbn. intros E. apply lookup_delete_None. by right. Qed.

Lemma create_locked s id d a j : fresh s -> locked (create s id d) a j <-> locked s a j.
Proof.
  intros Hs. unfold create, locked. cbn. destruct (decide (a = next s)) as [->|Hn]; [|by rewrite lookup_insert_ne by done].
  rewrite lookup_insert_eq. split; [intros (c & [= <-] & Hc); done|]. intros (c & Hc & _). unfold fresh in Hs. congruence.
Qed.

Lemma destroy_same s id : crew (destroy s id) = crew s /\ mlock (destroy s id) = mlock s /\ trace (destroy s id) = trace s /\
  indices (destroy s id) = indices s /\ next (destroy s id) = next s /\ map (destroy s id) !! id = None.
Proof. unfold destroy. destruct (map s !! id) eqn:E; cbn; split_and!; try done. by rewrite lookup_delete_eq. Qed.

Lemma announce_same s i o : crew (announce s i o) = crew s /\ mlock (announce s i o) = mlock s /\
  (forall a j, locked (announce s i o) a j <-> locked s a j) /\ indices (announce s i o) = indices s /\
  (forall id, contents (announce s i o) id = contents s id).
Proof. by destruct o. Qed.

(** A thread outside the tracker's lock and without an order's is out of everybody's way. *)
Lemma knows_other s s' p : in_map p = false -> (forall a v, p = Access a v -> content <$> heap s !! a = Some v -> content <$> heap s' !! a = Some v) ->
  knows s p -> knows s' p.
Proof. destruct p; cbn; try done. intros _ H. by apply H. Qed.

(** Ub is for ever. *)
Lemma step_ub i s s' : tracker_step i s = Some s' -> ub s = true -> ub s' = true.
Proof.
  intros Hst Hu. unfold tracker_step in Hst. destruct (crew s !! i) as [t|]; [cbn in Hst|done].
  destruct (at_ t) as [|o|o|id a f|id a u|id a u|id a u v|a v|a inner|a inner| |]; simplify_eq.
  - destruct (todo t); by simplify_eq.
  - destruct (mlock s); by simplify_eq.
  - assert (forall s id, ub s = true -> ub (destroy s id) = true) as Hd by (intros s1 id E; unfold destroy; case_match; cbn; by rewrite ?E).
    destruct o; cbn; rewrite ?Hd by done; try done; by case_match.
  - destruct (heap s !! a); by simplify_eq/=.
  - destruct (indices s); by simplify_eq.
  - destruct (heap s !! a); simplify_eq/=. destruct (olock c); simplify_eq/=. by destruct u.
  - by destruct u.
  - done.
  - done.
  - destruct (heap s !! a); by simplify_eq/=.
  - done.
Qed.

(** The body of a method leaves the locks alone. *)
Lemma body_locks s i l o : fresh s -> ub (body_step s i l o) = false ->
  mlock (body_step s i l o) = mlock s /\ (forall a j, locked (body_step s i l o) a j <-> locked s a j) /\
  exists p, crew (body_step s i l o) = <[i := {| todo := l; at_ := p |}]> (crew s) /\
    order_of p = None /\ in_map p = true /\ has_index p = false /\ indices (body_step s i l o) = indices s.
Proof.
  intros Hf Hu.
  assert (forall id d, ub (create (destroy s id) id d) = false -> forall a j, locked (create (destroy s id) id d) a j <-> locked s a j) as Hreg.
  { intros id d Hud a j. rewrite create_locked by (by apply destroy_fresh). by apply destroy_locked. }
  destruct o as [id d f|id d|id d f|id|id|id]; cbn in *; try (pose proof (destroy_same s id) as (E1 & E2 & _ & E4 & E5 & _)).
  - split_and!; [done|by apply Hreg|]. eexists. cbn. rewrite E1. by split_and!.
  - split_and!; [done|by apply Hreg|]. eexists. cbn. rewrite E1. by split_and!.
  - destruct (map s !! id); cbn; (split_and!; [done| |eexists; by split_and!]); [done|].
    intros a j. by apply create_locked.
  - split_and!; [done|intros a j; by apply destroy_locked|]. eexists. cbn. rewrite E1. by split_and!.
  - split_and!; [done..|]. eexists. by split_and!.
  - destruct (map s !! id); cbn; [|done]. split_and!; [done..|]. eexists. by split_and!.
Qed.

Lemma locked_same s a c d b j : heap s !! a = Some c -> locked (set_heap s (write (heap s) a d (olock c))) b j <-> locked s b j.
Proof.
  intros Ha. rewrite locked_write by (by left). unfold locked. split; [intros [[-> E]|[_ ?]]; [by exists c|done]|].
  intros Hb. destruct (decide (b = a)) as [->|]; [left|by right]. destruct Hb as (c' & Hc' & <-). split; [done|]. congruence.
Qed.

Lemma locked_inj s a i j : locked s a i -> locked s a j -> i = j.
Proof. intros (c & Hc & Hi) (c' & Hc' & Hj). congruence. Qed.

Lemma locks_step i s s' : tracker_step i s = Some s' -> ub s' = false -> fresh s -> locks_ok s -> locks_ok s'.
Proof.
  intros Hst Hu Hf Hl. unfold tracker_step in Hst. destruct (crew s !! i) as [t|] eqn:Et; [cbn in Hst|done].
  destruct (l_thread s Hl i t Et) as [Hm Ho].
  destruct (at_ t) as [|o|o|id a f|id a u|id a u|id a u v|a v|a inner|a inner| |] eqn:Ep; simplify_eq.
  - destruct (todo t) as [|o l]; simplify_eq. by eapply locks_update.
  - destruct (mlock s) eqn:Em; simplify_eq. eapply locks_update; try done. cbn. intros j Hn. split; congruence.
  - assert (fresh (announce s i o)) as Hf' by (by destruct o).
    destruct (body_locks (announce s i o) i (todo t) o Hf' Hu) as (E1 & E2 & p & E3 & E4 & E5 & _).
    destruct (announce_same s i o) as (E6 & E7 & E8 & _).
    eapply (locks_update s _ i t (todo t) p); try done.
    + by rewrite E3, E6.
    + by rewrite E1, E7, <- Hm, E5.
    + by rewrite E1, E7.
    + intros a. by rewrite E2, E8, <- Ho, E4.
    + intros a j _. by rewrite E2, E8.
  - destruct (heap s !! a) as [c|] eqn:Ea; simplify_eq/=. eapply locks_update; try done.
    + intros b. rewrite Ho. symmetry. by apply (locked_same s a c).
    + intros b j _. by apply (locked_same s a c).
  - destruct (indices s) as [|n]; simplify_eq. by eapply locks_update.
  - destruct (heap s !! a) as [c|] eqn:Ea; simplify_eq/=. destruct (olock c) eqn:Ec; simplify_eq/=.
    assert (forall b j, locked (set_heap s (write (heap s) a (content c) (Some i))) b j <-> (b = a /\ Some i = Some j) \/ (b <> a /\ locked s b j)) as Hw
      by (intros b j; apply locked_write; by left).
    eapply (locks_update s _ i t (todo t) (Got id a u (content c))); try done; destruct u; try done; cbn.
    all: try (intros b; split; [intros [= ->]; apply Hw; by left|intros [[-> _]|[_ Hb]]%Hw; [done|by apply Ho in Hb]]).
    all: intros b j Hn; (split; [intros [[_ [= E]]|[_ ?]]%Hw; [by destruct Hn|done]|intros Hb; apply Hw; right; split; [|done]]).
    all: intros ->; destruct Hb as (c' & Hc' & Hj); congruence.
  - destruct u as [f|]; simplify_eq.
    + assert (locked s a i) as (c & Ha & Hc) by (by apply Ho). eapply (locks_update s _ i t (todo t) (Put a true)); try done.
      * intros b. cbn. rewrite <- Hc. rewrite Ho. symmetry. by apply (locked_same s a c).
      * intros b j _. cbn. rewrite <- Hc. by apply (locked_same s a c).
    + eapply (locks_update s _ i t (todo t) (Access a v)); try done. cbn. intros j Hn. split; [done|].
      intros E. assert (mlock s = Some i) by (by apply Hm). congruence.
  - by eapply locks_update.
  - by eapply locks_update.
  - destruct (heap s !! a) as [c|] eqn:Ea; simplify_eq/=.
    assert (forall b j, locked (set_heap s (write (heap s) a (content c) None)) b j <-> (b = a /\ None = Some j) \/ (b <> a /\ locked s b j)) as Hw
      by (intros b j; apply locked_write; by left).
    assert (locked s a i) as Hai by (by apply Ho).
    eapply (locks_update s _ i t (todo t) (if inner then Leave else Idle)); try done; cbn; [by destruct inner| |].
    + intros b. destruct inner; cbn; (split; [done|intros [[_ ?]|[Hn Hb]]%Hw; [done|apply Ho in Hb; cbn in Hb; congruence]]).
    + intros b j Hn. split; [intros [[_ ?]|[_ ?]]%Hw; done|]. intros Hb. apply Hw. right. split; [|done].
      intros ->. destruct Hn. by eapply locked_inj.
  - eapply (locks_update s _ i t (todo t) Idle); try done. cbn. intros j Hn. split; [done|].
    intros E. assert (mlock s = Some i) by (by apply Hm). congruence.
Qed.

(** ** The store *)

Record shape_ok (s : TSys) : Prop := {
  sh_heap : forall id a, map s !! id = Some a -> is_Some (heap s !! a);
  sh_inj : forall id id' a, map s !! id = Some a -> map s !! id' = Some a -> id = id';
  sh_next : forall a, is_Some (heap s !! a) -> (a < next s)%nat;
}.

Lemma store_shape s : store_ok s -> shape_ok s.
Proof. by intros []. Qed.

Lemma shape_ext s s' : shape_ok s -> map s' = map s -> heap s' = heap s -> next s' = next s -> shape_ok s'.
Proof. intros [] E1 E2 E3. split; by rewrite ?E1, ?E2, ?E3. Qed.

Lemma shape_write s a c d k : shape_ok s -> heap s !! a = Some c -> shape_ok (set_heap s (write (heap s) a d k)).
Proof.
  intros [Hh Hi Hn] Ha. split; cbn; [|done|]; unfold write.
  - intros id b Hb. destruct (decide (b = a)) as [->|]; [by rewrite lookup_insert_eq|rewrite lookup_insert_ne by done; by eapply Hh].
  - intros b Hb. destruct (decide (b = a)) as [->|]; [apply Hn; by rewrite Ha|rewrite lookup_insert_ne in Hb by done; by apply Hn].
Qed.

Lemma shape_destroy s id : shape_ok s -> shape_ok (destroy s id).
Proof.
  intros [Hh Hi Hn]. unfold destroy. destruct (map s !! id) as [a|] eqn:E; [|by split]. split; cbn.
  - intros id' b [Hne Hb]%lookup_delete_Some. rewrite lookup_delete_ne; [by eapply Hh|]. intros ->. destruct Hne. by eapply Hi.
  - intros id1 id2 b [_ H1]%lookup_delete_Some [_ H2]%lookup_delete_Some. by eapply Hi.
  - intros b [c [_ Hc]%lookup_delete_Some]. apply Hn. by eexists.
Qed.

Lemma shape_create s id d : shape_ok s -> map s !! id = None -> shape_ok (create s id d).
Proof.
  intros [Hh Hi Hn] Hid. assert (forall id', map s !! id' <> Some (next s)) as Hfr.
  { intros id' E. assert (next s < next s)%nat by (apply Hn; by eapply Hh). lia. }
  split; cbn.
  - intros id' b [[<- <-]|[Hne Hb]]%lookup_insert_Some; [by rewrite lookup_insert_eq|].
    rewrite lookup_insert_ne; [by eapply Hh|]. intros <-. by eapply Hfr.
  - intros id1 id2 b [[<- <-]|[H1 H1']]%lookup_insert_Some [[<- E]|[H2 H2']]%lookup_insert_Some; try done.
    + exfalso. by eapply Hfr.
    + subst b. exfalso. by eapply Hfr.
    + by eapply Hi.
  - intros b [c [[<- _]|[_ Hb]]%lookup_insert_Some]; [lia|]. assert (b < next s)%nat by (apply Hn; by eexists). lia.
Qed.

Lemma store_update s s' i t l p : store_ok s -> crew s !! i = Some t -> crew s' = <[i := {| todo := l; at_ := p |}]> (crew s) ->
  shape_ok s' -> knows s' p -> (forall j u, j <> i -> crew s !! j = Some u -> knows s (at_ u) -> knows s' (at_ u)) -> store_ok s'.
Proof.
  intros [Ht _ _ _] Hi Hc [Hh Hinj Hn] Hp Ho. split; try done. rewrite Hc.
  intros j u [[-> ->]|[Hne Hj]]%set_crew_lookup; [done|]. eapply Ho; eauto.
Qed.

Lemma store_move s s' i t l p : store_ok s -> crew s !! i = Some t -> crew s' = <[i := {| todo := l; at_ := p |}]> (crew s) ->
  map s' = map s -> heap s' = heap s -> next s' = next s -> knows s p -> store_ok s'.
Proof.
  intros Hs Hi Hc E1 E2 E3 Hk. assert (forall q, knows s q -> knows s' q) as Hq by (intros []; cbn; by rewrite ?E1, ?E2).
  eapply store_update; eauto. by apply (shape_ext s); [apply store_shape|..].
Qed.

(** Under the tracker's lock: whatever happens to the store, the others only mind the
    orders they have locked. *)
Lemma others_in_map s s' i : locks_ok s -> mlock s = Some i ->
  (forall b j, j <> i -> locked s b j -> content <$> heap s' !! b = content <$> heap s !! b) ->
  forall j u, j <> i -> crew s !! j = Some u -> knows s (at_ u) -> knows s' (at_ u).
Proof.
  intros Hl Hm Hc j u Hn Hj. destruct (l_thread s Hl j u Hj) as [Hmj Hoj]. apply knows_other.
  - destruct (in_map (at_ u)); [|done]. assert (mlock s = Some j) by (by apply Hmj). congruence.
  - intros a v E Hv. rewrite (Hc a j Hn); [done|]. apply Hoj. by rewrite E.
Qed.

Lemma destroy_content s id b j : ub (destroy s id) = false -> locked s b j -> heap (destroy s id) !! b = heap s !! b.
Proof.
  unfold destroy. destruct (map s !! id) as [a|] eqn:E; [|done]. cbn. intros [_ Hu]%orb_false_iff (c & Hc & Hj).
  destruct (decide (a = b)) as [->|Hn]; [|by rewrite lookup_delete_ne by done]. rewrite Hc in Hu.
  apply bool_decide_eq_false in Hu. rewrite Hj in Hu. exfalso. by apply Hu.
Qed.

Lemma body_store i t l o s : store_ok s -> locks_ok s -> crew s !! i = Some t -> mlock s = Some i ->
  ub (body_step s i l o) = false -> store_ok (body_step s i l o).
Proof.
  intros Hs Hl Ht Hm Hu. pose proof (store_shape s Hs) as Hsh. pose proof (store_fresh s Hs) as Hf.
  assert (forall id d, ub (destroy s id) = false -> forall b j, locked s b j ->
    content <$> heap (create (destroy s id) id d) !! b = content <$> heap s !! b) as Hreg.
  { intros id d Hud b j Hb. cbn. pose proof (destroy_same s id) as (_ & _ & _ & _ & En & _). rewrite lookup_insert_ne.
    - by rewrite (destroy_content s id b j).
    - rewrite En. intros <-. destruct Hb as (c & Hc & _). unfold fresh in Hf. congruence. }
  destruct o as [id d f|id d|id d f|id|id|id]; cbn in *; try (pose proof (destroy_same s id) as (E1 & E2 & _ & E4 & E5 & E6)).
  - eapply (store_update s _ i t l (Fill id (next (destroy s id)) f)); try done.
    + cbn. by rewrite E1.
    + apply (shape_ext (create (destroy s id) id d)); try done. apply shape_create; [by apply shape_destroy|done].
    + cbn. by rewrite !lookup_insert_eq.
    + apply others_in_map; [done..|]. intros b j _. by apply Hreg.
  - eapply (store_update s _ i t l Leave); try done.
    + cbn. by rewrite E1.
    + apply (shape_ext (create (destroy s id) id d)); try done. apply shape_create; [by apply shape_destroy|done].
    + apply others_in_map; [done..|]. intros b j _. by apply Hreg.
  - destruct (map s !! id) as [a|] eqn:E; cbn in *.
    + by eapply (store_move s _ i t l (Take id a (Some f))).
    + eapply (store_update s _ i t l (Take id (next s) (Some f))); try done.
      * apply (shape_ext (create s id d)); try done. by apply shape_create.
      * cbn. by rewrite lookup_insert_eq.
      * apply others_in_map; [done..|]. intros b j _ (c & Hc & _). cbn. rewrite lookup_insert_ne; [done|].
        intros <-. unfold fresh in Hf. congruence.
  - eapply (store_update s _ i t l Leave); try done.
    + cbn. by rewrite E1.
    + apply (shape_ext (destroy s id)); try done. by apply shape_destroy.
    + apply others_in_map; [done..|]. intros b j _ Hb. cbn. by rewrite (destroy_content s id b j).
  - by eapply (store_move s _ i t l Leave).
  - destruct (map s !! id) as [a|] eqn:E; cbn in *; [|done]. by eapply (store_move s _ i t l (Take id a None)).
Qed.

Lemma store_step i s s' : tracker_step i s = Some s' -> ub s' = false -> locks_ok s -> store_ok s -> store_ok s'.
Proof.
  intros Hst Hu Hl Hs. pose proof (store_shape s Hs) as Hsh. unfold tracker_step in Hst.
  destruct (crew s !! i) as [t|] eqn:Et; [cbn in Hst|done].
  destruct (l_thread s Hl i t Et) as [Hm Ho]. pose proof (st_thread s Hs i t Et) as Hk.
  destruct (at_ t) as [|o|o|id a f|id a u|id a u|id a u v|a v|a inner|a inner| |] eqn:Ep; simplify_eq.
  - destruct (todo t) as [|o l]; simplify_eq. by eapply (store_move s _ i t l (Lock o)).
  - destruct (mlock s) eqn:Em; simplify_eq. by eapply (store_move s _ i t (todo t) (In o)).
  - destruct (announce_same s i o) as (E1 & E2 & _). apply (body_store i t); rewrite ?E1, ?E2; [| |done|by apply Hm|done].
    + destruct Hs. by destruct o.
    + destruct Hl. by destruct o.
  - destruct (heap s !! a) as [c|] eqn:Ea; simplify_eq/=. destruct Hk as [Hid Hc]. rewrite Ea in Hc. injection Hc as Hc.
    eapply (store_update s _ i t (todo t) Leave); try done; [by eapply shape_ext; [eapply (shape_write s a c)|..]|].
    apply others_in_map; [done|by apply Hm|]. intros b j _ (c' & Hc' & Hj). cbn. unfold write.
    rewrite lookup_insert_ne; [done|]. intros ->. congruence.
  - destruct (indices s) as [|n]; simplify_eq. by eapply (store_move s _ i t (todo t) (Spin id a u)).
  - destruct (heap s !! a) as [c|] eqn:Ea; simplify_eq/=. destruct (olock c) eqn:Ec; simplify_eq/=.
    assert (shape_ok (set_heap s (write (heap s) a (content c) (Some i)))) as Hw by (by apply (shape_write s a c)).
    eapply (store_update s _ i t (todo t) (Got id a u (content c))); try done; destruct u; try (by destruct Hw); cbn; unfold write.
    1,2: split; [done|by rewrite lookup_insert_eq].
    all: apply others_in_map; [done|by apply Hm|]; intros b j _ (c' & Hc' & Hj); cbn; rewrite lookup_insert_ne; [done|]; intros ->; congruence.
  - destruct Hk as [Hid Hv]. destruct u as [f|]; simplify_eq.
    + assert (locked s a i) as (c & Ha & Hc) by (by apply Ho). assert (shape_ok (set_heap s (write (heap s) a (f v) (Some i)))) as Hw by (by apply (shape_write s a c)).
      eapply (store_update s _ i t (todo t) (Put a true)); try done; [by destruct Hw|].
      apply others_in_map; [done|by apply Hm|]. intros b j Hn Hb. cbn. unfold write. rewrite lookup_insert_ne; [done|].
      intros ->. destruct Hn. eapply locked_inj; [done|]. by exists c.
    + by eapply (store_move s _ i t (todo t) (Access a v)).
  - by eapply (store_move s _ i t (todo t) (Put a false)).
  - by eapply (store_move s _ i t (todo t) (Unlock a inner)).
  - destruct (heap s !! a) as [c|] eqn:Ea; simplify_eq/=.
    eapply (store_update s _ i t (todo t) (if inner then Leave else Idle)); try done; [by eapply shape_ext; [apply (shape_write s a c)|..]|by destruct inner|].
    intros j u Hn Hj. assert (forall b, content <$> write (heap s) a (content c) None !! b = content <$> heap s !! b) as Hct.
    { intros b. unfold write. destruct (decide (b = a)) as [->|]; [rewrite lookup_insert_eq; by rewrite Ea|by rewrite lookup_insert_ne]. }
    destruct (at_ u) as [|?|?|id b f|id b ?|id b ?|id b ? ?|b ?|? ?|? ?| |]; cbn; rewrite ?Hct; try done.
    intros [Hid Hb]. split; [done|]. unfold write. destruct (decide (b = a)) as [->|]; [by rewrite lookup_insert_eq|by rewrite lookup_insert_ne].
  - by eapply (store_move s _ i t (todo t) Idle).
Qed.

(** ** The indices *)

Lemma indices_step i s s' : tracker_step i s = Some s' -> ub s' = false -> fresh s -> indices_ok s -> indices_ok s'.
Proof.
  intros Hst Hu Hf Hi. unfold tracker_step in Hst. destruct (crew s !! i) as [t|] eqn:Et; [cbn in Hst|done].
  destruct (at_ t) as [|o|o|id a f|id a u|id a u|id a u v|a v|a inner|a inner| |] eqn:Ep; simplify_eq.
  3: assert (fresh (announce s i o)) as Hf' by (by destruct o);
     destruct (body_locks _ i (todo t) o Hf' Hu) as (_ & _ & p & Ec & _ & _ & Eh & En); destruct (announce_same s i o) as (E1 & _ & _ & E2 & _);
     rewrite E1 in Ec; by eapply indices_update; [..|rewrite En, E2, Ep, Eh].
  all: repeat case_match; simplify_eq; try (destruct (heap s !! a); simplify_eq/=); repeat case_match; simplify_eq.
  all: eapply indices_update; [done|exact Et|done|]; rewrite Ep; cbn; try destruct inner; cbn; lia.
Qed.

(** ** The trace *)

Lemma contents_destroy s id id' : shape_ok s -> contents (destroy s id) id' = if decide (id' = id) then None else contents s id'.
Proof.
  intros [Hh Hi _]. unfold contents, destroy. destruct (map s !! id) as [a|] eqn:E; cbn.
  - destruct (decide (id' = id)) as [->|Hn]; [by rewrite lookup_delete_eq|]. rewrite lookup_delete_ne by done.
    destruct (map s !! id') as [b|] eqn:E'; [|done]. cbn. rewrite lookup_delete_ne; [done|]. intros ->. destruct Hn. by eapply Hi.
  - destruct (decide (id' = id)) as [->|Hn]; [by rewrite E|done].
Qed.

Lemma contents_create s id d id' : shape_ok s -> contents (create s id d) id' = if decide (id' = id) then Some d else contents s id'.
Proof.
  intros [Hh _ Hn]. unfold contents, create. cbn. destruct (decide (id' = id)) as [->|Hne]; [by rewrite lookup_insert_eq; cbn; rewrite lookup_insert_eq|].
  rewrite lookup_insert_ne by done. destruct (map s !! id') as [b|] eqn:E; [|done]. cbn. rewrite lookup_insert_ne; [done|].
  intros <-. assert (next s < next s)%nat by (apply Hn; by eapply Hh). lia.
Qed.

Lemma contents_write s id a d k id' : shape_ok s -> map s !! id = Some a ->
  contents (set_heap s (write (heap s) a d k)) id' = if decide (id' = id) then Some d else contents s id'.
Proof.
  intros [_ Hi _] Ha. unfold contents, write. cbn. destruct (decide (id' = id)) as [->|Hn]; [by rewrite Ha; cbn; rewrite lookup_insert_eq|].
  destruct (map s !! id') as [b|] eqn:E; [|done]. cbn. rewrite lookup_insert_ne; [done|]. intros ->. destruct Hn. by eapply Hi.
Qed.

Lemma contents_lock s a c k id : heap s !! a = Some c -> contents (set_heap s (write (heap s) a (content c) k)) id = contents s id.
Proof.
  intros Ha. unfold contents, write. cbn. destruct (map s !! id) as [b|]; [|done]. cbn. destruct (decide (b = a)) as [->|Hn].
  - by rewrite lookup_insert_eq, Ha.
  - by rewrite lookup_insert_ne.
Qed.

Lemma view_at s i t id : mlock s = Some i -> crew s !! i = Some t -> view s id = after s (pending (at_ t)) id.
Proof. unfold view. intros -> E. cbn. by rewrite E. Qed.

Lemma view_quiet s s' i t l p : crew s !! i = Some t -> crew s' = <[i := {| todo := l; at_ := p |}]> (crew s) ->
  pending (at_ t) = None -> pending p = None -> (forall j, j <> i -> mlock s' = Some j <-> mlock s = Some j) ->
  (forall id, contents s' id = contents s id) -> forall id, view s' id = view s id.
Proof.
  intros Ht Hc Hp Hp' Hm Hs id.
  assert ((j ← mlock s'; t ← crew s' !! j; pending (at_ t)) = (j ← mlock s; t ← crew s !! j; pending (at_ t))) as E.
  { assert (forall j, j <> i -> crew s' !! j = crew s !! j) as Hj by (intros j Hn; rewrite Hc; by apply list_lookup_insert_ne).
    assert (crew s' !! i = Some {| todo := l; at_ := p |}) as Hi by (rewrite Hc; apply list_lookup_insert_eq; by eapply lookup_lt_Some).
    destruct (mlock s') as [j|] eqn:E', (mlock s) as [k|] eqn:E; cbn.
    - destruct (decide (j = i)) as [->|Hn].
      + rewrite Hi. cbn. rewrite Hp'. destruct (decide (k = i)) as [->|Hn]; [by rewrite Ht|]. pose proof (Hm k Hn). intuition congruence.
      + assert (Some k = Some j) as [= ->] by (by apply Hm). by rewrite Hj.
    - destruct (decide (j = i)) as [->|Hn]; [by rewrite Hi|]. pose proof (Hm j Hn). intuition congruence.
    - destruct (decide (k = i)) as [->|Hn]; [by rewrite Ht|]. pose proof (Hm k Hn). intuition congruence.
    - done. }
  unfold view. rewrite E. unfold after. case_match; [|done]. destruct p0. by rewrite Hs.
Qed.

Lemma trace_quiet s s' : trace_ok s -> trace s' = trace s -> (forall id, view s' id = view s id) -> trace_ok s'.
Proof. intros (m & Hr & Hm) Et Hc. exists m. rewrite Et. split; [done|]. intros id. by rewrite Hm, Hc. Qed.

(** A method takes effect. *)
Lemma trace_event s s' i o r : trace_ok s -> trace s' = trace s ++ [(i, o, r)] ->
  (forall m, (forall id, m !! id = view s id) -> snd (method o m) = r /\ forall id, fst (method o m) !! id = view s' id) -> trace_ok s'.
Proof.
  intros (m & Hr & Hm) Et Ho. destruct (Ho m Hm) as [Hres Hc]. exists (fst (method o m)). split; [|done].
  rewrite Et, <- Hres. by constructor.
Qed.

Lemma insert_spec (m : gmap string D) id d id' : <[id := d]> m !! id' = if decide (id' = id) then Some d else m !! id'.
Proof. destruct (decide (id' = id)) as [->|Hn]; [by rewrite lookup_insert_eq|by rewrite lookup_insert_ne]. Qed.

Lemma body_trace s0 i t l o : let s := announce s0 i o in shape_ok s0 -> trace_ok s0 -> mlock s0 = Some i -> crew s0 !! i = Some t -> at_ t = In o ->
  ub (body_step s i l o) = false -> trace_ok (body_step s i l o).
Proof.
  intros s Hs0 Ht Hm Hi Ha Hu.
  assert (shape_ok s) as Hs by (destruct Hs0; by destruct o).
  assert (forall id d, shape_ok (destroy s id)) as Hd by (intros; by apply shape_destroy).
  assert (forall id, view s0 id = contents s id) as Hv by (intros id; rewrite (view_at s0 i t), Ha by done; by destruct o).
  assert (forall s' l' p id, mlock s' = mlock s -> crew s' = crew s -> view (set_crew s' i l' p) id = after s' (pending p) id) as Hv'.
  { intros s' l' p id E E'. rewrite (view_at _ i {| todo := l'; at_ := p |}); [done|rewrite <- Hm; by destruct o|].
    cbn. rewrite E'. apply list_lookup_insert_eq. apply lookup_lt_Some in Hi. by destruct o. }
  assert (forall id d id', contents (create (destroy s id) id d) id' = if decide (id' = id) then Some d else contents s id') as Hnew.
  { intros id d id'. rewrite contents_create, contents_destroy by auto. by case_decide. }
  assert (forall id d, crew (create (destroy s id) id d) = crew s /\ mlock (create (destroy s id) id d) = mlock s /\
    trace (create (destroy s id) id d) = trace s) as Hsame by (intros id d; pose proof (destroy_same s id); cbn; tauto).
  destruct o as [id d f|id d|id d f|id|id|id]; cbn [body_step] in *; try (pose proof (destroy_same s id) as (E1 & E2 & E & _)).
  - apply (trace_event s0 _ i (OSent id d f) None); [done|by transitivity (trace (destroy s id)); [done|rewrite E]|]. intros m Hcm. split; [done|]. intros id'.
    rewrite Hv' by apply Hsame. cbn [method fst pending after]. rewrite insert_spec, Hnew, Hcm, Hv. by repeat case_decide.
  - apply (trace_event s0 _ i (OResponse id d) None); [done|by transitivity (trace (destroy s id)); [done|rewrite E]|]. intros m Hcm. split; [done|]. intros id'.
    rewrite Hv' by apply Hsame. cbn [method fst pending after]. by rewrite insert_spec, Hnew, Hcm, Hv.
  - change (map s !! id) with (map s0 !! id) in *. apply (trace_event s0 _ i (OUpdate id d f) None); [done|by destruct (map s0 !! id)|]. intros m Hcm. split; [done|]. intros id'.
    cbn [method fst]. rewrite insert_spec, !Hcm, !Hv. destruct (map s0 !! id) as [a|] eqn:Em.
    + rewrite Hv' by done. cbn [pending after]. case_decide as Hid; [|done]. subst id'.
      destruct (sh_heap s0 Hs0 id a Em) as [c Hc]. unfold contents. cbn. rewrite Em. cbn. by rewrite Hc.
    + rewrite Hv' by done. cbn [pending after]. rewrite contents_create by done. case_decide as Hid; [|done]. subst id'.
      unfold contents. cbn. by rewrite Em.
  - apply (trace_event s0 _ i (ORemove id) None); [done|by transitivity (trace (destroy s id)); [done|rewrite E]|]. intros m Hcm. split; [done|]. intros id'.
    rewrite Hv' by done. cbn [method fst pending after]. rewrite contents_destroy by done. case_decide as Hid.
    + subst id'. by rewrite lookup_delete_eq.
    + rewrite lookup_delete_ne by done. by rewrite Hcm, Hv.
  - apply (trace_event s0 _ i (OStatus id) (contents s0 id)); [done..|]. intros m Hcm. split; [by cbn; rewrite Hcm, Hv|]. intros id'.
    rewrite Hv' by done. cbn [method fst pending after]. by rewrite Hcm, Hv.
  - change (map s !! id) with (map s0 !! id) in *. destruct (map s0 !! id) as [a|] eqn:Em; [|done]. apply (trace_quiet s0); [done..|]. intros id'. by rewrite Hv', Hv.
Qed.

Lemma trace_step i s s' : tracker_step i s = Some s' -> ub s' = false -> locks_ok s -> store_ok s -> trace_ok s -> trace_ok s'.
Proof.
  intros Hst Hu Hl Hs Ht. pose proof (store_shape s Hs) as Hsh. unfold tracker_step in Hst.
  destruct (crew s !! i) as [t|] eqn:Et; [cbn in Hst|done].
  pose proof (st_thread s Hs i t Et) as Hk. destruct (l_thread s Hl i t Et) as [Hm _].
  assert (forall s1 s2 l p, crew s1 = crew s -> mlock s1 = mlock s -> mlock s = Some i -> s2 = set_crew s1 i l p ->
    forall id, view s2 id = after s1 (pending p) id) as Hv.
  { intros s1 s2 l p E1 E2 E3 -> id. rewrite (view_at _ i {| todo := l; at_ := p |}); [done|by cbn; rewrite E2|].
    cbn. rewrite E1. apply list_lookup_insert_eq. by eapply lookup_lt_Some. }
  destruct (at_ t) as [|o|o|id a f|id a u|id a u|id a u v|a v|a inner|a inner| |] eqn:Ep; simplify_eq.
  - destruct (todo t) as [|o l]; simplify_eq. apply (trace_quiet s); [done..|]. by apply (view_quiet s _ i t l (Lock o)); [..|by rewrite Ep| | |].
  - destruct (mlock s) eqn:Em; simplify_eq. apply (trace_quiet s); [done..|].
    apply (view_quiet s _ i t (todo t) (In o)); try done; [by rewrite Ep|]. intros j Hn. cbn. rewrite Em. split; congruence.
  - apply (body_trace s i t); try done. by apply Hm.
  - destruct (heap s !! a) as [c|] eqn:Ea; simplify_eq/=. destruct Hk as [Hid Hc]. apply (trace_quiet s); [done..|]. intros id'.
    rewrite (Hv (set_heap s (write (heap s) a (f (content c)) (olock c))) _ (todo t) Leave) by (try done; by apply Hm).
    rewrite (view_at s i t), Ep by (try done; by apply Hm). cbn [pending after]. rewrite (contents_write s id) by done.
    case_decide as Hid'; [|done]. subst id'. unfold contents. rewrite Hid. cbn. by rewrite Ea.
  - destruct (indices s) as [|n]; simplify_eq. apply (trace_quiet s); [done..|]. intros id'.
    rewrite (Hv (set_indices s n) _ (todo t) (Spin id a u)) by (try done; by apply Hm).
    rewrite (view_at s i t), Ep by (try done; by apply Hm). by destruct u.
  - destruct (heap s !! a) as [c|] eqn:Ea; simplify_eq/=. destruct (olock c) eqn:Ec; simplify_eq/=.
    pose proof (fun id => contents_lock s a c (Some i) id Ea) as Hc.
    destruct u as [f|].
    + apply (trace_quiet s); [done..|]. intros id'.
      rewrite (Hv (set_heap s (write (heap s) a (content c) (Some i))) _ (todo t) (Got id a (Some f) (content c))) by (try done; by apply Hm).
      rewrite (view_at s i t), Ep by (try done; by apply Hm). cbn [pending after]. by rewrite Hc.
    + apply (trace_event s _ i (ORead id) (Some (content c))); [done..|]. intros m Hcm. split.
      * cbn. rewrite Hcm, (view_at s i t), Ep by (try done; by apply Hm). unfold after, contents. cbn. rewrite Hk. cbn. by rewrite Ea.
      * intros id'. cbn [method fst]. rewrite Hcm, (view_at s i t), Ep by (try done; by apply Hm).
        rewrite (Hv (emit (set_heap s (write (heap s) a (content c) (Some i))) (i, ORead id, Some (content c))) _ (todo t) (Got id a None (content c))) by (try done; by apply Hm).
        cbn [pending after]. symmetry. apply Hc.
  - destruct Hk as [Hid Hc]. destruct (heap s !! a) as [c|] eqn:Ea; [|done]. injection Hc as <-. destruct u as [f|]; simplify_eq; apply (trace_quiet s); try done.
    + intros id'. rewrite (Hv (set_heap s (write (heap s) a (f (content c)) (Some i))) _ (todo t) (Put a true)) by (try done; by apply Hm).
      rewrite (view_at s i t), Ep by (try done; by apply Hm). cbn [pending after]. rewrite (contents_write s id) by done.
      case_decide as Hid'; [|done]. subst id'. unfold contents. rewrite Hid. cbn. by rewrite Ea.
    + apply (view_quiet s _ i t (todo t) (Access a (content c))); try done; [by rewrite Ep|]. intros j Hn. cbn. split; [done|].
      intros E. assert (mlock s = Some i) by (by apply Hm). congruence.
  - apply (trace_quiet s); [done..|]. by apply (view_quiet s _ i t (todo t) (Put a false)); [..|by rewrite Ep| | |].
  - apply (trace_quiet s); [done..|]. by apply (view_quiet s _ i t (todo t) (Unlock a inner)); [..|by rewrite Ep| | |].
  - destruct (heap s !! a) as [c|] eqn:Ea; simplify_eq/=. apply (trace_quiet s); [done..|].
    apply (view_quiet s _ i t (todo t) (if inner then Leave else Idle)); try done; [by rewrite Ep|by destruct inner|].
    intros id. by apply (contents_lock s a c None id).
  - apply (trace_quiet s); [done..|]. apply (view_quiet s _ i t (todo t) Idle); try done; [by rewrite Ep|]. intros j Hn. cbn. split; [done|].
    intros E. assert (mlock s = Some i) by (by apply Hm). congruence.
Qed.

(** ** The order of a thread's methods *)

Lemma order_update programs s s' i t l p tr : order_ok programs s -> crew s !! i = Some t -> crew s' = <[i := {| todo := l; at_ := p |}]> (crew s) ->
  trace s' = trace s ++ ((fun '(o, r) => (i, o, r)) <$> tr) -> (fst <$> tr) ++ current p ++ l = current (at_ t) ++ todo t -> order_ok programs s'.
Proof.
  intros Ho Hi Hc Htr Hl j u. rewrite Hc, Htr. unfold called. rewrite flat_map_app. fold (called j (trace s)).
  intros [[-> ->]|[Hn Hj]]%set_crew_lookup.
  - rewrite (Ho i t Hi), <- Hl, <- app_assoc. cbn [at_ todo]. do 2 f_equal. f_equal. clear. induction tr as [|[o r] tr IH]; [done|].
    cbn. rewrite decide_True by done. cbn. by f_equal.
  - rewrite (Ho j u Hj). f_equal. rewrite <- app_assoc. f_equal. clear -Hn. induction tr as [|[o r] tr IH]; [done|].
    cbn. by rewrite decide_False.
Qed.

Lemma body_order programs s i t l o : order_ok programs s -> crew s !! i = Some t -> current (at_ t) ++ todo t = o :: l ->
  ub (body_step (announce s i o) i l o) = false -> order_ok programs (body_step (announce s i o) i l o).
Proof.
  intros Ho Hi Hl Hu. destruct o as [id d f|id d|id d f|id|id|id]; cbn [body_step announce] in *.
  5: by apply (order_update programs s _ i t l Leave [(OStatus id, contents s id)]).
  - pose proof (destroy_same (emit s (i, OSent id d f, None)) id) as (E1 & _ & E & _). cbn [crew trace emit] in E1, E.
    eapply (order_update programs s _ i t l (Fill id _ f) [(OSent id d f, None)]); try done; cbn; by rewrite ?E1, ?E.
  - pose proof (destroy_same (emit s (i, OResponse id d, None)) id) as (E1 & _ & E & _). cbn [crew trace emit] in E1, E.
    eapply (order_update programs s _ i t l Leave [(OResponse id d, None)]); try done; cbn; by rewrite ?E1, ?E.
  - change (map (emit s (i, OUpdate id d f, None))) with (map s). destruct (map s !! id) as [a|].
    + by apply (order_update programs s _ i t l (Take id a (Some f)) [(OUpdate id d f, None)]).
    + by apply (order_update programs s _ i t l (Take id (next s) (Some f)) [(OUpdate id d f, None)]).
  - pose proof (destroy_same (emit s (i, ORemove id, None)) id) as (E1 & _ & E & _). cbn [crew trace emit] in E1, E.
    eapply (order_update programs s _ i t l Leave [(ORemove id, None)]); try done; cbn; by rewrite ?E1, ?E.
  - destruct (map s !! id) as [a|]; [|done]. apply (order_update programs s _ i t l (Take id a None) []); try done. cbn. by rewrite app_nil_r.
Qed.

Lemma order_step programs i s s' : tracker_step i s = Some s' -> ub s' = false -> order_ok programs s -> order_ok programs s'.
Proof.
  intros Hst Hu Ho. unfold tracker_step in Hst. destruct (crew s !! i) as [t|] eqn:Et; [cbn in Hst|done].
  assert (forall s' l p, crew s' = <[i := {| todo := l; at_ := p |}]> (crew s) -> trace s' = trace s ->
    current p ++ l = current (at_ t) ++ todo t -> order_ok programs s') as Hq.
  { intros s1 l p E1 E2 E3. apply (order_update programs s s1 i t l p []); try done. cbn. by rewrite app_nil_r. }
  destruct (at_ t) as [|o|o|id a f|id a u|id a u|id a u v|a v|a inner|a inner| |] eqn:Ep; simplify_eq.
  - destruct (todo t) as [|o l] eqn:El; simplify_eq. by apply (Hq _ l (Lock o)).
  - destruct (mlock s) eqn:Em; simplify_eq. by apply (Hq _ (todo t) (In o)).
  - apply (body_order programs s i t); try done. by rewrite Ep.
  - destruct (heap s !! a) as [c|] eqn:Ea; simplify_eq/=. by apply (Hq _ (todo t) Leave).
  - destruct (indices s) as [|n]; simplify_eq. by apply (Hq _ (todo t) (Spin id a u)).
  - destruct (heap s !! a) as [c|] eqn:Ea; simplify_eq/=. destruct (olock c) eqn:Ec; simplify_eq/=. destruct u as [f|].
    + by apply (Hq _ (todo t) (Got id a (Some f) (content c))).
    + apply (order_update programs s _ i t (todo t) (Got id a None (content c)) [(ORead id, Some (content c))]); try done. by rewrite Ep.
  - destruct u as [f|]; simplify_eq; [by apply (Hq _ (todo t) (Put a true))|by apply (Hq _ (todo t) (Access a v))].
  - by apply (Hq _ (todo t) (Put a false)).
  - by apply (Hq _ (todo t) (Unlock a inner)).
  - destruct (heap s !! a) as [c|] eqn:Ea; simplify_eq/=. apply (Hq _ (todo t) (if inner then Leave else Idle)); try done; by destruct inner.
  - by apply (Hq _ (todo t) Idle).
Qed.

(** ** The invariant *)

Record tracker_ok (programs : list (list op)) (s : TSys) : Prop := {
  ok_locks : locks_ok s;
  ok_store : store_ok s;
  ok_indices : indices_ok s;
  ok_trace : trace_ok s;
  ok_order : order_ok programs s;
}.

Lemma new_TSys_ok programs : tracker_ok programs (new_TSys programs).
Proof.
  assert (forall i t, crew (new_TSys programs) !! i = Some t -> at_ t = Idle /\ programs !! i = Some (todo t)) as Hc.
  { intros i t. cbn. rewrite list_lookup_fmap. destruct (programs !! i) as [l|]; [|done]. by intros [= <-]. }
  assert (forall a i, ~ locked (new_TSys programs) a i) as Hl.
  { intros a i (c & Ha & _). cbn in Ha. by rewrite lookup_empty in Ha. }
  split.
  - split; [|done|by intros a i ?%Hl]. intros i t [-> _]%Hc. cbn. split; [done|]. intros a. split; [done|by intros ?%Hl].
  - split; cbn; [by intros i t [-> _]%Hc|by intros id a|by intros id id' a|by intros a [c Ha]].
  - unfold indices_ok, new_TSys. cbn [indices crew]. clear. induction programs as [|l ls IH]; [done|].
    rewrite fmap_cons, filter_cons_False by done. apply IH.
  - exists ∅. split; [constructor|]. done.
  - intros i t [E Hp]%Hc. by rewrite Hp, E.
Qed.

Lemma tracker_ok_step programs i s s' : tracker_step i s = Some s' -> ub s' = false -> tracker_ok programs s -> tracker_ok programs s'.
Proof.
  intros Hst Hu [Hl Hs Hi Ht Ho]. pose proof (store_fresh s Hs). split.
  - by eapply locks_step.
  - by eapply store_step.
  - by eapply indices_step.
  - by eapply trace_step.
  - by eapply order_step.
Qed.

Lemma tracker_invariant programs s : tracker_reachable programs s -> ub s = false -> tracker_ok programs s.
Proof.
  intros Hr. unfold tracker_reachable in Hr. revert s Hr. refine (rtc_ind_r (fun s => ub s = false -> tracker_ok programs s) (new_TSys programs) (fun _ => new_TSys_ok programs) _).
  intros y z _ [i Hst] IH Hz. eapply tracker_ok_step; [done|done|]. apply IH. destruct (ub y) eqn:Ey; [|done].
  by rewrite (step_ub i y z Hst Ey) in Hz.
Qed.

(** ** Every method returns *)

(** The accesses due to a thread. *)
Definition due (t : Thread) : nat :=
  (10 * length (todo t) +
   match at_ t with
   | Idle | Crashed => 0 | Lock _ => 9 | In _ => 8 | Take _ _ _ => 7 | Spin _ _ _ => 6 | Got _ _ _ _ => 5 | Access _ _ => 4
   | Put _ _ => 3 | Unlock _ _ | Fill _ _ _ => 2 | Leave => 1
   end)%nat.

Definition all_due (s : TSys) : nat := list_sum (due <$> crew s).

Lemma sum_insert {A} (g : A -> nat) (l : list A) i t u : l !! i = Some t ->
  (list_sum (g <$> <[i := u]> l) + g t = list_sum (g <$> l) + g u)%nat.
Proof.
  revert i. induction l as [|v l IH]; intros i Hi; [done|]. destruct i as [|i]; cbn in *; [injection Hi as ->; lia|].
  specialize (IH i Hi). unfold list_sum, insert, fmap in *. lia.
Qed.

Lemma body_crew s i l o : exists p, crew (body_step (announce s i o) i l o) = <[i := {| todo := l; at_ := p |}]> (crew s) /\
  (due {| todo := l; at_ := p |} < 10 * length l + 8)%nat.
Proof.
  destruct o as [id d f|id d|id d f|id|id|id]; cbn [body_step announce].
  1: pose proof (destroy_same (emit s (i, OSent id d f, None)) id) as (E & _).
  2: pose proof (destroy_same (emit s (i, OResponse id d, None)) id) as (E & _).
  4: pose proof (destroy_same (emit s (i, ORemove id, None)) id) as (E & _).
  3,6: case_match.
  all: eexists; split; [cbn [crew set_crew create crash]; rewrite ?E; reflexivity|unfold due; cbn; lia].
Qed.

Lemma due_step i s s' : tracker_step i s = Some s' -> (all_due s' < all_due s)%nat.
Proof.
  intros Hst. unfold tracker_step in Hst. destruct (crew s !! i) as [t|] eqn:Et; [cbn in Hst|done].
  assert (forall l p, crew s' = <[i := {| todo := l; at_ := p |}]> (crew s) -> (due {| todo := l; at_ := p |} < due t)%nat ->
    (all_due s' < all_due s)%nat) as Hw.
  { intros l p E Hlt. unfold all_due. rewrite E. pose proof (sum_insert due (crew s) i t {| todo := l; at_ := p |} Et). lia. }
  unfold due in Hw.
  destruct (at_ t) as [|o|o|id a f|id a u|id a u|id a u v|a v|a inner|a inner| |] eqn:Ep; simplify_eq.
  3: { destruct (body_crew s i (todo t) o) as (p & Ec & Hp). by apply (Hw (todo t) p). }
  all: repeat case_match; simplify_eq; try (destruct (heap s !! a); simplify_eq/=); repeat case_match; simplify_eq.
  all: (eapply Hw; [reflexivity|]); cbn in *; try destruct inner; cbn in *; try lia.
Qed.

Lemma order_steps programs s i t a : tracker_ok programs s -> crew s !! i = Some t -> order_of (at_ t) = Some a -> (forall id u v, at_ t <> Got id a u v) ->
  is_Some (tracker_step i s).
Proof.
  intros Hok Hi Ha Hn. apply (l_thread s (ok_locks _ s Hok) i t Hi) in Ha as Hl. destruct Hl as (c & Hc & _).
  unfold tracker_step. rewrite Hi. cbn. destruct (at_ t); simplify_eq/=; try by eexists. by rewrite Hc.
Qed.

(** The thread with the tracker's lock can go on, or some thread that looks at an order. *)
Lemma holder_steps programs s j : tracker_ok programs s -> mlock s = Some j -> exists i, is_Some (tracker_step i s).
Proof.
  intros Hok Hm. pose proof (ok_locks _ s Hok) as Hl. destruct (lookup_lt_is_Some_2 (crew s) j (l_mlock s Hl j Hm)) as [t Ht].
  pose proof (st_thread s (ok_store _ s Hok) j t Ht) as Hk. apply (l_thread s Hl j t Ht) in Hm as Hin.
  assert (forall k u, k <> j -> crew s !! k = Some u -> in_map (at_ u) = false) as Hout.
  { intros k u Hn Hu. destruct (in_map (at_ u)) eqn:E; [|done]. apply (l_thread s Hl k u Hu) in E. congruence. }
  assert (is_Some (tracker_step j s) -> exists i, is_Some (tracker_step i s)) as Hj by (intros E; by exists j).
  assert (forall c k id a u, at_ t = Spin id a u -> heap s !! a = Some c -> olock c = Some k -> exists i, is_Some (tracker_step i s)) as Hspin.
  { intros c k id a u E Hc Hk'. assert (locked s a k) as Hlk by (by exists c). exists k.
    destruct (lookup_lt_is_Some_2 (crew s) k (l_olock s Hl a k Hlk)) as [v Hv]. apply (l_thread s Hl k v Hv) in Hlk.
    assert (k <> j) as Hn by (intros ->; rewrite Ht in Hv; simplify_eq; by rewrite E in Hlk).
    eapply order_steps; [done..|]. intros id' u' v' Eg. pose proof (Hout k v Hn Hv) as Ho. by rewrite Eg in Ho. }
  assert (forall id a u, at_ t = Take id a u -> indices s = 0%nat -> exists i, is_Some (tracker_step i s)) as Htake.
  { intros id a u E Ez. pose proof (ok_indices _ s Hok) as Hi. unfold indices_ok in Hi. rewrite Ez in Hi.
    destruct (filter (fun t => has_index (at_ t) = true) (crew s)) as [|v vs] eqn:Ef; [done|].
    assert (v ∈ filter (fun t => has_index (at_ t) = true) (crew s)) as [Hv Hin']%list_elem_of_filter by (rewrite Ef; left).
    apply list_elem_of_lookup in Hin' as [k Hk']. exists k.
    assert (k <> j) as Hn by (intros ->; rewrite Ht in Hk'; simplify_eq; by rewrite E in Hv).
    pose proof (Hout k v Hn Hk') as Ho. destruct (at_ v) as [| | | | | |id' a' u' v'|a' v'|a' inner| | |] eqn:Ev; try done;
      (eapply order_steps; [done..| |]); rewrite Ev; try done. }
  destruct (at_ t) as [|o|o|id a f|id a u|id a u|id a u v|a v|a inner|a inner| |] eqn:Ep; cbn in Hin; try done.
  all: try (apply Hj; unfold tracker_step; rewrite Ht; cbn; rewrite Ep; by eexists).
  - apply Hj. unfold tracker_step. rewrite Ht. cbn. rewrite Ep. destruct Hk as [_ Hc]. destruct (heap s !! a); [by eexists|done].
  - destruct (indices s) eqn:Ei; [by eapply Htake|]. apply Hj. unfold tracker_step. rewrite Ht. cbn. rewrite Ep, Ei. by eexists.
  - cbn in Hk. destruct (st_heap s (ok_store _ s Hok) id a Hk) as [c Hc]. destruct (olock c) as [k|] eqn:Ec; [by eapply Hspin|].
    apply Hj. unfold tracker_step. rewrite Ht. cbn. rewrite Ep, Hc. cbn. rewrite Ec. by eexists.
  - exists j. eapply order_steps; [done..|rewrite Ep; done|]. by rewrite Ep.
Qed.

Lemma stuck_done programs s : tracker_ok programs s -> (forall i, tracker_step i s = None) -> forall i t, crew s !! i = Some t -> t = {| todo := []; at_ := Idle |}.
Proof.
  intros Hok Hst i t Hi.
  assert (mlock s = None) as Hm.
  { destruct (mlock s) as [j|] eqn:E; [|done]. destruct (holder_steps programs s j Hok E) as [k [s' Hk]]. by rewrite Hst in Hk. }
  pose proof (st_thread s (ok_store _ s Hok) i t Hi) as Hk. destruct (l_thread s (ok_locks _ s Hok) i t Hi) as [Hin _].
  assert (in_map (at_ t) = false) as Hf by (destruct (in_map (at_ t)); [destruct Hin as [Hin _]; specialize (Hin eq_refl); congruence|done]).
  assert (forall a, order_of (at_ t) = Some a -> (forall id u v, at_ t <> Got id a u v) -> t = {| todo := []; at_ := Idle |}) as Ho.
  { intros a Ha Hg. destruct (order_steps programs s i t a Hok Hi Ha Hg) as [s' Hs]. by rewrite Hst in Hs. }
  specialize (Hst i). unfold tracker_step in Hst. rewrite Hi in Hst. cbn in Hst.
  destruct t as [l p]. cbn in *. destruct p as [|o|o|id a f|id a u|id a u|id a u v|a v|a inner|a inner| |]; try done.
  - by destruct l.
  - by rewrite Hm in Hst.
  - by eapply Ho.
Qed.

Lemma new_due programs : all_due (new_TSys programs) = (10 * length (concat programs))%nat.
Proof.
  unfold all_due, new_TSys. cbn [crew]. induction programs as [|l ls IH]; [done|]. rewrite !fmap_cons. cbn [concat].
  rewrite length_app. unfold list_sum in *. cbn [foldr]. rewrite IH. unfold due. cbn [todo at_]. lia.
Qed.

Lemma due_steps n s s' : nsteps (fun a b => exists i, tracker_step i a = Some b) n s s' -> (n + all_due s' <= all_due s)%nat.
Proof. induction 1 as [|n x y z [i Hst] _ IH]; [lia|]. apply due_step in Hst. lia. Qed.

(** The methods that destroy the order an id had. *)
Definition overwrites (o : op) : option string :=
  match o with OSent id _ _ | OResponse id _ | ORemove id => Some id | _ => None end.

(** ** The theorems *)

(** C11 Until undefined behaviour the tracker is linearizable: what the threads did so far, in
    the order in which it took effect, is a run of the tracker that does one method at a
    time, with the same answers; whenever nobody holds the tracker's lock the orders are
    those of that run; each thread's methods took effect in its program's order; no two
    threads have the same order, and what a thread looks at does not change under it. *)
Theorem tracker_linear programs s : tracker_reachable programs s -> ub s = false ->
  (exists m, runs (trace s) m /\ (mlock s = None -> forall id, contents s id = m !! id)) /\
  (forall i t, crew s !! i = Some t -> programs !! i = Some (called i (trace s) ++ current (at_ t) ++ todo t)) /\
  (forall i j t u a, crew s !! i = Some t -> crew s !! j = Some u -> order_of (at_ t) = Some a -> order_of (at_ u) = Some a -> i = j) /\
  (forall i t a v, crew s !! i = Some t -> at_ t = Access a v -> content <$> heap s !! a = Some v).
Proof.
  intros Hr Hu. destruct (tracker_invariant programs s Hr Hu) as [Hl Hs _ (m & Hm & Hc) Ho]. split_and!.
  - exists m. split; [done|]. intros E id. rewrite Hc. unfold view. by rewrite E.
  - exact Ho.
  - intros i j t u a Hi Hj Ha Hb. apply (l_thread s Hl i t Hi) in Ha. apply (l_thread s Hl j u Hj) in Hb. by eapply locked_inj.
  - intros i t a v Hi Ha. pose proof (st_thread s Hs i t Hi) as Hk. by rewrite Ha in Hk.
Qed.


(** C13 Removing an order, or registering its id anew, while another thread looks at it
    destroys it under that thread's hands: its address is gone, its lock was held, and the
    thread still has the access. *)
Theorem tracker_use_after_free programs s i j t u a o id : tracker_reachable programs s -> ub s = false ->
  crew s !! i = Some t -> order_of (at_ t) = Some a -> crew s !! j = Some u -> at_ u = In o -> overwrites o = Some id -> map s !! id = Some a ->
  exists s', tracker_step j s = Some s' /\ ub s' = true /\ heap s' !! a = None /\ crew s' !! i = Some t.
Proof.
  intros Hr Hu Hi Ha Hj Hin Ho Hid. destruct (tracker_invariant programs s Hr Hu) as [Hl Hs _ _ _].
  apply (l_thread s Hl i t Hi) in Ha as (c & Hc & Hlk).
  assert (a < next s)%nat as Hlt by (apply (st_next s Hs); by eexists).
  assert (j <> i) as Hn. { intros ->. assert (order_of (at_ t) = Some a) as E by (apply (l_thread s Hl i t Hi); by exists c). rewrite Hi in Hj. simplify_eq. by rewrite Hin in E. }
  unfold tracker_step. rewrite Hj. cbn. rewrite Hin. eexists. split; [reflexivity|].
  destruct o as [id' d f|id' d|id' d f|id'|id'|id']; simplify_eq/=; unfold destroy; cbn; rewrite Hid; cbn; rewrite Hc, Hlk, Hu; cbn;
    (split_and!; [done| |by rewrite list_lookup_insert_ne]); rewrite ?lookup_insert_ne by lia; by rewrite lookup_delete_eq.
Qed.

(** A step of somebody else while thread [i] looks at the order thread [j] waits for. *)
Lemma stall_step programs s s' i j k t u id a w v : tracker_ok programs s -> crew s !! i = Some t -> at_ t = Access a v ->
  crew s !! j = Some u -> at_ u = Spin id a w -> k <> i -> tracker_step k s = Some s' ->
  crew s' !! i = Some t /\ crew s' !! j = Some u /\ trace s' = trace s /\ ub s' = ub s /\
  forall m x o, crew s !! m = Some x -> at_ x = Lock o -> crew s' !! m = Some x.
Proof.
  intros Hok Hi Hat Hj Hju Hk Hst. pose proof (ok_locks _ s Hok) as Hl.
  assert (locked s a i) as (c & Hc & Hci) by (apply (l_thread s Hl i t Hi); by rewrite Hat).
  assert (mlock s = Some j) as Hm by (apply (l_thread s Hl j u Hj); by rewrite Hju).
  unfold tracker_step in Hst. destruct (crew s !! k) as [x|] eqn:Ek; [cbn in Hst|done].
  assert (k <> j) as Hkj.
  { intros ->. rewrite Hj in Ek. simplify_eq. rewrite Hju, Hc in Hst. cbn in Hst. by rewrite Hci in Hst. }
  assert (in_map (at_ x) = false) as Hout.
  { destruct (in_map (at_ x)) eqn:E; [|done]. apply (l_thread s Hl k x Ek) in E. congruence. }
  assert (forall s1 l p, s' = set_crew s1 k l p -> crew s1 = crew s -> trace s1 = trace s -> ub s1 = ub s -> (forall o, at_ x <> Lock o) ->
    crew s' !! i = Some t /\ crew s' !! j = Some u /\ trace s' = trace s /\ ub s' = ub s /\
    forall m y o, crew s !! m = Some y -> at_ y = Lock o -> crew s' !! m = Some y) as Hdone.
  { intros s1 l p -> Ec Et Eu Hn. cbn. rewrite Ec. split_and!; [by rewrite list_lookup_insert_ne|by rewrite list_lookup_insert_ne|done|done|].
    intros m y o Hy Hlo. rewrite list_lookup_insert_ne; [done|]. intros ->. rewrite Ek in Hy. simplify_eq. by destruct (Hn o). }
  destruct (at_ x) as [|o|o|id' b f|id' b y|id' b y|id' b y d|b d|b inner|b inner| |] eqn:Ep; try done.
  - destruct (todo x) as [|o l]; [done|]. injection Hst as <-. by eapply Hdone.
  - by rewrite Hm in Hst.
  - injection Hst as <-. by eapply Hdone.
  - injection Hst as <-. by eapply (Hdone (set_indices s _)).
  - destruct (heap s !! b) as [cb|]; [cbn in Hst|done]. injection Hst as <-. by eapply (Hdone (set_heap s _)).
Qed.

(** C14 One slow look stops the tracker: an update waits for the lock of the order somebody
    looks at and keeps the tracker's meanwhile. Whatever the others do, until the look ends
    the update stays where it is, nothing takes effect, and every thread that wants the
    tracker waits - for ever, if the thread that looks is waiting for one of them. *)
Theorem tracker_stall programs s s' i j t u id a w v : tracker_reachable programs s -> ub s = false ->
  crew s !! i = Some t -> at_ t = Access a v -> crew s !! j = Some u -> at_ u = Spin id a w ->
  rtc (fun x y => exists k, k <> i /\ tracker_step k x = Some y) s s' ->
  crew s' !! i = Some t /\ crew s' !! j = Some u /\ trace s' = trace s /\
  forall m x o, crew s !! m = Some x -> at_ x = Lock o -> crew s' !! m = Some x.
Proof.
  intros Hr Hu Hi Ha Hj Hs Hrun. pose proof (tracker_invariant programs s Hr Hu) as Hok. clear Hr.
  induction Hrun as [s|s s1 s' (k & Hk & Hst) _ IH]; [by split_and!|].
  destruct (stall_step programs s s1 i j k t u id a w v Hok Hi Ha Hj Hs Hk Hst) as (Hi1 & Hj1 & Ht1 & Hu1 & Hl1).
  rewrite Hu in Hu1. destruct IH as (Hi2 & Hj2 & Ht2 & Hl2); [done|done|done|by eapply tracker_ok_step|].
  split_and!; [done|done|congruence|]. intros m x o Hm Hx. eapply Hl2; [by eapply Hl1|done].
Qed.
End Tracker.

(** ** The methods of OrderTracker are those of the sequential tracker *)
Section Methods.
  Context {V : Type} `{Json V} {double : Type} `{JsonDouble V double}.
  Context (g : garbage double) (sent0 : OrderSent) (type0 : OrderTypeSent) (status0 : Z).
  Implicit Types (t : OrderTracker.OrderTracker double) (o : OrderTracker.Order double) (id : string).

(** What [registerResponse] leaves of an order, also when it throws. *)
Definition responded (id : string) (type_ : OrderTypeSent) (doc : V) (o : OrderTracker.Order double) : OrderTracker.Order double :=
  match OrderTracker.registerResponse g id type_ doc o with Some (_, o') => o' | None => o end.

Lemma responds id type_ doc o w : OrderResponsePtrWrapper_of g type_ doc = Some w ->
  exists x, OrderTracker.registerResponse g id type_ doc o = Some (x, responded id type_ doc o).
Proof. intros Hw. unfold responded. rewrite (registerResponse_spec _ _ _ _ _ _ Hw). case_match; by eexists. Qed.

End Methods.

(** ** Examples *)
Section Demo.

Definition next_of (schedule : list nat) (s : @TSys Z) : option TSys := foldl (fun s i => s ≫= tracker_step i) (Some s) schedule.

Lemma next_of_none schedule : foldl (fun (s : option (@TSys Z)) i => s ≫= tracker_step i) None schedule = None.
Proof. by induction schedule. Qed.

Lemma schedule_steps schedule s s' : next_of schedule s = Some s' -> nsteps (fun a b => exists i, tracker_step i a = Some b) (length schedule) s s'.
Proof.
  unfold next_of. revert s. induction schedule as [|i l IH]; intros s; cbn; [intros [= <-]; constructor|].
  destruct (tracker_step i s) as [s1|] eqn:E; cbn; [|by rewrite next_of_none]. intros Hl. econstructor; [by exists i|by apply IH].
Qed.

(** One thread registers an order and looks at it twice, the other answers it: here the
    answer waits for the first look. *)
Definition calm : list (list (@op Z)) := [[OSent "a" 1 (Z.add 10); ORead "a"; ORead "a"]; [OUpdate "a" 5 (Z.add 100); OStatus "a"]].
Definition waiting : list nat := repeat 0%nat 11 ++ repeat 1%nat 4.
Definition calm_schedule : list nat := waiting ++ repeat 0%nat 3 ++ repeat 1%nat 9 ++ repeat 0%nat 9.

(** Another removes the order while it is looked at. *)
Definition wild : list (list (@op Z)) := [[OResponse "a" 1; ORead "a"]; [ORemove "a"]].
Definition wild_schedule : list nat := repeat 0%nat 10 ++ repeat 1%nat 2.

Lemma schedule_reachable schedule s programs : next_of schedule (new_TSys programs) = Some s -> tracker_reachable programs s.
Proof. intros E. eapply rtc_nsteps_2. by eapply schedule_steps. Qed.

Definition answers (s : @TSys Z) : list (nat * option Z) := (fun '(i, _, r) => (i, r)) <$> trace s.

Definition spins (p : @pc Z) : option nat := match p with Spin _ a _ => Some a | _ => None end.

Lemma waiting_run : (fun s => (ub s, at_ <$> crew s !! 0%nat, t ← crew s !! 1%nat; spins (at_ t), answers s)) <$> next_of waiting (new_TSys calm) =
  Some (false, Some (Access 0 11), Some 0%nat, [(0%nat, None); (0%nat, Some 11); (1%nat, None)]).
Proof. vm_compute. reflexivity. Qed.

Lemma calm_run : (fun s => (ub s, crew s, contents s "a", answers s)) <$> next_of calm_schedule (new_TSys calm) =
  Some (false, replicate 2 {| todo := []; at_ := Idle |}, Some 111,
    [(0%nat, None); (0%nat, Some 11); (1%nat, None); (1%nat, Some 111); (0%nat, Some 111)]).
Proof. vm_compute. reflexivity. Qed.

Lemma wild_run : (fun s => (ub s, crew s, map s !! "a")) <$> next_of wild_schedule (new_TSys wild) =
  Some (false, [{| todo := []; at_ := Access 0 1 |}; {| todo := []; at_ := In (ORemove "a") |}], Some 0%nat).
Proof. vm_compute. reflexivity. Qed.

(** The answer has taken effect, and its writing waits for the look. *)
Lemma tracker_linear_witness : exists s t u m, crew s !! 0%nat = Some t /\ at_ t = Access 0 11 /\ crew s !! 1%nat = Some u /\
  spins (at_ u) = Some 0%nat /\ answers s = [(0%nat, None); (0%nat, Some 11); (1%nat, None)] /\ runs (trace s) m /\
  content <$> heap s !! 0%nat = Some 11.
Proof.
  pose proof waiting_run as E. apply fmap_Some in E as (s & Hs & E). injection E as Hu H0 H1 Ha.
  symmetry in H0, H1. apply fmap_Some in H0 as (t & Ht & Hpt). apply bind_Some in H1 as (u & Hw & Hpu).
  destruct (tracker_linear calm s (schedule_reachable _ _ _ Hs) (eq_sym Hu)) as ((m & Hm & _) & _ & _ & Hacc).
  exists s, t, u, m. split_and!; [exact Ht|by symmetry|exact Hw|exact Hpu|by symmetry|exact Hm|].
  by eapply (Hacc 0%nat t).
Defined.


Lemma tracker_use_after_free_witness : exists s s' t, next_of wild_schedule (new_TSys wild) = Some s /\ tracker_step 1 s = Some s' /\
  ub s' = true /\ heap s' !! 0%nat = None /\ crew s' !! 0%nat = Some t /\ at_ t = Access 0 1.
Proof.
  pose proof wild_run as E. apply fmap_Some in E as (s & Hs & E). injection E as Hu Hc Hm.
  destruct (tracker_use_after_free wild s 0%nat 1%nat {| todo := []; at_ := Access 0 1 |} {| todo := []; at_ := In (ORemove "a") |} 0%nat (ORemove "a") "a")
    as (s' & Hst & Hub & Hh & Ht); [by eapply schedule_reachable|by symmetry|by rewrite <- Hc|done|by rewrite <- Hc|done|done|by symmetry|].
  exists s, s', {| todo := []; at_ := Access 0 1 |}. split_and!; done.
Defined.


(** The waiting update of [waiting], and a third thread that asks for another order. *)
Definition crowd : list (list (@op Z)) := calm ++ [[OStatus "b"]].
Definition crowded : list nat := waiting ++ [2%nat].

Lemma crowded_run : (fun s => (ub s, at_ <$> crew s !! 0%nat, t ← crew s !! 1%nat; spins (at_ t), at_ <$> crew s !! 2%nat)) <$>
  next_of crowded (new_TSys crowd) = Some (false, Some (Access 0 11), Some 0%nat, Some (Lock (OStatus "b"))).
Proof. vm_compute. reflexivity. Qed.

Lemma tracker_stall_witness : exists s x, next_of crowded (new_TSys crowd) = Some s /\ crew s !! 2%nat = Some x /\ at_ x = Lock (OStatus "b") /\
  forall s', rtc (fun x y => exists k, k <> 0%nat /\ tracker_step k x = Some y) s s' -> trace s' = trace s /\ crew s' !! 2%nat = Some x.
Proof.
  pose proof crowded_run as E. apply fmap_Some in E as (s & Hs & E). injection E as Hu H0 H1 H2.
  symmetry in H0, H1, H2. apply fmap_Some in H0 as (t & Ht & Hpt). apply bind_Some in H1 as (u & Hw & Hpu). apply fmap_Some in H2 as (x & Hx & Hpx).
  assert (exists id w, at_ u = Spin id 0%nat w) as (id & w & Hsp) by (destruct (at_ u) as [| | | | |id b w| | | | | |]; try discriminate; injection Hpu as ->; by exists id, w).
  exists s, x. split_and!; [exact Hs|exact Hx|by symmetry|]. intros s' Hr.
  destruct (tracker_stall crowd s s' 0%nat 1%nat t u id 0%nat w 11 (schedule_reachable _ _ _ Hs) (eq_sym Hu) Ht (eq_sym Hpt) Hw Hsp Hr) as (_ & _ & Htr & Hl).
  split; [exact Htr|]. exact (Hl 2%nat x (OStatus "b") Hx (eq_sym Hpx)).
Defined.
End Demo.
