(* ===== verification/WebsocketApi.v ===== *)
(** * WebsocketApi: the request/response websocket

    Models [class WebsocketAPIStreamHolder] of
    [src/core/streams/websocketAPIStreamHolder.hpp]: one connection, set up with
    back-off by the constructor, on which requests are written and answers read. The
    network is the environment [WsNet]. *)

From S2P Require Import Prelude Errors Backoff.

Inductive ws_result :=
  | WsWriteError (ec : string)
  | WsReadError (ec : string)
  | WsMessage (text : string).

Class WsNet := {
  (** the k-th [setupConnection]: [Some what] if one of its steps throws *)
  ws_setup : nat -> option string;
  (** the k-th request *)
  ws_transmit : nat -> string -> ws_result;
}.

Record WsApi := {
  ws_status : ConnectionStatus;
  ws_attempts : nat;
  ws_sent : list string;          (** requests written so far *)
  ws_lastError : option FetchError;
}.

Section WsApi.
  Context `{WsNet}.

(** The error of an attempt, kept in [lastError]. *)
Definition setup_error (k : nat) (e : option FetchError) : option FetchError :=
  match ws_setup k with Some w => Some (FetchError_msg APIError_BOOST_ERROR w) | None => e end.
Definition setup_status (k : nat) : ConnectionStatus :=
  match ws_setup k with Some _ => ConnectionStatus_FAIL | None => ConnectionStatus_SUCCESS end.

Definition setupConnection (c : WsApi) : WsApi * ConnectionStatus :=
  ({| ws_status := ws_status c; ws_attempts := S (ws_attempts c); ws_sent := ws_sent c;
      ws_lastError := setup_error (ws_attempts c) (ws_lastError c) |}, setup_status (ws_attempts c)).

(** The back-off runs [setupConnection] once per wait. *)
Definition ws_backOff (p : BackoffPolicy) (c : WsApi) : option (WsApi * ConnectionStatus) :=
  '(st, waits) ← exponentialBackOff_simple (fun k => setup_status (ws_attempts c + k)) (Z.to_nat (maxTryCount p)) p;
  Some ({| ws_status := ws_status c; ws_attempts := (ws_attempts c + length waits)%nat; ws_sent := ws_sent c;
           ws_lastError := foldl (fun e k => setup_error k e) (ws_lastError c) (seq (ws_attempts c) (length waits)) |}, st).

Definition set_ws_status (c : WsApi) (st : ConnectionStatus) : WsApi :=
  {| ws_status := st; ws_attempts := ws_attempts c; ws_sent := ws_sent c; ws_lastError := ws_lastError c |}.

(** The constructor. *)
Definition new_ws (p : BackoffPolicy) : option WsApi :=
  let '(c, st) := setupConnection {| ws_status := ConnectionStatus_FAIL; ws_attempts := O; ws_sent := []; ws_lastError := None |} in
  match st with
  | ConnectionStatus_SUCCESS => Some (set_ws_status c st)
  | _ => '(c', st') ← ws_backOff p c; Some (set_ws_status c' st')
  end.

Definition ws_connectionAlive (c : WsApi) : bool := connected (ws_status c).
Definition connectionError (c : WsApi) : option FetchError := ws_lastError c.

(** [sendRequest]: it neither looks at the connection's status nor reconnects. *)
Definition ws_sendRequest (c : WsApi) (request : string) : WsApi * StreamData :=
  let c1 := {| ws_status := ws_status c; ws_attempts := ws_attempts c; ws_sent := ws_sent c ++ [request]; ws_lastError := ws_lastError c |} in
  match ws_transmit (length (ws_sent c)) request with
  | WsWriteError e | WsReadError e =>
      (set_ws_status c1 ConnectionStatus_FAIL,
       {| status := ConnectionStatus_FAIL; string_ := ""; httpStatus := 0; ec := Some e |})
  | WsMessage text => (c1, {| status := ConnectionStatus_SUCCESS; string_ := text; httpStatus := 0; ec := None |})
  end.
End WsApi.
