(* ===== verification/OrderStream.v ===== *)
(** * OrderStream: sending orders

    Models [PlaceOrderParameters] of [src/api/futures/order/placeOrderParameters.hpp] and
    [class APIManager::Futures::OrderStream] of [orderStream.hpp]: the parameters of a
    request, its signature, the exchange with the websocket API and the registration of
    the answer. The environment [OrderEnv] gives the clock, the random ids and the
    HMAC digest; WebsocketApi the connection. A call returns its status and the id it
    wrote to [orderID]; whatever is thrown inside is caught and reported as FAIL. *)

From stdpp Require Import pretty.
From S2P Require Import Prelude FixedPoint Model Enums WireNames Json Errors RingBuffer RequestParameter Manager Backoff OrderRecords OrderResponses OrderTracker WebsocketApi.
#[local] Open Scope Z_scope.

(** ** [PlaceOrderParameters] *)

Record PlaceOrderParameters := {
  p_positionSide : RequestParameter;
  p_price : RequestParameter;
  p_quantity : RequestParameter;
  p_side : RequestParameter;
  p_symbol : RequestParameter;
  p_timeInForce : RequestParameter;
  p_timestamp : RequestParameter;
  p_type : RequestParameter;
  p_priceMatch : RequestParameter;
}.

Definition new_parameters : PlaceOrderParameters :=
  {| p_positionSide := RequestParameter_named "positionSide"; p_price := RequestParameter_named "price";
     p_quantity := RequestParameter_named "quantity"; p_side := RequestParameter_named "side";
     p_symbol := RequestParameter_named "symbol"; p_timeInForce := RequestParameter_named "timeInForce";
     p_timestamp := RequestParameter_named "timestamp"; p_type := RequestParameter_named "type";
     p_priceMatch := RequestParameter_named "priceMatch" |}.

(** [p.request = s]. *)
Definition set_request (p : RequestParameter) (s : string) : RequestParameter :=
  {| requestField := requestField p; request := s; isConstructed := isConstructed p |}.

(** The switches: an enumerator without a case leaves the last request's value. *)
Definition set_positionSide (posSide : PositionSide) (p : RequestParameter) : RequestParameter :=
  match posSide with
  | PositionSide_BOTH => set_request p "BOTH"
  | PositionSide_LONG => set_request p "LONG"
  | PositionSide_SHORT => set_request p "SHORT"
  | PositionSide_NONE => p
  end.

Definition set_side (orderSide : OrderSide) (p : RequestParameter) : RequestParameter :=
  set_request p (match orderSide with OrderSide_BUY => "BUY" | _ => "SELL" end).

Definition set_type (orderType : OrderType) (p : RequestParameter) : RequestParameter :=
  match orderType with
  | OrderType_LIMIT => set_request p "LIMIT"
  | OrderType_MARKET => set_request p "MARKET"
  | OrderType_STOP => set_request p "STOP"
  | OrderType_STOP_MARKET => set_request p "STOP_MARKET"
  | OrderType_TAKE_PROFIT => set_request p "TAKE_PROFIT"
  | OrderType_TAKE_PROFIT_MARKET => set_request p "TAKE_PROFIT_MARKET"
  | OrderType_TRAILING_STOP_MARKET => set_request p "TRAILING_STOP_MARKET"
  | OrderType_LIQUIDATION => set_request p "LIQUIDATION"
  | OrderType_NONE => p
  end.

Definition set_timeInForce (tif : TimeInForce) (p : RequestParameter) : RequestParameter :=
  match tif with
  | TimeInForce_GTC => set_request p "GTC"
  | TimeInForce_IOC => set_request p "IOC"
  | TimeInForce_FOK => set_request p "FOK"
  | TimeInForce_GTX => set_request p "GTX"
  | TimeInForce_NONE => p
  end.

Definition set_priceMatch (mode : PriceMatchMode) (p : RequestParameter) : RequestParameter :=
  set_request p (match mode with
                 | PriceMatchMode_NONE => "NONE" | PriceMatchMode_OPPONENT => "OPPONENT" | PriceMatchMode_QUEUE => "QUEUE"
                 | PriceMatchMode_MAKER => "MAKER" | PriceMatchMode_BIDDER => "BIDDER"
                 end).

(** [prepareOrder] for a new order; [now] is the clock. *)
Definition prepareOrder (p : PlaceOrderParameters) (posSide : PositionSide) (orderSide : OrderSide) (tif : TimeInForce)
    (orderType : OrderType) (pair px qty : string) (now : Z) : PlaceOrderParameters :=
  {| p_positionSide := set_positionSide posSide (p_positionSide p); p_price := set_request (p_price p) px;
     p_quantity := set_request (p_quantity p) qty; p_side := set_side orderSide (p_side p);
     p_symbol := set_request (p_symbol p) pair; p_timeInForce := set_timeInForce tif (p_timeInForce p);
     p_timestamp := set_request (p_timestamp p) (pretty now); p_type := set_type orderType (p_type p);
     p_priceMatch := p_priceMatch p |}.

(** The overload for a modification: it also renames the type parameter, for good. *)
Definition prepareOrder_modify (p : PlaceOrderParameters) (posSide : PositionSide) (orderSide : OrderSide) (mode : PriceMatchMode)
    (orderType : OrderType) (pair px qty : string) (now : Z) : PlaceOrderParameters :=
  let type_ := {| requestField := "origType"; request := request (p_type p); isConstructed := isConstructed (p_type p) |} in
  {| p_positionSide := set_positionSide posSide (p_positionSide p); p_price := set_request (p_price p) px;
     p_quantity := set_request (p_quantity p) qty; p_side := set_side orderSide (p_side p);
     p_symbol := set_request (p_symbol p) pair; p_timeInForce := p_timeInForce p;
     p_timestamp := set_request (p_timestamp p) (pretty now); p_type := set_type orderType type_;
     p_priceMatch := set_priceMatch mode (p_priceMatch p) |}.

(** ** [OrderStream] *)

Class OrderEnv := {
  clock : nat -> Z;                      (** the k-th reading, in milliseconds *)
  uuid : nat -> string;                  (** the k-th random id *)
  HMAC : string -> string -> list Z;     (** HMAC-SHA256: key, data *)
}.

Section OrderStream.
  Context {V : Type} `{Json V} {double : Type} `{JsonDouble V double} `{WsNet} `{OrderEnv}.
  Context (g : garbage double) (sent0 : OrderSent) (type0 : OrderTypeSent) (status0 : Z).

Record OrderStream := {
  APIKey : RequestParameter;
  privateKey : string;
  orderStream : WsApi;
  HMACKey : RequestParameter;
  placeOrder : PlaceOrderParameters;
  requestId : RequestParameter;
  orderId : RequestParameter;
  orderTracker : OrderTracker double;
  clocks : nat;   (** clock readings so far *)
  uuids : nat;    (** ids drawn so far *)
}.

Definition methodPlaceOrder := RequestParameter_of "method" "order.place".
Definition methodModifyOrder := RequestParameter_of "method" "order.modify".
Definition methodCancelOrder := RequestParameter_of "method" "order.cancel".
Definition methodQueryOrder := RequestParameter_of "method" "order.status".
Definition methodAccountInfo := RequestParameter_of "method" "v2/account.balance".

(** The constructor: missing keys throw before anything connects. *)
Definition new_stream (c : Credentials) (p : BackoffPolicy) (tr : OrderTracker double) : option (result OrderStream) :=
  match requireAPIKey c "Futures::OrderStream" with
  | Throw e => Some (Throw e)
  | Ok k =>
      match requirePrivateKey c "Futures::OrderStream" with
      | Throw e => Some (Throw e)
      | Ok pk =>
          ws ← new_ws p;
          Some (Ok {| APIKey := RequestParameter_of "apiKey" k; privateKey := pk; orderStream := ws;
                      HMACKey := RequestParameter_named "signature"; placeOrder := new_parameters;
                      requestId := RequestParameter_named "id"; orderId := RequestParameter_named "orderId";
                      orderTracker := tr; clocks := O; uuids := O |})
      end
  end.

Section Setters.
  Context (o : OrderStream).
Definition set_ws w := {| APIKey := APIKey o; privateKey := privateKey o; orderStream := w; HMACKey := HMACKey o; placeOrder := placeOrder o; requestId := requestId o; orderId := orderId o; orderTracker := orderTracker o; clocks := clocks o; uuids := uuids o |}.
Definition set_HMACKey s := {| APIKey := APIKey o; privateKey := privateKey o; orderStream := orderStream o; HMACKey := set_request (HMACKey o) s; placeOrder := placeOrder o; requestId := requestId o; orderId := orderId o; orderTracker := orderTracker o; clocks := clocks o; uuids := uuids o |}.
Definition set_placeOrder p := {| APIKey := APIKey o; privateKey := privateKey o; orderStream := orderStream o; HMACKey := HMACKey o; placeOrder := p; requestId := requestId o; orderId := orderId o; orderTracker := orderTracker o; clocks := S (clocks o); uuids := uuids o |}.
Definition set_orderId s := {| APIKey := APIKey o; privateKey := privateKey o; orderStream := orderStream o; HMACKey := HMACKey o; placeOrder := placeOrder o; requestId := requestId o; orderId := set_request (orderId o) s; orderTracker := orderTracker o; clocks := clocks o; uuids := uuids o |}.
Definition set_tracker t := {| APIKey := APIKey o; privateKey := privateKey o; orderStream := orderStream o; HMACKey := HMACKey o; placeOrder := placeOrder o; requestId := requestId o; orderId := orderId o; orderTracker := t; clocks := clocks o; uuids := uuids o |}.
Definition tick := {| APIKey := APIKey o; privateKey := privateKey o; orderStream := orderStream o; HMACKey := HMACKey o; placeOrder := placeOrder o; requestId := requestId o; orderId := orderId o; orderTracker := orderTracker o; clocks := S (clocks o); uuids := uuids o |}.
(** [generateID]. *)
Definition generateID := {| APIKey := APIKey o; privateKey := privateKey o; orderStream := orderStream o; HMACKey := HMACKey o; placeOrder := placeOrder o; requestId := set_request (requestId o) (uuid (uuids o)); orderId := orderId o; orderTracker := orderTracker o; clocks := clocks o; uuids := S (uuids o) |}.
End Setters.

(** [HMACKey.request = hmac_sha256(privateKey,out.request); out.addParameterToRequest(HMACKey)]. *)
Definition sign (out : RequestParameter) : SE OrderStream RequestParameter :=
  o ← get_state;
  s ← lift_opt (hmac_sha256 HMAC (privateKey o) (request out));
  _ ← modify (fun o => set_HMACKey o s);
  o' ← get_state;
  mret (add_member out (HMACKey o')).

Definition params (ps : list RequestParameter) : RequestParameter :=
  makeRequest_member (RequestParameter_named "params") ps.

(** The parameters of a new order, in the order they are sent. *)
Definition new_order_parameters (o : OrderStream) : list RequestParameter :=
  let p := placeOrder o in
  [APIKey o; p_positionSide p; p_price p; p_quantity p; p_side p; p_symbol p; p_timeInForce p; p_timestamp p; p_type p].

(** [generateParamsForOrder] *)
Definition generateParams_new (posSide : PositionSide) (orderSide : OrderSide) (tif : TimeInForce) (orderType : OrderType)
    (pair px qty : string) : SE OrderStream RequestParameter :=
  _ ← modify (fun o => set_placeOrder o (prepareOrder (placeOrder o) posSide orderSide tif orderType pair px qty (clock (clocks o))));
  o ← get_state;
  sign (params (new_order_parameters o)).

Definition generateParams_modify (binanceId : string) (posSide : PositionSide) (orderSide : OrderSide) (mode : PriceMatchMode)
    (orderType : OrderType) (pair px qty : string) : SE OrderStream RequestParameter :=
  _ ← modify (fun o => set_orderId o binanceId);
  _ ← modify (fun o => set_placeOrder o (prepareOrder_modify (placeOrder o) posSide orderSide mode orderType pair px qty (clock (clocks o))));
  o ← get_state;
  let p := placeOrder o in
  sign (params [APIKey o; orderId o; p_type p; p_positionSide p; p_price p; p_priceMatch p; p_quantity p; p_side p; p_symbol p; p_timestamp p]).

Definition generateParams_id (binanceId pair : string) : SE OrderStream RequestParameter :=
  _ ← modify (fun o => set_orderId o binanceId);
  o ← get_state;
  let timestamp := RequestParameter_of "timestamp" (pretty (clock (clocks o))) in
  _ ← modify tick;
  sign (params [APIKey o; orderId o; RequestParameter_of "symbol" pair; timestamp]).

Definition generateParams_account : SE OrderStream RequestParameter :=
  o ← get_state;
  let timestamp := RequestParameter_of "timestamp" (pretty (clock (clocks o))) in
  _ ← modify tick;
  sign (params [APIKey o; timestamp]).

(** [orderStream.sendRequest(payload)]. *)
Definition transmit (payload : string) : SE OrderStream StreamData := fun o =>
  let '(w, d) := ws_sendRequest (orderStream o) payload in Some (Ok d, set_ws o w).

Definition on_tracker {A} (m : SE (OrderTracker double) A) : SE OrderStream A := fun o =>
  '(x, t) ← m (orderTracker o); Some (x, set_tracker o t).

(** [status == 200], [status / 100 == 4], the rest. *)
Definition classify (st : Z) : RequestStatus :=
  if st =? 200 then RequestStatus_SUCCESS
  else if Z.quot st 100 =? 4 then RequestStatus_FAIL else RequestStatus_UNKNOWN.

(** The id of the result, queued when the status is 200. *)
Definition queue_result (doc : V) : SE OrderStream unit :=
  i ← lift (value (field doc "result" ≫= get_object) ≫= fun obj => value (field obj "orderId" ≫= get_int64));
  on_tracker (queueActiveOrderId i).

(** What follows the request in [sendModifyOrder], [sendCancelOrder] and
    [sendQueryOrder]: the answer is parsed, but the status is the tracked order's. *)
Definition finish (orderID : string) (doc : V) : SE OrderStream RequestStatus :=
  o ← get_state;
  let st := getOrderStatusint orderID (orderTracker o) in
  if st =? 200 then _ ← queue_result doc; mret (classify st) else mret (classify st).

Definition fail_on_error (x : exn) : SE OrderStream RequestStatus := mret RequestStatus_FAIL.

(** Sends [payload] and hands the parsed answer to [k]. *)
Definition request_ (payload : string) (k : V -> SE OrderStream RequestStatus) : SE OrderStream RequestStatus :=
  data ← transmit payload;
  if negb (ok data) then mret RequestStatus_FAIL else
  doc ← lift (value (iterate (string_ data)));
  k doc.

(** The call with its out-parameter. *)
Definition returning (id : SE OrderStream string) (m : string -> SE OrderStream RequestStatus) : SE OrderStream (RequestStatus * string) :=
  orderID ← id;
  st ← try_catch (m orderID) fail_on_error;
  mret (st, orderID).

Definition fresh_id : SE OrderStream string := _ ← modify generateID; o ← get_state; mret (request (requestId o)).
Definition last_id : SE OrderStream string := o ← get_state; mret (request (requestId o)).

(** [sendNewOrder] once the answer is parsed. *)
Definition answer_new (orderID : string) (posSide : PositionSide) (orderSide : OrderSide) (tif : TimeInForce) (orderType : OrderType)
    (pair : string) (px qty : Fixed) (doc : V) : SE OrderStream RequestStatus :=
  o ← get_state;
  let now := clock (clocks o) in
  _ ← modify tick;
  _ ← on_tracker (registerOrderSent g type0 status0 orderID now px qty pair tif orderSide posSide orderType doc);
  finish orderID doc.

Definition sendNewOrder (posSide : PositionSide) (orderSide : OrderSide) (tif : TimeInForce) (orderType : OrderType)
    (pair : string) (px qty : Fixed) : SE OrderStream (RequestStatus * string) :=
  returning fresh_id (fun orderID =>
    ps ← generateParams_new posSide orderSide tif orderType pair (formatFixed 64 px) (formatFixed 64 qty);
    o ← get_state;
    request_ (makeRequestFromRequestParameters [requestId o; methodPlaceOrder; ps])
      (answer_new orderID posSide orderSide tif orderType pair px qty)).

Definition sendModifyOrder (posSide : PositionSide) (orderSide : OrderSide) (priceMatch : PriceMatchMode) (orderType : OrderType)
    (pair : string) (px qty : Fixed) (binanceId : string) : SE OrderStream (RequestStatus * string) :=
  returning last_id (fun orderID =>
    ps ← generateParams_modify binanceId posSide orderSide priceMatch orderType pair (formatFixed 64 px) (formatFixed 64 qty);
    o ← get_state;
    request_ (makeRequestFromRequestParameters [requestId o; methodModifyOrder; ps]) (finish orderID)).

Definition sendCancelOrder (pair binanceId : string) : SE OrderStream (RequestStatus * string) :=
  returning last_id (fun orderID =>
    ps ← generateParams_id binanceId pair;
    o ← get_state;
    request_ (makeRequestFromRequestParameters [requestId o; methodCancelOrder; ps]) (finish orderID)).

Definition sendQueryOrder (pair binanceId : string) : SE OrderStream (RequestStatus * string) :=
  returning last_id (fun orderID =>
    ps ← generateParams_id binanceId pair;
    o ← get_state;
    request_ (makeRequestFromRequestParameters [requestId o; methodQueryOrder; ps]) (finish orderID)).

(** Here the status is the answer's, and a fresh entry is made for it. *)
Definition sendAccountInfoRequest : SE OrderStream (RequestStatus * string) :=
  returning fresh_id (fun orderID =>
    ps ← generateParams_account;
    o ← get_state;
    request_ (makeRequestFromRequestParameters [requestId o; methodAccountInfo; ps]) (fun doc =>
      st ← lift (value (field doc "status" ≫= get_int64));
      if st =? 200
      then _ ← on_tracker (registerOrderResponse g sent0 orderID OrderTypeSent_ACCOUNT_INFO doc); mret (classify st)
      else mret (classify st))).

Definition stream_connectionAlive (o : OrderStream) : bool := ws_connectionAlive (orderStream o).

(** [getLastOrderId] and [getAccountInfo]. *)
Definition getLastOrderId (o : OrderStream) : option (OrderStream * Z) :=
  '(t, i) ← getActiveOrderId (orderTracker o); Some (set_tracker o t, i).
Definition stream_getAccountInfo (id : string) : SE OrderStream AccountInfoLite := on_tracker (getAccountInfo id).
End OrderStream.
Arguments OrderStream double : clear implicits.
