(* ===== verification/OrderStreamSpec.v ===== *)
(** * OrderStreamSpec: what an order call does

    The parameters of an order read back to what was asked; the request is signed over
    its own parameters; and the outcome of [sendNewOrder] for every answer. *)

From stdpp Require Import pretty.
From S2P Require Import Prelude FixedPoint Model Enums WireNames Json Errors RingBuffer RequestParameter Backoff OrderRecords OrderResponses OrderResponseSpec OrderTracker WebsocketApi OrderStream.
#[local] Open Scope Z_scope.

(** ** Parameters *)

(** The parameters of a new order say what was asked: read with the exchange's names
    and decimals they give back the position side, side, type, time in force, price and
    quantity, whatever the parameters held before; but once a modification was prepared
    the type goes out under another name, also for every new order after it. *)
Theorem prepared_order p posSide orderSide tif orderType pair px qty now mode now' :
  named posSide = true -> named orderSide = true -> named tif = true -> named orderType = true ->
  in_int64 px = true -> in_int64 qty = true ->
  let new p := prepareOrder p posSide orderSide tif orderType pair (formatFixed 64 px) (formatFixed 64 qty) now in
  (returnPositionSide (request (p_positionSide (new p))) = Ok posSide /\
   returnOrderSide (request (p_side (new p))) = Ok orderSide /\
   returnOrderType (request (p_type (new p))) = Ok orderType /\
   returnTimeInForce (request (p_timeInForce (new p))) = tif /\
   parseFixed 64 (request (p_price (new p))) = Some px /\ parseFixed 64 (request (p_quantity (new p))) = Some qty /\
   request (p_symbol (new p)) = pair) /\
  requestField (p_type (new new_parameters)) = "type"%string /\
  requestField (p_type (new (prepareOrder_modify p posSide orderSide mode orderType pair (formatFixed 64 px) (formatFixed 64 qty) now')))
    = "origType"%string.
Proof.
  intros Hp Hs Ht Ho Hpx Hqty. cbv zeta. split_and!.
  - by destruct posSide.
  - by destruct orderSide.
  - by destruct orderType.
  - by destruct tif.
  - cbn. apply parse_format; [lia|by apply int64_range].
  - cbn. apply parse_format; [lia|by apply int64_range].
  - done.
  - by destruct orderType.
  - by destruct orderType.
Qed.

Lemma prepared_order_witness :
  returnOrderSide (request (p_side (prepareOrder new_parameters PositionSide_BOTH OrderSide_BUY TimeInForce_GTC OrderType_LIMIT
    "BTCUSDT" (formatFixed 64 421490) (formatFixed 64 100000000) 17))) = Ok OrderSide_BUY.
Proof.
  apply (prepared_order new_parameters PositionSide_BOTH OrderSide_BUY TimeInForce_GTC OrderType_LIMIT "BTCUSDT" 421490 100000000 17
    PriceMatchMode_NONE 18); reflexivity.
Defined.

Section Spec.
  Context {V : Type} `{Json V} {double : Type} `{JsonDouble V double} `{WsNet} `{OrderEnv}.
  Context (g : garbage double) (sent0 : OrderSent) (type0 : OrderTypeSent) (status0 : Z).
  Implicit Types o : OrderStream double.

(** ** Signature *)

Lemma sign_spec ps o : all_set ps = true ->
  Forall (fun p => plain (requestField p) = true /\ plain (request p) = true) ps ->
  sign (params ps) o =
    Some (Ok (add_member (params ps) (set_request (HMACKey o) (hex (HMAC (privateKey o) (query_string ps))))),
          set_HMACKey o (hex (HMAC (privateKey o) (query_string ps)))).
Proof.
  intros Hset Hps. unfold sign. rewrite (SE_bind_Some _ _ o o o) by done. rewrite SE_lift_opt.
  assert (hmac_sha256 HMAC (privateKey o) (request (params ps)) = Some (Ok (hex (HMAC (privateKey o) (query_string ps))))) as ->.
  { unfold hmac_sha256, params, makeRequest_member. rewrite Hset. cbn [request]. by rewrite payload_object. }
  done.
Qed.

(** C34 A new order is signed over exactly the parameters it carries: the signature is
    the digest, under the private key, of the query string of the nine parameters in the
    order they are sent, and it is appended as the last member; nothing else of the
    stream changes but the parameters, the clock and the signature. *)
Theorem new_order_signed posSide orderSide tif orderType pair px qty o :
  let o1 := set_placeOrder o (prepareOrder (placeOrder o) posSide orderSide tif orderType pair px qty (clock (clocks o))) in
  let ps := new_order_parameters o1 in
  let signature := hex (HMAC (privateKey o) (query_string ps)) in
  all_set ps = true -> Forall (fun p => plain (requestField p) = true /\ plain (request p) = true) ps ->
  generateParams_new posSide orderSide tif orderType pair px qty o =
    Some (Ok {| requestField := "params";
                request := (pop_back (object_json (fun p => isConstructed p || String.eqb (requestField p) "timestamp") ps) +:+ ", " +:+
                            quote +:+ requestField (HMACKey o) +:+ quote +:+ ": " +:+ quote +:+ signature +:+ quote +:+ "}")%string;
                isConstructed := true |},
          set_HMACKey o1 signature).
Proof.
  intros o1 ps sg Hset Hps. unfold generateParams_new.
  rewrite (SE_bind_Some _ _ o tt o1), (SE_bind_Some _ _ o1 o1 o1) by done.
  etransitivity; [exact (sign_spec ps o1 Hset Hps)|]. unfold add_member, params, makeRequest_member. rewrite Hset. cbn [request requestField isConstructed].
  assert (ends_object (object_json (fun p => isConstructed p || String.eqb (requestField p) "timestamp") ps) = true) as ->; [|done].
  unfold object_json. rewrite <- string_app_assoc. generalize ("{" +:+ pairs_json (fun p => isConstructed p || String.eqb (requestField p) "timestamp") true ps)%string as t.
  intros t. unfold ends_object. assert (back (t +:+ "}") = Some "}"%char) as ->; [|done].
  induction t as [|c t IH]; [done|]. rewrite string_app_cons. cbn [back]. rewrite IH. by destruct t.
Qed.

(** ** The outcome of a new order *)

Lemma registerOrderSent_ok id ts px qty sym tif s pos ty doc w st (t : OrderTracker double) :
  OrderResponsePtrWrapper_of g OrderTypeSent_NEW doc = Some (Ok w) -> field doc "status" ≫= get_int64 = Val st ->
  registerOrderSent g type0 status0 id ts px qty sym tif s pos ty doc t =
    Some (Ok tt, set_orders t (<[id := {| o_id := id; o_type := OrderTypeSent_NEW; wrapper := Some w; o_status := st;
      sent := {| s_timestamp := ts; s_price := px; s_quantity := qty; s_pair := sym; s_timeInForce := tif;
                 s_side := s; s_positionSide := pos; s_type := ty |} |}]> (orders t))).
Proof.
  intros Hw Hst. unfold registerOrderSent. erewrite SE_bind_Some; [|reflexivity]. unfold on_order. cbn [set_orders orders].
  rewrite lookup_insert, decide_True by done. cbn [mbind option_bind]. rewrite (registerResponse_spec g id _ doc _ _ Hw), Hst.
  cbn [value mbind option_bind set_orders orders]. rewrite insert_insert, decide_True by done. done.
Qed.

Lemma on_tracker_bind {A B} (m : SE (OrderTracker double) A) (f : A -> SE (OrderStream double) B) o a t :
  m (orderTracker o) = Some (Ok a, t) -> (on_tracker m ≫= f) o = f a (set_tracker o t).
Proof. intros E. unfold mbind, SE_bind, on_tracker. by rewrite E. Qed.

(** The end of every call: the status of the tracked order decides, and an accepted
    order's id is queued, if the queue has room. *)
Lemma finish_status orderID doc o q : holds 8 (activeOrders (orderTracker o)) q ->
  let st := getOrderStatusint orderID (orderTracker o) in
  if st =? 200
  then forall obj i, field doc "result" ≫= get_object = Val obj -> field obj "orderId" ≫= get_int64 = Val i ->
    if Z.of_nat (length q) <? ACTIVE
    then exists r, finish orderID doc o = Some (Ok RequestStatus_SUCCESS,
           set_tracker o {| orders := orders (orderTracker o); pool := pool (orderTracker o); activeOrders := r |}) /\ holds 8 r (q ++ [i])
    else finish orderID doc o = None
  else finish orderID doc o = Some (Ok (classify st), o).
Proof.
  intros Hh st. unfold finish. rewrite (SE_bind_Some _ _ o o o) by done. fold st. unfold classify.
  destruct (st =? 200); [|done]. intros obj i Hobj Hi.
  destruct (Z.ltb_spec (Z.of_nat (length q)) ACTIVE) as [Hlt|Hge].
  - destruct (enqueue_holds 8 ltac:(lia) _ q i Hh Hlt) as (r & Hr & Hq). exists r. split; [|done].
    erewrite SE_bind_Some; [reflexivity|]. unfold queue_result. rewrite SE_lift, Hobj. cbn [value mbind result_bind]. rewrite Hi. cbn [value].
    unfold on_tracker, queueActiveOrderId. change ACTIVE with (2 ^ 8). rewrite Hr. done.
  - unfold mbind, SE_bind, queue_result. rewrite SE_lift, Hobj. cbn [value mbind result_bind]. rewrite Hi. cbn [value].
    unfold on_tracker, queueActiveOrderId. change ACTIVE with (2 ^ 8). by rewrite (enqueue_full 8 ltac:(lia) _ q i Hh Hge).
Qed.

(** The state once the answer was read and the order registered. *)
Definition registered o id ts px qty pair tif orderSide posSide orderType (w : OrderResponsePtrWrapper double) st (o' : OrderStream double)
    (q : list Z) : Prop :=
  orders (orderTracker o') = <[id := {| o_id := id; o_type := OrderTypeSent_NEW; wrapper := Some w; o_status := st;
      sent := {| s_timestamp := ts; s_price := px; s_quantity := qty; s_pair := pair; s_timeInForce := tif;
                 s_side := orderSide; s_positionSide := posSide; s_type := orderType |} |}]> (orders (orderTracker o)) /\
  pool (orderTracker o') = pool (orderTracker o) /\ holds 8 (activeOrders (orderTracker o')) q.

Lemma transmit_spec payload o : transmit payload o =
  Some (Ok (ws_sendRequest (orderStream o) payload).2, set_ws o (ws_sendRequest (orderStream o) payload).1).
Proof. unfold transmit. by destruct (ws_sendRequest _ _). Qed.

Lemma request_message payload text doc k o : ws_transmit (length (ws_sent (orderStream o))) payload = WsMessage text ->
  iterate text = Val doc ->
  request_ payload k o = k doc (set_ws o {| ws_status := ws_status (orderStream o); ws_attempts := ws_attempts (orderStream o);
    ws_sent := ws_sent (orderStream o) ++ [payload]; ws_lastError := ws_lastError (orderStream o) |}).
Proof.
  intros Ht Hd. unfold request_. rewrite (SE_bind_Some _ _ _ _ _ (transmit_spec payload o)). unfold ws_sendRequest. rewrite Ht.
  cbn [fst snd]. change (negb (ok _)) with false. cbn iota. rewrite SE_lift. cbn [string_]. by rewrite Hd.
Qed.

Lemma request_error payload k o e : (ws_transmit (length (ws_sent (orderStream o))) payload = WsWriteError e \/
    ws_transmit (length (ws_sent (orderStream o))) payload = WsReadError e) ->
  exists o', request_ payload k o = Some (Ok RequestStatus_FAIL, o') /\ orderTracker o' = orderTracker o /\
    stream_connectionAlive o' = false.
Proof.
  intros Ht. unfold request_. rewrite (SE_bind_Some _ _ _ _ _ (transmit_spec payload o)). unfold ws_sendRequest.
  destruct Ht as [-> | ->]; (eexists; split; [reflexivity|done]).
Qed.

Lemma returning_spec id m x o o' : id o = Some (Ok x, o') -> returning id m o =
  match m x o' with
  | Some (Ok st, o2) => Some (Ok (st, x), o2)
  | Some (Throw _, o2) => Some (Ok (RequestStatus_FAIL, x), o2)
  | None => None
  end.
Proof.
  intros E. unfold returning. rewrite (SE_bind_Some _ _ _ _ _ E). unfold mbind, SE_bind, try_catch.
  by destruct (m x o') as [[[]]|].
Qed.

(** The answer to a new order, up to the queue. *)
Lemma answer_new_spec id posSide orderSide tif orderType pair px qty doc o w st :
  OrderResponsePtrWrapper_of g OrderTypeSent_NEW doc = Some (Ok w) -> field doc "status" ≫= get_int64 = Val st ->
  exists o', answer_new g type0 status0 id posSide orderSide tif orderType pair px qty doc o = finish id doc o' /\
    getOrderStatusint id (orderTracker o') = st /\
    forall q, holds 8 (activeOrders (orderTracker o)) q ->
      registered o id (clock (clocks o)) px qty pair tif orderSide posSide orderType w st o' q.
Proof.
  intros Hw Hst. unfold answer_new. rewrite (SE_bind_Some _ _ o o o), (SE_bind_Some _ _ o tt (tick o)) by done.
  erewrite on_tracker_bind; [|by apply registerOrderSent_ok]. eexists. split; [reflexivity|]. split.
  - unfold getOrderStatusint. cbn. by rewrite lookup_insert, decide_True.
  - intros q Hq. by split.
Qed.


End Spec.

(** ** A stream whose orders are rejected *)

Definition demo_order_env : OrderEnv := {| clock _ := 17; uuid _ := "a1"%string; HMAC _ _ := [171] |}.
Definition demo_ws : WsNet := {| ws_setup _ := None; ws_transmit _ _ := WsMessage "ans" |}.
Definition demo_answers : list (string * JV) := [("ans"%string, demo_error)].

Definition demo_stream : OrderStream string :=
  {| APIKey := RequestParameter_of "apiKey" "K"; privateKey := "S";
     orderStream := {| ws_status := ConnectionStatus_SUCCESS; ws_attempts := 1; ws_sent := []; ws_lastError := None |};
     HMACKey := RequestParameter_named "signature"; placeOrder := new_parameters; requestId := RequestParameter_of "id" "a0";
     orderId := RequestParameter_named "orderId"; orderTracker := demo_tracker demo_pool; clocks := O; uuids := O |}.

Lemma new_order_signed_witness : let E := demo_order_env in
  exists s o1, generateParams_new PositionSide_BOTH OrderSide_BUY TimeInForce_GTC OrderType_LIMIT "BTCUSDT" "5" "6" demo_stream =
    Some (Ok {| requestField := "params"; request := s; isConstructed := true |}, o1) /\ request (HMACKey o1) = "ab"%string.
Proof.
  intros E. do 2 eexists. split.
  - apply (new_order_signed PositionSide_BOTH OrderSide_BUY TimeInForce_GTC OrderType_LIMIT "BTCUSDT" "5" "6" demo_stream).
    + vm_compute. reflexivity.
    + repeat (constructor; [split; vm_compute; reflexivity|]). constructor.
  - vm_compute. reflexivity.
Defined.

Lemma demo_active : holds 8 (activeOrders (orderTracker demo_stream)) [].
Proof. apply holds_new_ring; [lia|]. by rewrite length_replicate. Qed.


