(* ===== verification/UserData.v ===== *)
(** * UserData: events of the user data stream

    Models the [parseFields] members of
    [src/api/common/userData/userDataStreamEvents.hpp], the constructors and [returnPtr]
    of [userDataStream.hpp], the casts of [userDataStreamCast.hpp], the parsers of
    [userDataStreamParsers.hpp] and the dispatch of
    [src/api/common/factory/userDataStreamFactory.hpp]. The steps of a parser are those
    of OrderResponses. Every constructor lets what its parser throws out, so an event
    exists only when all of it was read. A [void*] to an event is an optional [Payload];
    casting it to another class is undefined behaviour ([None]). *)

From S2P Require Import Prelude FixedPoint Enums Json OrderResponses UserRecords.

(** [get_int64_in_string]. *)
Class JsonIntString (V : Type) := get_int64_in_string : V -> sj Z.

Section Parsers.
  Context {V : Type} `{Json V} {double : Type} `{JsonDouble V double} `{JsonIntString V}.

(** [member = returnE(f.value())], the number going through an [int]. *)
Definition get_code {R E} (f : sj Z) (ret : Z -> result E) (set : R -> E -> R) : SE (R * string) unit :=
  n ← lift (value f);
  e ← lift (ret (wrapS 32 n));
  upd (fun r => set r e).

(** ** [AccountUpdate], [MarginCall]

    The element under construction and the local strings survive from one turn of a
    loop to the next. *)
Definition asset_elem (fld : sj V) (a : AssetBalance) : result AssetBalance :=
  let g k := fld ≫= fun o => field o k in
  let a := set_ab_asset a (assign_string (g "a"%string) (ab_asset a)) in
  wb ← readFixed (g "wb"%string); let a := set_ab_walletBalance a wb in
  cw ← readFixed (g "cw"%string); let a := set_ab_crossWalletBalance a cw in
  bc ← readFixed (g "bc"%string); mret (set_ab_balanceChange a bc).

Fixpoint balance_loop (elems : list (sj V)) (a : AssetBalance) (assets : list AssetBalance) : result (list AssetBalance) :=
  match elems with
  | [] => mret assets
  | fld :: elems' => a' ← asset_elem fld a; balance_loop elems' a' (assets ++ [a'])
  end.

Definition position_elem (fld : sj V) (p : PositionBalance) (marginType positionSide : string)
    : result (PositionBalance * string * string) :=
  let g k := fld ≫= fun o => field o k in
  let p := set_pb_pair p (assign_string (g "s"%string) (pb_pair p)) in
  pa ← readFixed (g "pa"%string); let p := set_pb_positionAmount p pa in
  ep ← readFixed (g "ep"%string); let p := set_pb_entryPrice p ep in
  bep ← readFixed (g "bep"%string); let p := set_pb_breakEvenPrice p bep in
  up ← readFixed (g "up"%string); let p := set_pb_unrealizedPNL p up in
  let marginType := assign_string (g "mt"%string) marginType in
  mt ← returnMarginType marginType; let p := set_pb_marginType p mt in
  iw ← readFixed (g "iw"%string); let p := set_pb_isolatedWalletBalance p iw in
  let positionSide := assign_string (g "ps"%string) positionSide in
  ps ← returnPositionSide positionSide; mret (set_pb_positionSide p ps, marginType, positionSide).

Fixpoint position_loop (elems : list (sj V)) (p : PositionBalance) (mt ps : string) (positions : list PositionBalance)
    : result (list PositionBalance) :=
  match elems with
  | [] => mret positions
  | fld :: elems' => '(p', mt', ps') ← position_elem fld p mt ps; position_loop elems' p' mt' ps' (positions ++ [p'])
  end.

(** [AccountUpdate(doc)]; ["P"] may be missing. *)
Definition AccountUpdate_of (doc : V) : result AccountUpdate :=
  obj ← value (field doc "a" ≫= get_object);
  eventType ← returnAccountUpdateType (assign_string (field obj "m") "");
  balances ← value (field obj "B" ≫= get_array);
  assets ← balance_loop balances new_AssetBalance [];
  match field obj "P" with
  | Err _ => mret {| au_eventType := eventType; au_assets := assets; au_positions := [] |}
  | Val pos =>
      elems ← value (get_array pos);
      positions ← position_loop elems new_PositionBalance "" "" [];
      mret {| au_eventType := eventType; au_assets := assets; au_positions := positions |}
  end.

Definition margin_elem (fld : sj V) (p : MarginCallPosition) (positionSide margintype : string)
    : result (MarginCallPosition * string * string) :=
  let g k := fld ≫= fun o => field o k in
  let p := set_mc_pair p (assign_string (g "s"%string) (mc_pair p)) in
  let positionSide := assign_string (g "ps"%string) positionSide in
  ps ← returnPositionSide positionSide; let p := set_mc_positionSide p ps in
  pa ← readFixed (g "pa"%string); let p := set_mc_positionAmount p pa in
  let margintype := assign_string (g "mt"%string) margintype in
  mt ← returnMarginType margintype; let p := set_mc_marginType p mt in
  iw ← readFixed (g "iw"%string); let p := set_mc_isolatedWalletBalance p iw in
  mp ← readFixed (g "mp"%string); let p := set_mc_markPrice p mp in
  up ← readFixed (g "up"%string); let p := set_mc_unrealizedPNL p up in
  mm ← readFixed (g "mm"%string); mret (set_mc_maintenanceMargin p mm, positionSide, margintype).

Fixpoint margin_loop (elems : list (sj V)) (p : MarginCallPosition) (ps mt : string) (positions : list MarginCallPosition)
    : result (list MarginCallPosition) :=
  match elems with
  | [] => mret positions
  | fld :: elems' => '(p', ps', mt') ← margin_elem fld p ps mt; margin_loop elems' p' ps' mt' (positions ++ [p'])
  end.

Definition MarginCall_of (doc : V) : result MarginCall :=
  cw ← readFixed (field doc "cw");
  elems ← value (field doc "p" ≫= get_array);
  positions ← margin_loop elems new_MarginCallPosition "" "" [];
  mret {| ma_crossWalletBalance := cw; ma_positions := positions |}.

(** ** The events without vectors *)

(** The members only trailing stops have. *)
Definition get_activation (obj : V) : SE (OrderUpdate double * string) unit :=
  s ← get_state;
  match ou_orderType s.1 with
  | OrderType_TRAILING_STOP_MARKET =>
      _ ← get_fixed (field obj "AP") set_ou_activationPrice;
      d ← lift (value (field obj "cr" ≫= get_double_in_string));
      upd (fun r => set_ou_callBackRate r d)
  | _ => mret tt
  end.

Definition parse_OrderUpdate (doc : V) : SE (OrderUpdate double * string) unit :=
  obj ← lift (value (field doc "o" ≫= get_object));
  _ ← get_str (field obj "s") ou_pair set_ou_pair;
  _ ← get_str (field obj "c") ou_clientID set_ou_clientID;
  _ ← get_enum (field obj "S") returnOrderSide set_ou_side;
  _ ← get_enum (field obj "o") returnOrderType set_ou_orderType;
  _ ← get_enum (field obj "f") (fun s => Ok (returnTimeInForce s)) set_ou_timeInForce;
  _ ← get_fixed (field obj "q") set_ou_originalQuantity;
  _ ← get_fixed (field obj "p") set_ou_originalPrice;
  _ ← get_fixed (field obj "ap") set_ou_averagePrice;
  _ ← get_fixed (field obj "sp") set_ou_stopPrice;
  _ ← get_enum (field obj "x") returnExecutionType set_ou_executionType;
  _ ← get_enum (field obj "X") returnOrderStatus set_ou_orderStatus;
  _ ← get_int (field obj "i") set_ou_orderID;
  _ ← get_fixed (field obj "l") set_ou_lastFilledQuantity;
  _ ← get_fixed (field obj "z") set_ou_totalFilledQuantity;
  _ ← get_fixed (field obj "L") set_ou_lastFilledPrice;
  _ ← get_str (field obj "N") ou_commisionAsset set_ou_commisionAsset;
  _ ← get_fixed (field obj "n") set_ou_commision;
  _ ← get_int (field obj "T") set_ou_tradeTimestamp;
  _ ← get_fixed (field obj "b") set_ou_notitionalValueOfOrderB;
  _ ← get_fixed (field obj "a") set_ou_notitionalValueOfOrderA;
  _ ← get_flag (field obj "m") set_ou_maker;
  _ ← get_flag (field obj "R") set_ou_reduceOnly;
  _ ← get_enum (field obj "wt") returnWorkingType set_ou_workingType;
  _ ← get_enum (field obj "ot") returnOrderType set_ou_originalOrderType;
  _ ← get_enum (field obj "ps") returnPositionSide set_ou_positionSide;
  _ ← get_flag (field obj "cp") set_ou_closeAll;
  _ ← get_activation obj;
  _ ← get_flag (field obj "pP") set_ou_priceProtection;
  _ ← get_fixed (field obj "rp") set_ou_realizedProfit;
  _ ← get_enum (field obj "V") returnSTPMode set_ou_stpMode;
  _ ← get_enum (field obj "pm") returnPriceMatchMode set_ou_priceMatchMode;
  _ ← get_int (field obj "gtd") set_ou_GTDExprationTimestamp;
  get_code (field obj "er" ≫= get_int64_in_string) returnExpireReason set_ou_expireReason.

Definition OrderUpdate_of (r0 : OrderUpdate double) (doc : V) : option (result (OrderUpdate double)) :=
  construct (parse_OrderUpdate doc) (set_ou_callBackRate (set_ou_activationPrice r0 0) double_zero).

Definition parse_TradeLite (doc : V) : SE (TradeLite * string) unit :=
  _ ← get_int (field doc "T") set_tl_tradeTimestamp;
  _ ← get_str (field doc "s") tl_pair set_tl_pair;
  _ ← get_fixed (field doc "q") set_tl_originalQuantity;
  _ ← get_fixed (field doc "p") set_tl_originalPrice;
  _ ← get_flag (field doc "m") set_tl_maker;
  _ ← get_str (field doc "c") tl_clientID set_tl_clientID;
  _ ← get_enum (field doc "S") returnOrderSide set_tl_orderSide;
  _ ← get_fixed (field doc "L") set_tl_lastFilledPrice;
  _ ← get_fixed (field doc "l") set_tl_lastFilledQuantity;
  _ ← get_int (field doc "t") set_tl_tradeID;
  get_int (field doc "i") set_tl_orderID.

Definition TradeLite_of (r0 : TradeLite) (doc : V) : option (result TradeLite) := construct (parse_TradeLite doc) r0.

(** Either ["ac"] or ["ai"]. *)
Definition parse_AccountConfigUpdate (doc : V) : SE (AccountConfigUpdate * string) unit :=
  _ ← get_int (field doc "T") set_cf_timestamp;
  match field doc "ac" with
  | Err NO_SUCH_FIELD =>
      obj ← lift (value (field doc "ai" ≫= get_object));
      get_flag (field obj "j") set_cf_multiAssetMode
  | testIfLeverage =>
      obj ← lift (value (testIfLeverage ≫= get_object));
      _ ← get_str (field obj "s") cf_pair set_cf_pair;
      get_int (field obj "l") set_cf_leverage
  end.

Definition AccountConfigUpdate_of (t0 : Z) (doc : V) : option (result AccountConfigUpdate) :=
  construct (parse_AccountConfigUpdate doc) {| cf_timestamp := t0; cf_pair := ""; cf_leverage := 0; cf_multiAssetMode := false |}.

Definition parse_StrategyUpdate (doc : V) : SE (StrategyUpdate * string) unit :=
  _ ← get_int (field doc "T") set_su_timestamp;
  obj ← lift (value (field doc "su" ≫= get_object));
  _ ← get_int (field obj "si") set_su_strategyID;
  _ ← get_enum (field obj "st") returnStrategyType set_su_strategyType;
  _ ← get_enum (field obj "ss") returnStrategyStatus set_su_strategyStatus;
  _ ← get_str (field obj "s") su_pair set_su_pair;
  _ ← get_int (field obj "ut") set_su_updateTimestamp;
  get_code (field obj "c" ≫= get_int64) returnOpCode set_su_opCode.

Definition StrategyUpdate_of (r0 : StrategyUpdate) (doc : V) : option (result StrategyUpdate) := construct (parse_StrategyUpdate doc) r0.

Definition parse_GridUpdate (doc : V) : SE (GridUpdate * string) unit :=
  _ ← get_int (field doc "T") set_gu_timestamp;
  obj ← lift (value (field doc "gu" ≫= get_object));
  _ ← get_int (field obj "si") set_gu_strategyID;
  _ ← get_enum (field obj "st") returnStrategyType set_gu_strategyType;
  _ ← get_enum (field obj "ss") returnStrategyStatus set_gu_strategyStatus;
  _ ← get_str (field obj "s") gu_pair set_gu_pair;
  _ ← get_fixed (field obj "r") set_gu_realizedPNL;
  _ ← get_fixed (field obj "up") set_gu_unmatchedAveragePrice;
  _ ← get_fixed (field obj "uq") set_gu_unmatchedQuantity;
  _ ← get_fixed (field obj "uf") set_gu_unmatchedFee;
  _ ← get_fixed (field obj "mp") set_gu_matchedPNL;
  get_int (field obj "ut") set_gu_updateTimestamp.

Definition GridUpdate_of (r0 : GridUpdate) (doc : V) : option (result GridUpdate) := construct (parse_GridUpdate doc) r0.

Definition parse_ConditionalOrderReject (doc : V) : SE (ConditionalOrderReject * string) unit :=
  _ ← get_int (field doc "T") set_cr_timestamp;
  obj ← lift (value (field doc "or" ≫= get_object));
  _ ← get_str (field obj "s") cr_pair set_cr_pair;
  _ ← get_int (field obj "i") set_cr_orderID;
  get_str (field obj "r") cr_rejectReason set_cr_rejectReason.

Definition ConditionalOrderReject_of (r0 : ConditionalOrderReject) (doc : V) : option (result ConditionalOrderReject) :=
  construct (parse_ConditionalOrderReject doc) r0.
End Parsers.

(** ** [UserDataStream] *)

Section Stream.
  Context {V : Type} `{Json V} {double : Type} `{JsonDouble V double} `{JsonIntString V}.

(** [PTRWrapper]: one owning pointer per class. *)
Record PTRWrapper := {
  w_accountUpdate : option AccountUpdate;
  w_marginCall : option MarginCall;
  w_orderUpdate : option (OrderUpdate double);
  w_tradeLite : option TradeLite;
  w_accountConfigUpdate : option AccountConfigUpdate;
  w_strategyUpdate : option StrategyUpdate;
  w_gridUpdate : option GridUpdate;
  w_conditionalOrderReject : option ConditionalOrderReject;
}.

(** What a [void*] to an event points to. *)
Inductive Payload :=
  | P_AccountUpdate (x : AccountUpdate)
  | P_MarginCall (x : MarginCall)
  | P_OrderUpdate (x : OrderUpdate double)
  | P_TradeLite (x : TradeLite)
  | P_AccountConfigUpdate (x : AccountConfigUpdate)
  | P_StrategyUpdate (x : StrategyUpdate)
  | P_GridUpdate (x : GridUpdate)
  | P_ConditionalOrderReject (x : ConditionalOrderReject).

Definition new_PTRWrapper : PTRWrapper := Build_PTRWrapper None None None None None None None None.

(** The constructors: the pointer of the payload's class is set, the others are null. *)
Definition wrap_payload (x : Payload) : PTRWrapper :=
  match x with
  | P_AccountUpdate x => Build_PTRWrapper (Some x) None None None None None None None
  | P_MarginCall x => Build_PTRWrapper None (Some x) None None None None None None
  | P_OrderUpdate x => Build_PTRWrapper None None (Some x) None None None None None
  | P_TradeLite x => Build_PTRWrapper None None None (Some x) None None None None
  | P_AccountConfigUpdate x => Build_PTRWrapper None None None None (Some x) None None None
  | P_StrategyUpdate x => Build_PTRWrapper None None None None None (Some x) None None
  | P_GridUpdate x => Build_PTRWrapper None None None None None None (Some x) None
  | P_ConditionalOrderReject x => Build_PTRWrapper None None None None None None None (Some x)
  end.

Record UserDataStream := {
  ud_event : EventType;
  ud_timestamp : Z;
  ud_ptrWrapper : option PTRWrapper;
}.

Definition UserDataStream_empty : UserDataStream :=
  {| ud_event := EventType_UNKNOWN; ud_timestamp := 0; ud_ptrWrapper := None |}.
Definition UserDataStream_of (event : EventType) (timestamp : Z) (x : Payload) : UserDataStream :=
  {| ud_event := event; ud_timestamp := timestamp; ud_ptrWrapper := Some (wrap_payload x) |}.
Definition UserDataStream_bare (event : EventType) (timestamp : Z) : UserDataStream :=
  {| ud_event := event; ud_timestamp := timestamp; ud_ptrWrapper := Some new_PTRWrapper |}.

Definition returnPtr (u : UserDataStream) : option Payload :=
  w ← ud_ptrWrapper u;
  match ud_event u with
  | EventType_ACCOUNT_UPDATE => P_AccountUpdate <$> w_accountUpdate w
  | EventType_MARGIN_CALL => P_MarginCall <$> w_marginCall w
  | EventType_ORDER_UPDATE => P_OrderUpdate <$> w_orderUpdate w
  | EventType_TRADE_LITE => P_TradeLite <$> w_tradeLite w
  | EventType_ACCOUNT_CONFIG_UPDATE => P_AccountConfigUpdate <$> w_accountConfigUpdate w
  | EventType_STRATEGY_UPDATE => P_StrategyUpdate <$> w_strategyUpdate w
  | EventType_GRID_UPDATE => P_GridUpdate <$> w_gridUpdate w
  | EventType_CONDITIONAL_ORDER_REJECT => P_ConditionalOrderReject <$> w_conditionalOrderReject w
  | _ => None
  end.

(** ** The parsers: the event time is read before the payload *)

(** Indeterminate members of the objects about to be constructed. *)
Record Garbage := {
  gb_order : OrderUpdate double;
  gb_trade : TradeLite;
  gb_config : Z;
  gb_strategy : StrategyUpdate;
  gb_grid : GridUpdate;
  gb_reject : ConditionalOrderReject;
}.

Definition event_of (event : EventType) (doc : V) (payload : option (result Payload)) : option (result UserDataStream) :=
  match value (field doc "E" ≫= get_int64) with
  | Throw x => Some (Throw x)
  | Ok eventTime => r ← payload; Some (x ← r; Ok (UserDataStream_of event eventTime x))
  end.

(** A payload on its way out of its constructor. *)
Definition as_payload {A} (P : A -> Payload) (x : option (result A)) : option (result Payload) :=
  (fun r : result A => P <$> r) <$> x.

Definition accountUpdate (doc : V) := event_of EventType_ACCOUNT_UPDATE doc (as_payload P_AccountUpdate (Some (AccountUpdate_of doc))).
Definition marginCallUpdate (doc : V) := event_of EventType_MARGIN_CALL doc (as_payload P_MarginCall (Some (MarginCall_of doc))).
Definition orderUpdate (g : Garbage) (doc : V) :=
  event_of EventType_ORDER_UPDATE doc (as_payload P_OrderUpdate (OrderUpdate_of (gb_order g) doc)).
Definition tradeLite (g : Garbage) (doc : V) :=
  event_of EventType_TRADE_LITE doc (as_payload P_TradeLite (TradeLite_of (gb_trade g) doc)).
Definition accountConfigUpdate (g : Garbage) (doc : V) :=
  event_of EventType_ACCOUNT_CONFIG_UPDATE doc (as_payload P_AccountConfigUpdate (AccountConfigUpdate_of (gb_config g) doc)).
Definition strategyUpdate (g : Garbage) (doc : V) :=
  event_of EventType_STRATEGY_UPDATE doc (as_payload P_StrategyUpdate (StrategyUpdate_of (gb_strategy g) doc)).
Definition gridUpdate (g : Garbage) (doc : V) :=
  event_of EventType_GRID_UPDATE doc (as_payload P_GridUpdate (GridUpdate_of (gb_grid g) doc)).
Definition conditionalOrderReject (g : Garbage) (doc : V) :=
  event_of EventType_CONDITIONAL_ORDER_REJECT doc (as_payload P_ConditionalOrderReject (ConditionalOrderReject_of (gb_reject g) doc)).

(** [parseUserDataStream]. *)
Definition parseUserDataStream (g : Garbage) (json : string) : option (result UserDataStream) :=
  let doc := iterate json in
  let with_doc (f : V -> option (result UserDataStream)) := match value doc with Ok d => f d | Throw x => Some (Throw x) end in
  match returnEventType (assign_string (doc ≫= fun d => field d "e") "") with
  | EventType_ACCOUNT_UPDATE => with_doc accountUpdate
  | EventType_MARGIN_CALL => with_doc marginCallUpdate
  | EventType_ORDER_UPDATE => with_doc (orderUpdate g)
  | EventType_TRADE_LITE => with_doc (tradeLite g)
  | EventType_ACCOUNT_CONFIG_UPDATE => with_doc (accountConfigUpdate g)
  | EventType_STRATEGY_UPDATE => with_doc (strategyUpdate g)
  | EventType_GRID_UPDATE => with_doc (gridUpdate g)
  | EventType_CONDITIONAL_ORDER_REJECT => with_doc (conditionalOrderReject g)
  | _ => Some (Ok UserDataStream_empty)
  end.

(** ** [castUserDataStreamptr]: member by member into [out]; a null pointer leaves it *)

Definition cast_AccountUpdate (ptr : option Payload) (out : AccountUpdate) : option (AccountUpdate) :=
  match ptr with
  | None => Some out
  | Some (P_AccountUpdate cast) =>
      let out := set_au_assets out (au_assets cast) in
      let out := set_au_eventType out (au_eventType cast) in
      let out := set_au_positions out (au_positions cast) in
      Some out
  | Some _ => None
  end.

Definition cast_MarginCall (ptr : option Payload) (out : MarginCall) : option (MarginCall) :=
  match ptr with
  | None => Some out
  | Some (P_MarginCall cast) =>
      let out := set_ma_crossWalletBalance out (ma_crossWalletBalance cast) in
      let out := set_ma_positions out (ma_positions cast) in
      Some out
  | Some _ => None
  end.

Definition cast_OrderUpdate (ptr : option Payload) (out : OrderUpdate double) : option (OrderUpdate double) :=
  match ptr with
  | None => Some out
  | Some (P_OrderUpdate cast) =>
      let out := set_ou_pair out (ou_pair cast) in
      let out := set_ou_clientID out (ou_clientID cast) in
      let out := set_ou_originalQuantity out (ou_originalQuantity cast) in
      let out := set_ou_originalPrice out (ou_originalPrice cast) in
      let out := set_ou_averagePrice out (ou_averagePrice cast) in
      let out := set_ou_stopPrice out (ou_stopPrice cast) in
      let out := set_ou_orderID out (ou_orderID cast) in
      let out := set_ou_lastFilledQuantity out (ou_lastFilledQuantity cast) in
      let out := set_ou_totalFilledQuantity out (ou_totalFilledQuantity cast) in
      let out := set_ou_lastFilledPrice out (ou_lastFilledPrice cast) in
      let out := set_ou_commisionAsset out (ou_commisionAsset cast) in
      let out := set_ou_commision out (ou_commision cast) in
      let out := set_ou_tradeTimestamp out (ou_tradeTimestamp cast) in
      let out := set_ou_notitionalValueOfOrderB out (ou_notitionalValueOfOrderB cast) in
      let out := set_ou_notitionalValueOfOrderA out (ou_notitionalValueOfOrderA cast) in
      let out := set_ou_maker out (ou_maker cast) in
      let out := set_ou_reduceOnly out (ou_reduceOnly cast) in
      let out := set_ou_side out (ou_side cast) in
      let out := set_ou_orderType out (ou_orderType cast) in
      let out := set_ou_timeInForce out (ou_timeInForce cast) in
      let out := set_ou_executionType out (ou_executionType cast) in
      let out := set_ou_orderStatus out (ou_orderStatus cast) in
      let out := set_ou_workingType out (ou_workingType cast) in
      let out := set_ou_originalOrderType out (ou_originalOrderType cast) in
      let out := set_ou_positionSide out (ou_positionSide cast) in
      let out := set_ou_stpMode out (ou_stpMode cast) in
      let out := set_ou_priceMatchMode out (ou_priceMatchMode cast) in
      let out := set_ou_expireReason out (ou_expireReason cast) in
      let out := set_ou_closeAll out (ou_closeAll cast) in
      let out := set_ou_activationPrice out (ou_activationPrice cast) in
      let out := set_ou_callBackRate out (ou_callBackRate cast) in
      let out := set_ou_priceProtection out (ou_priceProtection cast) in
      let out := set_ou_realizedProfit out (ou_realizedProfit cast) in
      let out := set_ou_GTDExprationTimestamp out (ou_GTDExprationTimestamp cast) in
      Some out
  | Some _ => None
  end.

Definition cast_TradeLite (ptr : option Payload) (out : TradeLite) : option (TradeLite) :=
  match ptr with
  | None => Some out
  | Some (P_TradeLite cast) =>
      let out := set_tl_clientID out (tl_clientID cast) in
      let out := set_tl_lastFilledPrice out (tl_lastFilledPrice cast) in
      let out := set_tl_lastFilledQuantity out (tl_lastFilledQuantity cast) in
      let out := set_tl_maker out (tl_maker cast) in
      let out := set_tl_orderID out (tl_orderID cast) in
      let out := set_tl_orderSide out (tl_orderSide cast) in
      let out := set_tl_originalPrice out (tl_originalPrice cast) in
      let out := set_tl_originalQuantity out (tl_originalQuantity cast) in
      let out := set_tl_pair out (tl_pair cast) in
      let out := set_tl_tradeID out (tl_tradeID cast) in
      let out := set_tl_tradeTimestamp out (tl_tradeTimestamp cast) in
      Some out
  | Some _ => None
  end.

Definition cast_AccountConfigUpdate (ptr : option Payload) (out : AccountConfigUpdate) : option (AccountConfigUpdate) :=
  match ptr with
  | None => Some out
  | Some (P_AccountConfigUpdate cast) =>
      let out := set_cf_leverage out (cf_leverage cast) in
      let out := set_cf_multiAssetMode out (cf_multiAssetMode cast) in
      let out := set_cf_pair out (cf_pair cast) in
      let out := set_cf_timestamp out (cf_timestamp cast) in
      Some out
  | Some _ => None
  end.

Definition cast_StrategyUpdate (ptr : option Payload) (out : StrategyUpdate) : option (StrategyUpdate) :=
  match ptr with
  | None => Some out
  | Some (P_StrategyUpdate cast) =>
      let out := set_su_opCode out (su_opCode cast) in
      let out := set_su_pair out (su_pair cast) in
      let out := set_su_strategyID out (su_strategyID cast) in
      let out := set_su_strategyStatus out (su_strategyStatus cast) in
      let out := set_su_strategyType out (su_strategyType cast) in
      let out := set_su_timestamp out (su_timestamp cast) in
      let out := set_su_updateTimestamp out (su_updateTimestamp cast) in
      Some out
  | Some _ => None
  end.

Definition cast_GridUpdate (ptr : option Payload) (out : GridUpdate) : option (GridUpdate) :=
  match ptr with
  | None => Some out
  | Some (P_GridUpdate cast) =>
      let out := set_gu_matchedPNL out (gu_matchedPNL cast) in
      let out := set_gu_pair out (gu_pair cast) in
      let out := set_gu_realizedPNL out (gu_realizedPNL cast) in
      let out := set_gu_strategyID out (gu_strategyID cast) in
      let out := set_gu_strategyStatus out (gu_strategyStatus cast) in
      let out := set_gu_strategyType out (gu_strategyType cast) in
      let out := set_gu_timestamp out (gu_timestamp cast) in
      let out := set_gu_unmatchedAveragePrice out (gu_unmatchedAveragePrice cast) in
      let out := set_gu_unmatchedFee out (gu_unmatchedFee cast) in
      let out := set_gu_unmatchedQuantity out (gu_unmatchedQuantity cast) in
      let out := set_gu_updateTimestamp out (gu_updateTimestamp cast) in
      Some out
  | Some _ => None
  end.

Definition cast_ConditionalOrderReject (ptr : option Payload) (out : ConditionalOrderReject) : option (ConditionalOrderReject) :=
  match ptr with
  | None => Some out
  | Some (P_ConditionalOrderReject cast) =>
      let out := set_cr_orderID out (cr_orderID cast) in
      let out := set_cr_pair out (cr_pair cast) in
      let out := set_cr_rejectReason out (cr_rejectReason cast) in
      let out := set_cr_timestamp out (cr_timestamp cast) in
      Some out
  | Some _ => None
  end.

End Stream.
Arguments PTRWrapper _ : clear implicits.
Arguments Payload _ : clear implicits.
Arguments UserDataStream _ : clear implicits.
Arguments Garbage _ : clear implicits.
