(* ===== verification/UserDataSpec.v ===== *)
(** * UserDataSpec: round trips of the account events

    The messages of the documents under [doc/payloads/streams/], built from the event
    records, and the theorems that the parsers of UserData read them back; then what can
    come out of [parseUserDataStream] for an arbitrary message. *)

From S2P Require Import Prelude FixedPoint Model Enums WireNames Json RingBuffer OrderRecords OrderResponses OrderResponseSpec UserRecords UserData.

#[global] Instance JV_int_string : JsonIntString JV := fun v =>
  match v with
  | JStr s => match digits_of s with Some ds => Val (digits_value 0 ds) | None => Err INCORRECT_TYPE end
  | _ => Err INCORRECT_TYPE
  end.

(** ** The messages *)

Definition reason_json (x : ExpireReason) : string := formatFixed 64 (ExpireReason_value x * FIXED_SCALE).

(** ["AP"] and ["cr"] are pushed for trailing stops only. *)
Definition order_event (r : OrderUpdate string) : list (string * JV) :=
  [("s"%string, JStr (ou_pair r)); ("c"%string, JStr (ou_clientID r));
   ("S"%string, JStr (wire_OrderSide (ou_side r))); ("o"%string, JStr (wire_OrderType (ou_orderType r)));
   ("f"%string, JStr (wire_TimeInForce (ou_timeInForce r)));
   ("q"%string, JStr (formatFixed 64 (ou_originalQuantity r)));
   ("p"%string, JStr (formatFixed 64 (ou_originalPrice r)));
   ("ap"%string, JStr (formatFixed 64 (ou_averagePrice r))); ("sp"%string, JStr (formatFixed 64 (ou_stopPrice r)));
   ("x"%string, JStr (wire_ExecutionType (ou_executionType r)));
   ("X"%string, JStr (wire_OrderStatus (ou_orderStatus r))); ("i"%string, JInt (ou_orderID r));
   ("l"%string, JStr (formatFixed 64 (ou_lastFilledQuantity r)));
   ("z"%string, JStr (formatFixed 64 (ou_totalFilledQuantity r)));
   ("L"%string, JStr (formatFixed 64 (ou_lastFilledPrice r))); ("N"%string, JStr (ou_commisionAsset r));
   ("n"%string, JStr (formatFixed 64 (ou_commision r))); ("T"%string, JInt (ou_tradeTimestamp r));
   ("b"%string, JStr (formatFixed 64 (ou_notitionalValueOfOrderB r)));
   ("a"%string, JStr (formatFixed 64 (ou_notitionalValueOfOrderA r))); ("m"%string, JBool (ou_maker r));
   ("R"%string, JBool (ou_reduceOnly r)); ("wt"%string, JStr (wire_WorkingType (ou_workingType r)));
   ("ot"%string, JStr (wire_OrderType (ou_originalOrderType r)));
   ("ps"%string, JStr (wire_PositionSide (ou_positionSide r))); ("cp"%string, JBool (ou_closeAll r));
   ("pP"%string, JBool (ou_priceProtection r)); ("rp"%string, JStr (formatFixed 64 (ou_realizedProfit r)));
   ("V"%string, JStr (wire_STPMode (ou_stpMode r)));
   ("pm"%string, JStr (wire_PriceMatchMode (ou_priceMatchMode r)));
   ("gtd"%string, JInt (ou_GTDExprationTimestamp r)); ("er"%string, JStr (reason_json (ou_expireReason r)))] ++
  match ou_orderType r with
  | OrderType_TRAILING_STOP_MARKET =>
      [("AP"%string, JStr (formatFixed 64 (ou_activationPrice r))); ("cr"%string, JStr (ou_callBackRate r))]
  | _ => []
  end.

Definition trade_event (r : TradeLite) : list (string * JV) :=
  [("T"%string, JInt (tl_tradeTimestamp r)); ("s"%string, JStr (tl_pair r));
   ("q"%string, JStr (formatFixed 64 (tl_originalQuantity r)));
   ("p"%string, JStr (formatFixed 64 (tl_originalPrice r))); ("m"%string, JBool (tl_maker r));
   ("c"%string, JStr (tl_clientID r)); ("S"%string, JStr (wire_OrderSide (tl_orderSide r)));
   ("L"%string, JStr (formatFixed 64 (tl_lastFilledPrice r)));
   ("l"%string, JStr (formatFixed 64 (tl_lastFilledQuantity r))); ("t"%string, JInt (tl_tradeID r));
   ("i"%string, JInt (tl_orderID r))].

Definition strategy_event (r : StrategyUpdate) : list (string * JV) :=
  [("si"%string, JInt (su_strategyID r)); ("st"%string, JStr (wire_StrategyType (su_strategyType r)));
   ("ss"%string, JStr (wire_StrategyStatus (su_strategyStatus r))); ("s"%string, JStr (su_pair r));
   ("ut"%string, JInt (su_updateTimestamp r)); ("c"%string, JInt (OpCode_value (su_opCode r)))].

Definition grid_event (r : GridUpdate) : list (string * JV) :=
  [("si"%string, JInt (gu_strategyID r)); ("st"%string, JStr (wire_StrategyType (gu_strategyType r)));
   ("ss"%string, JStr (wire_StrategyStatus (gu_strategyStatus r))); ("s"%string, JStr (gu_pair r));
   ("r"%string, JStr (formatFixed 64 (gu_realizedPNL r)));
   ("up"%string, JStr (formatFixed 64 (gu_unmatchedAveragePrice r)));
   ("uq"%string, JStr (formatFixed 64 (gu_unmatchedQuantity r)));
   ("uf"%string, JStr (formatFixed 64 (gu_unmatchedFee r)));
   ("mp"%string, JStr (formatFixed 64 (gu_matchedPNL r))); ("ut"%string, JInt (gu_updateTimestamp r))].

Definition reject_event (r : ConditionalOrderReject) : list (string * JV) :=
  [("s"%string, JStr (cr_pair r)); ("i"%string, JInt (cr_orderID r)); ("r"%string, JStr (cr_rejectReason r))].

Definition opt_fixed (o : option Fixed) : JV := JStr (formatFixed 64 (default 0 o)).
Definition opt_margin (o : option MarginType) : JV := JStr (wire_MarginType (default MarginType_CROSS o)).
Definition opt_side (o : option PositionSide) : JV := JStr (wire_PositionSide (default PositionSide_BOTH o)).

Definition asset_json (r : AssetBalance) : JV := JObj
  [("a"%string, JStr (ab_asset r)); ("wb"%string, opt_fixed (ab_walletBalance r));
   ("cw"%string, opt_fixed (ab_crossWalletBalance r)); ("bc"%string, opt_fixed (ab_balanceChange r))].

Definition position_json (r : PositionBalance) : JV := JObj
  [("s"%string, JStr (pb_pair r)); ("pa"%string, opt_fixed (pb_positionAmount r)); ("ep"%string, opt_fixed (pb_entryPrice r));
   ("bep"%string, opt_fixed (pb_breakEvenPrice r)); ("cr"%string, opt_fixed (pb_realizedPNL r));
   ("up"%string, opt_fixed (pb_unrealizedPNL r)); ("mt"%string, opt_margin (pb_marginType r));
   ("iw"%string, opt_fixed (pb_isolatedWalletBalance r)); ("ps"%string, opt_side (pb_positionSide r))].

Definition margin_json (r : MarginCallPosition) : JV := JObj
  [("s"%string, JStr (mc_pair r)); ("ps"%string, opt_side (mc_positionSide r)); ("pa"%string, opt_fixed (mc_positionAmount r));
   ("mt"%string, opt_margin (mc_marginType r)); ("iw"%string, opt_fixed (mc_isolatedWalletBalance r));
   ("mp"%string, opt_fixed (mc_markPrice r)); ("up"%string, opt_fixed (mc_unrealizedPNL r));
   ("mm"%string, opt_fixed (mc_maintenanceMargin r))].

(** ["P"] is omitted when there is no position. *)
Definition account_event (r : AccountUpdate) : list (string * JV) :=
  [("m"%string, JStr (wire_AccountUpdateType (au_eventType r))); ("B"%string, JArr (asset_json <$> au_assets r))] ++
  match au_positions r with [] => [] | ps => [("P"%string, JArr (position_json <$> ps))] end.

Definition event_fields (x : Payload string) : list (string * JV) :=
  match x with
  | P_AccountUpdate r => [("a"%string, JObj (account_event r))]
  | P_MarginCall r => [("cw"%string, JStr (formatFixed 64 (ma_crossWalletBalance r))); ("p"%string, JArr (margin_json <$> ma_positions r))]
  | P_OrderUpdate r => [("o"%string, JObj (order_event r))]
  | P_TradeLite r => trade_event r
  | P_AccountConfigUpdate r =>
      [("T"%string, JInt (cf_timestamp r));
       if cf_multiAssetMode r then ("ai"%string, JObj [("j"%string, JBool true)])
       else ("ac"%string, JObj [("s"%string, JStr (cf_pair r)); ("l"%string, JInt (cf_leverage r))])]
  | P_StrategyUpdate r => [("T"%string, JInt (su_timestamp r)); ("su"%string, JObj (strategy_event r))]
  | P_GridUpdate r => [("T"%string, JInt (gu_timestamp r)); ("gu"%string, JObj (grid_event r))]
  | P_ConditionalOrderReject r => [("T"%string, JInt (cr_timestamp r)); ("or"%string, JObj (reject_event r))]
  end.

Definition event_name (x : Payload string) : string :=
  match x with
  | P_AccountUpdate _ => "ACCOUNT_UPDATE" | P_MarginCall _ => "MARGIN_CALL" | P_OrderUpdate _ => "ORDER_TRADE_UPDATE"
  | P_TradeLite _ => "TRADE_LITE" | P_AccountConfigUpdate _ => "ACCOUNT_CONFIG_UPDATE" | P_StrategyUpdate _ => "STRATEGY_UPDATE"
  | P_GridUpdate _ => "GRID_UPDATE" | P_ConditionalOrderReject _ => "CONDITIONAL_ORDER_TRIGGER_REJECT"
  end.

Definition event_doc (t : Z) (x : Payload string) : JV :=
  JObj (("e"%string, JStr (event_name x)) :: ("E"%string, JInt t) :: event_fields x).

(** ** Members within their types, enumerators the exchange has a name for *)

Definition fixed_known (o : option Fixed) : Prop := exists n, o = Some n /\ in_int64 n = true.
Definition side_known (o : option PositionSide) : Prop := exists s, o = Some s /\ named s = true.

Definition asset_ok (r : AssetBalance) : Prop :=
  fixed_known (ab_walletBalance r) /\ fixed_known (ab_crossWalletBalance r) /\ fixed_known (ab_balanceChange r).

(** [realizedPNL] is on the wire as ["cr"] and is not parsed. *)
Definition position_ok (r : PositionBalance) : Prop :=
  fixed_known (pb_positionAmount r) /\ fixed_known (pb_entryPrice r) /\ fixed_known (pb_breakEvenPrice r) /\
  pb_realizedPNL r = None /\ fixed_known (pb_unrealizedPNL r) /\ fixed_known (pb_isolatedWalletBalance r) /\
  is_Some (pb_marginType r) /\ side_known (pb_positionSide r).

Definition margin_ok (r : MarginCallPosition) : Prop :=
  side_known (mc_positionSide r) /\ fixed_known (mc_positionAmount r) /\ is_Some (mc_marginType r) /\
  fixed_known (mc_isolatedWalletBalance r) /\ fixed_known (mc_markPrice r) /\ fixed_known (mc_unrealizedPNL r) /\
  fixed_known (mc_maintenanceMargin r).

Definition order_event_ok (r : OrderUpdate string) : Prop :=
  in_int64 (ou_originalQuantity r) = true /\ in_int64 (ou_originalPrice r) = true /\ in_int64 (ou_averagePrice
  r) = true /\ in_int64 (ou_stopPrice r) = true /\ in_int64 (ou_orderID r) = true /\ in_int64
  (ou_lastFilledQuantity r) = true /\ in_int64 (ou_totalFilledQuantity r) = true /\ in_int64 (ou_lastFilledPrice
  r) = true /\ in_int64 (ou_commision r) = true /\ in_int64 (ou_tradeTimestamp r) = true /\ in_int64
  (ou_notitionalValueOfOrderB r) = true /\ in_int64 (ou_notitionalValueOfOrderA r) = true /\ in_int64
  (ou_activationPrice r) = true /\ in_int64 (ou_realizedProfit r) = true /\ in_int64 (ou_GTDExprationTimestamp
  r) = true /\ named (ou_side r) = true /\ named (ou_orderType r) = true /\ named (ou_timeInForce r) = true /\
  named (ou_orderStatus r) = true /\ named (ou_workingType r) = true /\ named (ou_originalOrderType r) = true /\
  named (ou_positionSide r) = true /\
  trailing_ok (ou_orderType r) (ou_activationPrice r) (ou_callBackRate r).

Definition trade_event_ok (r : TradeLite) : Prop :=
  in_int64 (tl_tradeTimestamp r) = true /\ in_int64 (tl_originalQuantity r) = true /\ in_int64 (tl_originalPrice
  r) = true /\ in_int64 (tl_lastFilledPrice r) = true /\ in_int64 (tl_lastFilledQuantity r) = true /\ in_int64
  (tl_tradeID r) = true /\ in_int64 (tl_orderID r) = true /\ named (tl_orderSide r) = true.

Definition strategy_event_ok (r : StrategyUpdate) : Prop :=
  in_int64 (su_timestamp r) = true /\ in_int64 (su_strategyID r) = true /\ in_int64 (su_updateTimestamp r) =
  true.

Definition grid_event_ok (r : GridUpdate) : Prop :=
  in_int64 (gu_timestamp r) = true /\ in_int64 (gu_strategyID r) = true /\ in_int64 (gu_realizedPNL r) = true /\
  in_int64 (gu_unmatchedAveragePrice r) = true /\ in_int64 (gu_unmatchedQuantity r) = true /\ in_int64
  (gu_unmatchedFee r) = true /\ in_int64 (gu_matchedPNL r) = true /\ in_int64 (gu_updateTimestamp r) = true.

(** A change of the leverage or of the mode, not both. *)
Definition config_event_ok (r : AccountConfigUpdate) : Prop :=
  in_int64 (cf_timestamp r) = true /\ in_int64 (cf_leverage r) = true /\
  (cf_multiAssetMode r = true -> cf_pair r = ""%string /\ cf_leverage r = 0).

Definition payload_ok (x : Payload string) : Prop :=
  match x with
  | P_AccountUpdate r => Forall asset_ok (au_assets r) /\ Forall position_ok (au_positions r)
  | P_MarginCall r => in_int64 (ma_crossWalletBalance r) = true /\ Forall margin_ok (ma_positions r)
  | P_OrderUpdate r => order_event_ok r
  | P_TradeLite r => trade_event_ok r
  | P_AccountConfigUpdate r => config_event_ok r
  | P_StrategyUpdate r => strategy_event_ok r
  | P_GridUpdate r => grid_event_ok r
  | P_ConditionalOrderReject r => in_int64 (cr_timestamp r) = true /\ in_int64 (cr_orderID r) = true
  end.

(** ** The parsers on these messages *)

Section Steps.
  Context (texts : list (string * JV)).
  Notation J := (JV_Json texts).

Lemma get_code_ok {R E} (f : sj Z) (ret : Z -> result E) set n (e : E) (s : R * string) :
  f = Val n -> ret (wrapS 32 n) = Ok e -> get_code f ret set s = Some (Ok tt, (set s.1 e, s.2)).
Proof. intros -> Hr. unfold get_code, upd, mbind, SE_bind, lift, modify. cbn. by rewrite Hr. Qed.

Lemma reason_ok x : digits_of (reason_json x) = Some [ExpireReason_value x].
Proof. by destruct x. Qed.

(** The members only trailing stops have, as in [get_trailing_ok]. *)
Lemma get_activation_ok fs a c {B} (K : unit -> SE (OrderUpdate string * string) B) (s : OrderUpdate string * string) :
  (ou_orderType s.1 = OrderType_TRAILING_STOP_MARKET ->
     lookup_field fs "AP" = Val (JStr (formatFixed 64 a)) /\ lookup_field fs "cr" = Val (JStr c)) -> in_int64 a = true ->
  (@get_activation _ J _ _ (JObj fs) ≫= K) s =
  K tt (match ou_orderType s.1 with
        | OrderType_TRAILING_STOP_MARKET => set_ou_callBackRate (set_ou_activationPrice s.1 a) c
        | _ => s.1
        end, s.2).
Proof.
  intros Hl Ha. unfold get_activation. unfold mbind at 1, SE_bind. unfold mbind at 1. unfold get_state.
  destruct s as [r t]. cbn [fst snd] in *. destruct (ou_orderType r); try done. destruct (Hl eq_refl) as [Ea Ec].
  rewrite (get_fixed_ok texts fs "AP" set_ou_activationPrice a _ (r, t) Ea Ha).
  by assert (value (@field _ J (JObj fs) "cr" ≫= get_double_in_string) = Ok c) as -> by (cbn; by rewrite Ec).
Qed.

Lemma OrderUpdate_ok r r0 pre : order_event_ok r -> lookup_field pre "o" = Val (JObj (order_event r)) ->
  @OrderUpdate_of _ J _ _ _ r0 (JObj pre) = Some (Ok r).
Proof.
  intros Hok Ho. unfold order_event_ok in Hok. destruct_and!. unfold OrderUpdate_of, construct, parse_into, parse_OrderUpdate.
  erewrite get_object_ok; [|exact Ho]. cbv beta. unfold order_event. cbn [app]. do 26 parse_step.
  erewrite (get_activation_ok _ (ou_activationPrice r) (ou_callBackRate r)); [|intros E|done].
  2: { replace (ou_orderType r) with OrderType_TRAILING_STOP_MARKET by (by destruct r0). done. }
  cbv beta. do 5 parse_step. erewrite get_code_ok; [|cbn; by rewrite reason_ok|apply return_ExpireReason].
  cbn [fst snd]. match goal with H : trailing_ok _ _ _ |- _ => destruct H as [Ht|[Ha Hc]] end.
  - destruct r, r0. cbn in *. subst. by rewrite return_TimeInForce.
  - destruct r, r0. cbn in *. subst. rewrite return_TimeInForce by done. by destruct ou_orderType.
Qed.

Lemma TradeLite_ok r r0 pre t : trade_event_ok r ->
  @TradeLite_of _ J r0 (JObj (("e"%string, JStr pre) :: ("E"%string, JInt t) :: trade_event r)) = Some (Ok r).
Proof.
  intros Hok. unfold trade_event_ok in Hok. destruct_and!. unfold TradeLite_of, construct, parse_into, parse_TradeLite, trade_event.
  do 10 parse_step. rewrite SE_bind_ret_r. parse_step. by destruct r, r0.
Qed.

Lemma AccountConfigUpdate_ok r t0 e t : config_event_ok r ->
  @AccountConfigUpdate_of _ J t0 (JObj (("e"%string, JStr e) :: ("E"%string, JInt t) :: event_fields (P_AccountConfigUpdate r))) = Some (Ok r).
Proof.
  intros (? & ? & Hm). unfold AccountConfigUpdate_of, construct, parse_into, parse_AccountConfigUpdate.
  destruct r as [ts p l m]. cbn [cf_timestamp cf_leverage cf_multiAssetMode cf_pair event_fields] in *. parse_step.
  destruct m; [by destruct (Hm eq_refl) as [-> ->]|].
  cbn -[in_int64]. unfold get_str, get_int, upd, modify, mbind, SE_bind, lift. cbn -[in_int64]. by rewrite H0.
Qed.

Lemma StrategyUpdate_ok r r0 e t : strategy_event_ok r ->
  @StrategyUpdate_of _ J r0 (JObj (("e"%string, JStr e) :: ("E"%string, JInt t) :: event_fields (P_StrategyUpdate r))) = Some (Ok r).
Proof.
  intros Hok. unfold strategy_event_ok in Hok. destruct_and!.
  unfold StrategyUpdate_of, construct, parse_into, parse_StrategyUpdate, event_fields, strategy_event. parse_step.
  erewrite get_object_ok; [|reflexivity]. cbv beta. do 5 parse_step.
  erewrite (get_code_ok _ _ _ (OpCode_value (su_opCode r))); [|by destruct (su_opCode r)|apply return_OpCode]. by destruct r, r0.
Qed.

Lemma GridUpdate_ok r r0 e t : grid_event_ok r ->
  @GridUpdate_of _ J r0 (JObj (("e"%string, JStr e) :: ("E"%string, JInt t) :: event_fields (P_GridUpdate r))) = Some (Ok r).
Proof.
  intros Hok. unfold grid_event_ok in Hok. destruct_and!.
  unfold GridUpdate_of, construct, parse_into, parse_GridUpdate, event_fields, grid_event. parse_step.
  erewrite get_object_ok; [|reflexivity]. cbv beta. do 9 parse_step. rewrite SE_bind_ret_r. parse_step. by destruct r, r0.
Qed.

Lemma ConditionalOrderReject_ok r r0 e t : in_int64 (cr_timestamp r) = true -> in_int64 (cr_orderID r) = true ->
  @ConditionalOrderReject_of _ J r0 (JObj (("e"%string, JStr e) :: ("E"%string, JInt t) :: event_fields (P_ConditionalOrderReject r))) = Some (Ok r).
Proof.
  intros ??. unfold ConditionalOrderReject_of, construct, parse_into, parse_ConditionalOrderReject, event_fields, reject_event. parse_step.
  erewrite get_object_ok; [|reflexivity]. cbv beta. do 2 parse_step. rewrite SE_bind_ret_r. parse_step. by destruct r, r0.
Qed.

(** ** The loops *)

Lemma readFixed_known o f : fixed_known o -> f = Val (opt_fixed o) -> exists n, o = Some n /\ @readFixed _ J f = Ok n.
Proof.
  intros (n & -> & Hn) ->. exists n. split; [done|]. apply readFixedAs_ok. exists (formatFixed 64 n).
  split; [done|]. apply parse_format; [lia|by apply int64_range].
Qed.

(** Replaces the reading of a known member by its value. *)
Ltac read_known :=
  match goal with
  | H : fixed_known ?o |- context [@readFixed _ _ ?f] =>
      let n := fresh "n" in let E := fresh "E" in let R := fresh "R" in
      destruct (readFixed_known o f H eq_refl) as (n & E & R); rewrite R; clear R H; cbn [mbind result_bind]
  end.

Lemma asset_elem_ok r a0 : asset_ok r -> @asset_elem _ J (Val (asset_json r)) a0 = Ok r.
Proof. intros (? & ? & ?). unfold asset_elem. do 3 read_known. destruct r, a0. cbn in *. by subst. Qed.

Lemma position_elem_ok r p0 mt0 ps0 : position_ok r -> pb_realizedPNL p0 = None ->
  exists mt ps, @position_elem _ J (Val (position_json r)) p0 mt0 ps0 = Ok (r, mt, ps).
Proof.
  intros (? & ? & ? & Hr & ? & ? & [m Hm] & (sd & Hs & Hn)) Hp0. unfold position_elem. do 4 read_known.
  change (assign_string _ mt0) with (wire_MarginType (default MarginType_CROSS (pb_marginType r))). rewrite return_MarginType.
  cbn [mbind result_bind]. read_known.
  change (assign_string _ ps0) with (wire_PositionSide (default PositionSide_BOTH (pb_positionSide r))).
  rewrite Hs. cbn [default]. rewrite return_PositionSide by done. eexists _, _. destruct r, p0. cbn in *. by subst.
Qed.

Lemma margin_elem_ok r p0 ps0 mt0 : margin_ok r -> exists ps mt, @margin_elem _ J (Val (margin_json r)) p0 ps0 mt0 = Ok (r, ps, mt).
Proof.
  intros ((sd & Hs & Hn) & ? & [m Hm] & ? & ? & ? & ?). unfold margin_elem.
  change (assign_string _ ps0) with (wire_PositionSide (default PositionSide_BOTH (mc_positionSide r))).
  rewrite Hs. cbn [default]. rewrite return_PositionSide by done. cbn [mbind result_bind]. read_known.
  change (assign_string _ mt0) with (wire_MarginType (default MarginType_CROSS (mc_marginType r))). rewrite return_MarginType.
  cbn [mbind result_bind]. do 4 read_known. eexists _, _. destruct r, p0. cbn in *. by subst.
Qed.

Lemma balance_loop_ok rs : Forall asset_ok rs -> forall a0 acc,
  @balance_loop _ J (Val <$> (asset_json <$> rs)) a0 acc = Ok (acc ++ rs).
Proof.
  induction 1 as [|r rs Hr _ IH]; intros a0 acc; cbn [fmap list_fmap balance_loop]; [by rewrite app_nil_r|].
  rewrite asset_elem_ok by done. cbn [mbind result_bind]. by rewrite IH, <- app_assoc.
Qed.

Lemma position_loop_ok rs : Forall position_ok rs -> forall p0 mt ps acc, pb_realizedPNL p0 = None ->
  @position_loop _ J (Val <$> (position_json <$> rs)) p0 mt ps acc = Ok (acc ++ rs).
Proof.
  induction 1 as [|r rs Hr _ IH]; intros p0 mt ps acc H0; cbn [fmap list_fmap position_loop]; [by rewrite app_nil_r|].
  destruct (position_elem_ok r p0 mt ps Hr H0) as (mt' & ps' & ->). cbn [mbind result_bind].
  rewrite IH by apply Hr. by rewrite <- app_assoc.
Qed.

Lemma margin_loop_ok rs : Forall margin_ok rs -> forall p0 ps mt acc,
  @margin_loop _ J (Val <$> (margin_json <$> rs)) p0 ps mt acc = Ok (acc ++ rs).
Proof.
  induction 1 as [|r rs Hr _ IH]; intros p0 ps mt acc; cbn [fmap list_fmap margin_loop]; [by rewrite app_nil_r|].
  destruct (margin_elem_ok r p0 ps mt Hr) as (ps' & mt' & ->). cbn [mbind result_bind].
  by rewrite IH, <- app_assoc.
Qed.

Lemma AccountUpdate_ok r pre : payload_ok (P_AccountUpdate r) -> lookup_field pre "a" = Val (JObj (account_event r)) ->
  @AccountUpdate_of _ J (JObj pre) = Ok r.
Proof.
  intros [Ha Hp] El. unfold AccountUpdate_of. cbn [field JV_Json]. rewrite El. cbn [mbind sj_bind get_object JV_Json value result_bind].
  unfold account_event. change (assign_string _ ""%string) with (wire_AccountUpdateType (au_eventType r)).
  rewrite return_AccountUpdateType. cbn [mbind result_bind]. cbn [field JV_Json lookup_field app String.eqb Ascii.eqb Bool.eqb].
  cbn [mbind sj_bind get_array JV_Json value result_bind]. rewrite (balance_loop_ok _ Ha). cbn [mbind result_bind app].
  destruct r as [ty assets positions]. cbn [au_positions au_eventType au_assets] in *.
  destruct positions as [|p ps]; [done|]. cbn -[position_loop fmap position_json].
  change (Val <$> (position_json p :: (position_json <$> ps))) with (Val <$> (position_json <$> (p :: ps))).
  by rewrite (position_loop_ok _ Hp).
Qed.

Lemma MarginCall_ok r e t : payload_ok (P_MarginCall r) ->
  @MarginCall_of _ J (JObj (("e"%string, JStr e) :: ("E"%string, JInt t) :: event_fields (P_MarginCall r))) = Ok r.
Proof.
  intros [Hc Hp]. unfold MarginCall_of.
  assert (@readFixed _ J (Val (JStr (formatFixed 64 (ma_crossWalletBalance r)))) = Ok (ma_crossWalletBalance r)) as Hr.
  { apply readFixedAs_ok. eexists. split; [done|]. apply parse_format; [lia|by apply int64_range]. }
  change (@field _ J (JObj (("e"%string, JStr e) :: ("E"%string, JInt t) :: event_fields (P_MarginCall r))) "cw")
    with (@Val JV (JStr (formatFixed 64 (ma_crossWalletBalance r)))). rewrite Hr. cbn [mbind result_bind].
  cbn -[margin_loop fmap margin_json]. rewrite (margin_loop_ok _ Hp). by destruct r.
Qed.
End Steps.

Lemma event_of_ok texts ev fs t (x : Payload string) p : lookup_field fs "E" = Val (JInt t) -> in_int64 t = true ->
  p = Some (Ok x) -> @event_of _ (JV_Json texts) _ ev (JObj fs) p = Some (Ok (UserDataStream_of ev t x)).
Proof. intros El Ht ->. unfold event_of. cbn. rewrite El. cbn. by rewrite Ht. Qed.

(** ** Parsers that always end

    The steps of a parser never get stuck, so neither do the parsers. *)

Definition total {S A} (m : SE S A) : Prop := forall s, exists r s', m s = Some (r, s').

Section Total.
  Context {V : Type} `{Json V} {double : Type} `{JsonDouble V double} `{JsonIntString V}.

Lemma total_bind {S A B} (m : SE S A) (f : A -> SE S B) : total m -> (forall a, total (f a)) -> total (m ≫= f).
Proof.
  intros Hm Hf s. destruct (Hm s) as ([a|x] & s' & E); unfold mbind, SE_bind; rewrite E; [apply Hf|eauto].
Qed.
Lemma total_lift {S A} (r : result A) : total (S:=S) (lift r).
Proof. intros s. unfold lift. eauto. Qed.
Lemma total_modify {S} (f : S -> S) : total (modify f).
Proof. intros s. unfold modify. eauto. Qed.
Lemma total_get {S} : total (@get_state S).
Proof. intros s. unfold get_state. eauto. Qed.
Lemma total_ret {S A} (a : A) : total (S:=S) (mret a).
Proof. intros s. unfold mret, SE_ret. eauto. Qed.

Lemma total_str {R} f (g : R -> string) set : total (get_str (V:=V) f g set).
Proof. apply total_modify. Qed.
Lemma total_upd {R} (f : R -> R) : total (upd f).
Proof. apply total_modify. Qed.
Lemma total_fixed {R} f (set : R -> Fixed -> R) : total (get_fixed (V:=V) f set).
Proof. apply total_bind; intros; [apply total_lift|apply total_modify]. Qed.
Lemma total_int {R} f (set : R -> Z -> R) : total (get_int (V:=V) f set).
Proof. apply total_bind; intros; [apply total_lift|apply total_modify]. Qed.
Lemma total_flag {R} f (set : R -> bool -> R) : total (get_flag (V:=V) f set).
Proof. apply total_bind; intros; [apply total_lift|apply total_modify]. Qed.
Lemma total_enum {R E} f ret (set : R -> E -> R) : total (get_enum (V:=V) f ret set).
Proof.
  apply total_bind; intros; [apply total_modify|]. apply total_bind; intros; [apply total_get|].
  apply total_bind; intros; [apply total_lift|apply total_modify].
Qed.
Lemma total_code {R E} f ret (set : R -> E -> R) : total (get_code f ret set).
Proof.
  apply total_bind; intros; [apply total_lift|]. apply total_bind; intros; [apply total_lift|apply total_modify].
Qed.

Lemma construct_total {R} (m : SE (R * string) unit) r : total m -> is_Some (construct m r).
Proof.
  intros Hm. unfold construct, parse_into. destruct (Hm (r, ""%string)) as (x & [r' t] & ->). by eexists.
Qed.
End Total.

#[export] Hint Resolve total_upd total_str total_fixed total_int total_flag total_enum total_code total_lift total_modify total_get total_ret : total.

(** Walks through the binds of a parser. *)
Ltac total := repeat (first [solve [auto with total nocore] | apply total_bind; [auto with total nocore|intros ?]]).

Section Events.
  Context {V : Type} `{Json V} {double : Type} `{JsonDouble V double} `{JsonIntString V}.

(** The event says which class its payload has, and casting to it is defined and copies
    the payload. *)
Definition well_cast (u : UserDataStream double) (x : Payload double) : Prop :=
  returnPtr u = Some x /\
  match ud_event u, x with
  | EventType_ACCOUNT_UPDATE, P_AccountUpdate c => forall out, cast_AccountUpdate (returnPtr u) out = Some c
  | EventType_MARGIN_CALL, P_MarginCall c => forall out, cast_MarginCall (returnPtr u) out = Some c
  | EventType_ORDER_UPDATE, P_OrderUpdate c => forall out, cast_OrderUpdate (returnPtr u) out = Some c
  | EventType_TRADE_LITE, P_TradeLite c => forall out, cast_TradeLite (returnPtr u) out = Some c
  | EventType_ACCOUNT_CONFIG_UPDATE, P_AccountConfigUpdate c => forall out, cast_AccountConfigUpdate (returnPtr u) out = Some c
  | EventType_STRATEGY_UPDATE, P_StrategyUpdate c => forall out, cast_StrategyUpdate (returnPtr u) out = Some c
  | EventType_GRID_UPDATE, P_GridUpdate c => forall out, cast_GridUpdate (returnPtr u) out = Some c
  | EventType_CONDITIONAL_ORDER_REJECT, P_ConditionalOrderReject c =>
      forall out, cast_ConditionalOrderReject (returnPtr u) out = Some c
  | _, _ => False
  end.

Definition event_typed (r : option (result (UserDataStream double))) : Prop :=
  exists r', r = Some r' /\ forall u, r' = Ok u -> exists x, well_cast u x.

Lemma event_of_typed {A} (ev : EventType) (doc : V) (P : A -> Payload double) (p : option (result A)) : is_Some p ->
  (forall c t, well_cast (UserDataStream_of ev t (P c)) (P c)) -> event_typed (event_of ev doc (as_payload P p)).
Proof.
  intros [[c|x] ->] Hw; unfold event_typed, event_of; destruct (value _) as [t|y]; eexists; (split; [done|]); intros u [= <-].
  eexists. apply Hw.
Qed.

Lemma events_typed (g : Garbage double) (doc : V) :
  event_typed (accountUpdate doc) /\ event_typed (marginCallUpdate doc) /\ event_typed (orderUpdate g doc) /\
  event_typed (tradeLite g doc) /\ event_typed (accountConfigUpdate g doc) /\ event_typed (strategyUpdate g doc) /\
  event_typed (gridUpdate g doc) /\ event_typed (conditionalOrderReject g doc).
Proof.
  split_and!; apply event_of_typed; try (intros c t; split; [done|by intros out; destruct c, out]); try done;
    apply construct_total; unfold parse_OrderUpdate, parse_TradeLite, parse_AccountConfigUpdate, parse_StrategyUpdate, parse_GridUpdate,
      parse_ConditionalOrderReject; total.
  - unfold get_activation. total. case_match; total.
  - destruct (field doc "ac") as [v|[]]; total.
Qed.
End Events.

(** ** Properties *)

Definition event_type (x : Payload string) : EventType :=
  match x with
  | P_AccountUpdate _ => EventType_ACCOUNT_UPDATE | P_MarginCall _ => EventType_MARGIN_CALL
  | P_OrderUpdate _ => EventType_ORDER_UPDATE | P_TradeLite _ => EventType_TRADE_LITE
  | P_AccountConfigUpdate _ => EventType_ACCOUNT_CONFIG_UPDATE | P_StrategyUpdate _ => EventType_STRATEGY_UPDATE
  | P_GridUpdate _ => EventType_GRID_UPDATE | P_ConditionalOrderReject _ => EventType_CONDITIONAL_ORDER_REJECT
  end.

(** The event a message of the exchange becomes. *)
Lemma event_parsed texts g json t x : payload_ok x -> in_int64 t = true -> lookup_field texts json = Val (event_doc t x) ->
  @parseUserDataStream _ (JV_Json texts) _ _ _ g json = Some (Ok (UserDataStream_of (event_type x) t x)).
Proof.
  intros Hok Ht El. unfold parseUserDataStream. cbn [iterate JV_Json]. rewrite El. unfold event_doc.
  destruct x; cbn [mbind sj_bind field JV_Json lookup_field String.eqb Ascii.eqb Bool.eqb event_name];
    unfold assign_string; cbn [mbind sj_bind get_string JV_Json value]; apply event_of_ok; try done.
  - by rewrite (AccountUpdate_ok texts x).
  - by rewrite (MarginCall_ok texts x).
  - by rewrite (OrderUpdate_ok texts x).
  - by rewrite (TradeLite_ok texts x).
  - by rewrite (AccountConfigUpdate_ok texts x).
  - by rewrite (StrategyUpdate_ok texts x).
  - by rewrite (GridUpdate_ok texts x).
  - by rewrite (ConditionalOrderReject_ok texts x) by apply Hok.
Qed.

Lemma event_payload t (x : Payload string) : returnPtr (UserDataStream_of (event_type x) t x) = Some x.
Proof. by destruct x. Qed.

(** No event in a text that does not parse: the empty one. *)
Lemma event_unparsed texts g json : (forall v, lookup_field texts json <> Val v) ->
  @parseUserDataStream _ (JV_Json texts) _ _ _ g json = Some (Ok (UserDataStream_empty (double := string))).
Proof. intros Hn. unfold parseUserDataStream. cbn [iterate JV_Json]. destruct (lookup_field texts json) as [v|e]; [by destruct (Hn v)|done]. Qed.

(** Reading back: from the message the exchange sends for any of the eight kinds of
    account event, [parseUserDataStream] makes an event with its time, whose [returnPtr]
    is the payload with every member the message states (the realized profit of a
    position is on the wire and never read); for an account update with and without
    positions, for an order with and without the trailing-stop members, for a change of
    the leverage or of the asset mode. *)
Theorem user_event_roundtrip texts g json t x : payload_ok x -> in_int64 t = true ->
  lookup_field texts json = Val (event_doc t x) ->
  exists u, @parseUserDataStream _ (JV_Json texts) _ _ _ g json = Some (Ok u) /\
    ud_timestamp u = t /\ returnPtr u = Some x.
Proof.
  intros Hok Ht El. eexists. split; [by apply event_parsed|]. split; [done|apply event_payload].
Qed.

(** C30 Whatever text arrives, parsing it ends, and what does not throw is either the
    empty UNKNOWN event, whose [returnPtr] is null, or an event whose type names the
    class of the object [returnPtr] points to: the cast to that class is defined and
    copies every member, whatever the target held. *)
Theorem user_event_typed {V} `{Json V} {double} `{JsonDouble V double} `{JsonIntString V} (g : Garbage double) json :
  exists r, parseUserDataStream (V:=V) g json = Some r /\
    forall u : UserDataStream double, r = Ok u -> (u = UserDataStream_empty /\ returnPtr u = None) \/ exists x, well_cast u x.
Proof.
  assert (forall r, event_typed r -> exists r', r = Some r' /\
    forall u : UserDataStream double, r' = Ok u -> (u = UserDataStream_empty /\ returnPtr u = None) \/ exists x, well_cast u x) as Hw.
  { intros r (r' & -> & Hr). exists r'. split; [done|]. intros u ->. right. by apply Hr. }
  assert (forall f : V -> option (result (UserDataStream double)), (forall d, event_typed (f d)) ->
    event_typed match value (iterate json) with Ok d => f d | Throw x => Some (Throw x) end) as Hd.
  { intros f Hf. destruct (value (iterate json)); [apply Hf|]. eexists. by split. }
  unfold parseUserDataStream. destruct (returnEventType _); try (apply Hw, Hd; intros d; apply (events_typed g d));
    eexists; (split; [done|]); intros u [= <-]; by left.
Qed.

(** ** A concrete message *)

Definition demo_order : OrderUpdate string := Build_OrderUpdate "BTCUSDT" "TEST" 100000 0 0 710304000000 8886774 0 0 0 "USDT" 0
  1568879465650 0 991000000 false false OrderSide_SELL OrderType_TRAILING_STOP_MARKET TimeInForce_GTC ExecutionType_NEW OrderStatus_NEW
  WorkingType_CONTRACT_PRICE OrderType_TRAILING_STOP_MARKET PositionSide_LONG STPMode_EXPIRE_TAKER PriceMatchMode_OPPONENT
  ExpireReason_NONE false 747689000000 "5.0" false 0 0.

Definition demo_garbage : Garbage string := Build_Garbage (set_ou_pair demo_order "?")
  (Build_TradeLite 0 "" "" 0 0 false OrderSide_NONE 0 0 0 0) 0
  (Build_StrategyUpdate 0 "" 0 StrategyType_GRID StrategyStatus_NEW 0 OpCode_UPDATED)
  (Build_GridUpdate 0 0 StrategyType_GRID StrategyStatus_NEW "" 0 0 0 0 0 0) (Build_ConditionalOrderReject 0 "" 0 "").

Lemma user_event_roundtrip_witness : exists u,
  @parseUserDataStream _ (JV_Json [("msg"%string, event_doc 1568879465651 (P_OrderUpdate demo_order))]) _ _ _ demo_garbage "msg" = Some (Ok u) /\
    ud_timestamp u = 1568879465651 /\ returnPtr u = Some (P_OrderUpdate demo_order).
Proof.
  apply user_event_roundtrip; [|reflexivity|reflexivity].
  repeat split; try reflexivity. left. reflexivity.
Defined.
