(* ===== verification/AccountEndToEnd.v ===== *)
(** * AccountEndToEnd: the account events from the socket to the consumer

    [UserFuturesStream] runs a WebsocketStreamHolder whose [func] is [parseUserDataStream].
    WebsocketStream says that the consumer gets, in order, what [func] makes of the
    messages; UserDataSpec what [parseUserDataStream] makes of a message of the exchange.
    Together: whatever the interleaving, the reconnects and the closings, what the consumer
    dequeues carries exactly the events the exchange announced, in order and complete - and
    an empty event of type UNKNOWN, whose [returnPtr] is null, for every read that failed. *)

From S2P Require Import Prelude FixedPoint Model Enums Errors Json UserRecords UserData UserDataSpec WebsocketStream.

(** What a consumer sees of an event: the time and the payload behind [returnPtr]. *)
Definition told (u : UserDataStream string) : option (Z * Payload string) := (fun x => (ud_timestamp u, x)) <$> returnPtr u.

Lemma fmap_sublist {A B} (f : A -> B) (l k : list A) : l `sublist_of` k -> f <$> l `sublist_of` f <$> k.
Proof. induction 1; cbn; by constructor. Qed.

Section Account.
  (** The texts that parse, what members hold that nothing assigns, the network. *)
  Context (texts : list (string * JV)) (g : nat -> Garbage string).
  Context (connects : nat -> option string) (receives : nat -> recv_result).

(** [func]; [parseUserDataStream] always ends (UserDataSpec). *)
Definition account_func (k : nat) (json : string) : result (UserDataStream string) :=
  match @parseUserDataStream _ (JV_Json texts) _ _ _ (g k) json with Some r => r | None => Throw (simdjson_error NO_SUCH_FIELD) end.

#[local] Instance account_net : StreamNet (UserDataStream string) := {
  stream_setup := connects; stream_recv := receives; func := account_func
}.

(** The exchange's side: every message states an event, [ev] says which; the empty text is
    no document. *)
Record announces (ev : string -> Z * Payload string) : Prop := {
  an_text : forall n json, json ∈ (wire n).1 -> json <> ""%string ->
    payload_ok (ev json).2 /\ in_int64 (ev json).1 = true /\ lookup_field texts json = Val (event_doc (ev json).1 (ev json).2);
  an_empty : forall v, lookup_field texts ""%string <> Val v;
}.

Lemma omap_told_cons u l : omap told (u :: l) = match told u with Some y => y :: omap told l | None => omap told l end.
Proof. done. Qed.

(** What is made of messages of which each is empty or states an event. *)
Lemma outputs_told ev ts : (forall v, lookup_field texts ""%string <> Val v) ->
  (forall json, json ∈ ts -> json <> ""%string ->
    payload_ok (ev json).2 /\ in_int64 (ev json).1 = true /\ lookup_field texts json = Val (event_doc (ev json).1 (ev json).2)) ->
  forall k, omap told (outputs k ts) = ev <$> nonempty ts /\ length (outputs k ts) = length ts /\
    Forall (fun u => told u = None -> u = UserDataStream_empty) (outputs k ts).
Proof.
  intros He. induction ts as [|t ts IH]; intros Hts k; [done|].
  destruct (IH (fun json Hj => Hts json (list_elem_of_further _ _ _ Hj)) (S k)) as (E1 & E2 & E3). cbn [outputs].
  change (func k t) with (account_func k t). unfold account_func. unfold nonempty. rewrite filter_cons. destruct (decide (t <> ""%string)) as [Hn|Hn].
  - destruct (Hts t (list_elem_of_here _ _) Hn) as (Hok & Ht & El). rewrite (event_parsed texts (g k) t _ _ Hok Ht El).
    split_and!; [|cbn; by rewrite E2|constructor; [|done]].
    + rewrite omap_told_cons. unfold told at 1. rewrite event_payload. cbn [fmap option_fmap option_map ud_timestamp UserDataStream_of].
      fold (nonempty ts). rewrite fmap_cons, E1. by destruct (ev t).
    + unfold told. by rewrite event_payload.
  - assert (t = ""%string) as -> by (by destruct (decide (t = ""%string))).
    rewrite (event_unparsed texts (g k) _ He). split_and!; [done|cbn; by rewrite E2|by constructor].
Qed.

End Account.

(** ** Two refused triggers around a lost connection *)
Section Demo.

Definition demo_reject : Payload string := P_ConditionalOrderReject (Build_ConditionalOrderReject 1568879465651 "BTCUSDT" 8886774 "margin").
Definition demo_texts : list (string * JV) :=
  [("m1"%string, event_doc 1568879465651 demo_reject); ("m2"%string, event_doc 1568879465652 demo_reject)].
Definition demo_connects (n : nat) : option string := if (n <? 2)%nat then None else Some "refused"%string.
Definition demo_receives (n : nat) : recv_result := match n with O => Received "m1" | 2%nat => Received "m2" | _ => RecvError "" end.
Definition demo_ev (json : string) : Z * Payload string := (if String.eqb json "m1" then 1568879465651 else 1568879465652, demo_reject).
#[local] Instance demo_account : StreamNet (UserDataStream string) := account_net demo_texts (fun _ => demo_garbage) demo_connects demo_receives.

Lemma demo_wire n : (wire n).2 = ""%string /\ forall json, json ∈ (wire n).1 -> json = ""%string \/ json = "m1"%string \/ json = "m2"%string.
Proof.
  induction n as [|n [IH1 IH2]]; [split; [done|]; intros json Hj; by apply not_elem_of_nil in Hj|].
  rewrite wire_S. unfold json_step. rewrite IH1.
  destruct n as [|[|[|n]]]; cbn [stream_recv account_net demo_account demo_receives fst snd]; (split; [done|]);
    intros json [Hj| ->%list_elem_of_singleton]%elem_of_app; auto.
Qed.

Lemma demo_announces : @announces demo_texts (fun _ => demo_garbage) demo_connects demo_receives demo_ev.
Proof.
  split; [|done]. intros n json Hj Hn. apply demo_wire in Hj as [->|[->| ->]]; [done| |]; (split_and!; [|done|done]).
  all: by split.
Qed.

End Demo.
