(* ===== verification/MarketStreams.v ===== *)
(** * MarketStreams: the streams a user opens

    Models the parsers [parseTradeEvent] and [parseMarkPrice] of
    [src/api/common/factory/], the stream classes of [src/api/futures/streams/] and
    [User::FuturesStream], [User::SpotStream] of [src/api/user/streams/], over
    WebsocketStream and StreamHolder.

    The constructors watch the thread they have started through [getStatus] and restart
    it once; [sees] is [getStatus] while that thread runs, [reest] the part of
    [reEstablishExecution] after the join. A constructor's result is a function of what
    it saw. The [FetchError*] the first [getStatus] returned is freed by a restart, and
    using it afterwards is undefined behaviour ([None]). *)

From S2P Require Import Prelude FixedPoint Model Json Errors Backoff RequestParameter Manager StreamHolder FuturesRest FuturesRestSpec OrderResponses WebsocketStream.

(** ** The parsers of the market streams *)

Section Factories.
  Context {V : Type} `{Json V} {double : Type} `{JsonDouble V double}.

(** [iterate] is a [simdjson_result]: its error surfaces at the first field. *)
Definition parseTradeEvent (json : string) : result TradeEvent :=
  let g k := iterate json ≫= fun doc => field doc k in
  timestamp ← value (g "E"%string ≫= get_int64);
  maker ← value (g "m"%string ≫= get_bool);
  price ← readFixed (g "p"%string);
  volume ← readFixed (g "q"%string);
  mret {| teTimestamp := timestamp; tePrice := price; teVolume := volume; teMaker := maker |}.

Definition parseMarkPrice (json : string) : result (MarkPrice double) :=
  let g k := iterate json ≫= fun doc => field doc k in
  timestamp ← value (g "E"%string ≫= get_int64);
  mark ← readFixed (g "p"%string);
  index ← readFixed (g "i"%string);
  funding ← value (g "r"%string ≫= get_double_in_string);
  fundingTime ← value (g "T"%string ≫= get_int64);
  mret {| mpTimestamp := timestamp; indexPrice := index; markPrice := mark; fundingRate := funding; fundingTime := fundingTime |}.
End Factories.

Definition trade_target (pair : string) : string := ("/public/ws/" +:+ pair +:+ "@trade")%string.
Definition markPrice_target (pair : string) : string := ("/market/ws/" +:+ pair +:+ "@markPrice@1s")%string.

(** ** What a constructor sees *)

Section Observe.
  Context {Data : Type} `{StreamNet Data}.

Notation Status := (ConnectionStatus * option FetchError)%type.

(** The thread alone moves. *)
Definition tsteps : WebsocketStream.Holder Data -> WebsocketStream.Holder Data -> Prop :=
  rtc (fun s s' => thread_step s = Some s').

(** [getStatus], one load after the other, ending in state [s']. *)
Definition sees (s : WebsocketStream.Holder Data) (r : Status) (s' : WebsocketStream.Holder Data) : Prop :=
  exists s1 s2, tsteps s s1 /\ connecting s1 = false /\ tsteps s1 s2 /\
    if negb (running s2) then tsteps s2 s' /\ r = (ConnectionStatus_CLOSED, lastError s') else
    exists s3, tsteps s2 s3 /\
      if negb (WebsocketStream.connectionAlive s3) then tsteps s3 s' /\ r = (ConnectionStatus_FAIL, lastError s')
      else s' = s3 /\ r = (ConnectionStatus_SUCCESS, None).

(** [closeConnection]; the read it ends with returns at once, as the flag is clear. *)
Definition closeConnection (s : WebsocketStream.Holder Data) : WebsocketStream.Holder Data :=
  close_signal (close_running (close_alive s)).

(** The rest of [reEstablishExecution], up to the start of the new thread. *)
Inductive reest : WebsocketStream.Holder Data -> WebsocketStream.Holder Data -> Prop :=
  | reest_end s : pc s = TStart \/ pc s = TDone -> reest s s
  | reest_step s s' s'' : pc s <> TStart -> pc s <> TDone -> thread_step s = Some s' -> reest s' s'' -> reest s s''.

(** [reEstablishExecution] returns [st]; the new thread may run before the last load, and
    may even have [lost] its connection by then. *)
Inductive reEstablishExecution (s : WebsocketStream.Holder Data) : bool -> ConnectionStatus -> WebsocketStream.Holder Data -> Prop :=
  | reestablish_up s1 s2 s3 s4 : tsteps (closeConnection s) s1 -> restart s1 = Some s2 -> reest s2 s3 -> pc s3 = TStart ->
      tsteps s3 s4 -> WebsocketStream.connectionAlive s4 = true -> reEstablishExecution s false ConnectionStatus_SUCCESS s4
  | reestablish_lost s1 s2 s3 s4 : tsteps (closeConnection s) s1 -> restart s1 = Some s2 -> reest s2 s3 -> pc s3 = TStart ->
      tsteps s3 s4 -> WebsocketStream.connectionAlive s4 = false -> reEstablishExecution s true ConnectionStatus_FAIL s4
  | reestablish_down s1 s2 s3 : tsteps (closeConnection s) s1 -> restart s1 = Some s2 -> reest s2 s3 -> pc s3 = TDone ->
      reEstablishExecution s false ConnectionStatus_FAIL s3.

(** What one construction sees: the first status; after a FAIL what the restart
    returned; after its failure the status again. *)
Record seen := { first : Status; again : ConnectionStatus; second : Status }.

Inductive observed : bool -> seen -> WebsocketStream.Holder Data -> Prop :=
  | observed_first r s st snd : sees WebsocketStream.new_holder r s -> r.1 <> ConnectionStatus_FAIL ->
      observed false {| first := r; again := st; second := snd |} s
  | observed_again r s lost st s' snd : sees WebsocketStream.new_holder r s -> r.1 = ConnectionStatus_FAIL ->
      reEstablishExecution s lost st s' -> st = ConnectionStatus_SUCCESS ->
      observed lost {| first := r; again := st; second := snd |} s'
  | observed_second r s lost st s' snd s'' : sees WebsocketStream.new_holder r s -> r.1 = ConnectionStatus_FAIL ->
      reEstablishExecution s lost st s' -> st <> ConnectionStatus_SUCCESS -> sees s' snd s'' ->
      observed lost {| first := r; again := st; second := snd |} s''.
End Observe.

(** ** [TradeEventStream] and [MarkPriceStream]: the same class but for the data *)

Record MarketStream := {
  ms_connected : bool;
  ms_connecting : bool;
  ms_lastError : option FetchError;
  ms_lastStatus : ConnectionStatus;
}.

(** [std::make_unique<FetchError>(err->error, err->getErrorMsg())]. *)
Definition copy_error (e : FetchError) : FetchError := FetchError_msg (error e) (getErrorMsg e).

(** [retryErr ? retryErr : err], [err] being freed by then. *)
Definition adopt (retryErr err : option FetchError) : option (option FetchError) :=
  match retryErr, err with
  | Some e, _ => Some (Some (copy_error e))
  | None, None => Some None
  | None, Some _ => None
  end.

(** The constructor; [made] is the exception of [make_unique], if it threw. *)
Definition new_MarketStream (made : option string) (o : seen) : option MarketStream :=
  match made with
  | Some what => Some {| ms_connected := false; ms_connecting := false;
                         ms_lastError := Some (FetchError_msg APIError_BOOST_ERROR what); ms_lastStatus := ConnectionStatus_FAIL |}
  | None =>
      match (first o).1, again o with
      | ConnectionStatus_SUCCESS, _ | ConnectionStatus_FAIL, ConnectionStatus_SUCCESS =>
          Some {| ms_connected := true; ms_connecting := false; ms_lastError := None; ms_lastStatus := ConnectionStatus_FAIL |}
      | ConnectionStatus_CLOSED, _ =>
          Some {| ms_connected := false; ms_connecting := false; ms_lastError := copy_error <$> (first o).2;
                  ms_lastStatus := ConnectionStatus_CLOSED |}
      | ConnectionStatus_FAIL, _ =>
          src ← adopt (second o).2 (first o).2;
          Some {| ms_connected := false; ms_connecting := false; ms_lastError := src; ms_lastStatus := (second o).1 |}
      end
  end.

(** [MarkPriceStream]'s constructor. *)
Definition new_MarkPriceStream (made : option string) (o : seen) : option MarketStream := new_MarketStream made o.

Definition market_getStatus (m : MarketStream) : option (ConnectionStatus * option FetchError) :=
  if ms_connecting m then None else
  if negb (ms_connected m) then Some (ms_lastStatus m, ms_lastError m) else Some (ConnectionStatus_SUCCESS, None).

(** ** [User::FuturesStream] *)

Section User.
  Context {V : Type} `{Json V} (error_message : sj_error -> string) `{Net}.

Record FuturesStream := {
  fs_rest : StreamHolder.Holder;
  fs_listenKey : string;
  fs_listenKeyPresent : bool;
  fs_connectionAlive : bool;
  fs_connecting : bool;
  fs_lastError : option FetchError;
  fs_lastStatus : ConnectionStatus;
  fs_target : option string;       (** of the websocket, once it is opened *)
}.

Definition listenKeyParameter (APIKey : string) : RequestParameter :=
  RequestParameter_of "X-MBX-APIKEY" APIKey.

Definition listenKey_target : string := "/fapi/v1/listenKey".

(** [getListenKey] once the response is there: the error, the key and whether it was
    flagged as present. A response without the field leaves the key as it was. *)
Definition listenKey_response (d : StreamData) (key : string) (present : bool) : FetchError * string * bool :=
  match accept error_message d with
  | inl err => (err, key, present)
  | inr doc => (FetchError_of APIError_SUCCESS, assign_string (field doc "listenKey") key, true)
  end.

Definition getListenKey (host APIKey : string) (s : FuturesStream) : FuturesStream * FetchError :=
  let '(h, d) := sendRequest_params host (fs_rest s) listenKey_target "POST" true false [listenKeyParameter APIKey] in
  let '(err, key, present) := listenKey_response d (fs_listenKey s) (fs_listenKeyPresent s) in
  ({| fs_rest := h; fs_listenKey := key; fs_listenKeyPresent := present; fs_connectionAlive := fs_connectionAlive s;
      fs_connecting := fs_connecting s; fs_lastError := fs_lastError s; fs_lastStatus := fs_lastStatus s; fs_target := fs_target s |}, err).

(** An empty or unparseable answer is a success. *)
Definition delete_response (d : StreamData) : FetchError :=
  if negb (ok d) then FetchError_msg APIError_BOOST_ERROR (default "" (ec d))%string else
  match iterate (string_ d) with
  | Val doc => let err := getErrorFromDocument doc in if getError err then err else FetchError_of APIError_SUCCESS
  | Err _ => FetchError_of APIError_SUCCESS
  end.

Definition deleteListenKey (host APIKey : string) (s : FuturesStream) : FuturesStream * FetchError :=
  let '(h, d) := sendRequest_params host (fs_rest s) listenKey_target "DELETE" true false [listenKeyParameter APIKey] in
  ({| fs_rest := h; fs_listenKey := fs_listenKey s; fs_listenKeyPresent := fs_listenKeyPresent s; fs_connectionAlive := fs_connectionAlive s;
      fs_connecting := fs_connecting s; fs_lastError := fs_lastError s; fs_lastStatus := fs_lastStatus s; fs_target := fs_target s |},
   delete_response d).

Definition fs_finish (s : FuturesStream) (alive : bool) (e : option FetchError) (st : ConnectionStatus) (tgt : option string) : FuturesStream :=
  {| fs_rest := fs_rest s; fs_listenKey := fs_listenKey s; fs_listenKeyPresent := fs_listenKeyPresent s; fs_connectionAlive := alive;
     fs_connecting := false; fs_lastError := e; fs_lastStatus := st; fs_target := tgt |}.

(** The constructor; [o] is what it sees of the websocket, if it opens one. *)
Definition new_FuturesStream (host APIKey : string) (h : StreamHolder.Holder) (o : seen) : option FuturesStream :=
  let s0 := {| fs_rest := h; fs_listenKey := ""; fs_listenKeyPresent := false; fs_connectionAlive := false; fs_connecting := true;
               fs_lastError := None; fs_lastStatus := ConnectionStatus_FAIL; fs_target := None |} in
  let '(s, err) := getListenKey host APIKey s0 in
  if getError err then Some (fs_finish s false (Some err) ConnectionStatus_FAIL None) else
  if String.eqb (fs_listenKey s) "" then
    Some (fs_finish s false (Some (FetchError_msg APIError_BAD_FIELD "Listen key could not be retrived")) ConnectionStatus_FAIL None)
  else
    let tgt := Some ("/private/ws/" +:+ fs_listenKey s)%string in
    match (first o).1, again o with
    | ConnectionStatus_CLOSED, _ => Some (fs_finish s false (copy_error <$> (first o).2) ConnectionStatus_CLOSED tgt)
    | ConnectionStatus_SUCCESS, _ => Some (fs_finish s true None ConnectionStatus_FAIL tgt)
    | ConnectionStatus_FAIL, ConnectionStatus_SUCCESS => Some (fs_finish s false None ConnectionStatus_FAIL tgt)
    | ConnectionStatus_FAIL, _ =>
        src ← adopt (second o).2 (first o).2;
        Some (fs_finish s false src (second o).1 tgt)
    end.

Definition user_getStatus (s : FuturesStream) : option (ConnectionStatus * option FetchError) :=
  if fs_connecting s then None else
  if negb (fs_listenKeyPresent s) || negb (fs_connectionAlive s) then Some (fs_lastStatus s, fs_lastError s)
  else Some (ConnectionStatus_SUCCESS, None).

(** Constructed from the manager: without an API key it throws before anything connects. *)
Definition FuturesStream_of (m : APIManager) (h : StreamHolder.Holder) (o : seen) : result (option FuturesStream) :=
  k ← requireAPIKey (credentials m) "User::FuturesStream"; mret (new_FuturesStream hostFutures k h o).

(** [User::SpotStream]: a connection and a listen key; no stream is opened. *)
Record SpotStream := { sp_APIKey : string; sp_rest : StreamHolder.Holder; sp_listenKey : string }.
Definition new_SpotStream (m : APIManager) (h : StreamHolder.Holder) : result SpotStream :=
  k ← requireAPIKey (credentials m) "User::SpotStream"; mret {| sp_APIKey := k; sp_rest := h; sp_listenKey := "" |}.

(** [User::SpotStream::getListenKey]: a missing field is an error there. *)
Definition spot_listenKey_response (d : StreamData) (key : string) : FetchError * string :=
  match accept error_message d with
  | inl err => (err, key)
  | inr doc =>
      match field doc "listenKey" ≫= get_string with
      | Val k => (FetchError_of APIError_SUCCESS, k)
      | Err ec => (FetchError_msg APIError_BAD_FIELD ("Failed to parse a field. error: " +:+ error_message ec)%string, key)
      end
  end.

Definition spot_getListenKey (host APIKey : string) (h : StreamHolder.Holder) (key : string) : StreamHolder.Holder * (FetchError * string) :=
  let '(h', d) := sendRequest_params host h listenKey_target "POST" true false [listenKeyParameter APIKey] in
  (h', spot_listenKey_response d key).
End User.

(** ** What the constructors can see *)

Section Facts.
  Context {Data : Type} `{StreamNet Data}.
  Implicit Types s : WebsocketStream.Holder Data.

Definition boost_reason (e : option FetchError) : Prop := exists what, e = Some (FetchError_msg APIError_BOOST_ERROR what).

Lemma tsteps_reachable s s' : reachable ByRing s -> tsteps s s' -> reachable ByRing s'.
Proof. intros Hr. induction 1 as [|a b c Hab _ IH]; [done|]. apply IH. eapply rtc_r; [done|]. by apply step_thread. Qed.

Lemma thread_step_stopped s s' : thread_step s = Some s' -> stopped s' = stopped s.
Proof.
  assert (forall t c st, stopped (backoff_return t c st) = stopped (Data:=Data) t) as Hb by (intros t [] []; done).
  unfold thread_step. destruct (pc s); intros; simplify_eq; try done.
  - destruct (setup_end s) as [s1 st] eqn:E. simplify_eq.
    destruct (setup_end_facts s s1 st E) as (_ & _ & _ & <- & _). unfold setup_return. destruct st, retry; try case_match; auto.
  - destruct (running s); auto.
  - destruct (running s); auto.
  - unfold getLatestMessage in *. destruct (WebsocketStream.connectionAlive s); [|by simplify_eq/=].
    destruct (stream_recv _) as [| |? []|]; by simplify_eq/=.
  - by destruct (_ =? _)%nat.
  - destruct (_ <? _)%nat; by simplify_eq.
Qed.

Lemma tsteps_stopped s s' : tsteps s s' -> stopped s' = stopped s.
Proof. induction 1 as [|a b c Hab _ IH]; [done|]. rewrite IH. by apply thread_step_stopped. Qed.

Lemma tsteps_done s s' : pc s = TDone -> tsteps s s' -> s' = s.
Proof. intros Hp Ht. destruct Ht as [|a b c Hab _]; [done|]. unfold thread_step in Hab. by rewrite Hp in Hab. Qed.

Lemma done_reason s : reachable ByRing s -> stopped s = false -> pc s = TDone -> running s = false /\ boost_reason (lastError s).
Proof.
  intros Hr Hst Hp. destruct (exit_inv_reachable ByRing s Hr) as [_ _ He].
  destruct (He Hp) as [Hrun [|[_ (w & _ & Hw)]]]; [congruence|]. split; [done|]. by exists w.
Qed.

Lemma not_running_reason s s' : reachable ByRing s -> stopped s = false -> running s = false -> tsteps s s' -> boost_reason (lastError s').
Proof.
  intros Hr Hst Hrun Ht. destruct (exit_inv_reachable ByRing s Hr) as [He _ _].
  assert (pc s = TDone) as Hp.
  { destruct (pc s) eqn:Ep; [rewrite He in Hrun by done; done..|done]. }
  rewrite (tsteps_done s s' Hp Ht). by apply done_reason.
Qed.

Lemma sees_closed s r s' : reachable ByRing s -> stopped s = false -> sees s r s' -> r.1 = ConnectionStatus_CLOSED -> boost_reason r.2.
Proof.
  intros Hr Hst (s1 & s2 & H1 & _ & H2 & Hs) Hc.
  assert (reachable ByRing s2) as Hr2 by (eapply tsteps_reachable; [|done]; by eapply tsteps_reachable).
  assert (stopped s2 = false) as Hst2 by (by rewrite (tsteps_stopped s1 s2 H2), (tsteps_stopped s s1 H1)).
  destruct (running s2) eqn:E; cbn [negb] in Hs.
  - destruct Hs as (s3 & _ & Hs). destruct (WebsocketStream.connectionAlive s3); cbn [negb] in Hs; destruct Hs as [_ ->]; done.
  - destruct Hs as [Ht ->]. by apply (not_running_reason s2).
Qed.

Lemma sees_done s r s' : reachable ByRing s -> stopped s = false -> pc s = TDone -> sees s r s' ->
  r.1 = ConnectionStatus_CLOSED /\ boost_reason r.2.
Proof.
  intros Hr Hst Hp Hs. assert (r.1 = ConnectionStatus_CLOSED) as Hc; [|split; [done|by eapply sees_closed]].
  destruct Hs as (s1 & s2 & H1 & _ & H2 & Hs). rewrite (tsteps_done _ _ Hp H1) in H2. rewrite (tsteps_done _ _ Hp H2) in Hs.
  destruct (done_reason s Hr Hst Hp) as [Hrun _]. rewrite Hrun in Hs. by destruct Hs as [_ ->].
Qed.

Lemma reest_tsteps s s' : reest s s' -> tsteps s s'.
Proof. induction 1 as [|s s' s'' _ _ Hs _ IH]; [apply rtc_refl|]. by eapply rtc_l. Qed.

Lemma reestablish_facts s lost st s' : reachable ByRing s -> reEstablishExecution s lost st s' ->
  reachable ByRing s' /\ stopped s' = false /\ (lost = false -> st <> ConnectionStatus_SUCCESS -> pc s' = TDone).
Proof.
  intros Hr Hre.
  assert (reachable ByRing (closeConnection s)) as Hc.
  { eapply rtc_r; [eapply rtc_r; [eapply rtc_r; [exact Hr|]|]|]; [apply step_close_alive|apply step_close_running|apply step_close_signal]. }
  assert (forall s1 s2 s3, tsteps (closeConnection s) s1 -> restart s1 = Some s2 -> tsteps s2 s3 -> reachable ByRing s3 /\ stopped s3 = false) as Hk.
  { intros s1 s2 s3 H1 H2 H3. assert (reachable ByRing s2) as Hr2.
    { eapply rtc_r; [by eapply tsteps_reachable|]. by apply step_restart. }
    split; [by eapply tsteps_reachable|]. rewrite (tsteps_stopped s2 s3 H3). unfold restart in H2. by destruct (pc s1); simplify_eq. }
  destruct Hre as [s1 s2 s3 s4 H1 H2 H3 _ H4 _|s1 s2 s3 s4 H1 H2 H3 _ H4 _|s1 s2 s3 H1 H2 H3 H4];
    pose proof (reest_tsteps _ _ H3) as H3'.
  - destruct (Hk s1 s2 s4 H1 H2) as [??]; [by etrans|]. by split_and!.
  - destruct (Hk s1 s2 s4 H1 H2) as [??]; [by etrans|]. by split_and!.
  - by destruct (Hk s1 s2 s3 H1 H2 H3').
Qed.

(** A construction that is not disturbed by a loss right after its restart. *)
Lemma observed_cases o s : observed false o s ->
  (first o).1 = ConnectionStatus_SUCCESS \/
  ((first o).1 = ConnectionStatus_CLOSED /\ boost_reason (first o).2) \/
  ((first o).1 = ConnectionStatus_FAIL /\ again o = ConnectionStatus_SUCCESS) \/
  ((first o).1 = ConnectionStatus_FAIL /\ again o <> ConnectionStatus_SUCCESS /\
   (second o).1 = ConnectionStatus_CLOSED /\ boost_reason (second o).2).
Proof.
  intros Ho. assert (reachable ByRing (WebsocketStream.new_holder (Data := Data))) as H0 by apply rtc_refl.
  assert (forall r s', sees WebsocketStream.new_holder r s' -> reachable ByRing s') as Hsee.
  { intros r s' (s1 & s2 & H1 & _ & H2 & Hs). assert (reachable ByRing s2) as Hr2 by (eapply tsteps_reachable; [|done]; by eapply tsteps_reachable).
    destruct (negb (running s2)); [destruct Hs as [Ht _]; by eapply tsteps_reachable|]. destruct Hs as (s3 & H3 & Hs).
    assert (reachable ByRing s3) as Hr3 by (by eapply tsteps_reachable).
    destruct (negb (WebsocketStream.connectionAlive s3)); destruct Hs as [Ht _]; [by eapply tsteps_reachable|by subst]. }
  remember false as lost eqn:El. destruct Ho as [r s st snd Hs Hf|r s lost st s' snd Hs Hf Hre Hst|r s lost st s' snd s'' Hs Hf Hre Hst Hs']; cbn.
  - destruct r as [[] e]; cbn in *; [by left| |]; [done|]. right; left. split; [done|].
    by apply (sees_closed WebsocketStream.new_holder (ConnectionStatus_CLOSED, e) s).
  - subst st. right; right; left. by split.
  - subst lost. right; right; right. destruct (reestablish_facts s false st s' (Hsee _ _ Hs) Hre) as (Hr & Hstop & Hp).
    destruct (sees_done s' snd s'' Hr Hstop (Hp eq_refl Hst) Hs') as [??]. by split_and!.
Qed.
End Facts.

(** ** Properties *)


(** Opening the user data stream: without a listen key no websocket is opened and
    [getStatus] reports FAIL with the reason; with one, it reports SUCCESS exactly if the
    first connection succeeded. After a restart that did connect it still reports FAIL,
    with no reason, for a live stream; after one that did not, CLOSED with the reason. *)
Theorem user_stream_status {V} `{Json V} (error_message : sj_error -> string) `{Net} {Data} `{StreamNet Data}
    host APIKey h o (s : WebsocketStream.Holder Data) : observed false o s ->
  exists us, new_FuturesStream error_message host APIKey h o = Some us /\
    let d := (sendRequest_params host h listenKey_target "POST" true false [listenKeyParameter APIKey]).2 in
    match listenKey_response error_message d "" false with
    | (err, key, _) =>
        if getError err then fs_target us = None /\ user_getStatus us = Some (ConnectionStatus_FAIL, Some err) else
        if String.eqb key "" then fs_target us = None /\ exists w, user_getStatus us = Some (ConnectionStatus_FAIL, Some (FetchError_msg APIError_BAD_FIELD w)) else
        fs_target us = Some ("/private/ws/" +:+ key)%string /\
        match (first o).1, again o with
        | ConnectionStatus_SUCCESS, _ => user_getStatus us = Some (ConnectionStatus_SUCCESS, None)
        | ConnectionStatus_FAIL, ConnectionStatus_SUCCESS => user_getStatus us = Some (ConnectionStatus_FAIL, None)
        | _, _ => exists w, user_getStatus us = Some (ConnectionStatus_CLOSED, Some (FetchError_msg APIError_BOOST_ERROR w))
        end
    end.
Proof.
  intros Ho. unfold new_FuturesStream, getListenKey. cbn [fs_rest fs_listenKey fs_listenKeyPresent].
  destruct (sendRequest_params _ _ _ _ _ _ _) as [h' d]. cbn [snd]. cbv zeta.
  destruct (listenKey_response error_message d "" false) as [[err key] present] eqn:El.
  assert (getError err = false -> present = true) as Hp.
  { intros He. unfold listenKey_response in El. destruct (accept error_message d) as [e|doc] eqn:Ea; simplify_eq; [|done].
    by rewrite (accept_error error_message d _ Ea) in He. }
  cbn. destruct (getError err) eqn:Ee; [by (eexists; split_and!; [| |destruct present])|].
  rewrite (Hp eq_refl). destruct (String.eqb key "") eqn:Ek; [eexists; split_and!; [done|done|by eexists]|].
  clear Hp El.
  destruct (observed_cases o s Ho) as [E|[[E (w & Ew)]|[[E E']|(E & E' & E2 & (w & Ew))]]]; rewrite E.
  - destruct (again o); by (eexists; split_and!).
  - rewrite Ew. destruct (again o); by (eexists; split_and!; [| |exists w]).
  - rewrite E'. eexists. by split_and!.
  - rewrite Ew, E2. destruct (again o); [done|..]; by (eexists; split_and!; [| |exists w]).
Qed.

(** ** Concrete openings

    A network that refuses every attempt: the first status can be a FAIL, seen during
    the back-off. The restarted holder then fails for good. *)
Section Demo.
#[local] Instance refusing : StreamNet string := {
  stream_setup _ := Some "refused"%string;
  stream_recv _ := RecvError "";
  func _ t := Ok t;
}.

Lemma tsteps_run n (s : WebsocketStream.Holder string) : tsteps s (thread_run n s).
Proof.
  revert s. induction n as [|n IH]; intros s; cbn [thread_run]; [apply rtc_refl|].
  destruct (thread_step s) eqn:E; [|apply rtc_refl]. eapply rtc_l; [exact E|apply IH].
Qed.

Lemma reest_run n (s : WebsocketStream.Holder string) : pc (thread_run n s) = TDone ->
  (forall k, (k < n)%nat -> match pc (thread_run k s) with TStart | TDone => False | _ => True end) -> reest s (thread_run n s).
Proof.
  revert s. induction n as [|n IH]; intros s Hd Hk; [constructor; by right|]. cbn [thread_run] in *.
  pose proof (Hk O ltac:(lia)) as H0. cbn [thread_run] in H0. destruct (thread_step s) as [s1|] eqn:E.
  - eapply reest_step; [by intros Ep; rewrite Ep in H0..|exact E|]. apply IH; [done|]. intros k Hlt.
    specialize (Hk (S k) ltac:(lia)). cbn [thread_run] in Hk. by rewrite E in Hk.
  - by rewrite Hd in H0.
Qed.

Definition refused : option FetchError := Some (FetchError_msg APIError_BOOST_ERROR "refused").
Definition demo_seen : seen :=
  {| first := (ConnectionStatus_FAIL, refused); again := ConnectionStatus_FAIL; second := (ConnectionStatus_CLOSED, refused) |}.

Definition demo_s1 : WebsocketStream.Holder string := thread_run 4 WebsocketStream.new_holder.
Definition demo_s2 : WebsocketStream.Holder string := thread_run 20 (closeConnection demo_s1).
Definition demo_s3 : WebsocketStream.Holder string := default demo_s2 (restart demo_s2).
Definition demo_s4 : WebsocketStream.Holder string := thread_run 37 demo_s3.

Lemma demo_observed : observed false demo_seen demo_s4.
Proof.
  assert (sees WebsocketStream.new_holder (ConnectionStatus_FAIL, refused) demo_s1) as Hs1.
  { exists demo_s1, demo_s1. split_and!; [apply (tsteps_run 4)|by vm_compute|apply rtc_refl|]. replace (negb (running demo_s1)) with false by (by vm_compute).
    exists demo_s1. split; [apply rtc_refl|].
    replace (negb (WebsocketStream.connectionAlive demo_s1)) with true by (by vm_compute). split; [apply rtc_refl|by vm_compute]. }
  assert (sees demo_s4 (ConnectionStatus_CLOSED, refused) demo_s4) as Hs4.
  { exists demo_s4, demo_s4. split_and!; [apply rtc_refl|by vm_compute|apply rtc_refl|].
    replace (negb (running demo_s4)) with true by (by vm_compute). split; [apply rtc_refl|by vm_compute]. }
  eapply observed_second; [exact Hs1|reflexivity| |discriminate|exact Hs4].
  apply (reestablish_down demo_s1 demo_s2 demo_s3 demo_s4); [apply (tsteps_run 20)|by vm_compute| |by vm_compute].
  apply reest_run; [by vm_compute|]. intros k Hk.
  do 37 (destruct k as [|k]; [vm_compute; exact I|]). lia.
Qed.


#[local] Instance key_net : Net := {
  connect _ := {| resolve_ok := true; connect_ok := true; sni_ok := true; handshake_ok := true |};
  transmit _ _ := Response 200 "key" true;
}.

Lemma user_stream_status_witness : exists us,
  @new_FuturesStream _ (JV_Json [("key"%string, JObj [("listenKey"%string, JStr "abc")])]) (fun _ => ""%string) key_net "fapi.binance.com" "k"
    {| StreamHolder.connectionStatus := ConnectionStatus_SUCCESS; StreamHolder.policy := default_policy; StreamHolder.attempts := 1; StreamHolder.exchanges := [] |} demo_seen = Some us /\
  fs_target us = Some "/private/ws/abc"%string /\
  exists w, user_getStatus us = Some (ConnectionStatus_CLOSED, Some (FetchError_msg APIError_BOOST_ERROR w)).
Proof.
  exact (@user_stream_status _ (JV_Json [("key"%string, JObj [("listenKey"%string, JStr "abc")])]) (fun _ => ""%string) key_net _ _
    "fapi.binance.com" "k" {| StreamHolder.connectionStatus := ConnectionStatus_SUCCESS; StreamHolder.policy := default_policy; StreamHolder.attempts := 1; StreamHolder.exchanges := [] |}
    demo_seen demo_s4 demo_observed).
Defined.

End Demo.

(** A network that refuses the first attempt only, and loses every connection at the
    first read: the restarted thread is back in the back-off before the constructor looks,
    and the freed error of the first status is used. *)
Section Lost.
#[local] Instance flaky : StreamNet string := {
  stream_setup n := match n with O => Some "refused"%string | _ => None end;
  stream_recv _ := RecvError "";
  func _ t := Ok t;
}.

Lemma flaky_steps n (s : WebsocketStream.Holder string) : tsteps s (thread_run n s).
Proof.
  revert s. induction n as [|n IH]; intros s; cbn [thread_run]; [apply rtc_refl|].
  destruct (thread_step s) eqn:E; [|apply rtc_refl]. eapply rtc_l; [exact E|apply IH].
Qed.

Lemma flaky_fail (s0 s : WebsocketStream.Holder string) : tsteps s0 s ->
  connecting s = false -> running s = true -> WebsocketStream.connectionAlive s = false -> sees s0 (ConnectionStatus_FAIL, lastError s) s.
Proof.
  intros Ht Hc Hr Ha. exists s, s. rewrite Hc, Hr. split_and!; [done|done|apply rtc_refl|].
  exists s. rewrite Ha. repeat split; apply rtc_refl.
Qed.

Definition flaky_s1 : WebsocketStream.Holder string := thread_run 4 WebsocketStream.new_holder.
Definition flaky_s2 : WebsocketStream.Holder string := thread_run 20 (closeConnection flaky_s1).
Definition flaky_s3 : WebsocketStream.Holder string := default flaky_s2 (restart flaky_s2).
Definition flaky_s4 : WebsocketStream.Holder string := thread_run 2 flaky_s3.
Definition flaky_s5 : WebsocketStream.Holder string := thread_run 6 flaky_s4.

Lemma freed_error_used : exists o, observed true o flaky_s5 /\ new_MarketStream None o = None.
Proof.
  exists {| first := (ConnectionStatus_FAIL, lastError flaky_s1); again := ConnectionStatus_FAIL; second := (ConnectionStatus_FAIL, lastError flaky_s5) |}.
  split; [|reflexivity].
  eapply observed_second; [|reflexivity| |discriminate|apply flaky_fail; [apply rtc_refl|by vm_compute..]].
  - apply flaky_fail; [apply (flaky_steps 4)|by vm_compute..].
  - apply (reestablish_lost flaky_s1 flaky_s2 flaky_s3 flaky_s4 flaky_s5); [apply (flaky_steps 20)|by vm_compute| |by vm_compute|apply (flaky_steps 6)|by vm_compute].
    apply (reest_step flaky_s3 (thread_run 1 flaky_s3)); [by vm_compute..|].
    apply (reest_step (thread_run 1 flaky_s3) flaky_s4); [by vm_compute..|]. apply reest_end. left. by vm_compute.
Qed.
End Lost.
