(* ===== verification/RawWebsocket.v ===== *)
(** * RawWebsocket: callbacks on one I/O thread

    Models [class RawWebsocket] of [src/api/raw/rawWebsocket.hpp]. The I/O thread runs
    one completion handler after the other; [io_step] is one handler: which operation
    completed, and how, is the event. A handler is [Disabled] when its operation is not
    outstanding, and [Undefined] when it would pop an empty queue or start a second read
    or write. Other threads, and the callbacks themselves, act between handlers with
    [sendText] and [close]. A timer that has expired can no longer be
    cancelled: its handler is queued. *)

From stdpp Require Import pretty.
From S2P Require Import Prelude Errors.

Inductive stage := Resolve | Connect | TlsHandshake | WsHandshake.

(** The error code of a read or write. *)
Inductive io_error :=
  | EcClosed (code : Z) (reason : string)
  | EcTimeout
  | EcOther (message : string).

(** How [onMessage] ends. *)
Inductive handler_result := Returned | Threw (what : string) | ThrewOther.

Inductive task := PostSend (message : string) | PostClose.
Inductive timer := Off | Armed | Expired.
Inductive callback := CbMessage (message : string) | CbClose (reason : string).

#[global] Instance task_eq_dec : EqDecision task.
Proof. solve_decision. Defined.

Record Raw := {
  writeQueue : list string;
  setupTimedOut : bool;
  setupError : string;
  connecting : bool;
  open : bool;
  closeCalled : bool;
  closeReported : bool;
  httpResult : Z;                 (** [handshakeResponse.result_int()] *)
  socket : bool;                  (** the TCP socket is open *)
  setup : option stage;           (** the outstanding operations *)
  setupTimer : timer;
  reading : bool;
  writing : bool;
  closing : bool;
  closeTimer : timer;
  posted : list task;             (** posted to the I/O thread, oldest first *)
  stopped : bool;                 (** [ioc.stop()] *)
  exited : bool;                  (** [ioc.run()] has returned *)
  callbacks : list callback;      (** every callback made *)
  accepted : list string;         (** every message put on [writeQueue] *)
  written : list string;          (** every message written *)
}.

Section Updates.
  Variable s : Raw.

Definition set_queue (q acc wr : list string) : Raw := {| writeQueue := q; setupTimedOut := setupTimedOut s; setupError := setupError s; connecting := connecting s; open := open s; closeCalled := closeCalled s; closeReported := closeReported s; httpResult := httpResult s; socket := socket s; setup := setup s; setupTimer := setupTimer s; reading := reading s; writing := writing s; closing := closing s; closeTimer := closeTimer s; posted := posted s; stopped := stopped s; exited := exited s; callbacks := callbacks s; accepted := acc; written := wr |}.
Definition set_setup (g : option stage) (t : timer) : Raw := {| writeQueue := writeQueue s; setupTimedOut := setupTimedOut s; setupError := setupError s; connecting := connecting s; open := open s; closeCalled := closeCalled s; closeReported := closeReported s; httpResult := httpResult s; socket := socket s; setup := g; setupTimer := t; reading := reading s; writing := writing s; closing := closing s; closeTimer := closeTimer s; posted := posted s; stopped := stopped s; exited := exited s; callbacks := callbacks s; accepted := accepted s; written := written s |}.
Definition set_setupError (e : string) : Raw := {| writeQueue := writeQueue s; setupTimedOut := setupTimedOut s; setupError := e; connecting := connecting s; open := open s; closeCalled := closeCalled s; closeReported := closeReported s; httpResult := httpResult s; socket := socket s; setup := setup s; setupTimer := setupTimer s; reading := reading s; writing := writing s; closing := closing s; closeTimer := closeTimer s; posted := posted s; stopped := stopped s; exited := exited s; callbacks := callbacks s; accepted := accepted s; written := written s |}.
Definition set_timedOut (b : bool) : Raw := {| writeQueue := writeQueue s; setupTimedOut := b; setupError := setupError s; connecting := connecting s; open := open s; closeCalled := closeCalled s; closeReported := closeReported s; httpResult := httpResult s; socket := socket s; setup := setup s; setupTimer := setupTimer s; reading := reading s; writing := writing s; closing := closing s; closeTimer := closeTimer s; posted := posted s; stopped := stopped s; exited := exited s; callbacks := callbacks s; accepted := accepted s; written := written s |}.
Definition set_connecting (b : bool) : Raw := {| writeQueue := writeQueue s; setupTimedOut := setupTimedOut s; setupError := setupError s; connecting := b; open := open s; closeCalled := closeCalled s; closeReported := closeReported s; httpResult := httpResult s; socket := socket s; setup := setup s; setupTimer := setupTimer s; reading := reading s; writing := writing s; closing := closing s; closeTimer := closeTimer s; posted := posted s; stopped := stopped s; exited := exited s; callbacks := callbacks s; accepted := accepted s; written := written s |}.
Definition set_open (b : bool) : Raw := {| writeQueue := writeQueue s; setupTimedOut := setupTimedOut s; setupError := setupError s; connecting := connecting s; open := b; closeCalled := closeCalled s; closeReported := closeReported s; httpResult := httpResult s; socket := socket s; setup := setup s; setupTimer := setupTimer s; reading := reading s; writing := writing s; closing := closing s; closeTimer := closeTimer s; posted := posted s; stopped := stopped s; exited := exited s; callbacks := callbacks s; accepted := accepted s; written := written s |}.
Definition set_close (c r : bool) : Raw := {| writeQueue := writeQueue s; setupTimedOut := setupTimedOut s; setupError := setupError s; connecting := connecting s; open := open s; closeCalled := c; closeReported := r; httpResult := httpResult s; socket := socket s; setup := setup s; setupTimer := setupTimer s; reading := reading s; writing := writing s; closing := closing s; closeTimer := closeTimer s; posted := posted s; stopped := stopped s; exited := exited s; callbacks := callbacks s; accepted := accepted s; written := written s |}.
Definition set_socket (b : bool) : Raw := {| writeQueue := writeQueue s; setupTimedOut := setupTimedOut s; setupError := setupError s; connecting := connecting s; open := open s; closeCalled := closeCalled s; closeReported := closeReported s; httpResult := httpResult s; socket := b; setup := setup s; setupTimer := setupTimer s; reading := reading s; writing := writing s; closing := closing s; closeTimer := closeTimer s; posted := posted s; stopped := stopped s; exited := exited s; callbacks := callbacks s; accepted := accepted s; written := written s |}.
Definition set_reading (b : bool) : Raw := {| writeQueue := writeQueue s; setupTimedOut := setupTimedOut s; setupError := setupError s; connecting := connecting s; open := open s; closeCalled := closeCalled s; closeReported := closeReported s; httpResult := httpResult s; socket := socket s; setup := setup s; setupTimer := setupTimer s; reading := b; writing := writing s; closing := closing s; closeTimer := closeTimer s; posted := posted s; stopped := stopped s; exited := exited s; callbacks := callbacks s; accepted := accepted s; written := written s |}.
Definition set_writing (b : bool) : Raw := {| writeQueue := writeQueue s; setupTimedOut := setupTimedOut s; setupError := setupError s; connecting := connecting s; open := open s; closeCalled := closeCalled s; closeReported := closeReported s; httpResult := httpResult s; socket := socket s; setup := setup s; setupTimer := setupTimer s; reading := reading s; writing := b; closing := closing s; closeTimer := closeTimer s; posted := posted s; stopped := stopped s; exited := exited s; callbacks := callbacks s; accepted := accepted s; written := written s |}.
Definition set_closing (b : bool) (t : timer) : Raw := {| writeQueue := writeQueue s; setupTimedOut := setupTimedOut s; setupError := setupError s; connecting := connecting s; open := open s; closeCalled := closeCalled s; closeReported := closeReported s; httpResult := httpResult s; socket := socket s; setup := setup s; setupTimer := setupTimer s; reading := reading s; writing := writing s; closing := b; closeTimer := t; posted := posted s; stopped := stopped s; exited := exited s; callbacks := callbacks s; accepted := accepted s; written := written s |}.
Definition set_posted (l : list task) : Raw := {| writeQueue := writeQueue s; setupTimedOut := setupTimedOut s; setupError := setupError s; connecting := connecting s; open := open s; closeCalled := closeCalled s; closeReported := closeReported s; httpResult := httpResult s; socket := socket s; setup := setup s; setupTimer := setupTimer s; reading := reading s; writing := writing s; closing := closing s; closeTimer := closeTimer s; posted := l; stopped := stopped s; exited := exited s; callbacks := callbacks s; accepted := accepted s; written := written s |}.
Definition set_stopped (b e : bool) : Raw := {| writeQueue := writeQueue s; setupTimedOut := setupTimedOut s; setupError := setupError s; connecting := connecting s; open := open s; closeCalled := closeCalled s; closeReported := closeReported s; httpResult := httpResult s; socket := socket s; setup := setup s; setupTimer := setupTimer s; reading := reading s; writing := writing s; closing := closing s; closeTimer := closeTimer s; posted := posted s; stopped := b; exited := e; callbacks := callbacks s; accepted := accepted s; written := written s |}.
Definition call (c : callback) : Raw := {| writeQueue := writeQueue s; setupTimedOut := setupTimedOut s; setupError := setupError s; connecting := connecting s; open := open s; closeCalled := closeCalled s; closeReported := closeReported s; httpResult := httpResult s; socket := socket s; setup := setup s; setupTimer := setupTimer s; reading := reading s; writing := writing s; closing := closing s; closeTimer := closeTimer s; posted := posted s; stopped := stopped s; exited := exited s; callbacks := callbacks s ++ [c]; accepted := accepted s; written := written s |}.
End Updates.

Definition new_raw (http : Z) : Raw :=
  {| writeQueue := []; setupTimedOut := false; setupError := ""; connecting := true; open := false; closeCalled := false;
     closeReported := false; httpResult := http; socket := false; setup := None; setupTimer := Off; reading := false;
     writing := false; closing := false; closeTimer := Off; posted := []; stopped := false; exited := false;
     callbacks := []; accepted := []; written := [] |}.

(** What a handler comes to. *)
Inductive outcome := Disabled | Undefined | Next (s : Raw).

Definition cancel (t : timer) : timer := match t with Armed => Off | _ => t end.

(** [resolver.async_resolve] under a ten second timer. *)
Definition startSetup (s : Raw) : Raw := set_setup s (Some Resolve) Armed.

(** ** Reads, writes and their errors *)

Definition startRead (s : Raw) : outcome := if reading s then Undefined else Next (set_reading s true).
Definition doWrite (s : Raw) : outcome := if writing s then Undefined else Next (set_writing s true).

Section Handlers.
  (** which callbacks are set *)
  Context (hasMessage hasClose : bool).

Definition reportClose (s : Raw) (reason : string) : Raw :=
  let s1 := set_close s (closeCalled s) true in
  if closeReported s then s1 else if hasClose then call s1 (CbClose reason) else s1.

Definition error_reason (ec : option io_error) (what : string) : string :=
  match ec with
  | Some (EcClosed code reason) =>
      ("server close: code " +:+ pretty code +:+ (if String.eqb reason "" then "" else " reason " +:+ reason))%string
  | Some EcTimeout => "idle timeout"
  | Some (EcOther m) => (what +:+ " error: " +:+ m)%string
  | None => what
  end.

Definition onIoError (s : Raw) (ec : option io_error) (what : string) : Raw :=
  let s1 := set_open s false in
  if closeCalled s1 then s1 else
  reportClose (set_queue (set_socket s1 false) [] (accepted s) (written s)) (error_reason ec what).

(** ** Setup *)

Definition setup_reason (s : Raw) (ec stage_ : string) : string :=
  if setupTimedOut s then ("handshake timeout (10 s) during " +:+ stage_)%string
  else (stage_ +:+ " failed: " +:+ ec +:+ (if (httpResult s =? 0)%Z then "" else " (HTTP " +:+ pretty (httpResult s) +:+ ")"))%string.

Definition finishSetup (s : Raw) (ec : option string) (stage_ : string) : outcome :=
  let s1 := set_setup s None (cancel (setupTimer s)) in
  match ec with
  | None => startRead (set_connecting (set_open s1 true) false)
  | Some e => Next (set_connecting (set_setupError (set_socket s1 false) (setup_reason s e stage_)) false)
  end.

Definition setup_stage (s : Raw) (g : stage) : outcome := Next (set_setup s (Some g) (setupTimer s)).

(** Completion of the operation of stage [g]; [sni] is the error of
    [SSL_set_tlsext_host_name], which follows the connect. *)
Definition setup_completed (s : Raw) (g : stage) (ec sni : option string) : outcome :=
  match g, ec with
  | Resolve, Some _ => finishSetup s ec "resolve"
  | Resolve, None => setup_stage s Connect
  | Connect, Some _ => finishSetup s ec "connect"
  | Connect, None =>
      let s1 := set_socket s true in
      match sni with Some _ => finishSetup s1 sni "SNI" | None => setup_stage s1 TlsHandshake end
  | TlsHandshake, Some _ => finishSetup s ec "TLS handshake"
  | TlsHandshake, None => setup_stage s WsHandshake
  | WsHandshake, Some _ => finishSetup s ec "websocket handshake"
  | WsHandshake, None => finishSetup s None ""
  end.

Definition setup_timeout (s : Raw) : Raw := set_socket (set_timedOut (set_setup s (setup s) Off) true) false.

(** ** Completion handlers *)

Inductive read_result :=
  | ReadError (ec : io_error)
  | ReadText (message : string) (h : handler_result)
  | ReadBinary.

Definition read_completed (s : Raw) (r : read_result) : outcome :=
  let s0 := set_reading s false in
  let continue_ s := if closeCalled s then Next s else startRead s in
  match r with
  | ReadError ec => Next (onIoError s0 (Some ec) "read")
  | ReadBinary => continue_ s0
  | ReadText m h =>
      if hasMessage then
        let s1 := call s0 (CbMessage m) in
        match h with
        | Returned => continue_ s1
        | Threw what => Next (onIoError s1 None ("onMessage threw: " +:+ what)%string)
        | ThrewOther => Next (onIoError s1 None "onMessage threw")
        end
      else continue_ s0
  end.

Definition write_completed (s : Raw) (ec : option io_error) : outcome :=
  let s0 := set_writing s false in
  match ec with
  | Some e => Next (onIoError s0 (Some e) "write")
  | None =>
      match writeQueue s0 with
      | [] => Undefined
      | m :: q =>
          let s1 := set_queue s0 q (accepted s0) (written s0 ++ [m]) in
          match q with [] => Next s1 | _ => doWrite s1 end
      end
  end.

Definition beginClose (s : Raw) : Raw :=
  if negb (socket s) then set_stopped s true (exited s) else set_closing s true Armed.

Definition close_timeout (s : Raw) : Raw := set_stopped (set_socket (set_closing s (closing s) Off) false) true (exited s).
Definition close_completed (s : Raw) : Raw := set_stopped (set_socket (set_closing s false (cancel (closeTimer s))) false) true (exited s).

Definition run_posted (s : Raw) (t : task) : outcome :=
  match t with
  | PostSend m =>
      if negb (open s) then Next s else
      let s1 := set_queue s (writeQueue s ++ [m]) (accepted s ++ [m]) (written s) in
      if (length (writeQueue s1) =? 1)%nat then doWrite s1 else Next s1
  | PostClose => Next (beginClose s)
  end.

Inductive io_event :=
  | EvSetup (ec sni : option string)
  | EvSetupTimerExpires
  | EvSetupTimer
  | EvRead (r : read_result)
  | EvWrite (ec : option io_error)
  | EvPosted
  | EvCloseDone
  | EvCloseTimerExpires
  | EvCloseTimer
  | EvExit.

(** [ioc.run()] returns when stopped or out of work. *)
Definition has_work (s : Raw) : bool :=
  match setup s with Some _ => true | None => false end || reading s || writing s || closing s ||
  match posted s with [] => false | _ => true end ||
  match setupTimer s with Off => false | _ => true end || match closeTimer s with Off => false | _ => true end.

Definition io_step (e : io_event) (s : Raw) : outcome :=
  if exited s then Disabled else
  match e with
  | EvExit => if stopped s || negb (has_work s) then Next (set_stopped s (stopped s) true) else Disabled
  | EvSetupTimerExpires => match setupTimer s with Armed => Next (set_setup s (setup s) Expired) | _ => Disabled end
  | EvCloseTimerExpires => match closeTimer s with Armed => Next (set_closing s (closing s) Expired) | _ => Disabled end
  | _ =>
      if stopped s then Disabled else
      match e with
      | EvSetup ec sni => match setup s with Some g => setup_completed s g ec sni | None => Disabled end
      | EvSetupTimer => match setupTimer s with Expired => Next (setup_timeout s) | _ => Disabled end
      | EvRead r => if reading s then read_completed s r else Disabled
      | EvWrite ec => if writing s then write_completed s ec else Disabled
      | EvPosted => match posted s with t :: ts => run_posted (set_posted s ts) t | [] => Disabled end
      | EvCloseDone => if closing s then Next (close_completed s) else Disabled
      | EvCloseTimer => match closeTimer s with Expired => Next (close_timeout s) | _ => Disabled end
      | _ => Disabled
      end
  end.
End Handlers.

(** ** The public operations *)

Definition isOpen (s : Raw) : bool := open s && negb (closeCalled s).

Definition sendText (s : Raw) (text : string) : Raw * bool :=
  if negb (open s) || closeCalled s then (s, false) else (set_posted s (posted s ++ [PostSend text]), true).

(** [close] up to the join, which returns once [exited]. *)
Definition close (s : Raw) : Raw :=
  if closeCalled s then s
  else set_posted (set_open (set_close s true (closeReported s)) false) (posted s ++ [PostClose]).

(** [connect] once [connecting] is cleared: the error, and whether there is a
    connection. After a failed setup it joins the thread. *)
Definition connect_result (s : Raw) : Raw * FetchError * bool :=
  if negb (String.eqb (setupError s) "")
  then (set_close s true (closeReported s), FetchError_msg APIError_BOOST_ERROR (setupError s), false)
  else (s, FetchError_of APIError_SUCCESS, true).

Inductive step (hasMessage hasClose : bool) : Raw -> Raw -> Prop :=
  | step_io e s s' : io_step hasMessage hasClose e s = Next s' -> step hasMessage hasClose s s'
  | step_send s m : step hasMessage hasClose s (sendText s m).1
  | step_close s : connecting s = false -> step hasMessage hasClose s (close s)
  | step_connect s : connecting s = false -> step hasMessage hasClose s (connect_result s).1.1.

Definition reachable (hasMessage hasClose : bool) (http : Z) (s : Raw) : Prop :=
  rtc (step hasMessage hasClose) (startSetup (new_raw http)) s.

(** ** Invariants *)

(** The handlers of [es], one after the other. *)
Definition runs (hasMessage hasClose : bool) (es : list io_event) (s : Raw) : option Raw :=
  foldl (fun r e => r ≫= fun s => match io_step hasMessage hasClose e s with Next s' => Some s' | _ => None end) (Some s) es.

Definition is_close (c : callback) : bool := match c with CbClose _ => true | _ => false end.

Section Inv.
  Context (hasMessage hasClose : bool) (http : Z).
  Notation step := (step hasMessage hasClose).
  Notation reachable := (reachable hasMessage hasClose http).
  Notation io_step := (io_step hasMessage hasClose).
  Implicit Types s : Raw.

Definition closes (l : list callback) : nat := length (filter (fun c => is_close c = true) l).

(** Writes: while the connection has not been dropped one is outstanding as long as the
    queue holds something; what went out is a prefix of what was accepted. *)
Record write_inv s : Prop := {
  w_front : closeReported s = false -> writing s = true -> writeQueue s <> [];
  w_busy : closeReported s = false -> closeCalled s = false -> writeQueue s <> [] -> writing s = true;
  w_all : closeReported s = false -> accepted s = written s ++ writeQueue s;
  w_prefix : written s `prefix_of` accepted s;
  w_dropped : closeReported s = true -> writeQueue s = [];
  w_down : closeReported s = true -> open s = false;
}.

(** Setup: while it lasts nothing else is outstanding; when it failed nothing ever is. *)
Record setup_inv s : Prop := {
  s_connecting : connecting s = true -> is_Some (setup s) /\ setupError s = ""%string;
  s_setup : is_Some (setup s) -> connecting s = true;
  s_timer : setupTimer s = Armed -> connecting s = true;
  s_during : connecting s = true -> open s = false /\ reading s = false /\ writing s = false /\ closing s = false /\
    closeTimer s = Off /\ closeReported s = false /\ callbacks s = [] /\ posted s = [] /\ closeCalled s = false /\ writeQueue s = [];
  s_failed : setupError s <> ""%string -> open s = false /\ reading s = false /\ writing s = false /\
    closeReported s = false /\ callbacks s = [] /\ writeQueue s = [];
}.

(** Closing: [onClose] once; a called [close] has work left that ends the thread. *)
Record close_inv s : Prop := {
  c_once : closes (callbacks s) = if closeReported s then if hasClose then 1%nat else 0%nat else 0%nat;
  c_open : open s = true -> closeCalled s = false;
  c_closing : closing s = true -> closeTimer s <> Off \/ stopped s = true;
  c_work : closeCalled s = true -> setupError s <> ""%string \/ exited s = true \/ stopped s = true \/
    PostClose ∈ posted s \/ closeTimer s <> Off;
}.

Definition inv s : Prop := write_inv s /\ setup_inv s /\ close_inv s.

Lemma closes_snoc l c : closes (l ++ [c]) = (closes l + if is_close c then 1 else 0)%nat.
Proof. unfold closes. rewrite filter_app, length_app. by destruct c. Qed.

Lemma raw_inv_init : inv (startSetup (new_raw http)).
Proof. split_and!; split; cbn; try done; naive_solver. Qed.

(** Splits an invariant into its clauses and closes those the old state gives at once. *)
Ltac clauses :=
  split_and!; split; cbn [writeQueue setupTimedOut setupError connecting open closeCalled closeReported httpResult socket setup
      setupTimer reading writing closing closeTimer posted stopped exited accepted written callbacks
      set_queue set_setup set_setupError set_timedOut set_connecting set_open set_close set_socket set_reading set_writing
      set_closing set_posted set_stopped call]; rewrite ?closes_snoc; cbn [is_close]; rewrite ?Nat.add_0_r; intros; try congruence; try done; auto.

Lemma onIoError_inv s s1 ec what : inv s -> connecting s = false -> setupError s = ""%string ->
  s1 = set_writing s false \/ (exists c, is_close c = false /\ s1 = call (set_reading s false) c) \/ s1 = set_reading s false ->
  inv (onIoError hasClose s1 ec what).
Proof.
  intros ([] & [] & []) Hc Hse Hs1. unfold onIoError, reportClose.
  assert (closeCalled s1 = closeCalled s /\ closeReported s1 = closeReported s) as [E1 E2] by (destruct Hs1 as [->|[(c & _ & ->)| ->]]; done).
  cbn [closeCalled set_open closeReported set_queue set_socket]. rewrite E1, E2.
  destruct (closeCalled s) eqn:Ec; [|destruct (closeReported s) eqn:Er; [|destruct hasClose eqn:Eh]];
    destruct Hs1 as [->|[(c & Hn & ->)| ->]]; clauses; rewrite ?Hn, ?c_once0, ?Er; try lia; try (by destruct hasClose).
Qed.

Lemma startRead_inv s s' : startRead s = Next s' -> connecting s = false -> setupError s = ""%string ->
  inv (set_reading s false) -> inv s'.
Proof. unfold startRead. destruct (reading s); [done|]. intros [= <-] ? ? ([] & [] & []). clauses. Qed.

Lemma finishSetup_inv s ec st s' : finishSetup s ec st = Next s' -> connecting s = true -> inv s -> st <> ""%string \/ ec = None -> inv s'.
Proof.
  intros E Hc ([] & [] & []) Hst. destruct (s_during0 Hc) as (?&?&?&?&?&?&?&?&?&?), (s_connecting0 Hc) as [_ ?].
  destruct ec; cbn in E; [injection E as <-|unfold startRead in E; cbn in E; destruct (reading s); [done|injection E as <-]]; clauses;
    by destruct (setupTimer s).
Qed.

(** What the invariant says of a state that has an operation outstanding. *)
Lemma busy_state s : inv s -> (reading s = true \/ writing s = true \/ open s = true) -> connecting s = false /\ setupError s = ""%string.
Proof.
  intros (_ & [] & _) H. split.
  - destruct (connecting s); [|done]. destruct (s_during0 eq_refl) as (?&?&?&_). naive_solver congruence.
  - destruct (decide (setupError s = ""%string)) as [|Hn]; [done|]. destruct (s_failed0 Hn) as (?&?&?&_). naive_solver congruence.
Qed.

Lemma closing_state s : inv s -> closing s = true \/ closeTimer s <> Off \/ posted s <> [] -> connecting s = false.
Proof.
  intros (_ & [] & _) H. destruct (connecting s); [|done]. destruct (s_during0 eq_refl) as (_&_&_&?&?&_&_&?&_).
  destruct H as [?|[?|?]]; congruence.
Qed.

Lemma setup_completed_inv s g ec sni s' : setup_completed s g ec sni = Next s' -> setup s = Some g -> inv s -> inv s'.
Proof.
  intros E Hg Hi. assert (Hc : connecting s = true) by (apply (s_setup _ (proj1 (proj2 Hi))); rewrite Hg; eauto).
  assert (Hi2 : inv (set_socket s true)) by (destruct Hi as ([] & [] & []); clauses).
  assert (Hst : forall s0 g', inv s0 -> connecting s0 = true -> inv (set_setup s0 (Some g') (setupTimer s0))).
  { clear. intros s0 g' ([] & [] & []) Hc. clauses. split; [done|]. by apply s_connecting0. }
  destruct g, ec, sni; cbn -[finishSetup] in E; unfold setup_stage in E;
    first [injection E as <-; first [by apply Hst | by apply (Hst (set_socket s true))] | eapply finishSetup_inv; [exact E|done|done|first [by left|by right]]].
Qed.

Lemma read_completed_inv s r s' : read_completed hasMessage hasClose s r = Next s' -> reading s = true -> inv s -> inv s'.
Proof.
  intros E Hr Hi. destruct (busy_state s Hi) as [Hc He]; [auto|].
  assert (H1 : inv (set_reading s false)) by (destruct Hi as ([] & [] & []); clauses).
  assert (H2 : forall m, inv (call (set_reading s false) (CbMessage m))).
  { intros m. destruct Hi as ([] & [] & []); clauses. }
  destruct r as [e|m h|]; cbn -[startRead onIoError] in E.
  - injection E as <-. apply (onIoError_inv s); auto.
  - destruct hasMessage; [destruct h|]; cbn -[startRead onIoError] in E.
    + destruct (closeCalled s); [injection E as <-; apply H2|]. eapply startRead_inv; [exact E|done|done|exact (H2 m)].
    + injection E as <-. apply (onIoError_inv s); [done|done|done|right; left; by exists (CbMessage m)].
    + injection E as <-. apply (onIoError_inv s); [done|done|done|right; left; by exists (CbMessage m)].
    + destruct (closeCalled s); [by injection E as <-|]. eapply startRead_inv; [exact E|done|done|exact H1].
  - destruct (closeCalled s); [by injection E as <-|]. eapply startRead_inv; [exact E|done|done|exact H1].
Qed.

Lemma write_completed_inv s ec s' : write_completed hasClose s ec = Next s' -> writing s = true -> inv s -> inv s'.
Proof.
  intros E Hr Hi. destruct (busy_state s Hi) as [Hc He]; [auto|].
  destruct ec as [e|]; cbn -[doWrite onIoError] in E; [injection E as <-; apply (onIoError_inv s); auto|].
  destruct (writeQueue s) as [|m q] eqn:Eq; [done|].
  destruct Hi as ([] & [] & []). destruct (closeReported s) eqn:Er; [by rewrite w_dropped0 in Eq|].
  assert (Ea : accepted s = (written s ++ [m]) ++ q) by (rewrite w_all0, Eq, <-app_assoc by done; done).
  destruct q as [|m' q]; [|unfold doWrite in E; cbn in E]; injection E as <-; clauses; try (rewrite Ea; by apply prefix_app_r); by rewrite Er.
Qed.

Lemma run_posted_inv s t ts s' : run_posted (set_posted s ts) t = Next s' -> posted s = t :: ts -> inv s -> inv s'.
Proof.
  intros E Hp Hi.
  assert (Hc0 : connecting s = false) by (apply (closing_state s Hi); right; right; congruence).
  destruct t as [m|]; cbn -[doWrite beginClose] in E.
  - assert (H1 : inv (set_posted s ts)).
    { destruct Hi as ([] & [] & []); clauses. rewrite Hp, elem_of_cons in c_work0.
      destruct (c_work0 ltac:(done)) as [?|[?|[?|[[?|?]|?]]]]; [auto|auto|auto|done|auto|auto 6]. }
    destruct (open s) eqn:Eo; cbn -[doWrite] in E; [|by injection E as <-].
    destruct (busy_state s Hi) as [Hc He]; [auto|].
    destruct Hi as ([] & [] & []), H1 as (_ & _ & []). cbn in c_work1. destruct (closeReported s) eqn:Er; [specialize (w_down0 eq_refl); congruence|].
    assert (Ea : accepted s ++ [m] = written s ++ (writeQueue s ++ [m])) by (rewrite w_all0, <-app_assoc by done; done).
    unfold doWrite in E; cbn in E. rewrite length_app in E.
    destruct (writing s) eqn:Ew; destruct (writeQueue s) as [|x q] eqn:Eq; cbn in E; try done.
    + replace (length q + 1 =? 0)%nat with false in E by (symmetry; apply Nat.eqb_neq; lia).
      injection E as <-; clauses; by apply prefix_app_r.
    + injection E as <-; clauses; by apply prefix_app_r.
    + specialize (w_busy0 eq_refl (c_open0 Eo)). specialize (w_busy0 ltac:(done)). congruence.
  - injection E as <-. unfold beginClose. cbn.
    destruct (socket s); cbn; destruct Hi as ([] & [] & []); clauses.
Qed.

Lemma io_step_inv e s s' : io_step e s = Next s' -> inv s -> inv s'.
Proof.
  unfold io_step. intros E Hi. destruct (exited s) eqn:Ex; [done|].
  destruct e as [ec sni| | |r|ec| | | | |]; cbn -[setup_completed read_completed write_completed run_posted] in E;
    try (destruct (stopped s) eqn:Es; [discriminate E|]).
  - destruct (setup s) eqn:Eg; [|done]. by eapply setup_completed_inv.
  - destruct (setupTimer s) eqn:Et; [done| |done]. injection E as <-. destruct Hi as ([] & [] & []); clauses.
  - destruct (setupTimer s) eqn:Et; [done|done|]. injection E as <-. destruct Hi as ([] & [] & []); clauses.
  - destruct (reading s) eqn:Er; [|done]. by eapply read_completed_inv.
  - destruct (writing s) eqn:Er; [|done]. by eapply write_completed_inv.
  - destruct (posted s) as [|t ts] eqn:Ep; [done|]. by eapply run_posted_inv.
  - destruct (closing s) eqn:Ec; [|done]. pose proof (closing_state s Hi ltac:(auto)). injection E as <-. unfold close_completed.
    destruct Hi as ([] & [] & []); clauses.
  - destruct (closeTimer s) eqn:Et; [done| |done]. pose proof (closing_state s Hi ltac:(right; left; congruence)). injection E as <-.
    destruct Hi as ([] & [] & []); clauses.
  - destruct (closeTimer s) eqn:Et; [done|done|]. pose proof (closing_state s Hi ltac:(right; left; congruence)). injection E as <-.
    unfold close_timeout. destruct Hi as ([] & [] & []); clauses.
  - destruct (stopped s || negb (has_work s)) eqn:Ew; [|done]. injection E as <-. destruct Hi as ([] & [] & []); clauses.
Qed.


Lemma step_inv s s' : step s s' -> inv s -> inv s'.
Proof.
  intros H Hi. destruct H as [e s s' E|s m|s Hc|s Hc].
  - by eapply io_step_inv.
  - unfold sendText. destruct (open s) eqn:Eo; [|done]. destruct (busy_state s Hi ltac:(auto)). destruct (closeCalled s) eqn:Ec; cbn [orb negb fst]; [done|].
    destruct Hi as ([] & [] & []); cbn [fst]; clauses.
  - unfold close. destruct (closeCalled s) eqn:Ec; [done|]. destruct Hi as ([] & [] & []); clauses.
    + by destruct (s_failed0 H) as (_ & ?).
    + right; right; right; left. apply elem_of_app. right. by left.
  - unfold connect_result. destruct (String.eqb_spec (setupError s) ""); [done|]. cbn.
    destruct Hi as ([] & [] & []); clauses. destruct (s_failed0 n) as (? & _). congruence.
Qed.

Lemma reachable_inv s : reachable s -> inv s.
Proof. unfold RawWebsocket.reachable. intros H. eapply (rtc_ind_r inv); [apply raw_inv_init| |exact H]. intros a b _ Hs Hi. by eapply step_inv. Qed.

(** ** Handlers that can go wrong *)

Lemma io_undefined e s : inv s -> io_step e s = Undefined -> e = EvWrite None /\ closeReported s = true.
Proof.
  unfold io_step. intros Hi E. destruct (exited s); [done|].
  destruct e as [ec sni| | |r|ec| | | | |]; cbn -[setup_completed read_completed write_completed run_posted has_work] in E;
    try (destruct (stopped s); [discriminate E|]).
  - destruct (setup s) as [g|] eqn:Eg; [|done]. exfalso.
    assert (Hc : connecting s = true) by (apply (s_setup _ (proj1 (proj2 Hi))); rewrite Eg; eauto).
    destruct Hi as (_ & [] & _). destruct (s_during0 Hc) as (_ & Hr & _).
    destruct g, ec, sni; cbn in E; unfold startRead in E; cbn in E; rewrite ?Hr in E; discriminate E.
  - by destruct (setupTimer s).
  - by destruct (setupTimer s).
  - exfalso. destruct (reading s) eqn:Er; [|done].
    destruct r as [e|m h|]; cbn in E; [done| |by destruct (closeCalled s)].
    destruct hasMessage; [destruct h|]; cbn in E; try done; by destruct (closeCalled s).
  - destruct (writing s) eqn:Er; [|done]. destruct ec as [e|]; [done|]. split; [done|].
    destruct (closeReported s) eqn:Ec; [done|]. exfalso.
    cbn in E. destruct (writeQueue s) as [|m [|m' q]] eqn:Eq; [|done|done]. by eapply w_front; [apply Hi| | |].
  - exfalso. destruct (posted s) as [|[m|] ts] eqn:Ep; [done| |done]. cbn in E.
    destruct (open s) eqn:Eo; cbn in E; [|done]. destruct Hi as ([] & _ & _).
    destruct (closeReported s) eqn:Er; [specialize (w_down0 eq_refl); congruence|].
    unfold doWrite in E. cbn in E. rewrite length_app in E. destruct (writing s) eqn:Ew; [|by destruct (_ =? 1)%nat].
    destruct (writeQueue s) as [|x q] eqn:Eq; cbn in E; [by apply w_front0|].
    by replace (length q + 1 =? 0)%nat with false in E by (symmetry; apply Nat.eqb_neq; lia).
  - by destruct (closing s).
  - by destruct (closeTimer s).
  - by destruct (closeTimer s).
  - by destruct (has_work s).
Qed.

(** ** [close] *)

(** Handlers that need nothing from the peer. *)
Definition is_local (e : io_event) : bool :=
  match e with EvPosted | EvCloseTimerExpires | EvCloseTimer | EvExit => true | _ => false end.

Notation runs := (runs hasMessage hasClose).

Definition ends s : Prop := exists es s', forallb is_local es = true /\ runs es s = Some s' /\ exited s' = true.

Lemma raw_ends_step e s s' : is_local e = true -> io_step e s = Next s' -> ends s' -> ends s.
Proof.
  intros Hl E (es & s2 & Hes & Hr & Hx). exists (e :: es), s2. split_and!; [by cbn; rewrite Hl| |done].
  unfold RawWebsocket.runs. cbn. by rewrite E.
Qed.

Lemma ends_stopped s : stopped s = true -> ends s.
Proof.
  intros Hs. destruct (exited s) eqn:Ex; [by exists [], s|].
  eapply (raw_ends_step EvExit); [done| |exists [], (set_stopped s (stopped s) true); done]. unfold RawWebsocket.io_step. by rewrite Ex, Hs.
Qed.

Lemma ends_timer s : closeTimer s <> Off -> ends s.
Proof.
  intros Ht. destruct (stopped s) eqn:Es; [by apply ends_stopped|]. destruct (exited s) eqn:Ex; [by exists [], s|].
  assert (Hexp : forall s0, closeTimer s0 = Expired -> exited s0 = false -> stopped s0 = false -> ends s0).
  { clear. intros s0 E Ex Es. eapply (raw_ends_step EvCloseTimer); [done|unfold RawWebsocket.io_step; by rewrite Ex, Es, E|by apply ends_stopped]. }
  destruct (closeTimer s) eqn:E; [done| |by apply Hexp].
  eapply (raw_ends_step EvCloseTimerExpires); [done|unfold RawWebsocket.io_step; by rewrite Ex, E|by apply Hexp].
Qed.

Lemma ends_posted ts s : posted s = ts -> PostClose ∈ ts -> open s = false -> ends s.
Proof.
  revert s. induction ts as [|t ts IH]; intros s Hp Hin Ho; [by apply elem_of_nil in Hin|].
  destruct (stopped s) eqn:Es; [by apply ends_stopped|]. destruct (exited s) eqn:Ex; [by exists [], s|].
  destruct t as [m|].
  - apply elem_of_cons in Hin as [[=]|Hin].
    eapply (raw_ends_step EvPosted); [done|unfold RawWebsocket.io_step; by rewrite Ex, Es, Hp; cbn; rewrite Ho|]. by apply IH.
  - eapply (raw_ends_step EvPosted); [done|unfold RawWebsocket.io_step; by rewrite Ex, Es, Hp|].
    unfold beginClose. cbn. destruct (socket s); cbn; [by apply ends_timer|by apply ends_stopped].
Qed.

(** Once [close] was called no handler reports a close; once the thread has returned
    nothing calls back. *)
Lemma called_reported s s' : step s s' -> closeCalled s = true -> closeReported s' = closeReported s.
Proof.
  intros H Hc. assert (Hio : forall s0 ec what, closeCalled s0 = true -> closeReported (onIoError hasClose s0 ec what) = closeReported s0).
  { intros s0 ec what E. unfold onIoError. cbn. by rewrite E. }
  destruct H as [e s s' E|s m|s Hn|s Hn].
  - unfold io_step in E. destruct (exited s); [done|].
    destruct e as [ec sni| | |r|ec| | | | |]; cbn -[setup_completed read_completed write_completed run_posted has_work] in E;
      repeat (case_match; try done); try (injection E as <-; done).
    + destruct s0, ec, sni; cbn in E; unfold startRead in E; cbn in E; try (destruct (reading s)); try done; by injection E as <-.
    + unfold read_completed in E. destruct r as [e|m h|].
      * injection E as <-. by rewrite Hio.
      * destruct hasMessage; [destruct h|]; cbn -[onIoError] in E; rewrite ?Hc in E; injection E as <-; try done; by rewrite Hio.
      * cbn in E. rewrite Hc in E. by injection E as <-.
    + unfold write_completed in E. destruct ec; [injection E as <-; by rewrite Hio|].
      cbn in E. destruct (writeQueue s) as [|m [|m' q]]; [done| |]; by injection E as <-.
    + destruct t; cbn in E; [|unfold beginClose in E; cbn in E; destruct (socket s); by injection E as <-].
      unfold doWrite in E. cbn in E.
      destruct (open s); [|by injection E as <-].
      destruct (_ =? 1)%nat; [destruct (writing s)|]; try done; by injection E as <-.
  - unfold sendText. by destruct (_ || _).
  - unfold close. by rewrite Hc.
  - unfold connect_result. by destruct (negb _).
Qed.

Lemma exited_callbacks s s' : step s s' -> exited s = true -> callbacks s' = callbacks s.
Proof.
  intros [e s0 s1 E|s0 m|s0 Hn|s0 Hn] Hx; [unfold io_step in E; by rewrite Hx in E|..].
  - unfold sendText. by destruct (_ || _).
  - unfold close. by destruct (closeCalled s0).
  - unfold connect_result. by destruct (negb _).
Qed.

Lemma reachable_runs es s s' : reachable s -> runs es s = Some s' -> reachable s'.
Proof.
  revert s. induction es as [|e es IH]; intros s Hs E; [by injection E as <-|].
  unfold RawWebsocket.runs in E. cbn in E. destruct (io_step e s) as [| |s1] eqn:E1.
  1-2: exfalso; clear -E; induction es as [|e' es IH]; [done|by apply IH].
  apply (IH s1); [|exact E]. eapply rtc_r; [exact Hs|by eapply step_io].
Qed.
End Inv.

(** ** Theorems *)

(** C25 Writes. What the thread has put on the wire is a prefix of what it queued, in
    queue order; while the connection has not been dropped the queue is exactly the rest
    and a write is under way whenever it holds something. No handler starts a
    second read or write, and the one handler that can pop an empty queue is a write
    that completed before an error was reported but whose handler runs after it. *)
Theorem raw_writes hasMessage hasClose http s (H : reachable hasMessage hasClose http s) :
  written s `prefix_of` accepted s /\
  (closeReported s = false -> accepted s = written s ++ writeQueue s /\
    (writing s = true -> writeQueue s <> []) /\ (closeCalled s = false -> writeQueue s <> [] -> writing s = true)) /\
  (forall e, io_step hasMessage hasClose e s = Undefined -> e = EvWrite None /\ closeReported s = true).
Proof.
  apply reachable_inv in H. split_and!; [apply H| |intros e; by apply (io_undefined _ _)].
  destruct H as ([] & _ & _). auto.
Qed.


(** ** A connection *)

Section Demo.

Definition demo_setup : list io_event :=
  [EvSetup None None; EvSetup None None; EvSetup None None; EvSetup None None].
Definition open_raw : Raw := default (new_raw 101) (runs true true demo_setup (startSetup (new_raw 101))).
Definition sent_raw : Raw := default open_raw (runs true true [EvPosted; EvPosted] (sendText (sendText open_raw "a").1 "b").1).
Definition closed_raw : Raw := close sent_raw.

Lemma demo_open : reachable true true 101 open_raw.
Proof. eapply (reachable_runs true true 101 demo_setup); [apply rtc_refl|vm_compute; reflexivity]. Defined.

Lemma demo_sent : reachable true true 101 sent_raw.
Proof.
  apply (reachable_runs true true 101 [EvPosted; EvPosted] (sendText (sendText open_raw "a").1 "b").1); [|vm_compute; reflexivity].
  eapply rtc_r; [|apply step_send]. eapply rtc_r; [|apply step_send]. exact demo_open.
Defined.

Lemma demo_closed : reachable true true 101 closed_raw.
Proof. eapply rtc_r; [exact demo_sent|]. apply step_close. vm_compute. reflexivity. Defined.

(** Two texts are sent and answered; then the server closes. *)
Example demo_traffic :
  (s ← runs true true [EvWrite None; EvRead (ReadText "r" Returned); EvWrite None; EvRead (ReadError (EcClosed 1000 "bye"));
                       EvExit] sent_raw;
   Some (written s, callbacks s, exited s))
  = Some (["a"; "b"]%string, [CbMessage "r"; CbClose "server close: code 1000 reason bye"], true).
Proof. vm_compute. reflexivity. Qed.

(** A read error handled between the completion of a write and its handler: the handler
    pops the queue [onIoError] cleared. *)
Example write_after_drop :
  (s ← runs true true [EvRead (ReadError (EcOther "reset"))] sent_raw; Some (io_step true true (EvWrite None) s)) = Some Undefined.
Proof. vm_compute. reflexivity. Qed.

Lemma raw_writes_witness : written sent_raw `prefix_of` accepted sent_raw /\ accepted sent_raw = ["a"; "b"]%string.
Proof. split; [apply (raw_writes true true 101 sent_raw demo_sent)|vm_compute; reflexivity]. Defined.

End Demo.
